(* ===== verification/_CoqProject ===== *)
-Q . S2P
Prelude.v
Extern.v
Reference.v
Digest.v
Ledger.v
Header.v
HeaderCodec.v
Block.v
Error.v
Validators.v
Config.v
Metrics.v
Executor.v
ReferenceBuilder.v
Application.v
Mailbox.v
Engine.v
Loopback.v
Reth.v
Builder.v
Finalizer.v
Turns.v
Genesis.v
RethConsensus.v
Chainspec.v
Launch.v
Xtask.v
Main.v
Node.v
Typing.v
Interleaving.v
Network.v
Concurrent.v
Linearize.v
Progress.v
Pipeline.v
Boot.v
Tests.v
