(* ===== verification/Prelude.v ===== *)
(** * Allegro: a verification development of the consensus layer and its node

    Allegro runs an Ethereum execution client (reth) under commonware's simplex
    consensus.  This library translates the repository's own Rust code into
    executable definitions and proves what makes it correct.  Paths below are
    relative to src/.

    ** The program, and how its parts interact

    The simplex engine (a library) asks the _application actor_ for a payload
    when its node leads a view, and to verify the payload of another leader.
    The actor computes a stamp and a request from the parent's recorded
    metadata, has the _payload builder_ build or validate a block through
    reth's engine API, and records bytes and metadata under the block's digest.
    The _block relay_ sends the bytes of a proposed block to the peers on a
    channel of their own; the _block receiver_ stores what peers send, and the
    actor looks there (after its own blocks) for the bytes of the digest it
    verifies.  Finalizations reach the _reporter_, which counts them and
    forwards the digest through a bounded queue to the _finalizer_; the
    finalizer sends reth a forkchoice update and, once it is accepted, moves
    the _forkchoice tracker_ that the next build declares as safe and
    finalized.  The binary parses the command line and the genesis file,
    derives or loads the validator set, and wires a node; the xtask generates
    a devnet's genesis file and accounts.

    ** Files

    Foundations:
    - [Prelude.v]: results, panics, locks, words, bytes, 32-byte hashes, the
      hint database [allegro] and the case-analysis tactics;
    - [Extern.v]: the interfaces of third-party crates (an operational class
      each) and the documented laws the theorems use (a class each);
      [Reference.v]: executable instances with their laws proved, at which the
      witnesses evaluate;
    - [Reth.v], [Genesis.v], [ReferenceBuilder.v]: the same for reth's engine,
      for genesis files, the JSON/hex/socket text they are written in and the
      file system that holds them, and a small payload builder.

    crates/primitives:
    - [Digest.v] (digest.rs): the digest and its fixed-size codec;
    - [Header.v] (header.rs): the proposer key, the consensus context with its
      hand-written RLP codec, the header's accessors and delegations;
    - [HeaderCodec.v] (header.rs): the RLP form of a whole header.

    crates/consensus:
    - [Block.v] (block.rs): the wire block and its codec;
    - [Error.v] (error.rs), [Config.v] (config.rs: parameters, [default],
      [validate]), [Metrics.v] (metrics.rs: fourteen wrapping counters);
    - [Validators.v] (validators.rs): the validator set;
    - [Executor.v] (executor.rs): the trait [PayloadBuilder] as a class, its
      laws [BuilderLaws], the closure-backed builder, the engine-API helpers;
    - [Application.v] (application.rs): the record [Actor], [handle_propose],
      [handle_verify], [handle_broadcast], [handle_message], [run], the
      mailbox's messages, and the invariant [actor_inv]; [Mailbox.v]: the
      bounded queue between the engine's calls and the actor, and the
      receivers their answers come through;
    - [Engine.v] (engine.rs): [broadcast], [receive_block], [receiver_loop],
      [report], [start_simplex_engine];
    - [Loopback.v] (loopback.rs): the in-process transport, an instance of the
      interface [P2pSender] the relay is written against.

    crates/node:
    - [Builder.v] (builder.rs): the tracker and the two closures of the
      production builder, with their forkchoice retry loop;
    - [Finalizer.v] (finalizer.rs): [finalize] and its loop; [Turns.v]: the
      build and the finalizer one engine call at a time, in any order;
    - [RethConsensus.v] (allegro_consensus.rs): the relaxed timestamp checks;
    - [Chainspec.v] (chainspec.rs): the genesis loader;
    - [Launch.v] (launch.rs): the node configuration, [launch],
      [launch_with_builder] and the handle they return.

    Binaries and the system:
    - [Main.v] (bin/allegro/src/main.rs), [Xtask.v] (xtask/src/main.rs);
    - [Node.v]: the components over their shared state, one step per event,
      with [reachable] and the system invariant [node_ok]; [Typing.v]: its
      integers stay in the range of their Rust types;
    - [Interleaving.v]: the handlers that wait for the payload builder, split
      where the waiting starts, and reorderings of events;
    - [Ledger.v]: the abstract specification of what nodes record, and
      [Network.v]: nodes with messages in flight, which refine it;
      [Concurrent.v]: the same for nodes and networks that run await by await;
      [Linearize.v]: for which tasks a handler of such a node is atomic;
      [Progress.v]: that these are never stuck; [Pipeline.v]: finalizations
      from the reporter through the channel to the tracker;
    - [Boot.v]: what [main] starts is a fresh [Node];
    - [Tests.v]: the repository's own unit tests, evaluated on the model.

    Clients are proved against interfaces, implementations discharge them: the
    actor knows [PayloadBuilder] and [BuilderLaws], of which the production
    builder is an instance over any [RethEngineLaws]; the relay knows
    [P2pSender], of which the loopback is an instance, and the network needs
    [P2pWire], the messages a transport has sent.  reth's node builder is the
    interface [RethLauncher], its payload jobs [RethJobs], the code of the
    header's derive macro [DerivedHeaderRlp], the disk [FileSystem].

    ** What the theorems show

    - The network: whatever the interleaving of the awaits of its nodes, and
      the loss and repetition of messages, what nodes record is a run of the
      ledger, so two nodes that recorded a digest recorded the same hash,
      number and stamps, short of a hash collision, and two nodes that
      finalized it finalized the same block, which each had recorded before;
      this as long as no message that carries a block under another digest is
      injected; a proposal that is delivered and verified is recorded by
      both; one mislabelled message is enough to break this.
    - Agreement: a proposer and a verifier of the relayed block record the same
      metadata; [handle_verify] answers true exactly under its acceptance
      condition; the relayed message makes the peer validate the same bytes;
      what an honest node relays binds its digest.
    - Safety of a running node: under every order of events no handler panics,
      the actor's invariant holds, every pending block was built by the node's
      engine, every integer stays in its type; calls through the mailbox are handled in order, and
      each has its own answer, once, and dropping the mailbox ends the actor
      when it has answered what is queued; handlers are atomic for
      the relay, the receiver and the reporter (not for the finalizer, which a
      build can overlap with an effect), and end within fifteen turns of their
      own; from every
      reachable state of the network they can all be brought to their end, and
      every run of whole handlers goes on from there.
    - Stamps: proposals are strictly monotone in milliseconds (up to 2^64 - 1),
      may share their parent's second, and pass the relaxed attribute check; what reth mode rounds away.
    - Forkchoice: a build yields one imported block; at most five attempts;
      finalizations are asked for in the order of the reports, the tracker is
      the last accepted one, and reaches the builder; a build interleaved with
      finalizations ends, and what it may then declare.
    - Start-up: every way [start_simplex_engine] and
      the launch of reth end, the thread boundary of the binary, validator sets
      and their limits, and that what is started is the node the other
      theorems are about.
    - Codecs and files: digest, wire block, consensus context, header,
      the files of a generated devnet, which the node loads back.
    - Defects: the theorems whose comments say that something is off by one,
      ignored or truncated state the code as it is.

    ** Modelling choices

    - A fallible function returns [Result]; a handler that can panic returns
      [Exec], with the state it leaves in both cases.  [Lock] is a standard
      library lock with its poisoned flag; a parking_lot lock does not poison
      and is its content.
    - Integers are [Z] with the width's wrap-around or saturation written out.
      [proposal_count] and the counters wrap (a release build; in a debug build
      the former would panic after 2^64 proposals); where overflow checks
      matter at reachable values they are a parameter ([Main.v]).
    - Asynchronous code is modelled three times, each finer than the last.  In
      [Application.v], [Builder.v], [Finalizer.v] and [Node.v] a handler runs to
      completion.  [Interleaving.v] splits it where it starts to wait for the
      builder, and [Turns.v] the build at each engine call.  In [Concurrent.v] a step is what
      the source does between two waits or under one lock; the refinement of
      the ledger and finality are proved of that.
    - The state of the execution layer is threaded through every builder call;
      a file that is only read is looked up in a function from paths; the clock
      is an argument of the handler that reads it.
    - The iteration order of a hash map is unspecified in Rust; the model fixes
      one, and no theorem depends on which.
    - The forkchoice loop has the five attempts of the source as its fuel: it
      is the source's own bound, so no run is cut short, and [Turns.v] proves
      eleven turns of a build enough, [Concurrent.v] fifteen of a message.  All other recursion is structural, over the messages
      or events handled.
    - Debug formatting quotes strings and copies them ([quoted]); the xtask's
      strings are ASCII.

    ** Not modelled

    The lib.rs files (module declarations); the code that derive macros write,
    which is not in the repository; spawning, signals and the runtime; logging;
    what the network does with the channels registered and the runtime with
    its configuration (the values given are modelled); what commonware's
    [Engine::new] asserts of the configuration it is given; the unit tests whose
    assertions are facts of reth's DEV genesis or of the mnemonic's keys.
    Simplex itself, reth, alloy, clap and the cryptography are interfaces:
    nothing is proved of them.

    ** What the progress theorems do not say

    No scheduler is assumed fair and no consensus engine honest: progress is
    stated as bounds in a task's own turns, and as what stays possible from
    every reachable state.  When, and whether, messages arrive is the
    network's. *)

From Stdlib Require Export ZArith Lia.
From stdpp Require Export base decidable countable numbers list gmap strings.

#[global] Set Default Goal Selector "!".

(** ** Results, panics and locks *)

(** Rust's [Result<A, E>]. *)
Inductive Result (A E : Type) : Type :=
| Ok (a : A)
| Err (e : E).
Arguments Ok {A E} a.
Arguments Err {A E} e.

Definition is_ok {A E} (r : Result A E) : bool :=
  match r with Ok _ => true | Err _ => false end.

Definition result_map {A B E} (f : A → B) (r : Result A E) : Result B E :=
  match r with Ok a => Ok (f a) | Err e => Err e end.

Definition map_err {A E F} (f : E → F) (r : Result A E) : Result A F :=
  match r with Ok a => Ok a | Err e => Err (f e) end.

Definition ok_or {A E} (o : option A) (e : E) : Result A E :=
  match o with Some a => Ok a | None => Err e end.

(** The [?] operator: leave with the error, or go on with the value. *)
Definition result_bind {A B E} (r : Result A E) (k : A → Result B E) : Result B E :=
  match r with Ok a => k a | Err e => Err e end.

(** Outcome of code that can panic: the state reached is kept in both cases,
    since what was written to a shared store before a panic stays written. *)
Inductive Exec (A S : Type) : Type :=
| Done (a : A) (s : S)
| Panicked (s : S).
Arguments Done {A S} a s.
Arguments Panicked {A S} s.

Definition exec_state {A S} (x : Exec A S) : S :=
  match x with Done _ s => s | Panicked s => s end.

Definition exec_value {A S} (x : Exec A S) : option A :=
  match x with Done a _ => Some a | Panicked _ => None end.

Lemma exec_done {A S} (x : Exec A S) a : exec_value x = Some a → x = Done a (exec_state x).
Proof. destruct x; cbn; congruence. Qed.

Declare Scope allegro_scope.
Delimit Scope allegro_scope with allegro.
Notation "'let?' x ':=' r 'in' k" := (result_bind r (λ x, k))
  (at level 10, x pattern, r at level 100, k at level 200) : allegro_scope.
Open Scope allegro_scope.

(** [std::sync::Mutex] and [std::sync::RwLock]: a value and the flag that a
    panicking holder leaves behind. Locking a poisoned lock is an [Err]. *)
Record Lock (A : Type) : Type := mk_Lock { poisoned : bool; guarded : A }.
Arguments mk_Lock {A}.
Arguments poisoned {A}.
Arguments guarded {A}.

Definition lock_new {A} (a : A) : Lock A := mk_Lock false a.

Definition lock_read {A} (l : Lock A) : Result A unit :=
  if poisoned l then Err () else Ok (guarded l).

(** [match l.write() { Ok(mut guard) => f(guard), Err(e) => log }] *)
Definition lock_update {A} (f : A → A) (l : Lock A) : Lock A :=
  if poisoned l then l else mk_Lock false (f (guarded l)).

Lemma lock_read_Ok {A} (l : Lock A) a :
  lock_read l = Ok a ↔ poisoned l = false ∧ guarded l = a.
Proof. unfold lock_read. destruct l as [[] ?]; cbn; intuition congruence. Qed.

Lemma lock_read_new {A} (a : A) : lock_read (lock_new a) = Ok a.
Proof. done. Qed.

Lemma lock_update_poisoned {A} (f : A → A) l :
  poisoned (lock_update f l) = poisoned l.
Proof. unfold lock_update. destruct (poisoned l) eqn:E; [done|done]. Qed.

Lemma lock_update_guarded {A} (f : A → A) l :
  poisoned l = false → guarded (lock_update f l) = f (guarded l).
Proof. unfold lock_update. by intros ->. Qed.

Lemma lock_update_id {A} (f : A → A) l :
  poisoned l = true → lock_update f l = l.
Proof. unfold lock_update. by intros ->. Qed.

(** What the guarded value satisfies before an update and every updated value
    satisfies, it satisfies after the update, poisoned or not. *)
Lemma lock_update_ind {A} (P : A → Prop) (f : A → A) l :
  P (guarded l) → (P (guarded l) → P (f (guarded l))) →
  P (guarded (lock_update f l)).
Proof. unfold lock_update. destruct (poisoned l); cbn; auto. Qed.

(** ** Machine integers *)

Section words.
Local Open Scope Z_scope.

Definition u8_max : Z := 2 ^ 8 - 1.
Definition u16_max : Z := 2 ^ 16 - 1.
Definition u64_max : Z := 2 ^ 64 - 1.

Definition is_u64 (z : Z) : Prop := 0 ≤ z ≤ u64_max.

#[global] Instance is_u64_dec z : Decision (is_u64 z).
Proof. unfold is_u64. apply _. Defined.

(** Wrap-around at a width ([as u64], [fetch_add], release-mode [+]). *)
Definition wrap (bits : Z) (z : Z) : Z := z mod 2 ^ bits.

Definition u64_saturating_add (a b : Z) : Z := Z.min (a + b) u64_max.
Definition u64_saturating_mul (a b : Z) : Z := Z.min (a * b) u64_max.

Lemma wrap64_bound z : is_u64 (wrap 64 z).
Proof.
  unfold is_u64, u64_max, wrap.
  pose proof (Z.mod_pos_bound z (2 ^ 64) ltac:(lia)). lia.
Qed.

Lemma wrap64_id z : is_u64 z → wrap 64 z = z.
Proof. unfold is_u64, u64_max, wrap. intros. apply Z.mod_small. lia. Qed.

Lemma wrap_add_assoc bits a b c : wrap bits (wrap bits (a + b) + c) = wrap bits (a + (b + c)).
Proof. unfold wrap. rewrite Zplus_mod_idemp_l. f_equal. lia. Qed.

Lemma sat_add_bound a b : is_u64 a → is_u64 b → is_u64 (u64_saturating_add a b).
Proof. unfold is_u64, u64_saturating_add. lia. Qed.

Lemma sat_mul_bound a b : is_u64 a → is_u64 b → is_u64 (u64_saturating_mul a b).
Proof. unfold is_u64, u64_saturating_mul. nia. Qed.

(** The derived millisecond stamp divides back to its seconds exactly when
    the multiplication did not saturate. *)
Lemma sat_mul_1000_div s :
  is_u64 s → u64_saturating_mul s 1000 / 1000 = s ↔ s ≤ u64_max / 1000.
Proof.
  unfold is_u64, u64_saturating_mul. intros Hs.
  pose proof (Z.div_mod u64_max 1000 ltac:(lia)).
  pose proof (Z.mod_pos_bound u64_max 1000 ltac:(lia)).
  destruct (Z.le_gt_cases s (u64_max / 1000)) as [Hle|Hgt].
  - rewrite Z.min_l by lia. rewrite Z.div_mul by lia. lia.
  - rewrite Z.min_r by lia. lia.
Qed.
End words.

(** ** Paths *)

Fixpoint ends_with_slash (s : string) : bool :=
  match s with
  | EmptyString => false
  | String c EmptyString => bool_decide (String c EmptyString = "/"%string)
  | String _ s => ends_with_slash s
  end.

(** [Path::join] of a relative component. *)
Definition path_join (base leaf : string) : string :=
  if decide (base = EmptyString) then leaf
  else if ends_with_slash base then base +:+ leaf else (base +:+ "/" +:+ leaf)%string.

(** ** Bytes and 32-byte words *)

From Stdlib Require Export Init.Byte.
From Stdlib Require Strings.Byte.

#[global] Instance byte_eq_dec : EqDecision byte := Byte.byte_eq_dec.

#[global] Program Instance byte_countable : Countable byte :=
  inj_countable Byte.to_N Byte.of_N _.
Next Obligation. intros b. apply Byte.of_to_N. Qed.

Definition byte_to_Z (b : byte) : Z := Z.of_N (Byte.to_N b).

(** [z as u8] *)
Definition byte_of_Z (z : Z) : byte :=
  default Byte.x00 (Byte.of_N (Z.to_N (z mod 256))).

Lemma byte_to_Z_bound b : (0 ≤ byte_to_Z b < 256)%Z.
Proof. unfold byte_to_Z. pose proof (Byte.to_N_bounded b). lia. Qed.

Lemma byte_of_to_Z b : byte_of_Z (byte_to_Z b) = b.
Proof.
  unfold byte_of_Z. rewrite Z.mod_small by apply byte_to_Z_bound.
  unfold byte_to_Z. by rewrite N2Z.id, Byte.of_to_N.
Qed.

Lemma byte_to_of_Z z : (0 ≤ z < 256)%Z → byte_to_Z (byte_of_Z z) = z.
Proof.
  intros Hz. unfold byte_of_Z, byte_to_Z. rewrite Z.mod_small by lia.
  destruct (Byte.of_N (Z.to_N z)) as [b|] eqn:E; cbn.
  - apply Byte.to_of_N in E. lia.
  - apply Byte.of_N_None_iff in E. lia.
Qed.

Abbreviation bytes := (list byte).

(** [[u8; 32]], and [alloy_primitives::B256] which wraps it. *)
Record B256 : Type := mk_B256 {
  b256_bytes : bytes;
  b256_len : bool_decide (length b256_bytes = 32);
}.

Lemma B256_eq a b : b256_bytes a = b256_bytes b → a = b.
Proof.
  destruct a as [la Ha], b as [lb Hb]; cbn; intros ->.
  f_equal. apply proof_irrel.
Qed.

Lemma B256_length a : length (b256_bytes a) = 32.
Proof. exact (bool_decide_unpack _ (b256_len a)). Qed.

(** [bytes.copy_from_slice(src)] on a 32-byte array: panics ([None]) unless
    the slice has 32 bytes. *)
Definition copy_from_slice (src : bytes) : option B256 :=
  match decide (length src = 32) with
  | left H => Some (mk_B256 src (bool_decide_pack _ H))
  | right _ => None
  end.

Lemma copy_from_slice_bytes a : copy_from_slice (b256_bytes a) = Some a.
Proof.
  unfold copy_from_slice. case_decide as H.
  - f_equal. by apply B256_eq.
  - by destruct (H (B256_length a)).
Qed.

Lemma copy_from_slice_Some src a :
  copy_from_slice src = Some a ↔ b256_bytes a = src.
Proof.
  split.
  - unfold copy_from_slice. case_decide; [|done]. by intros [= <-].
  - intros <-. apply copy_from_slice_bytes.
Qed.

Lemma copy_from_slice_None src :
  copy_from_slice src = None ↔ length src ≠ 32.
Proof. unfold copy_from_slice. by case_decide. Qed.

Lemma copy_from_slice_is_Some src :
  length src = 32 → ∃ a, copy_from_slice src = Some a ∧ b256_bytes a = src.
Proof.
  intros H. destruct (copy_from_slice src) as [a|] eqn:E.
  - exists a. by rewrite <- copy_from_slice_Some.
  - by apply copy_from_slice_None in E.
Qed.

#[global] Instance B256_eq_dec : EqDecision B256.
Proof.
  refine (λ a b, cast_if (decide (b256_bytes a = b256_bytes b))).
  - by apply B256_eq.
  - by intros ->.
Defined.

#[global] Program Instance B256_countable : Countable B256 :=
  inj_countable b256_bytes copy_from_slice _.
Next Obligation. apply copy_from_slice_bytes. Qed.

(** [B256::ZERO] and [[b; 32]] *)
Definition B256_repeat (b : byte) : B256 := mk_B256 (replicate 32 b) I.
Definition B256_ZERO : B256 := B256_repeat Byte.x00.

#[global] Instance B256_inhabited : Inhabited B256 := populate B256_ZERO.

(** ** Lists *)

Lemma take_app_exact {A} (l k : list A) n : length l = n → take n (l ++ k) = l.
Proof. intros <-. apply take_app_length. Qed.

Lemma drop_app_exact {A} (l k : list A) n : length l = n → drop n (l ++ k) = k.
Proof. intros <-. apply drop_app_length. Qed.

(** ** Automation *)

(** The rewriting base of the library: projections of locks, 32-byte words
    split off a buffer. *)
Create HintDb allegro discriminated.
#[export] Hint Resolve wrap64_bound sat_add_bound sat_mul_bound B256_length
  byte_to_Z_bound copy_from_slice_bytes : allegro.

(** Case analysis on the scrutinee of the first [match] of the goal or of a
    hypothesis, remembering the equation, then clean up. *)
Ltac case_branch :=
  match goal with
  | |- context [match ?x with _ => _ end] => destruct x eqn:?
  | H : context [match ?x with _ => _ end] |- _ => destruct x eqn:?
  end; simplify_eq/=.

(** Exhaust the branches of a handler. *)
Ltac branches := repeat (first [progress simplify_eq/= | case_branch]).
