(* ===== verification/Extern.v ===== *)
(** * Interfaces of the crates the program is built on

    Nothing in this file models code of the repository.  Each class states
    what the program uses of one third-party crate: an operational class with
    the types and functions (abstract: their code is not part of the
    repository), and a class of laws with the documented behaviour that the
    theorems rely on.  [Reference.v] has an executable instance of each, with
    its laws proved, at which the witnesses are evaluated. *)

From S2P Require Import Prelude.

(** ** commonware_cryptography::ed25519 *)

Class Ed25519 : Type := {
  PublicKey : Type;
  #[global] PublicKey_eq_dec :: EqDecision PublicKey;
  #[global] PublicKey_countable :: Countable PublicKey;
  PrivateKey : Type;
  (** [PublicKey: AsRef<[u8]>] *)
  pk_as_ref : PublicKey → bytes;
  (** [PublicKey::decode] (commonware's [DecodeExt]) *)
  pk_decode : bytes → Result PublicKey string;
  (** [Signer::public_key] *)
  public_key : PrivateKey → PublicKey;
  (** [PrivateKey::from_seed] *)
  from_seed : Z → PrivateKey;
}.

(** A public key is a 32-byte string that decodes back to itself. *)
Class Ed25519Laws `{!Ed25519} : Prop := {
  pk_as_ref_length k : length (pk_as_ref k) = 32;
  pk_decode_as_ref k : pk_decode (pk_as_ref k) = Ok k;
}.

(** Different seeds give different keys (the seeds are validator indices, and
    the key derivation is collision-free on them). *)
Class SeedsDistinct `{!Ed25519} : Prop :=
  from_seed_inj i j :
    is_u64 i → is_u64 j →
    public_key (from_seed i) = public_key (from_seed j) → i = j.

(** ** alloy_primitives::keccak256 *)

Class Keccak : Type := keccak256 : bytes → B256.

(** ** bytes::{Buf, BufMut} *)

(** A read buffer; [buf_view] is the bytes not yet consumed, and
    [copy_to_slice] panics ([None]) when it asks for more than that. *)
Class Buf (B : Type) : Type := {
  buf_view : B → bytes;
  remaining : B → nat;
  copy_to_slice : nat → B → option (bytes * B);
}.

Class BufLaws (B : Type) `{!Buf B} : Prop := {
  remaining_view b : remaining b = length (buf_view b);
  copy_to_slice_ok n b :
    n ≤ remaining b →
    ∃ b', copy_to_slice n b = Some (take n (buf_view b), b') ∧
          buf_view b' = drop n (buf_view b);
}.

(** A write buffer; [written] is what was put so far. *)
Class BufMut (B : Type) : Type := {
  written : B → bytes;
  put_slice : bytes → B → B;
}.

Class BufMutLaws (B : Type) `{!BufMut B} : Prop :=
  put_slice_written s b : written (put_slice s b) = written b ++ s.

(** ** commonware_codec: the codec of [[u8; 32]] *)

Class ArrayCodec (B : Type) : Type := {
  CodecError : Type;
  (** [<[u8; 32]>::read] *)
  read_array32 : B → Result (B256 * B) CodecError;
  (** [Write for B256] ([[u8; 32]]) *)
  write_array32 : B256 → B → B;
}.

Class ArrayCodecLaws (B : Type) `{!Buf B, !BufMut B, !ArrayCodec B} : Prop := {
  write_array32_written a b :
    written (write_array32 a b) = written b ++ b256_bytes a;
  read_array32_ok a rest b :
    buf_view b = b256_bytes a ++ rest →
    ∃ b', read_array32 b = Ok (a, b') ∧ buf_view b' = rest;
  read_array32_short b :
    length (buf_view b) < 32 → is_ok (read_array32 b) = false;
}.

(** The variant of [commonware_codec::Error] the program constructs. *)
Inductive CodecInvalid : Type := Invalid (ty msg : string).

(** ** alloy_rlp

    Encoders append to the output; a decoder returns what is left of the
    input. *)
Class AlloyRlp : Type := {
  RlpError : Type;
  (** [alloy_rlp::Error::UnexpectedString] *)
  UnexpectedString : RlpError;
  (** [u64::encode], [u64::decode] *)
  rlp_u64 : Z → bytes;
  rlp_u64_decode : bytes → Result (Z * bytes) RlpError;
  (** [<[u8]>::encode] (and [alloy_rlp::encode] of a slice or array) *)
  rlp_slice : bytes → bytes;
  (** [<[u8; 32]>::decode] *)
  rlp_array32_decode : bytes → Result (B256 * bytes) RlpError;
  (** [alloy_rlp::Header { list, payload_length }] *)
  rlp_header : bool → nat → bytes;
  rlp_header_decode : bytes → Result (bool * nat * bytes) RlpError;
}.

(** Number of bytes of the minimal big-endian form of [z > 0]. *)
Definition be_width (z : Z) : nat := Z.to_nat (Z.log2 z / 8 + 1).

Class AlloyRlpLaws `{!AlloyRlp} : Prop := {
  rlp_u64_roundtrip n rest :
    is_u64 n → rlp_u64_decode (rlp_u64 n ++ rest) = Ok (n, rest);
  rlp_u64_length n : is_u64 n → length (rlp_u64 n) ≤ 9;
  rlp_array32_roundtrip a rest :
    rlp_array32_decode (rlp_slice (b256_bytes a) ++ rest) = Ok (a, rest);
  (** a string of 2 to 55 bytes has a one-byte header *)
  rlp_slice_short l : 2 ≤ length l ≤ 55 → length (rlp_slice l) = S (length l);
  (** of a list: the header of a one-byte string before a byte below 0x80 is
      refused as not canonical *)
  rlp_header_roundtrip n rest :
    n ≤ length rest → (Z.of_nat n ≤ u64_max)%Z →
    rlp_header_decode (rlp_header true n ++ rest) = Ok (true, n, rest);
  (** one byte up to 55, then one byte and the length in big-endian *)
  rlp_header_length n :
    (Z.of_nat n ≤ u64_max)%Z →
    length (rlp_header true n) = if decide (n ≤ 55) then 1 else S (be_width (Z.of_nat n));
  (** neither the empty string nor the empty list *)
  rlp_header_head n :
    0 < n → (Z.of_nat n ≤ u64_max)%Z →
    ∃ c l, rlp_header true n = c :: l ∧ c ≠ Byte.x80 ∧ c ≠ Byte.xc0;
}.

(** ** commonware_actor: feedback of a non-blocking submission *)

Class ActorFeedback : Type := {
  Feedback : Type;
  Feedback_Ok : Feedback;
  Feedback_Closed : Feedback;
  Unreliable : Type;
  unreliable_new : Feedback → Unreliable;
  unreliable_rejected : Unreliable;
  (** [Unreliable::accepted] *)
  accepted : Unreliable → bool;
}.

Class ActorFeedbackLaws `{!ActorFeedback} : Prop := {
  accepted_ok : accepted (unreliable_new Feedback_Ok) = true;
  accepted_rejected : accepted unreliable_rejected = false;
}.

(** ** Bounded channels (futures::channel::mpsc, tokio::sync::mpsc) *)

Inductive TrySendError : Type := Full | Closed.

#[global] Instance TrySendError_eq_dec : EqDecision TrySendError.
Proof. solve_decision. Defined.

(** [chan_queue] is what was sent and not yet received, oldest first. *)
Class Channel (C A : Type) : Type := {
  chan_queue : C → list A;
  try_send : A → C → Result unit TrySendError * C;
}.

Class ChannelLaws (C A : Type) `{!Channel C A} : Prop := {
  try_send_ok a c c' :
    try_send a c = (Ok (), c') → chan_queue c' = chan_queue c ++ [a];
  try_send_err a c e c' :
    try_send a c = (Err e, c') → chan_queue c' = chan_queue c;
}.

(** The receiving half: what [recv] finds.  On an empty channel it waits
    ([Recv_Pending]) until something is sent, or reports that every sender is
    gone ([Recv_Closed]). *)
Inductive Recv (A C : Type) : Type :=
| Recv_Item (a : A) (c : C)
| Recv_Pending
| Recv_Closed.
Arguments Recv_Item {A C}.
Arguments Recv_Pending {A C}.
Arguments Recv_Closed {A C}.

Class ChannelRx (C A : Type) : Type := chan_recv : C → Recv A C.

Class ChannelRxLaws (C A : Type) `{!Channel C A, !ChannelRx C A} : Prop := {
  chan_recv_head a l c :
    chan_queue c = a :: l → ∃ c', chan_recv c = Recv_Item a c' ∧ chan_queue c' = l;
  chan_recv_empty c :
    chan_queue c = [] → chan_recv c = Recv_Pending ∨ chan_recv c = Recv_Closed;
}.

(** The end of a channel: its last sender is dropped.  What was sent is still
    received, then the channel is reported closed. *)
Class ChannelClose (C A : Type) : Type := {
  chan_close : C → C;
  (** whether a sender is left *)
  chan_open : C → bool;
}.

Class ChannelCloseLaws (C A : Type)
    `{!Channel C A, !ChannelRx C A, !ChannelClose C A} : Prop := {
  chan_close_queue c : chan_queue (chan_close c) = chan_queue c;
  chan_close_open c : chan_open (chan_close c) = false;
  chan_recv_open a c c' : chan_recv c = Recv_Item a c' → chan_open c' = chan_open c;
  chan_recv_closed c : chan_queue c = [] → chan_open c = false → chan_recv c = Recv_Closed;
}.

(** ** commonware_p2p: [LimitedSender], [CheckedSender], [Recipients] *)

(** [check] asks which recipients are not rate-limited, [Err] when all are;
    the checked sender holds a handle of the same transport [S], through which
    [send] submits without blocking. *)
Class P2pSender `{!Ed25519, !ActorFeedback} (S : Type) : Type := {
  Recipients : Type;
  Recipients_All : Recipients;
  Checked : Type;
  check : Recipients → S → Result Checked Z * S;
  checked_recipients : Checked → list PublicKey;
  checked_send : Checked → bytes → bool → S → Unreliable * S;
}.

(** What a sender has put on the network so far.  A checked send either puts
    its message there (always, when it is accepted) or nothing. *)
Class P2pWire `{!Ed25519, !ActorFeedback} (S : Type) `{!P2pSender S} : Type :=
  sent : S → list bytes.

Class P2pWireLaws `{!Ed25519, !ActorFeedback} (S : Type) `{!P2pSender S, !P2pWire S} : Prop := {
  sent_check r s : sent (check r s).2 = sent s;
  sent_checked_send chk m priority s :
    sent (checked_send chk m priority s).2 = sent s ++ [m] ∨
    accepted (checked_send chk m priority s).1 = false ∧
    sent (checked_send chk m priority s).2 = sent s;
}.

(** [commonware_consensus::simplex::Plan], with the field the program reads. *)
Inductive Plan (R : Type) : Type :=
| Plan_Propose
| Plan_Forward (recipients : R).
Arguments Plan_Propose {R}.
Arguments Plan_Forward {R}.

(** [commonware_consensus::simplex::types::Activity], with the fields the
    program reads ([Notarize] and the like carry a view, certificates also the
    proposal's payload). *)
Inductive Activity (D : Type) : Type :=
| Activity_Notarize (view : Z)
| Activity_Notarization (view : Z) (payload : D)
| Activity_Certification (view : Z) (payload : D)
| Activity_Nullify (view : Z)
| Activity_Nullification (view : Z)
| Activity_Finalize (view : Z)
| Activity_Finalization (view : Z) (payload : D)
| Activity_ConflictingNotarize
| Activity_ConflictingFinalize
| Activity_NullifyFinalize.
Arguments Activity_Notarize {D}.
Arguments Activity_Notarization {D}.
Arguments Activity_Certification {D}.
Arguments Activity_Nullify {D}.
Arguments Activity_Nullification {D}.
Arguments Activity_Finalize {D}.
Arguments Activity_Finalization {D}.
Arguments Activity_ConflictingNotarize {D}.
Arguments Activity_ConflictingFinalize {D}.
Arguments Activity_NullifyFinalize {D}.

(** ** What [start_simplex_engine] uses of commonware, and the bound of futures

    [mpsc_max_buffer] is the buffer that [futures::channel::mpsc::channel]
    asserts its argument to be below, whatever it is.  [set_try_from] is [ordered::Set::try_from], which refuses duplicates with
    an error that displays as [string]; [nz] is the [NZU16!]/[NZUsize!]
    macros, which panic ([None]) on zero. *)
Class MpscChannel : Type := { mpsc_max_buffer : Z }.

Class CommonwareEngine `{!Ed25519} : Type := {
  engine_mpsc :: MpscChannel;
  Participants : Type;
  set_try_from : list PublicKey → Result Participants string;
  Scheme : Type;
  scheme_signer : string → Participants → PrivateKey → option Scheme;
  scheme_verifier : string → Participants → Scheme;
  nz : Z → option Z;
}.

Class CommonwareEngineLaws `{!Ed25519, !CommonwareEngine} : Prop := {
  set_try_from_ok l : is_ok (set_try_from l) = true ↔ NoDup l;
  nz_zero z : nz z = if decide (z = 0%Z) then None else Some z;
}.
