(* ===== verification/Reference.v ===== *)
(** * Reference instances of the interfaces of [Extern.v]

    Executable instances with their laws, at which the witnesses of the
    development evaluate: byte lists as buffers, Ethereum's RLP, a bounded
    FIFO queue, and keys and hashes that are injective paddings (they stand
    for no cryptography, only for the interface). *)

From S2P Require Import Prelude Extern.
Local Open Scope Z_scope.

(** ** Big-endian integers *)

Fixpoint be_encode (w : nat) (z : Z) : bytes :=
  match w with
  | O => []
  | S w => be_encode w (z / 256) ++ [byte_of_Z z]
  end.

Definition be_decode (l : bytes) : Z :=
  foldl (λ acc b, acc * 256 + byte_to_Z b) 0 l.

Lemma be_encode_length w z : length (be_encode w z) = w.
Proof. revert z. induction w; intros; cbn; rewrite ?length_app, ?IHw; cbn; lia. Qed.

Lemma byte_of_Z_mod z : byte_to_Z (byte_of_Z z) = z mod 256.
Proof.
  rewrite <- (byte_to_of_Z (z mod 256)) by (apply Z.mod_pos_bound; lia).
  unfold byte_of_Z. by rewrite Z.mod_mod.
Qed.

Lemma be_decode_encode w z : 0 ≤ z < 256 ^ Z.of_nat w → be_decode (be_encode w z) = z.
Proof.
  unfold be_decode. revert z. induction w as [|w IH]; intros z Hz.
  - cbn in *. lia.
  - cbn. rewrite foldl_app. cbn. rewrite IH.
    + rewrite byte_of_Z_mod. pose proof (Z.div_mod z 256). lia.
    + rewrite Nat2Z.inj_succ, Z.pow_succ_r in Hz by lia.
      split; [apply Z.div_pos; lia | apply Z.div_lt_upper_bound; lia].
Qed.

Lemma be_width_bound z : 0 < z → z < 256 ^ Z.of_nat (be_width z).
Proof.
  intros Hz. unfold be_width.
  pose proof (Z.log2_nonneg z). pose proof (Z.log2_spec z Hz).
  pose proof (Z.div_mod (Z.log2 z) 8 ltac:(lia)).
  pose proof (Z.mod_pos_bound (Z.log2 z) 8 ltac:(lia)).
  rewrite Z2Nat.id by lia. change 256 with (2 ^ 8). rewrite <- Z.pow_mul_r by lia.
  eapply Z.lt_le_trans; [apply H0|]. apply Z.pow_le_mono_r; lia.
Qed.

Lemma be_width_u64 z : 0 < z → is_u64 z → (1 ≤ be_width z ≤ 8)%nat.
Proof.
  unfold is_u64, u64_max, be_width. intros Hz Hu.
  pose proof (Z.log2_nonneg z).
  assert (Z.log2 z < 64) by (apply (Z.log2_lt_pow2 z 64); lia).
  pose proof (Z.div_mod (Z.log2 z) 8 ltac:(lia)).
  pose proof (Z.mod_pos_bound (Z.log2 z) 8 ltac:(lia)). lia.
Qed.

(** ** Keys and hashes *)

Definition key_of (z : Z) : B256 :=
  default B256_ZERO (copy_from_slice (be_encode 32 z)).

#[export] Instance ref_ed25519 : Ed25519 := {|
  PublicKey := B256;
  PrivateKey := Z;
  pk_as_ref := b256_bytes;
  pk_decode l := ok_or (copy_from_slice l) "invalid length"%string;
  public_key := key_of;
  from_seed z := z;
|}.

#[export] Instance ref_ed25519_laws : Ed25519Laws.
Proof.
  split; intros k; cbn; [apply B256_length|]. by rewrite copy_from_slice_bytes.
Qed.

Lemma key_of_bytes z : b256_bytes (key_of z) = be_encode 32 z.
Proof.
  unfold key_of. destruct (copy_from_slice_is_Some (be_encode 32 z)) as (a & -> & H).
  - apply be_encode_length.
  - done.
Qed.

#[export] Instance ref_seeds_distinct : SeedsDistinct.
Proof.
  intros i j Hi Hj Heq. cbn in Heq.
  apply (f_equal (λ k, be_decode (b256_bytes k))) in Heq.
  unfold is_u64, u64_max in *.
  rewrite !key_of_bytes, !be_decode_encode in Heq by (cbn; lia). done.
Qed.

#[export] Instance ref_keccak : Keccak :=
  λ l, default B256_ZERO (copy_from_slice (take 32 (l ++ replicate 32 Byte.x00))).

(** ** Buffers *)

#[export] Instance ref_buf : Buf bytes := {|
  buf_view b := b;
  remaining := length;
  copy_to_slice n b := if decide (n ≤ length b)%nat then Some (take n b, drop n b) else None;
|}.

#[export] Instance ref_buf_laws : BufLaws bytes.
Proof.
  split; [done|]. intros n b Hn. exists (drop n b). cbn in *.
  rewrite decide_True by done. done.
Qed.

#[export] Instance ref_buf_mut : BufMut bytes := {|
  written b := b;
  put_slice s b := b ++ s;
|}.

#[export] Instance ref_buf_mut_laws : BufMutLaws bytes.
Proof. done. Qed.

#[export] Instance ref_array_codec : ArrayCodec bytes := {|
  CodecError := string;
  read_array32 b :=
    match copy_from_slice (take 32 b) with
    | Some a => Ok (a, drop 32 b)
    | None => Err "unexpected end of buffer"%string
    end;
  write_array32 a b := b ++ b256_bytes a;
|}.

#[export] Instance ref_array_codec_laws : ArrayCodecLaws bytes.
Proof.
  split; [done| |].
  - intros a rest b Hb. cbn in Hb. subst b. exists rest. cbn -[take drop].
    rewrite take_app_exact, drop_app_exact by apply B256_length.
    by rewrite copy_from_slice_bytes.
  - intros b Hb. cbn -[take drop] in *.
    destruct (copy_from_slice (take 32 b)) as [a|] eqn:E; [|done].
    apply copy_from_slice_Some in E. apply (f_equal length) in E.
    rewrite B256_length, length_take in E. lia.
Qed.

(** ** Ethereum's RLP *)

Definition ref_rlp_base (is_list : bool) : Z := if is_list then 192 else 128.

Definition ref_rlp_header (is_list : bool) (n : nat) : bytes :=
  if decide (n ≤ 55)%nat then [byte_of_Z (ref_rlp_base is_list + Z.of_nat n)]
  else let w := be_width (Z.of_nat n) in
       byte_of_Z (ref_rlp_base is_list + (55 + Z.of_nat w)) :: be_encode w (Z.of_nat n).

(** List or string, and the offset of a first byte from its base. *)
Definition ref_rlp_code (b : Z) : bool * Z :=
  if 192 <=? b then (true, b - 192) else (false, b - 128).

Definition ref_rlp_header_decode (buf : bytes) : Result (bool * nat * bytes) string :=
  match buf with
  | [] => Err "input too short"%string
  | b0 :: rest =>
    if byte_to_Z b0 <? 128 then Ok (false, 1%nat, buf)
    else
      let '(is_list, code) := ref_rlp_code (byte_to_Z b0) in
      let w := Z.to_nat (code - 55) in
      let n := if code <=? 55 then code else be_decode (take w rest) in
      let rest := drop w rest in
      if Z.of_nat (length rest) <? n then Err "input too short"%string
      else Ok (is_list, Z.to_nat n, rest)
  end.

Definition ref_rlp_slice (l : bytes) : bytes :=
  match l with
  | [b] => if byte_to_Z b <? 128 then [b] else ref_rlp_header false 1 ++ l
  | _ => ref_rlp_header false (length l) ++ l
  end.

Definition ref_rlp_string_decode (buf : bytes) : Result (bytes * bytes) string :=
  let? (is_list, n, buf) := ref_rlp_header_decode buf in
  if is_list then Err "unexpected list"%string
  else Ok (take n buf, drop n buf).

Definition ref_rlp_array32_decode (buf : bytes) : Result (B256 * bytes) string :=
  let? (s, buf) := ref_rlp_string_decode buf in
  let? a := ok_or (copy_from_slice s) "unexpected length"%string in
  Ok (a, buf).

Definition ref_rlp_u64 (n : Z) : bytes :=
  if n =? 0 then [byte_of_Z 128]
  else if n <? 128 then [byte_of_Z n]
  else let w := be_width n in byte_of_Z (128 + Z.of_nat w) :: be_encode w n.

Definition ref_rlp_u64_decode (buf : bytes) : Result (Z * bytes) string :=
  let? (s, buf) := ref_rlp_string_decode buf in
  if decide (length s ≤ 8)%nat then Ok (be_decode s, buf) else Err "overflow"%string.

#[export] Instance ref_rlp : AlloyRlp := {|
  RlpError := string;
  UnexpectedString := "unexpected string"%string;
  rlp_u64 := ref_rlp_u64;
  rlp_u64_decode := ref_rlp_u64_decode;
  rlp_slice := ref_rlp_slice;
  rlp_array32_decode := ref_rlp_array32_decode;
  rlp_header := ref_rlp_header;
  rlp_header_decode := ref_rlp_header_decode;
|}.

Lemma ref_rlp_code_base is_list c :
  0 ≤ c < 64 →
  byte_to_Z (byte_of_Z (ref_rlp_base is_list + c)) = ref_rlp_base is_list + c ∧
  (ref_rlp_base is_list + c <? 128) = false ∧
  ref_rlp_code (ref_rlp_base is_list + c) = (is_list, c).
Proof.
  intros Hc. rewrite byte_to_of_Z by (destruct is_list; cbn; lia).
  split_and!; [done|destruct is_list; cbn; lia|].
  unfold ref_rlp_code. destruct is_list; cbn [ref_rlp_base].
  - rewrite (proj2 (Z.leb_le 192 (192 + c))) by lia. f_equal. lia.
  - rewrite (proj2 (Z.leb_gt 192 (128 + c))) by lia. f_equal. lia.
Qed.

Lemma ref_rlp_header_roundtrip is_list n rest :
  (n ≤ length rest)%nat → Z.of_nat n ≤ u64_max →
  ref_rlp_header_decode (ref_rlp_header is_list n ++ rest) = Ok (is_list, n, rest).
Proof.
  intros Hn Hu. unfold ref_rlp_header. case_decide as Hs.
  - unfold ref_rlp_header_decode. cbn [app].
    destruct (ref_rlp_code_base is_list (Z.of_nat n)) as (-> & -> & ->); [lia|].
    rewrite (proj2 (Z.leb_le (Z.of_nat n) 55)) by lia.
    replace (Z.to_nat (Z.of_nat n - 55)) with 0%nat by lia.
    rewrite drop_0, (proj2 (Z.ltb_ge (Z.of_nat (length rest)) (Z.of_nat n))) by lia.
    by rewrite Nat2Z.id.
  - destruct (be_width_u64 (Z.of_nat n)) as [Hw1 Hw2]; [lia|unfold is_u64; lia|].
    pose proof (be_width_bound (Z.of_nat n) ltac:(lia)) as Hb.
    set (w := be_width (Z.of_nat n)) in *.
    unfold ref_rlp_header_decode. cbn [app].
    destruct (ref_rlp_code_base is_list (55 + Z.of_nat w)) as (-> & -> & ->); [lia|].
    rewrite (proj2 (Z.leb_gt (55 + Z.of_nat w) 55)) by lia.
    replace (Z.to_nat (55 + Z.of_nat w - 55)) with w by lia.
    rewrite take_app_exact, drop_app_exact by apply be_encode_length.
    rewrite be_decode_encode by lia.
    rewrite (proj2 (Z.ltb_ge (Z.of_nat (length rest)) (Z.of_nat n))) by lia.
    by rewrite Nat2Z.id.
Qed.

Lemma ref_rlp_string_roundtrip l rest :
  length l ≠ 1%nat → Z.of_nat (length l) ≤ u64_max →
  ref_rlp_string_decode (ref_rlp_header false (length l) ++ l ++ rest) = Ok (l, rest).
Proof.
  intros H1 Hu. unfold ref_rlp_string_decode.
  rewrite ref_rlp_header_roundtrip by (rewrite ?length_app; lia). cbn.
  by rewrite take_app_exact, drop_app_exact.
Qed.

(** A byte below 0x80 is its own encoding. *)
Lemma ref_rlp_byte_roundtrip n rest :
  0 ≤ n < 128 → ref_rlp_string_decode (byte_of_Z n :: rest) = Ok ([byte_of_Z n], rest).
Proof.
  intros Hn. unfold ref_rlp_string_decode, ref_rlp_header_decode.
  rewrite byte_to_of_Z by lia. by rewrite (proj2 (Z.ltb_lt _ 128)) by lia.
Qed.

Lemma ref_rlp_u64_roundtrip n rest :
  is_u64 n → ref_rlp_u64_decode (ref_rlp_u64 n ++ rest) = Ok (n, rest).
Proof.
  intros Hn. unfold ref_rlp_u64_decode, ref_rlp_u64. pose proof Hn as [H0 _].
  destruct (Z.eqb_spec n 0) as [->|Hnz].
  { change [byte_of_Z 128] with (ref_rlp_header false (length (@nil byte))).
    change rest with ([] ++ rest) at 1.
    by rewrite ref_rlp_string_roundtrip by (cbn; unfold u64_max; lia). }
  destruct (Z.ltb_spec n 128) as [Hlt|Hge].
  - cbn [app]. rewrite ref_rlp_byte_roundtrip by lia. cbn -[byte_of_Z be_decode].
    unfold be_decode. cbn -[byte_of_Z byte_to_Z]. by rewrite byte_to_of_Z by lia.
  - destruct (be_width_u64 n) as [Hw1 Hw2]; [lia|done|].
    pose proof (be_width_bound n ltac:(lia)) as Hb.
    assert (Hl : length (be_encode (be_width n) n) = be_width n) by apply be_encode_length.
    assert (He : byte_of_Z (128 + Z.of_nat (be_width n)) :: be_encode (be_width n) n =
      ref_rlp_header false (length (be_encode (be_width n) n)) ++ be_encode (be_width n) n).
    { rewrite Hl. unfold ref_rlp_header. by rewrite decide_True by lia. }
    rewrite He, <- app_assoc.
    assert (be_width n ≠ 1%nat ∨ be_width n = 1%nat) as [Hn1|Hn1] by lia.
    + rewrite ref_rlp_string_roundtrip by (unfold u64_max; lia). cbn.
      rewrite decide_True by lia. by rewrite be_decode_encode by lia.
    + unfold ref_rlp_string_decode.
      rewrite ref_rlp_header_roundtrip by (rewrite ?length_app; unfold u64_max; lia). cbn.
      rewrite take_app_exact, drop_app_exact by done.
      rewrite decide_True by lia. by rewrite be_decode_encode by lia.
Qed.

(** The code of a list that is not empty. *)
Lemma list_code z : 192 < z < 256 → byte_of_Z z ≠ Byte.x80 ∧ byte_of_Z z ≠ Byte.xc0.
Proof.
  intros Hz. pose proof (byte_to_of_Z z ltac:(lia)) as Hb.
  split; intros Hc; rewrite Hc in Hb; vm_compute in Hb; lia.
Qed.

#[export] Instance ref_rlp_laws : AlloyRlpLaws.
Proof.
  split; cbn.
  - apply ref_rlp_u64_roundtrip.
  - intros n Hn. unfold ref_rlp_u64.
    destruct (Z.eqb_spec n 0); [cbn; lia|]. destruct (Z.ltb_spec n 128); [cbn; lia|].
    cbn. rewrite be_encode_length. pose proof Hn as [? _].
    destruct (be_width_u64 n); [lia|done|lia].
  - intros a rest. unfold ref_rlp_array32_decode, ref_rlp_slice.
    pose proof (B256_length a) as Ha.
    destruct (b256_bytes a) as [|? [|? l]] eqn:E; [done|done|].
    rewrite <- E, <- app_assoc, ref_rlp_string_roundtrip
      by (rewrite ?B256_length; unfold u64_max; lia).
    cbn. by rewrite copy_from_slice_bytes.
  - intros l Hl. unfold ref_rlp_slice.
    destruct l as [|? [|? l]]; cbn [length] in *; [lia|lia|].
    unfold ref_rlp_header. rewrite decide_True by lia. done.
  - intros n rest. apply ref_rlp_header_roundtrip.
  - intros n Hn. unfold ref_rlp_header. case_decide; [done|].
    cbn. by rewrite be_encode_length.
  - intros n Hpos Hn. unfold ref_rlp_header. cbn [ref_rlp_base]. case_decide.
    + eexists _, []. split; [done|]. apply list_code. lia.
    + eexists _, _. split; [done|]. apply list_code.
      pose proof (be_width_u64 (Z.of_nat n) ltac:(lia)). unfold is_u64 in *. lia.
Qed.

(** ** Feedback, queues and a transport *)

Inductive ref_feedback : Type := RefOk | RefClosed.

#[export] Instance ref_actor_feedback : ActorFeedback := {|
  Feedback := ref_feedback;
  Feedback_Ok := RefOk;
  Feedback_Closed := RefClosed;
  Unreliable := option ref_feedback;
  unreliable_new f := Some f;
  unreliable_rejected := None;
  accepted o := match o with Some RefOk => true | _ => false end;
|}.

#[export] Instance ref_actor_feedback_laws : ActorFeedbackLaws.
Proof. done. Qed.

(** A bounded FIFO queue; [rq_open] is false once the receiver is dropped. *)
Record ref_queue (A : Type) : Type := mk_ref_queue {
  rq_items : list A; rq_cap : nat; rq_open : bool }.
Arguments mk_ref_queue {A}.
Arguments rq_items {A}.
Arguments rq_cap {A}.
Arguments rq_open {A}.

#[export] Instance ref_channel A : Channel (ref_queue A) A := {|
  chan_queue := rq_items;
  try_send a c :=
    if negb (rq_open c) then (Err Closed, c)
    else if decide (length (rq_items c) < rq_cap c)%nat
         then (Ok (), mk_ref_queue (rq_items c ++ [a]) (rq_cap c) (rq_open c))
         else (Err Full, c);
|}.

#[export] Instance ref_channel_laws A : ChannelLaws (ref_queue A) A.
Proof.
  split; intros *; cbn; destruct (rq_open c); cbn; [case_decide| |case_decide|]; naive_solver.
Qed.

#[export] Instance ref_channel_rx A : ChannelRx (ref_queue A) A := λ c,
  match rq_items c with
  | a :: l => Recv_Item a (mk_ref_queue l (rq_cap c) (rq_open c))
  | [] => if rq_open c then Recv_Pending else Recv_Closed
  end.

#[export] Instance ref_channel_rx_laws A : ChannelRxLaws (ref_queue A) A.
Proof.
  split; unfold chan_recv, ref_channel_rx; cbn.
  - intros a l c ->. eauto.
  - intros c ->. destruct (rq_open c); auto.
Qed.

#[export] Instance ref_channel_close A : ChannelClose (ref_queue A) A := {|
  chan_close c := mk_ref_queue (rq_items c) (rq_cap c) false;
  chan_open := rq_open;
|}.

#[export] Instance ref_channel_close_laws A : ChannelCloseLaws (ref_queue A) A.
Proof.
  split; try done; unfold chan_recv, ref_channel_rx; cbn.
  - intros a c c'. destruct (rq_items c); [by destruct (rq_open c)|]. by intros [= <- <-].
  - by intros c -> ->.
Qed.

Lemma be_decode_snoc l b : be_decode (l ++ [b]) = be_decode l * 256 + byte_to_Z b.
Proof. unfold be_decode. by rewrite foldl_app. Qed.

Lemma be_decode_bound l : 0 ≤ be_decode l < 256 ^ Z.of_nat (length l).
Proof.
  induction l as [|b l IH] using rev_ind; [cbn; lia|].
  rewrite be_decode_snoc, length_app, Nat2Z.inj_add, Z.pow_add_r by lia.
  pose proof (byte_to_Z_bound b). change (256 ^ Z.of_nat (length [b])) with 256. nia.
Qed.

(** ** Engine start-up and a transport *)

#[export] Instance ref_mpsc : MpscChannel := {| mpsc_max_buffer := 2 ^ 62 - 1 |}.

#[export] Instance ref_engine : CommonwareEngine := {|
  engine_mpsc := ref_mpsc;
  Participants := list B256;
  set_try_from l := if decide (NoDup l) then Ok l else Err "duplicate"%string;
  Scheme := list B256 * option Z;
  scheme_signer _ ps sk :=
    if decide (key_of sk ∈ ps) then Some (ps, Some sk) else None;
  scheme_verifier _ ps := (ps, None);
  nz z := if decide (z = 0) then None else Some z;
|}.

#[export] Instance ref_engine_laws : CommonwareEngineLaws.
Proof. split; [|done]. intros l. cbn. by case_decide. Qed.

(** A transport with one log of (recipients, message); [None] addresses all.
    Sending to an empty list of recipients is rate-limited. *)
Abbreviation ref_transport := (list (option (list B256) * bytes)).

#[export] Instance ref_p2p : P2pSender ref_transport := {|
  Recipients := option (list B256);
  Recipients_All := None;
  Checked := option (list B256);
  check r s := (match r with Some [] => Err 0 | _ => Ok r end, s);
  checked_recipients c := default [] c;
  checked_send c m _ s := (unreliable_new Feedback_Ok, s ++ [(c, m)]);
|}.

#[export] Instance ref_wire : P2pWire ref_transport := λ s, s.*2.

#[export] Instance ref_wire_laws : P2pWireLaws ref_transport.
Proof.
  split.
  - intros r s. by destruct r as [[]|].
  - intros chk m pr s. left. exact (fmap_app snd s [(chk, m)]).
Qed.
