(* ===== verification/Digest.v ===== *)
(** * allegro-primitives: [Digest] (crates/primitives/src/digest.rs)

    The 32-byte block digest the consensus engine votes on, with its
    fixed-size codec over any [Buf]/[BufMut]. *)

From S2P Require Import Prelude Extern Reference.

Record Digest : Type := mk_Digest { digest_get : B256 }.

#[global] Instance Digest_eq_dec : EqDecision Digest.
Proof. solve_decision. Defined.

#[global] Program Instance Digest_countable : Countable Digest :=
  inj_countable digest_get (λ b, Some (mk_Digest b)) _.
Next Obligation. by intros []. Qed.

(** [commonware_cryptography::Digest::EMPTY] *)
Definition EMPTY : Digest := mk_Digest B256_ZERO.

(** [FixedSize::SIZE] *)
Definition SIZE : nat := 32.

(** [AsRef<[u8]>] *)
Definition digest_as_ref (d : Digest) : bytes := b256_bytes (digest_get d).

(** [Random::random]: [fill_bytes] overwrites the zeroed array. *)
Definition digest_random {R : Type} (fill_bytes : R → B256 * R) (rng : R) : Digest * R :=
  let '(array, rng) := fill_bytes rng in (mk_Digest array, rng).

Section codec.
Context {B : Type} `{!Buf B, !BufMut B, !ArrayCodec B}.

(** [Read::read_cfg] *)
Definition digest_read_cfg (buf : B) : Result (Digest * B) CodecError :=
  let? (array, buf) := read_array32 buf in
  Ok (mk_Digest array, buf).

(** [Write::write] *)
Definition digest_write (d : Digest) (buf : B) : B :=
  write_array32 (digest_get d) buf.
End codec.

Lemma digest_as_ref_length d : length (digest_as_ref d) = SIZE.
Proof. apply B256_length. Qed.

Lemma digest_as_ref_inj d e : digest_as_ref d = digest_as_ref e → d = e.
Proof. destruct d, e. intros H%B256_eq. by f_equal. Qed.
#[export] Hint Resolve digest_as_ref_length : allegro.

Section codec_props.
Context {B : Type} `{!Buf B, !BufMut B, !ArrayCodec B, !ArrayCodecLaws B}.

Lemma digest_write_length d (buf : B) :
  length (written (digest_write d buf)) = length (written buf) + SIZE.
Proof.
  unfold digest_write. by rewrite write_array32_written, length_app, B256_length.
Qed.
End codec_props.

(** ** Properties *)

(** [Read] undoes [Write]: a digest written to a buffer is read back, and
    exactly the bytes after it are left; a buffer of fewer than 32 bytes is an
    error and never a digest. *)
Theorem digest_codec_roundtrip {B : Type}
    `{!Buf B, !BufMut B, !ArrayCodec B, !ArrayCodecLaws B} (d : Digest) (out buf : B) rest :
  buf_view buf = drop (length (written out)) (written (digest_write d out)) ++ rest →
  (∃ buf', digest_read_cfg buf = Ok (d, buf') ∧ buf_view buf' = rest) ∧
  (∀ short : B, length (buf_view short) < SIZE → is_ok (digest_read_cfg short) = false).
Proof.
  unfold digest_write, digest_read_cfg. intros Hbuf.
  rewrite write_array32_written, drop_app_exact in Hbuf by done. split.
  - destruct (read_array32_ok _ _ _ Hbuf) as (b' & -> & Hb'). exists b'.
    by destruct d.
  - intros short Hs. pose proof (read_array32_short short Hs).
    by destruct (read_array32 short).
Qed.

Lemma digest_codec_roundtrip_witness :
  let d := mk_Digest (key_of 7) in
  ∃ buf' : bytes,
    digest_read_cfg (digest_as_ref d ++ [Byte.x01]) = Ok (d, buf') ∧ buf' = [Byte.x01].
Proof.
  exact (proj1 (digest_codec_roundtrip (B := bytes) (mk_Digest (key_of 7)) []
           (b256_bytes (key_of 7) ++ [Byte.x01]) [Byte.x01] eq_refl)).
Defined.
