(* ===== verification/Ledger.v ===== *)
(** * Abstract specification: what a network of nodes may record

    Not a model of code: the contract of the consensus layer's block metadata,
    which [Network.v] proves a network of nodes to refine.  A ledger is one map
    per node from digests to facts (hash, number, second, millisecond); it
    starts with the genesis fact under the empty digest, and the only step is
    that a node learns a block, recording the block's own fact under the
    block's own digest. *)

From S2P Require Import Prelude Digest.
Local Open Scope Z_scope.

(** Hash, number, timestamp, timestamp_millis. *)
Abbreviation Fact := (B256 * Z * Z * Z)%type.

Section ledger.
Context {B : Type} (digest_of : B → Digest) (fact_of_block : B → Fact).

Abbreviation Ledger := (list (gmap Digest Fact)).

Inductive ledger_step : Ledger → Ledger → Prop :=
| learn L i m b :
    L !! i = Some m →
    ledger_step L (<[i := <[digest_of b := fact_of_block b]> m]> L).

Definition ledger_init (n : nat) (genesis : Fact) : Ledger :=
  replicate n {[EMPTY := genesis]}.

(** The event that breaks the hash function: the two facts recorded under a
    digest differ, and are those of two blocks that both have this digest. *)
Definition collision (d : Digest) (f f' : Fact) : Prop :=
  f ≠ f' ∧ ∃ b b', digest_of b = d ∧ digest_of b' = d ∧
    f = fact_of_block b ∧ f' = fact_of_block b'.

(** Where an entry of a reachable ledger comes from. *)
Definition justified (genesis : Fact) (d : Digest) (f : Fact) : Prop :=
  (d = EMPTY ∧ f = genesis) ∨ ∃ b, d = digest_of b ∧ f = fact_of_block b.

Definition ledger_ok (genesis : Fact) (L : Ledger) : Prop :=
  ∀ i m d f, L !! i = Some m → m !! d = Some f → justified genesis d f.

Lemma ledger_init_ok n g : ledger_ok g (ledger_init n g).
Proof.
  intros i m d f [-> _]%lookup_replicate Hd.
  apply lookup_singleton_Some in Hd as [<- <-]. by left.
Qed.

Lemma ledger_step_ok g L L' : ledger_step L L' → ledger_ok g L → ledger_ok g L'.
Proof.
  intros [L0 i m b Hi] Hok j m' d f Hj Hd.
  apply list_lookup_insert_Some in Hj as [(-> & <- & _)|[_ Hj]]; [|by eapply Hok].
  apply lookup_insert_Some in Hd as [[<- <-]|[_ Hd]]; [right; by exists b|by eapply Hok].
Qed.

Lemma ledger_reachable_ok g n L : rtc ledger_step (ledger_init n g) L → ledger_ok g L.
Proof.
  intros Hr. pose proof (ledger_init_ok n g) as H0. revert H0.
  induction Hr as [|? ? ? Hs _ IH]; [done|]. intros. by eapply IH, ledger_step_ok.
Qed.

(** Two justified facts of one digest are the same, unless there is a
    collision on it (only genesis is recorded under the empty digest). *)
Lemma justified_unique g d f f' :
  d ≠ EMPTY → justified g d f → justified g d f' → f = f' ∨ collision d f f'.
Proof.
  intros Hd [[-> _]|(b & Hb & ->)] [[? _]|(b' & Hb' & ->)]; [done..|].
  destruct (decide (fact_of_block b = fact_of_block b')); [by left|].
  right. split; [done|]. by exists b, b'.
Qed.

(** Entries are never removed... *)
Lemma ledger_step_mono L L' i m d :
  ledger_step L L' → L !! i = Some m → is_Some (m !! d) →
  ∃ m', L' !! i = Some m' ∧ is_Some (m' !! d).
Proof.
  intros [L0 j m0 b Hj] Hi Hd. destruct (decide (j = i)) as [->|Hne].
  - simplify_eq. eexists. split; [by apply list_lookup_insert_eq; eapply lookup_lt_Some|].
    rewrite lookup_insert_is_Some'. auto.
  - exists m. by rewrite list_lookup_insert_ne.
Qed.

Lemma ledger_steps_mono L L' i m d :
  rtc ledger_step L L' → L !! i = Some m → is_Some (m !! d) →
  ∃ m', L' !! i = Some m' ∧ is_Some (m' !! d).
Proof.
  intros Hr. revert m. induction Hr as [|L L1 L2 Hs _ IH]; intros m Hi Hd; [eauto|].
  destruct (ledger_step_mono _ _ _ _ _ Hs Hi Hd) as (m1 & Hi1 & Hd1). eauto.
Qed.

(** ... and never change: a ledger is write-once. *)
Lemma ledger_write_once g n L L' i m d f :
  d ≠ EMPTY → rtc ledger_step (ledger_init n g) L → rtc ledger_step L L' →
  L !! i = Some m → m !! d = Some f →
  ∃ m' f', L' !! i = Some m' ∧ m' !! d = Some f' ∧ (f = f' ∨ collision d f f').
Proof.
  intros Hd Hr Hs Hi Hf.
  destruct (ledger_steps_mono _ _ _ _ d Hs Hi) as (m' & Hi' & f' & Hf'); [by eexists|].
  exists m', f'. split_and!; [done|done|].
  assert (Hok : ledger_ok g L') by (eapply ledger_reachable_ok; by etrans).
  apply ledger_reachable_ok in Hr. eapply justified_unique; eauto.
Qed.
End ledger.
