(* ===== verification/Header.v ===== *)
(** * allegro-primitives: the block header (crates/primitives/src/header.rs)

    [ProposerKey], [AllegroConsensusContext] with its hand-written RLP codec
    and its conversions from and to the ed25519 key type, and [AllegroHeader],
    which delegates the [BlockHeader] trait to its inner Ethereum header. *)

From S2P Require Import Prelude Extern Reference.

(** ** Data *)

Record ProposerKey : Type := mk_ProposerKey { proposer_key_bytes : B256 }.

#[global] Instance ProposerKey_eq_dec : EqDecision ProposerKey.
Proof. solve_decision. Defined.

Record AllegroConsensusContext : Type := mk_Context {
  epoch : Z;
  view : Z;
  parent_view : Z;
  proposer : ProposerKey;
}.

#[global] Instance AllegroConsensusContext_eq_dec : EqDecision AllegroConsensusContext.
Proof. solve_decision. Defined.

(** The fields are [u64]s. *)
Definition ctx_wf (c : AllegroConsensusContext) : Prop :=
  is_u64 (epoch c) ∧ is_u64 (view c) ∧ is_u64 (parent_view c).

(** ** RLP *)

Section rlp.
Context `{!AlloyRlp} {B : Type} `{!BufMut B}.

(** [Encodable for ProposerKey] *)
Definition proposer_key_encode (k : ProposerKey) (out : B) : B :=
  put_slice (rlp_slice (b256_bytes (proposer_key_bytes k))) out.

Definition proposer_key_length (k : ProposerKey) : nat := 32.

(** [Decodable for ProposerKey] *)
Definition proposer_key_decode (buf : bytes) : Result (ProposerKey * bytes) RlpError :=
  let? (arr, buf) := rlp_array32_decode buf in
  Ok (mk_ProposerKey arr, buf).

(** [From<[u8; 32]>] *)
Definition proposer_key_from (b : B256) : ProposerKey := mk_ProposerKey b.

(** The buffered payload of [Encodable for AllegroConsensusContext]. *)
Definition ctx_payload (c : AllegroConsensusContext) : bytes :=
  rlp_u64 (epoch c) ++ rlp_u64 (view c) ++ rlp_u64 (parent_view c) ++
  rlp_slice (b256_bytes (proposer_key_bytes (proposer c))).

Definition ctx_encode (c : AllegroConsensusContext) (out : B) : B :=
  let payload := ctx_payload c in
  let out := put_slice (rlp_header true (length payload)) out in
  put_slice payload out.

Definition ctx_length (c : AllegroConsensusContext) : nat :=
  let pl := length (ctx_payload c) in
  let hdr :=
    if decide (pl ≤ 55) then 1
    else if decide (pl ≤ 255) then 2
    else if decide (Z.of_nat pl ≤ 65535)%Z then 3
    else 4 in
  hdr + pl.

(** [Decodable for AllegroConsensusContext] *)
Definition ctx_decode (buf : bytes) : Result (AllegroConsensusContext * bytes) RlpError :=
  let? (header_list, payload_length, buf) := rlp_header_decode buf in
  if negb header_list then Err UnexpectedString
  else
    let? (e, buf) := rlp_u64_decode buf in
    let? (v, buf) := rlp_u64_decode buf in
    let? (pv, buf) := rlp_u64_decode buf in
    let? (p, buf) := proposer_key_decode buf in
    Ok (mk_Context e v pv p, buf).
End rlp.

(** ** Conversions from and to commonware keys *)

Section keys.
Context `{!Ed25519}.

(** Panics ([None]) when the bytes are not a valid key. *)
Definition proposer_commonware (c : AllegroConsensusContext) : option PublicKey :=
  match pk_decode (b256_bytes (proposer_key_bytes (proposer c))) with
  | Ok k => Some k
  | Err _ => None
  end.

(** [bytes.copy_from_slice(proposer.as_ref())] panics on another length. *)
Definition from_commonware_proposer (e v pv : Z) (k : PublicKey) :
    option AllegroConsensusContext :=
  match copy_from_slice (pk_as_ref k) with
  | Some b => Some (mk_Context e v pv (mk_ProposerKey b))
  | None => None
  end.
End keys.

(** ** The [BlockHeader] trait and its delegation *)

Class BlockHeader (H : Type) : Type := {
  parent_hash : H → B256;
  ommers_hash : H → B256;
  beneficiary : H → bytes;
  state_root : H → B256;
  transactions_root : H → B256;
  receipts_root : H → B256;
  withdrawals_root : H → option B256;
  logs_bloom : H → bytes;
  difficulty : H → Z;
  number : H → Z;
  gas_limit : H → Z;
  gas_used : H → Z;
  timestamp : H → Z;
  mix_hash : H → option B256;
  nonce : H → option Z;
  base_fee_per_gas : H → option Z;
  blob_gas_used : H → option Z;
  excess_blob_gas : H → option Z;
  parent_beacon_block_root : H → option B256;
  requests_hash : H → option B256;
  block_access_list_hash : H → option B256;
  slot_number : H → option Z;
  extra_data : H → bytes;
}.

Record AllegroHeader (H : Type) : Type := mk_AllegroHeader {
  inner : H;
  timestamp_millis : Z;
  consensus_context : option AllegroConsensusContext;
}.
Arguments mk_AllegroHeader {H}.
Arguments inner {H}.
Arguments timestamp_millis {H}.
Arguments consensus_context {H}.

Section header.
Context {H : Type}.

Definition header_epoch (h : AllegroHeader H) : option Z := epoch <$> consensus_context h.
Definition header_view (h : AllegroHeader H) : option Z := view <$> consensus_context h.
Definition header_proposer (h : AllegroHeader H) : option ProposerKey :=
  proposer <$> consensus_context h.

#[global] Instance AllegroHeader_BlockHeader `{!BlockHeader H} :
    BlockHeader (AllegroHeader H) := {|
  parent_hash h := parent_hash (inner h);
  ommers_hash h := ommers_hash (inner h);
  beneficiary h := beneficiary (inner h);
  state_root h := state_root (inner h);
  transactions_root h := transactions_root (inner h);
  receipts_root h := receipts_root (inner h);
  withdrawals_root h := withdrawals_root (inner h);
  logs_bloom h := logs_bloom (inner h);
  difficulty h := difficulty (inner h);
  number h := number (inner h);
  gas_limit h := gas_limit (inner h);
  gas_used h := gas_used (inner h);
  timestamp h := timestamp (inner h);
  mix_hash h := mix_hash (inner h);
  nonce h := nonce (inner h);
  base_fee_per_gas h := base_fee_per_gas (inner h);
  blob_gas_used h := blob_gas_used (inner h);
  excess_blob_gas h := excess_blob_gas (inner h);
  parent_beacon_block_root h := parent_beacon_block_root (inner h);
  requests_hash h := requests_hash (inner h);
  block_access_list_hash h := block_access_list_hash (inner h);
  slot_number h := slot_number (inner h);
  extra_data h := extra_data (inner h);
|}.

(** [Sealable::hash_slow]; the header's own RLP encoder is derived
    ([#[derive(RlpEncodable)]]), hence a parameter: see [HeaderCodec.v]. *)
Definition header_hash_slow `{!Keccak} (rlp_encode : AllegroHeader H → bytes)
    (h : AllegroHeader H) : B256 :=
  keccak256 (rlp_encode h).

(** [From<Header>] *)
Definition header_from (h : H) : AllegroHeader H := mk_AllegroHeader h 0 None.
End header.

(** [allegro_primitives::block_hash] *)
Definition block_hash {H} `{!Keccak} (rlp_encode : AllegroHeader H → bytes)
    (header : AllegroHeader H) : B256 :=
  header_hash_slow rlp_encode header.

(** ** Lemmas *)

Section rlp_props.
Context `{!AlloyRlp, !AlloyRlpLaws} {B : Type} `{!BufMut B, !BufMutLaws B}.

Lemma ctx_encode_written c (out : B) :
  written (ctx_encode c out) =
  written out ++ rlp_header true (length (ctx_payload c)) ++ ctx_payload c.
Proof. unfold ctx_encode. by rewrite !put_slice_written, <- app_assoc. Qed.

Lemma rlp_slice32_length a : length (rlp_slice (b256_bytes a)) = 33.
Proof. rewrite rlp_slice_short; rewrite B256_length; lia. Qed.

(** A payload has at most three 9-byte integers and a 33-byte key. *)
Lemma ctx_payload_length c :
  ctx_wf c → 33 ≤ length (ctx_payload c) ≤ 60.
Proof.
  intros (He & Hv & Hp). unfold ctx_payload.
  rewrite !length_app, rlp_slice32_length.
  pose proof (rlp_u64_length _ He). pose proof (rlp_u64_length _ Hv).
  pose proof (rlp_u64_length _ Hp). lia.
Qed.

(** [length] counts what [encode] writes, although it computes the size of
    the list header by hand. *)
Lemma ctx_length_written c (out : B) :
  ctx_wf c → length (written (ctx_encode c out)) = length (written out) + ctx_length c.
Proof.
  intros Hc. pose proof (ctx_payload_length c Hc) as Hl.
  rewrite ctx_encode_written, !length_app, rlp_header_length by (unfold u64_max; lia).
  unfold ctx_length. case_decide as H55; [lia|].
  rewrite decide_True by lia.
  assert (be_width (Z.of_nat (length (ctx_payload c))) = 1); [|lia].
  generalize dependent (length (ctx_payload c)). intros n Hn Hn55.
  assert (n = 56 ∨ n = 57 ∨ n = 58 ∨ n = 59 ∨ n = 60) as Hcase by lia.
  by destruct_or! Hcase; subst n.
Qed.

Lemma proposer_key_decode_slice a rest :
  proposer_key_decode (rlp_slice (b256_bytes a) ++ rest) = Ok (mk_ProposerKey a, rest).
Proof. unfold proposer_key_decode. by rewrite rlp_array32_roundtrip. Qed.

(** Whatever payload length the list header declares, the decoder reads the
    four fields that follow it. *)
Lemma ctx_decode_payload c n rest :
  ctx_wf c → n ≤ length (ctx_payload c ++ rest) → (Z.of_nat n ≤ u64_max)%Z →
  ctx_decode (rlp_header true n ++ ctx_payload c ++ rest) = Ok (c, rest).
Proof.
  intros (He & Hv & Hp) Hn Hn64. unfold ctx_decode.
  rewrite rlp_header_roundtrip by done. cbn.
  unfold ctx_payload. rewrite <- !app_assoc.
  rewrite rlp_u64_roundtrip by done. cbn.
  rewrite rlp_u64_roundtrip by done. cbn.
  rewrite rlp_u64_roundtrip by done. cbn.
  rewrite proposer_key_decode_slice. cbn.
  by destruct c as [? ? ? []].
Qed.
End rlp_props.

(** ** Properties *)

(** RLP round trip of the consensus metadata: what
    [AllegroConsensusContext::encode] appends to any output buffer decodes to
    the same epoch, view, parent view and proposer, and leaves exactly the
    bytes that follow. *)
Theorem context_rlp_roundtrip `{!AlloyRlp, !AlloyRlpLaws} {B : Type}
    `{!BufMut B, !BufMutLaws B} (c : AllegroConsensusContext) (out : B) rest :
  ctx_wf c →
  ctx_decode (drop (length (written out)) (written (ctx_encode c out)) ++ rest) =
  Ok (c, rest).
Proof.
  intros Hc. rewrite ctx_encode_written, drop_app_exact, <- app_assoc by done.
  pose proof (ctx_payload_length c Hc).
  apply ctx_decode_payload; [done|rewrite length_app; lia|unfold u64_max; lia].
Qed.

Definition sample_ctx : AllegroConsensusContext :=
  mk_Context 1 5 4 (mk_ProposerKey (B256_repeat Byte.xab)).

Lemma sample_ctx_wf : ctx_wf sample_ctx.
Proof. unfold ctx_wf, is_u64, u64_max; cbn; lia. Qed.

Lemma context_rlp_roundtrip_witness :
  ctx_decode (ctx_encode sample_ctx ([] : bytes) ++ [Byte.x07]) =
  Ok (sample_ctx, [Byte.x07]).
Proof.
  exact (context_rlp_roundtrip (B := bytes) sample_ctx [] [Byte.x07] sample_ctx_wf).
Defined.

(** [AllegroConsensusContext::length] is the number of bytes [encode]
    writes, although it computes the size of the list header by hand. *)
Theorem context_length_exact `{!AlloyRlp, !AlloyRlpLaws} {B : Type}
    `{!BufMut B, !BufMutLaws B} (c : AllegroConsensusContext) (out : B) :
  ctx_wf c →
  length (written (ctx_encode c out)) = length (written out) + ctx_length c.
Proof. apply ctx_length_written. Qed.

Lemma context_length_exact_witness :
  length (ctx_encode sample_ctx ([] : bytes)) = 0 + ctx_length sample_ctx.
Proof.
  exact (context_length_exact (B := bytes) sample_ctx [] sample_ctx_wf).
Defined.

(** [ProposerKey::length] is one short of what [ProposerKey::encode]
    writes: the 32 bytes are encoded as an RLP string, with a header byte. *)
Theorem proposer_key_length_off_by_one `{!AlloyRlp, !AlloyRlpLaws} {B : Type}
    `{!BufMut B, !BufMutLaws B} (k : ProposerKey) (out : B) :
  length (written (proposer_key_encode k out)) =
  length (written out) + proposer_key_length k + 1.
Proof.
  unfold proposer_key_encode, proposer_key_length.
  rewrite put_slice_written, length_app, rlp_slice32_length. lia.
Qed.

Lemma proposer_key_length_off_by_one_witness :
  length (proposer_key_encode (mk_ProposerKey B256_ZERO) ([] : bytes)) = 0 + 32 + 1.
Proof.
  exact (proposer_key_length_off_by_one (B := bytes) (mk_ProposerKey B256_ZERO) []).
Defined.

(** The decoder ignores the payload length its list header declares: any
    declared length the input can hold yields the same context and the same
    rest, so distinct byte strings decode to one context. *)
Theorem context_decode_ignores_payload_length `{!AlloyRlp, !AlloyRlpLaws}
    (c : AllegroConsensusContext) rest n m :
  ctx_wf c →
  n ≤ length (ctx_payload c ++ rest) → m ≤ length (ctx_payload c ++ rest) →
  (Z.of_nat (length (ctx_payload c ++ rest)) ≤ u64_max)%Z → n ≠ m →
  let a := rlp_header true n ++ ctx_payload c ++ rest in
  let b := rlp_header true m ++ ctx_payload c ++ rest in
  a ≠ b ∧ ctx_decode a = Ok (c, rest) ∧ ctx_decode b = Ok (c, rest).
Proof.
  intros Hc Hn Hm Hu Hne a b. split_and!.
  - intros Hab. apply (f_equal rlp_header_decode) in Hab. unfold a, b in Hab.
    rewrite !rlp_header_roundtrip in Hab by lia. by simplify_eq.
  - apply ctx_decode_payload; [done|done|lia].
  - apply ctx_decode_payload; [done|done|lia].
Qed.

Lemma context_decode_ignores_payload_length_witness :
  let a := rlp_header true 0 ++ ctx_payload sample_ctx ++ [] in
  let b := rlp_header true 36 ++ ctx_payload sample_ctx ++ [] in
  a ≠ b ∧ ctx_decode a = Ok (sample_ctx, []) ∧ ctx_decode b = Ok (sample_ctx, []).
Proof.
  apply (context_decode_ignores_payload_length sample_ctx [] 0 36).
  - apply sample_ctx_wf.
  - lia.
  - apply Nat.leb_le. vm_compute. reflexivity.
  - apply Z.leb_le. vm_compute. reflexivity.
  - lia.
Defined.

(** A context built from a validator's key gives the key back, and
    [proposer_commonware] panics exactly on bytes that are not a key. *)
Theorem proposer_key_conversion `{!Ed25519, !Ed25519Laws} e v pv (k : PublicKey) :
  (∃ c, from_commonware_proposer e v pv k = Some c ∧
        (epoch c, view c, parent_view c) = (e, v, pv) ∧
        proposer_commonware c = Some k) ∧
  (∀ c, proposer_commonware c = None ↔
        is_ok (pk_decode (b256_bytes (proposer_key_bytes (proposer c)))) = false).
Proof.
  split.
  - destruct (copy_from_slice_is_Some (pk_as_ref k)) as (b & Hb & Hk);
      [apply pk_as_ref_length|].
    unfold from_commonware_proposer. rewrite Hb. eexists. split_and!; [done|done|].
    unfold proposer_commonware. cbn. by rewrite Hk, pk_decode_as_ref.
  - intros c. unfold proposer_commonware. by destruct (pk_decode _).
Qed.

Lemma proposer_key_conversion_witness :
  ∃ c, from_commonware_proposer 1 5 4 (key_of 3) = Some c ∧
       (epoch c, view c, parent_view c) = (1, 5, 4)%Z ∧
       proposer_commonware c = Some (key_of 3).
Proof. exact (proj1 (proposer_key_conversion 1 5 4 (key_of 3))). Defined.
