(* ===== verification/HeaderCodec.v ===== *)
(** * allegro-primitives: the RLP form of [AllegroHeader] (crates/primitives/src/header.rs)

    [AllegroHeader] derives its codec ([RlpEncodable], [RlpDecodable] with
    [trailing(no_gaps)]).  The code the macro writes is not part of the
    repository: it is the interface [DerivedHeaderRlp], whose laws are what
    the macro documents - a list of the fields in order, its header computed
    from the fields' [length]s, a trailing option left out when it is absent.
    The theorems are about how the hand-written codec and [length] of the
    consensus context behave inside it. *)

From S2P Require Import Prelude Extern Reference Header.
Local Open Scope nat_scope.

Class DerivedHeaderRlp `{!AlloyRlp} (H : Type) : Type := {
  (** alloy's codec of the inner [Header] *)
  inner_encode : H → bytes;
  inner_decode : bytes → Result (H * bytes) RlpError;
  (** the fields of later forks are there without a gap: the encoding leaves
      an absent one out, so that what follows a gap is read as another field *)
  inner_ok : H → Prop;
  (** what the macro writes for [AllegroHeader] *)
  header_encode : AllegroHeader H → bytes;
  header_decode : bytes → Result (AllegroHeader H * bytes) RlpError;
  ListLengthMismatch : nat → nat → RlpError;
}.

Section layout.
Context `{!AlloyRlp}.

(** The trailing field. *)
Definition ctx_field (c : option AllegroConsensusContext) : bytes :=
  match c with Some c => ctx_encode c [] | None => [] end.
Definition ctx_field_length (c : option AllegroConsensusContext) : nat :=
  match c with Some c => ctx_length c | None => 0 end.

Context {Hdr : Type} `{!DerivedHeaderRlp Hdr}.

Definition header_fields (h : AllegroHeader Hdr) : bytes :=
  inner_encode (inner h) ++ rlp_u64 (timestamp_millis h) ++ ctx_field (consensus_context h).

(** The payload length the list header announces: the sum of the fields'
    [Encodable::length]s, the context's by its own [length]. *)
Definition header_fields_length (h : AllegroHeader Hdr) : nat :=
  length (inner_encode (inner h)) + length (rlp_u64 (timestamp_millis h)) +
  ctx_field_length (consensus_context h).
End layout.

(** The bytes do not start with the code of an empty string or list. *)
Definition not_empty_code (b : bytes) : Prop :=
  match b with [] => False | c :: _ => c ≠ Byte.x80 ∧ c ≠ Byte.xc0 end.

Class DerivedHeaderRlpLaws `{!AlloyRlp} (H : Type) `{!DerivedHeaderRlp H} : Prop := {
  inner_roundtrip h rest : inner_ok h → inner_decode (inner_encode h ++ rest) = Ok (h, rest);
  header_encode_list h :
    header_encode h = rlp_header true (header_fields_length h) ++ header_fields h;
  (** fields in order; the trailing one when bytes of the payload are left
      that do not start with the code of an empty string or list, which can
      stand for an absent field; the payload must be used up *)
  header_decode_list b n rest i r1 ms r2 :
    rlp_header_decode b = Ok (true, n, rest) →
    inner_decode rest = Ok (i, r1) → rlp_u64_decode r1 = Ok (ms, r2) →
    (length rest - length r2 < n → not_empty_code r2) →
    header_decode b =
      let consumed := length rest - length r2 in
      if decide (consumed < n) then
        let? (c, r3) := ctx_decode r2 in
        let consumed := length rest - length r3 in
        if decide (consumed = n) then Ok (mk_AllegroHeader i ms (Some c), r3)
        else Err (ListLengthMismatch n consumed)
      else if decide (consumed = n) then Ok (mk_AllegroHeader i ms None, r2)
      else Err (ListLengthMismatch n consumed);
}.

(** ** Lemmas *)

Section lemmas.
Context {H : Type} `{!AlloyRlp, !AlloyRlpLaws, !DerivedHeaderRlp H, !DerivedHeaderRlpLaws H}.

Definition header_wf (h : AllegroHeader H) : Prop :=
  inner_ok (inner h) ∧ is_u64 (timestamp_millis h) ∧
  (∀ c, consensus_context h = Some c → ctx_wf c) ∧
  (Z.of_nat (length (header_fields h)) ≤ u64_max)%Z.

(** Because [AllegroConsensusContext::length] is exact, so is the list
    header's announcement. *)
Lemma header_fields_length_exact h :
  header_wf h → header_fields_length h = length (header_fields h).
Proof.
  intros (_ & _ & Hc & _). unfold header_fields_length, header_fields. rewrite !length_app.
  destruct (consensus_context h) as [c|]; cbn [ctx_field ctx_field_length]; [|cbn; lia]. pose proof (ctx_length_written c ([] : bytes) (Hc c eq_refl)) as Hl.
  cbn -[ctx_encode ctx_length] in Hl. lia.
Qed.

(** Decoding a list of an inner header, a stamp and the bytes of a context,
    however these were encoded. *)
Lemma header_decode_some i ms c tail rest :
  let body := inner_encode i ++ rlp_u64 ms ++ tail in
  inner_ok i → is_u64 ms → (Z.of_nat (length body) ≤ u64_max)%Z → not_empty_code tail →
  ctx_decode (tail ++ rest) = Ok (c, rest) →
  header_decode (rlp_header true (length body) ++ body ++ rest) =
    Ok (mk_AllegroHeader i ms (Some c), rest).
Proof.
  intros body Hin Hms Hlen Htail Hc. assert (0 < length tail) by (destruct tail; cbn; [done|lia]).
  erewrite header_decode_list.
  2: { apply rlp_header_roundtrip; [rewrite length_app; lia|done]. }
  2: { unfold body. rewrite <- !app_assoc. by apply inner_roundtrip. }
  2: { by apply rlp_u64_roundtrip. }
  2: { intros _. destruct tail; [done|exact Htail]. }
  unfold body. rewrite !length_app. cbv zeta. rewrite decide_True by lia. rewrite Hc. cbn.
  by rewrite decide_True by lia.
Qed.

Lemma header_decode_none i ms rest :
  let body := inner_encode i ++ rlp_u64 ms in
  inner_ok i → is_u64 ms → (Z.of_nat (length body) ≤ u64_max)%Z →
  header_decode (rlp_header true (length body) ++ body ++ rest) =
    Ok (mk_AllegroHeader i ms None, rest).
Proof.
  intros body Hin Hms Hlen.
  erewrite header_decode_list.
  2: { apply rlp_header_roundtrip; [rewrite length_app; lia|done]. }
  2: { unfold body. rewrite <- !app_assoc. by apply inner_roundtrip. }
  2: { by apply rlp_u64_roundtrip. }
  2: { unfold body. rewrite !length_app. lia. }
  unfold body. rewrite !length_app. cbv zeta. rewrite decide_False by lia.
  by rewrite decide_True by lia.
Qed.

(** A context's encoding with another payload length in its header. *)
Definition ctx_relabelled (m : nat) (c : AllegroConsensusContext) : bytes :=
  rlp_header true m ++ ctx_payload c.

Lemma ctx_encode_relabelled c : ctx_encode c [] = ctx_relabelled (length (ctx_payload c)) c.
Proof. exact (ctx_encode_written c ([] : bytes)). Qed.

Lemma ctx_relabelled_decode m c rest :
  ctx_wf c → m ≤ length (ctx_payload c) →
  ctx_decode (ctx_relabelled m c ++ rest) = Ok (c, rest).
Proof.
  intros Hc Hm. pose proof (ctx_payload_length c Hc). unfold ctx_relabelled.
  rewrite <- app_assoc. apply ctx_decode_payload; [done|rewrite length_app; lia|].
  unfold u64_max. lia.
Qed.

Lemma ctx_relabelled_inj m m' c :
  ctx_wf c → m ≤ length (ctx_payload c) → m' ≤ length (ctx_payload c) →
  ctx_relabelled m c = ctx_relabelled m' c → m = m'.
Proof.
  intros Hc Hm Hm' He. pose proof (ctx_payload_length c Hc).
  apply (f_equal rlp_header_decode) in He. unfold ctx_relabelled in He.
  rewrite !rlp_header_roundtrip in He by (done || unfold u64_max; lia). by simplify_eq.
Qed.

Lemma ctx_relabelled_code m c :
  0 < m → (Z.of_nat m ≤ u64_max)%Z → not_empty_code (ctx_relabelled m c).
Proof.
  intros Hm Hu. unfold ctx_relabelled.
  by destruct (rlp_header_head m Hm Hu) as (b & l & -> & Hb).
Qed.
End lemmas.

(** ** Properties *)

Section properties.
Context {H : Type} `{!AlloyRlp, !AlloyRlpLaws, !DerivedHeaderRlp H, !DerivedHeaderRlpLaws H}.

(** C28: RLP round trip of the block header: a header with or without consensus
    metadata decodes from its encoding to itself and leaves exactly the bytes
    that follow.  This rests on the hand-written [length] of the context,
    which the macro sums into the list header: the encoding is that header and
    exactly as many bytes as it announces. *)
Theorem header_rlp_roundtrip (h : AllegroHeader H) rest :
  header_wf h →
  header_decode (header_encode h ++ rest) = Ok (h, rest) ∧
  header_encode h = rlp_header true (length (header_fields h)) ++ header_fields h.
Proof.
  intros Hh. pose proof Hh as (Hin & Hms & Hc & Hlen).
  rewrite header_encode_list, header_fields_length_exact by done. split; [|done].
  rewrite <- app_assoc. unfold header_fields in *. destruct h as [i ms [c|]];
    cbn [inner timestamp_millis consensus_context ctx_field] in *.
  - rewrite ctx_encode_relabelled in *. specialize (Hc c eq_refl).
    pose proof (ctx_payload_length c Hc). apply header_decode_some; [done|done|done| |].
    + apply ctx_relabelled_code; unfold u64_max; lia.
    + by apply ctx_relabelled_decode.
  - rewrite app_nil_r in *. by apply header_decode_none.
Qed.

(** C40: the encoding of a block header is malleable: the header of its
    consensus context can announce any shorter payload length but zero, and the bytes
    - different ones, with a list header that fits them - still decode to the
    same block header, whose hash is taken of its own encoding: the macro
    checks the length of its own list, the hand-written decoder of the context
    does not check its own. *)
Theorem header_encoding_malleable (h : AllegroHeader H) c m rest :
  consensus_context h = Some c → inner_ok (inner h) → ctx_wf c → is_u64 (timestamp_millis h) →
  0 < m < length (ctx_payload c) →
  let body n := inner_encode (inner h) ++ rlp_u64 (timestamp_millis h) ++ ctx_relabelled n c in
  let forged := rlp_header true (length (body m)) ++ body m in
  (Z.of_nat (length (body m)) ≤ u64_max)%Z →
  (Z.of_nat (length (body (length (ctx_payload c)))) ≤ u64_max)%Z →
  header_decode (forged ++ rest) = Ok (h, rest) ∧ forged ≠ header_encode h.
Proof.
  intros Hc Hin Hwf Hms Hm body forged Hl Hl'. pose proof (ctx_payload_length c Hwf). split.
  - unfold forged. rewrite <- app_assoc. destruct h as [i ms o]; cbn in *; subst o.
    apply header_decode_some; [done|done|done| |].
    + apply ctx_relabelled_code; unfold u64_max; lia.
    + apply ctx_relabelled_decode; [done|lia].
  - assert (Hf : header_fields h = body (length (ctx_payload c))).
    { unfold header_fields, body. by rewrite Hc; cbn [ctx_field]; rewrite ctx_encode_relabelled. }
    rewrite header_encode_list, header_fields_length_exact, Hf.
    2: { split_and!; [done|done|intros ? [= <-]%(eq_trans (eq_sym Hc)); done|by rewrite Hf]. }
    unfold forged. intros He. apply (f_equal rlp_header_decode) in He.
    rewrite !rlp_header_roundtrip in He by done. injection He as _ He.
    unfold body in He. apply app_inv_head, app_inv_head, ctx_relabelled_inj in He; [lia|done|lia|done].
Qed.
End properties.

(** ** A reference codec, and the witnesses *)

(** An inner header that is a 32-byte string. *)
#[export] Instance ref_header_rlp : DerivedHeaderRlp B256 := {|
  inner_encode h := rlp_slice (b256_bytes h);
  inner_decode := rlp_array32_decode;
  inner_ok _ := True;
  header_encode h :=
    let i := rlp_slice (b256_bytes (inner h)) in
    let ms := rlp_u64 (timestamp_millis h) in
    rlp_header true (length i + length ms + ctx_field_length (consensus_context h)) ++
      i ++ ms ++ ctx_field (consensus_context h);
  header_decode b :=
    let? (_list, n, rest) := rlp_header_decode b in
    let? (i, r1) := rlp_array32_decode rest in
    let? (ms, r2) := rlp_u64_decode r1 in
    let consumed := length rest - length r2 in
    if decide (consumed < n) then
      let? (c, r3) := ctx_decode r2 in
      let consumed := length rest - length r3 in
      if decide (consumed = n) then Ok (mk_AllegroHeader i ms (Some c), r3)
      else Err "list length mismatch"%string
    else if decide (consumed = n) then Ok (mk_AllegroHeader i ms None, r2)
    else Err "list length mismatch"%string;
  ListLengthMismatch _ _ := "list length mismatch"%string;
|}.

#[export] Instance ref_header_rlp_laws : DerivedHeaderRlpLaws B256.
Proof.
  split.
  - intros h rest _. apply rlp_array32_roundtrip.
  - done.
  - intros b n rest i r1 ms r2 Hb Hi Hms _. cbn [header_decode ref_header_rlp].
    rewrite Hb. cbn [result_bind]. cbn [inner_decode ref_header_rlp] in Hi.
    rewrite Hi. cbn [result_bind]. by rewrite Hms.
Qed.

Definition sample_header : AllegroHeader B256 :=
  mk_AllegroHeader (B256_repeat Byte.x42) 1700000000123 (Some sample_ctx).

Lemma sample_header_wf : header_wf sample_header.
Proof.
  split_and!; [exact I|..].
  - by apply (bool_decide_unpack (is_u64 _)); vm_compute.
  - intros c [= <-]. apply sample_ctx_wf.
  - by apply Z.leb_le; vm_compute.
Qed.

Lemma header_rlp_roundtrip_witness :
  header_decode (header_encode sample_header ++ [Byte.x07]) = Ok (sample_header, [Byte.x07]).
Proof.
  exact (proj1 (@header_rlp_roundtrip B256 ref_rlp ref_rlp_laws ref_header_rlp ref_header_rlp_laws
    sample_header [Byte.x07] sample_header_wf)).
Defined.

Lemma header_encoding_malleable_witness :
  let body := inner_encode (inner sample_header) ++ rlp_u64 (timestamp_millis sample_header) ++
    ctx_relabelled 1 sample_ctx in
  let forged := rlp_header true (length body) ++ body in
  header_decode (forged ++ []) = Ok (sample_header, []) ∧ forged ≠ header_encode sample_header.
Proof.
  apply (@header_encoding_malleable B256 ref_rlp ref_rlp_laws ref_header_rlp ref_header_rlp_laws
    sample_header sample_ctx 1 [] eq_refl I sample_ctx_wf).
  - apply (bool_decide_unpack (is_u64 _)). vm_compute. exact I.
  - split; apply Nat.ltb_lt; vm_compute; reflexivity.
  - apply Z.leb_le. vm_compute. reflexivity.
  - apply Z.leb_le. vm_compute. reflexivity.
Defined.
