(* ===== verification/Block.v ===== *)
(** * allegro-consensus: the wire block (crates/consensus/src/block.rs)

    A sealed block as raw RLP bytes with its hash.  Wire format: 32-byte hash,
    then the RLP bytes up to the end of the buffer. *)

From S2P Require Import Prelude Extern Reference Digest.

Record Block : Type := mk_Block { block_inner : bytes; block_hash : B256 }.

(** [Block::new], [hash], [raw] *)
Definition block_new (inner : bytes) (hash : B256) : Block := mk_Block inner hash.
Definition block_raw (b : Block) : bytes := block_inner b.

(** [Digestible::digest], [Committable::commitment], [Heightable::height] *)
Definition block_digest (b : Block) : Digest := mk_Digest (block_hash b).
Definition block_commitment (b : Block) : Digest := mk_Digest (block_hash b).
Definition block_height (b : Block) : Z := 0.

(** [EncodeSize::encode_size] *)
Definition block_encode_size (b : Block) : nat := 32 + length (block_inner b).

Section codec.
Context {B : Type} `{!Buf B, !BufMut B}.

(** [Write::write] *)
Definition block_write (b : Block) (buf : B) : B :=
  let buf := put_slice (b256_bytes (block_hash b)) buf in
  put_slice (block_inner b) buf.

(** [Read::read_cfg]; [None] is a panic of [copy_to_slice]. *)
Definition block_read_cfg (buf : B) : option (Result (Block * B) CodecInvalid) :=
  if decide (remaining buf < 32)
  then Some (Err (Invalid "Block" "buffer too short for hash"))
  else
    match copy_to_slice 32 buf with
    | None => None
    | Some (hash_bytes, buf) =>
      match copy_from_slice hash_bytes with
      | None => None
      | Some hash =>
        let rem := remaining buf in
        match copy_to_slice rem buf with
        | None => None
        | Some (inner, buf) => Some (Ok (mk_Block inner hash, buf))
        end
      end
    end.
End codec.

Section props.
Context {B : Type} `{!Buf B, !BufLaws B, !BufMut B, !BufMutLaws B}.

Lemma block_write_written b (out : B) :
  written (block_write b out) =
  written out ++ b256_bytes (block_hash b) ++ block_inner b.
Proof. unfold block_write. by rewrite !put_slice_written, <- app_assoc. Qed.

(** Reading a buffer that starts with a 32-byte hash takes the whole of it. *)
Lemma block_read_view h inner (buf : B) :
  buf_view buf = b256_bytes h ++ inner →
  ∃ buf', block_read_cfg buf = Some (Ok (mk_Block inner h, buf')) ∧ buf_view buf' = [].
Proof.
  intros Hv. unfold block_read_cfg.
  pose proof (remaining_view buf) as Hr.
  rewrite Hv, length_app, B256_length in Hr. rewrite decide_False by lia.
  destruct (copy_to_slice_ok 32 buf) as (b1 & -> & Hb1); [lia|].
  rewrite Hv, take_app_exact, drop_app_exact in * by apply B256_length.
  rewrite copy_from_slice_bytes.
  destruct (copy_to_slice_ok (remaining b1) b1) as (b2 & -> & Hb2); [lia|].
  rewrite remaining_view, Hb1 in *. exists b2.
  rewrite firstn_all. split; [done|]. by rewrite Hb2, drop_all.
Qed.
End props.

(** ** Properties *)

(** C39: codec of the wire block: a written block is read back whole, the
    advertised [encode_size] is the number of bytes written, a buffer shorter
    than a hash is the documented error, and no input makes the reader
    panic. *)
Theorem block_codec_correct {B : Type} `{!Buf B, !BufLaws B, !BufMut B, !BufMutLaws B} :
  (∀ (b : Block) (out buf : B),
     buf_view buf = drop (length (written out)) (written (block_write b out)) →
     ∃ buf', block_read_cfg buf = Some (Ok (b, buf')) ∧ buf_view buf' = []) ∧
  (∀ (b : Block) (out : B),
     length (written (block_write b out)) = length (written out) + block_encode_size b) ∧
  (∀ buf : B, length (buf_view buf) < 32 →
     block_read_cfg buf = Some (Err (Invalid "Block" "buffer too short for hash"))) ∧
  (∀ buf : B, block_read_cfg buf ≠ None).
Proof.
  split_and!.
  - intros b out buf Hb. rewrite block_write_written, drop_app_exact in Hb by done.
    destruct (block_read_view _ _ _ Hb) as (buf' & -> & ?). exists buf'. by destruct b.
  - intros b out. rewrite block_write_written, !length_app, B256_length. done.
  - intros buf Hs. unfold block_read_cfg. rewrite remaining_view. by rewrite decide_True.
  - intros buf. destruct (decide (length (buf_view buf) < 32)) as [Hs|Hs].
    + unfold block_read_cfg. rewrite remaining_view. by rewrite decide_True.
    + destruct (copy_from_slice_is_Some (take 32 (buf_view buf))) as (h & _ & Hh).
      { rewrite length_take. lia. }
      destruct (block_read_view h (drop 32 (buf_view buf)) buf) as (? & -> & _); [|done].
      by rewrite Hh, take_drop.
Qed.

Lemma block_codec_correct_witness :
  let b := mk_Block [Byte.x01; Byte.x02; Byte.x03] (B256_repeat Byte.x42) in
  ∃ buf' : bytes, block_read_cfg (block_write b ([] : bytes)) = Some (Ok (b, buf')) ∧ buf' = [].
Proof.
  exact (proj1 (block_codec_correct (B := bytes))
    (mk_Block [Byte.x01; Byte.x02; Byte.x03] (B256_repeat Byte.x42)) []
    (block_write (mk_Block [Byte.x01; Byte.x02; Byte.x03] (B256_repeat Byte.x42))
       ([] : bytes)) eq_refl).
Defined.
