(* ===== verification/Error.v ===== *)
(** * allegro-consensus: errors (crates/consensus/src/error.rs) *)

From S2P Require Import Prelude.

Inductive ConsensusError : Type :=
| InvalidValidatorConfig (msg : string)
| PayloadBuilder_ (msg : string)
| BlockNotFound (msg : string)
| UnknownProposer (msg : string)
| Network (msg : string)
| Storage (msg : string)
| Timestamp (msg : string)
| Config (msg : string)
| Internal (msg : string)
| BlockValidation (msg : string).

#[global] Instance ConsensusError_eq_dec : EqDecision ConsensusError.
Proof. solve_decision. Defined.

(** The [#[error("...")]] attributes ([Display]). *)
Definition error_display (e : ConsensusError) : string :=
  match e with
  | InvalidValidatorConfig m => "invalid validator configuration: " +:+ m
  | PayloadBuilder_ m => "payload builder error: " +:+ m
  | BlockNotFound m => "block not found: " +:+ m
  | UnknownProposer m => "unknown proposer: " +:+ m
  | Network m => "network error: " +:+ m
  | Storage m => "storage error: " +:+ m
  | Timestamp m => "timestamp error: " +:+ m
  | Config m => "configuration error: " +:+ m
  | Internal m => "internal error: " +:+ m
  | BlockValidation m => "block validation failed: " +:+ m
  end.
