(* ===== verification/Validators.v ===== *)
(** * allegro-consensus: the validator set (crates/consensus/src/validators.rs)

    A hash map from public key to p2p address, filled once from a list of
    entries.  The map is behind a [parking_lot] lock, which does not poison,
    and nothing writes to it after construction.  The iteration order of a
    Rust [HashMap] is unspecified: [keys] fixes one, and no theorem of the
    development depends on which. *)

From S2P Require Import Prelude Extern Reference.

(** ** Socket addresses (std::net) *)

Inductive IpAddr : Type := Ipv4 (a : Z) | Ipv6 (a : Z).

Inductive SocketAddr : Type :=
| SocketV4 (ip : Z) (port : Z)
| SocketV6 (ip : Z) (port : Z) (flowinfo scope_id : Z).

#[global] Instance IpAddr_eq_dec : EqDecision IpAddr.
Proof. solve_decision. Defined.
#[global] Instance SocketAddr_eq_dec : EqDecision SocketAddr.
Proof. solve_decision. Defined.

(** [SocketAddr::ip] *)
Definition socket_ip (s : SocketAddr) : IpAddr :=
  match s with SocketV4 a _ => Ipv4 a | SocketV6 a _ _ _ => Ipv6 a end.

(** [SocketAddr::from((ip, port))] *)
Definition socket_from (ip : IpAddr) (port : Z) : SocketAddr :=
  match ip with Ipv4 a => SocketV4 a port | Ipv6 a => SocketV6 a port 0 0 end.

(** The variants of [commonware_p2p::{Ingress, Address}] the program builds. *)
Inductive Ingress : Type := Ingress_Socket (s : SocketAddr).
Inductive Address : Type := Asymmetric (ingress : Ingress) (egress : SocketAddr).

#[global] Instance Ingress_eq_dec : EqDecision Ingress.
Proof. solve_decision. Defined.
#[global] Instance Address_eq_dec : EqDecision Address.
Proof. solve_decision. Defined.

(** ** The set *)

Section validators.
Context `{!Ed25519}.

Record ValidatorEntry : Type := mk_ValidatorEntry {
  ve_public_key : PublicKey;
  ve_ingress : SocketAddr;
  ve_egress : IpAddr;
}.

Abbreviation ValidatorSet := (gmap PublicKey Address).

(** [ValidatorSet::new], [Default::default] *)
Definition validators_new : ValidatorSet := ∅.

Definition entry_address (e : ValidatorEntry) : Address :=
  Asymmetric (Ingress_Socket (ve_ingress e)) (socket_from (ve_egress e) 0).

(** [ValidatorSet::from_entries]: the loop inserts entry by entry. *)
Definition from_entries (entries : list ValidatorEntry) : ValidatorSet :=
  foldl (λ m e, <[ve_public_key e := entry_address e]> m) ∅ entries.

Definition keys (vs : ValidatorSet) : list PublicKey := (map_to_list vs).*1.
Definition validator_lookup (vs : ValidatorSet) (k : PublicKey) : option Address := vs !! k.
Definition validators_len (vs : ValidatorSet) : nat := size vs.
Definition validators_is_empty (vs : ValidatorSet) : bool := bool_decide (vs = ∅).

(** ** Lemmas *)

Lemma from_entries_snoc es e :
  from_entries (es ++ [e]) = <[ve_public_key e := entry_address e]> (from_entries es).
Proof. unfold from_entries. by rewrite foldl_app. Qed.

Lemma keys_NoDup (vs : ValidatorSet) : NoDup (keys vs).
Proof. apply NoDup_fst_map_to_list. Qed.

Lemma elem_of_keys (vs : ValidatorSet) k : k ∈ keys vs ↔ is_Some (vs !! k).
Proof.
  unfold keys. rewrite list_elem_of_fmap. split.
  - intros ([? v] & -> & Hv%elem_of_map_to_list). by exists v.
  - intros [v Hv]. exists (k, v). by rewrite elem_of_map_to_list.
Qed.

Lemma keys_nil (vs : ValidatorSet) : keys vs = [] ↔ vs = ∅.
Proof.
  split.
  - intros Hk. apply map_empty. intros k. apply eq_None_not_Some.
    rewrite <- elem_of_keys, Hk. by intros ?%elem_of_nil.
  - intros ->. unfold keys. by rewrite map_to_list_empty.
Qed.

Lemma from_entries_dom es k :
  is_Some (from_entries es !! k) ↔ k ∈ ve_public_key <$> es.
Proof.
  induction es as [|e es IH] using rev_ind.
  - split; [intros [? Hx]; unfold from_entries in Hx; cbn in Hx; by rewrite lookup_empty in Hx | by intros ?%elem_of_nil].
  - rewrite from_entries_snoc, fmap_app, elem_of_app, <- IH. cbn.
    rewrite list_elem_of_singleton. destruct (decide (ve_public_key e = k)) as [->|Hne].
    + rewrite lookup_insert_eq. split; [by right|eauto].
    + rewrite lookup_insert_ne by done. split; [by left|]. by intros [?| ->].
Qed.

(** The last entry with a key decides. *)
Lemma from_entries_last es k :
  from_entries es !! k = entry_address <$> last (filter (λ e, ve_public_key e = k) es).
Proof.
  induction es as [|e es IH] using rev_ind; [done|].
  rewrite from_entries_snoc, filter_app, filter_cons, filter_nil. case_decide as He.
  - by rewrite He, lookup_insert_eq, last_snoc.
  - by rewrite lookup_insert_ne, app_nil_r.
Qed.

(** With distinct keys every entry is found. *)
Lemma from_entries_lookup es i e :
  NoDup (ve_public_key <$> es) → es !! i = Some e →
  from_entries es !! ve_public_key e = Some (entry_address e).
Proof.
  revert i. induction es as [|x es IH] using rev_ind; intros i Hnd Hi; [done|].
  rewrite from_entries_snoc. rewrite fmap_app in Hnd.
  apply NoDup_app in Hnd as (Hnd & Hx & _).
  apply lookup_app_Some in Hi as [Hi|[_ Hi]].
  - rewrite lookup_insert_ne; [by eapply IH|].
    intros Heq. apply (Hx (ve_public_key e)).
    + apply list_elem_of_fmap. exists e. split; [done|]. by eapply list_elem_of_lookup_2.
    + rewrite <- Heq. by apply list_elem_of_here.
  - apply list_lookup_singleton_Some in Hi as [_ <-]. apply lookup_insert_eq.
Qed.

(** The entries a set of socket addresses stands for, in the order of the
    validator indices. *)
Definition seed_entry (i : nat) (a : SocketAddr) : ValidatorEntry :=
  mk_ValidatorEntry (public_key (from_seed (Z.of_nat i))) a (socket_ip a).
Definition seed_entries (addrs : list SocketAddr) : list ValidatorEntry := imap seed_entry addrs.

(** Distinct seeds give every listed socket its own key. *)
Lemma seed_entries_keys `{!SeedsDistinct} addrs :
  (Z.of_nat (length addrs) ≤ u16_max)%Z → NoDup (ve_public_key <$> seed_entries addrs).
Proof.
  intros Hl. apply NoDup_alt. intros i j k Hi Hj.
  rewrite list_lookup_fmap in Hi, Hj. unfold seed_entries in *.
  rewrite list_lookup_imap in Hi, Hj.
  destruct (addrs !! i) as [a|] eqn:Hai; [|done]. destruct (addrs !! j) as [b|] eqn:Haj; [|done].
  cbn in Hi, Hj. injection Hi as <-. injection Hj as Hk.
  apply lookup_lt_Some in Hai. apply lookup_lt_Some in Haj.
  apply Nat2Z.inj. symmetry. apply from_seed_inj; unfold is_u64, u64_max, u16_max in *; [lia|lia|done].
Qed.

Lemma seed_entries_lookup `{!SeedsDistinct} addrs i a :
  (Z.of_nat (length addrs) ≤ u16_max)%Z → addrs !! i = Some a →
  from_entries (seed_entries addrs) !! public_key (from_seed (Z.of_nat i)) =
    Some (Asymmetric (Ingress_Socket a) (socket_from (socket_ip a) 0)).
Proof.
  intros Hl Ha. apply (from_entries_lookup (seed_entries addrs) i (seed_entry i a)).
  - by apply seed_entries_keys.
  - unfold seed_entries. by rewrite list_lookup_imap, Ha.
Qed.
End validators.

(** In a file that uses it: [ValidatorSet] of the ambient key type. *)
Abbreviation ValidatorSet := (gmap PublicKey Address).

#[export] Hint Resolve keys_NoDup : allegro.

(** ** Properties *)

(** A validator set holds, for every key, the address of the LAST entry
    with that key (ingress as given, egress with port 0) and no other key; its
    key list has no duplicates, whatever duplicates the entries had. *)
Theorem from_entries_correct `{!Ed25519} (es : list ValidatorEntry) :
  (∀ k, validator_lookup (from_entries es) k =
        entry_address <$> last (filter (λ e, ve_public_key e = k) es)) ∧
  NoDup (keys (from_entries es)) ∧
  (∀ k, k ∈ keys (from_entries es) ↔ k ∈ ve_public_key <$> es) ∧
  validators_len (from_entries es) = length (remove_dups (ve_public_key <$> es)).
Proof.
  split_and!; [|apply keys_NoDup| |].
  - intros k. apply from_entries_last.
  - intros k. by rewrite elem_of_keys, from_entries_dom.
  - unfold validators_len. rewrite <- (length_map_to_list (from_entries es)), <- (length_fmap fst).
    apply Permutation_length, NoDup_Permutation.
    + apply keys_NoDup.
    + apply NoDup_remove_dups.
    + intros k. fold (keys (from_entries es)).
      by rewrite elem_of_keys, from_entries_dom, elem_of_remove_dups.
Qed.
