(* ===== verification/Config.v ===== *)
(** * allegro-consensus: configuration (crates/consensus/src/config.rs)

    The tunable parameters, their defaults and [validate], whose checks run in
    the order of the source: the first that fails is the error. *)

From S2P Require Import Prelude Error.
From stdpp Require Import pretty.
Local Open Scope Z_scope.

(** ** [std::time::Duration], as nanoseconds *)

Abbreviation Duration := Z.

Definition from_millis (ms : Z) : Duration := ms * 1000000.
Definition from_secs (s : Z) : Duration := s * 1000000000.
Definition is_zero (d : Duration) : bool := d =? 0.

(** ** Data *)

Inductive ForwardingPolicy : Type := SilentVoters | All.

#[global] Instance ForwardingPolicy_eq_dec : EqDecision ForwardingPolicy.
Proof. solve_decision. Defined.

Record ConsensusConfig : Type := mk_ConsensusConfig {
  mailbox_size : Z;
  leader_timeout : Duration;
  certification_timeout : Duration;
  timeout_retry : Duration;
  fetch_timeout : Duration;
  view_retention : Z;
  skip_timeout : Duration;
  term_length : Z;
  stall_timeout : Duration;
  optimistic_views : Z;
  track_historical_votes : bool;
  forwarding_policy : ForwardingPolicy;
  replay_buffer_size : Z;
  write_buffer_size : Z;
  page_cache_pages : Z;
  page_cache_capacity : Z;
  partition : string;
  strict_startup : bool;
}.

Section validate.
(** [{:?}] of a [Duration]: only the text of an error message. *)
Variable debug : Duration → string.

Definition bad (msg : string) : Result unit ConsensusError := Err (Config msg).

Definition exceed_msg (what : string) (a : Duration) (than : string) (b : Duration) : string :=
  what +:+ " (" +:+ debug a +:+ ") must exceed " +:+ than +:+ " (" +:+ debug b +:+ ")".

Definition validate (c : ConsensusConfig) : Result unit ConsensusError :=
  if mailbox_size c =? 0 then bad "mailbox size must be greater than zero"
  else if is_zero (leader_timeout c) then bad "leader timeout must be greater than zero"
  else if is_zero (timeout_retry c) then bad "timeout retry must be greater than zero"
  else if is_zero (fetch_timeout c) then bad "fetch timeout must be greater than zero"
  else if view_retention c =? 0 then bad "view retention must be greater than zero"
  else if term_length c =? 0 then bad "term length must be at least 1"
  else if certification_timeout c <=? leader_timeout c then
    bad (exceed_msg "certification timeout" (certification_timeout c)
                    "leader timeout" (leader_timeout c))
  else if skip_timeout c <=? certification_timeout c then
    bad (exceed_msg "skip timeout" (skip_timeout c)
                    "certification timeout" (certification_timeout c))
  else if skip_timeout c <=? timeout_retry c then
    bad (exceed_msg "skip timeout" (skip_timeout c) "timeout retry" (timeout_retry c))
  else if (1 <? term_length c) && (stall_timeout c <=? certification_timeout c) then
    bad (exceed_msg "stall timeout" (stall_timeout c)
                    "certification timeout" (certification_timeout c))
  else Ok ().
End validate.

(** [Default for ConsensusConfig] *)
Definition default_config : ConsensusConfig := {|
  mailbox_size := 1024;
  leader_timeout := from_secs 2;
  certification_timeout := from_secs 4;
  timeout_retry := from_secs 1;
  fetch_timeout := from_secs 2;
  view_retention := 10;
  skip_timeout := from_secs 5;
  term_length := 1;
  stall_timeout := from_secs 8;
  optimistic_views := 0;
  track_historical_votes := false;
  forwarding_policy := SilentVoters;
  replay_buffer_size := 8 * 1024 * 1024;
  write_buffer_size := 1024 * 1024;
  page_cache_pages := 4096;
  page_cache_capacity := 8192;
  partition := "allegro";
  strict_startup := false;
|}.

Record NetworkConfig : Type := mk_NetworkConfig {
  max_message_size : Z;
  net_mailbox_size : Z;
  tracked_peer_sets : Z;
  synchrony_bound : Duration;
  dial_frequency : Duration;
  max_handshake_age : Duration;
  handshake_timeout : Duration;
  max_concurrent_handshakes : Z;
  block_duration : Duration;
  ping_frequency : Duration;
  peer_connection_cooldown : Duration;
  handshake_rate_per_ip : Z;
  handshake_rate_per_subnet : Z;
  bypass_ip_check : bool;
  allow_private_ips : bool;
  allow_dns : bool;
  send_batch_size : Z;
}.

(** [Default for NetworkConfig] *)
Definition default_network_config : NetworkConfig := {|
  max_message_size := 1024 * 1024;
  net_mailbox_size := 1024;
  tracked_peer_sets := 3;
  synchrony_bound := from_secs 2;
  dial_frequency := from_millis 200;
  max_handshake_age := from_secs 300;
  handshake_timeout := from_secs 5;
  max_concurrent_handshakes := 128;
  block_duration := from_secs 60;
  ping_frequency := from_secs 10;
  peer_connection_cooldown := from_secs 5;
  handshake_rate_per_ip := 10;
  handshake_rate_per_subnet := 10;
  bypass_ip_check := false;
  allow_private_ips := true;
  allow_dns := false;
  send_batch_size := 8;
|}.

(** The values a [ConsensusConfig] can hold: every field is unsigned. *)
Definition config_unsigned (c : ConsensusConfig) : Prop :=
  0 ≤ mailbox_size c ∧ 0 ≤ leader_timeout c ∧ 0 ≤ certification_timeout c ∧
  0 ≤ timeout_retry c ∧ 0 ≤ fetch_timeout c ∧ 0 ≤ view_retention c ∧
  0 ≤ skip_timeout c ∧ 0 ≤ term_length c ∧ 0 ≤ stall_timeout c ∧
  0 ≤ replay_buffer_size c ∧ 0 ≤ write_buffer_size c ∧
  0 ≤ page_cache_pages c ∧ 0 ≤ page_cache_capacity c.

(** The conditions that [validate] checks: positive sizes and timers,
    [leader < certification < skip], [retry < skip], and
    [certification < stall] when terms span views.  The buffer and page cache
    sizes, which the engine also needs to be positive, are not among them
    ([Engine.start_engine_outcomes]). *)
Definition checked_invariants (c : ConsensusConfig) : Prop :=
  0 < mailbox_size c ∧ 0 < leader_timeout c ∧ 0 < timeout_retry c ∧
  0 < fetch_timeout c ∧ 0 < view_retention c ∧ 0 < term_length c ∧
  leader_timeout c < certification_timeout c ∧
  certification_timeout c < skip_timeout c ∧
  timeout_retry c < skip_timeout c ∧
  (1 < term_length c → certification_timeout c < stall_timeout c).

(** Branch a chain of boolean integer tests. *)
Ltac config_tests :=
  repeat match goal with
  | |- context [if ?b then _ else _] => destruct b eqn:?
  end.

Lemma validate_Ok debug c :
  config_unsigned c → validate debug c = Ok () ↔ checked_invariants c.
Proof.
  unfold config_unsigned, checked_invariants, validate, is_zero, bad. intros Hu.
  config_tests.
  all: split; [intros ?; simplify_eq; lia | intros ?; first [done | exfalso; lia]].
Qed.

Lemma default_config_unsigned : config_unsigned default_config.
Proof. unfold config_unsigned, default_config, from_secs. cbn. lia. Qed.

(** ** Properties *)

(** [validate] accepts exactly the configurations that satisfy the conditions
    it checks; a rejection is always a [ConsensusError::Config];
    the defaults are accepted. *)
Theorem validate_correct debug (c : ConsensusConfig) :
  config_unsigned c →
  (validate debug c = Ok () ↔ checked_invariants c) ∧
  (∀ e, validate debug c = Err e → ∃ msg, e = Config msg) ∧
  validate debug default_config = Ok ().
Proof.
  intros Hu. split_and!; [by apply validate_Ok| |done].
  intros e. unfold validate, bad. config_tests.
  all: intros [= <-]; eauto.
Qed.

Lemma validate_correct_witness :
  (validate (λ d, pretty d) default_config = Ok () ↔ checked_invariants default_config) ∧
  (∀ e, validate (λ d, pretty d) default_config = Err e → ∃ msg, e = Config msg) ∧
  validate (λ d, pretty d) default_config = Ok ().
Proof.
  exact (validate_correct (λ d, pretty d) default_config default_config_unsigned).
Defined.

(** The stall timeout is ignored at term length 1, whatever it is, and
    checked at every greater term length. *)
Theorem stall_timeout_only_multi_view debug (c : ConsensusConfig) stall :
  config_unsigned c → 0 ≤ stall →
  let with_term n s := {|
    mailbox_size := mailbox_size c; leader_timeout := leader_timeout c;
    certification_timeout := certification_timeout c; timeout_retry := timeout_retry c;
    fetch_timeout := fetch_timeout c; view_retention := view_retention c;
    skip_timeout := skip_timeout c; term_length := n; stall_timeout := s;
    optimistic_views := optimistic_views c;
    track_historical_votes := track_historical_votes c;
    forwarding_policy := forwarding_policy c; replay_buffer_size := replay_buffer_size c;
    write_buffer_size := write_buffer_size c; page_cache_pages := page_cache_pages c;
    page_cache_capacity := page_cache_capacity c; partition := partition c;
    strict_startup := strict_startup c |} in
  validate debug c = Ok () →
  validate debug (with_term 1 stall) = Ok () ∧
  (∀ n, 1 < n → validate debug (with_term n stall) = Ok () ↔ certification_timeout c < stall).
Proof.
  intros Hu Hs with_term Hok. apply validate_Ok in Hok; [|done].
  unfold checked_invariants, config_unsigned in *.
  split.
  - apply validate_Ok; unfold checked_invariants, config_unsigned; cbn; lia.
  - intros n Hn. rewrite validate_Ok; unfold checked_invariants, config_unsigned; cbn; lia.
Qed.

Lemma stall_timeout_only_multi_view_witness :
  let with_term n s := {|
    mailbox_size := 1024; leader_timeout := from_secs 2;
    certification_timeout := from_secs 4; timeout_retry := from_secs 1;
    fetch_timeout := from_secs 2; view_retention := 10;
    skip_timeout := from_secs 5; term_length := n; stall_timeout := s;
    optimistic_views := 0; track_historical_votes := false;
    forwarding_policy := SilentVoters; replay_buffer_size := 8388608;
    write_buffer_size := 1048576; page_cache_pages := 4096;
    page_cache_capacity := 8192; partition := "allegro"; strict_startup := false |} in
  validate (λ d, pretty d) (with_term 1 1000000) = Ok () ∧
  (∀ n, 1 < n → validate (λ d, pretty d) (with_term n 1000000) = Ok () ↔
                from_secs 4 < 1000000).
Proof.
  apply (stall_timeout_only_multi_view (λ d, pretty d) default_config 1000000).
  - apply default_config_unsigned.
  - lia.
  - reflexivity.
Defined.
