(* ===== verification/Metrics.v ===== *)
(** * allegro-consensus: metrics (crates/consensus/src/metrics.rs)

    Fourteen [AtomicU64] counters shared by the actor, the relay, the receiver
    and the reporter.  [fetch_add] wraps around at 64 bits. *)

From S2P Require Import Prelude.
Local Open Scope Z_scope.

Record ConsensusMetrics : Type := mk_ConsensusMetrics {
  blocks_proposed : Z;
  blocks_verified : Z;
  blocks_finalized : Z;
  blocks_notarized : Z;
  nullifications : Z;
  view_timeouts : Z;
  conflicting_notarizations : Z;
  conflicting_finalizations : Z;
  blocks_broadcast : Z;
  blocks_received : Z;
  current_view : Z;
  errors_total : Z;
  blocks_relayed : Z;
  failed_validations : Z;
}.

(** The names of the counters. *)
Inductive Counter : Type :=
| BlocksProposed
| BlocksVerified
| BlocksFinalized
| BlocksNotarized
| Nullifications
| ViewTimeouts
| ConflictingNotarizations
| ConflictingFinalizations
| BlocksBroadcast
| BlocksReceived
| CurrentView
| ErrorsTotal
| BlocksRelayed
| FailedValidations.

#[global] Instance Counter_eq_dec : EqDecision Counter.
Proof. solve_decision. Defined.

(** [AtomicU64::load] *)
Definition load (c : Counter) (m : ConsensusMetrics) : Z :=
  match c with
  | BlocksProposed => blocks_proposed m
  | BlocksVerified => blocks_verified m
  | BlocksFinalized => blocks_finalized m
  | BlocksNotarized => blocks_notarized m
  | Nullifications => nullifications m
  | ViewTimeouts => view_timeouts m
  | ConflictingNotarizations => conflicting_notarizations m
  | ConflictingFinalizations => conflicting_finalizations m
  | BlocksBroadcast => blocks_broadcast m
  | BlocksReceived => blocks_received m
  | CurrentView => current_view m
  | ErrorsTotal => errors_total m
  | BlocksRelayed => blocks_relayed m
  | FailedValidations => failed_validations m
  end.

(** [AtomicU64::store] *)
Definition store (c : Counter) (v : Z) (m : ConsensusMetrics) : ConsensusMetrics :=
  let put d := if decide (c = d) then v else load d m in
  mk_ConsensusMetrics
    (put BlocksProposed) (put BlocksVerified) (put BlocksFinalized)
    (put BlocksNotarized) (put Nullifications) (put ViewTimeouts)
    (put ConflictingNotarizations) (put ConflictingFinalizations) (put BlocksBroadcast)
    (put BlocksReceived) (put CurrentView) (put ErrorsTotal)
    (put BlocksRelayed) (put FailedValidations).

(** [AtomicU64::fetch_add] of one *)
Definition fetch_add (c : Counter) (m : ConsensusMetrics) : ConsensusMetrics :=
  store c (wrap 64 (load c m + 1)) m.

(** [ConsensusMetrics::new], [Default::default], [From<&M>] *)
Definition metrics_new : ConsensusMetrics :=
  mk_ConsensusMetrics 0 0 0 0 0 0 0 0 0 0 0 0 0 0.

(** [Default] and [From<&M>]: the registry of the runtime is not read. *)
Definition metrics_default : ConsensusMetrics := metrics_new.
Definition metrics_from {M : Type} (_ : M) : ConsensusMetrics := metrics_new.

Definition inc_blocks_proposed : ConsensusMetrics → ConsensusMetrics := fetch_add BlocksProposed.
Definition inc_blocks_verified : ConsensusMetrics → ConsensusMetrics := fetch_add BlocksVerified.
Definition inc_blocks_finalized : ConsensusMetrics → ConsensusMetrics := fetch_add BlocksFinalized.
Definition inc_blocks_notarized : ConsensusMetrics → ConsensusMetrics := fetch_add BlocksNotarized.
Definition inc_nullifications : ConsensusMetrics → ConsensusMetrics := fetch_add Nullifications.
Definition inc_view_timeouts : ConsensusMetrics → ConsensusMetrics := fetch_add ViewTimeouts.
Definition inc_conflicting_notarizations : ConsensusMetrics → ConsensusMetrics := fetch_add ConflictingNotarizations.
Definition inc_conflicting_finalizations : ConsensusMetrics → ConsensusMetrics := fetch_add ConflictingFinalizations.
Definition inc_blocks_broadcast : ConsensusMetrics → ConsensusMetrics := fetch_add BlocksBroadcast.
Definition inc_blocks_received : ConsensusMetrics → ConsensusMetrics := fetch_add BlocksReceived.
Definition set_current_view (v : Z) : ConsensusMetrics → ConsensusMetrics := store CurrentView v.
Definition inc_errors : ConsensusMetrics → ConsensusMetrics := fetch_add ErrorsTotal.
Definition inc_blocks_relayed : ConsensusMetrics → ConsensusMetrics := fetch_add BlocksRelayed.
Definition inc_failed_validations : ConsensusMetrics → ConsensusMetrics := fetch_add FailedValidations.

(** ** Lemmas *)

Lemma load_store c d v m :
  load d (store c v m) = if decide (c = d) then v else load d m.
Proof. by destruct d. Qed.

Lemma load_fetch_add c d m :
  load d (fetch_add c m) = if decide (c = d) then wrap 64 (load d m + 1) else load d m.
Proof. unfold fetch_add. rewrite load_store. case_decide; by subst. Qed.

Lemma load_fetch_add_ne c d m : c ≠ d → load d (fetch_add c m) = load d m.
Proof. intros. rewrite load_fetch_add. by rewrite decide_False. Qed.

Lemma load_fetch_add_eq c m : load c (fetch_add c m) = wrap 64 (load c m + 1).
Proof. rewrite load_fetch_add. by rewrite decide_True. Qed.

#[global] Arguments load : simpl never.
#[global] Arguments fetch_add : simpl never.

(** Evaluate reads of counters through increments. *)
Ltac counters :=
  rewrite ?load_fetch_add;
  repeat first [rewrite decide_False by discriminate | rewrite decide_True by reflexivity].

Definition metrics_wf (m : ConsensusMetrics) : Prop := ∀ c, is_u64 (load c m).

Lemma metrics_new_wf : metrics_wf metrics_new.
Proof. intros []; cbv; split; intros [=]. Qed.

Lemma fetch_add_wf c m : metrics_wf m → metrics_wf (fetch_add c m).
Proof.
  intros Hm d. rewrite load_fetch_add. case_decide; [apply wrap64_bound|apply Hm].
Qed.

Lemma fetch_add_comm c d m e :
  load e (fetch_add c (fetch_add d m)) = load e (fetch_add d (fetch_add c m)).
Proof. rewrite !load_fetch_add. by repeat case_decide; subst. Qed.

(** Increments commute, as a whole. *)
Lemma fetch_add_swap c d m : fetch_add c (fetch_add d m) = fetch_add d (fetch_add c m).
Proof. by destruct m, c, d. Qed.

(** At most one increment of shared counters that may be absent. *)
Definition bump (c : option Counter) (m : option ConsensusMetrics) : option ConsensusMetrics :=
  match c with Some c => fetch_add c <$> m | None => m end.

Lemma bump_comm c d m : bump c (bump d m) = bump d (bump c m).
Proof. destruct c, d, m; cbn; [|done..]. by rewrite fetch_add_swap. Qed.

Lemma inc_bump c d m : fetch_add c <$> bump d m = bump d (fetch_add c <$> m).
Proof. exact (bump_comm (Some c) d m). Qed.

#[export] Hint Resolve metrics_new_wf fetch_add_wf : allegro.

(** ** Properties *)

(** Counting is exact modulo 2^64: after any sequence of increments from
    fresh metrics, each counter holds the number of its own increments modulo
    2^64, independently of how the increments of the sharing components
    interleave. *)
Theorem metrics_count_exact (cs : list Counter) (d : Counter) :
  load d (foldl (λ m c, fetch_add c m) metrics_new cs) =
  wrap 64 (Z.of_nat (length (filter (λ c, c = d) cs))).
Proof.
  induction cs as [|c cs IH] using rev_ind; [by destruct d|].
  rewrite foldl_app, filter_app, length_app, filter_cons, filter_nil. cbn -[wrap].
  rewrite load_fetch_add, IH. case_decide.
  - unfold wrap. rewrite Zplus_mod_idemp_l. f_equal. cbn. lia.
  - cbn. by rewrite Nat.add_0_r.
Qed.
