(* ===== verification/Executor.v ===== *)
(** * allegro-consensus: the payload builder interface (crates/consensus/src/executor.rs)

    What the consensus layer asks of the execution layer: build a block for a
    request, validate a block received from a peer.  A builder acts on an
    execution-layer state [W] which it threads (asynchronous calls run to
    completion before the actor handles its next message). *)

From S2P Require Import Prelude Digest.
Local Open Scope Z_scope.

(** ** Data *)

Record BuiltPayload : Type := mk_BuiltPayload {
  bp_block_bytes : bytes;
  bp_block_hash : B256;
  bp_block_number : Z;
  bp_timestamp_millis : Z;
}.

Record BlockMeta : Type := mk_BlockMeta {
  bm_hash : B256;
  bm_number : Z;
  bm_timestamp : Z;
  bm_timestamp_millis : Z;
}.

Inductive ValidationResult : Type :=
| Valid (meta : BlockMeta)
| Invalid (reason : string).

Record BuildPayloadRequest : Type := mk_BuildPayloadRequest {
  req_parent_hash : B256;
  req_parent_number : Z;
  req_parent_view : Z;
  req_parent_digest : Digest;
  req_epoch : Z;
  req_view : Z;
  req_proposer : B256;
  req_timestamp : Z;
  req_timestamp_millis : Z;
}.

Record ValidateBlockRequest : Type := mk_ValidateBlockRequest {
  vreq_block_bytes : bytes;
  vreq_parent_hash : B256;
}.

(** alloy's engine-API records, as the program fills them. *)
Record ForkchoiceState : Type := mk_ForkchoiceState {
  head_block_hash : B256;
  safe_block_hash : B256;
  finalized_block_hash : B256;
}.

Record PayloadAttributes : Type := mk_PayloadAttributes {
  attr_timestamp : Z;
  prev_randao : B256;
  suggested_fee_recipient : bytes;
  withdrawals : option (list bytes);
  attr_parent_beacon_block_root : option B256;
  attr_slot_number : option Z;
  target_gas_limit : option Z;
}.

(** [Address::ZERO] *)
Definition Address_ZERO : bytes := replicate 20 Byte.x00.

(** ** The [PayloadBuilder] trait *)

Class PayloadBuilder (P W : Type) : Type := {
  build_payload : P → BuildPayloadRequest → W → Result BuiltPayload string * W;
  validate_block : P → bytes → B256 → W → Result ValidationResult string * W;
}.

Section builder.
Context {W : Type}.

Definition BuildPayloadFn : Type := BuildPayloadRequest → W → Result BuiltPayload string * W.
Definition ValidateBlockFn : Type :=
  ValidateBlockRequest → W → Result ValidationResult string * W.

Record EngineApiPayloadBuilder : Type := mk_EngineApiPayloadBuilder {
  build_fn : BuildPayloadFn;
  validate_fn : ValidateBlockFn;
}.

(** [EngineApiPayloadBuilder::new], [create_reth_payload_builder] *)
Definition engine_api_payload_builder_new (b : BuildPayloadFn) (v : ValidateBlockFn) :
    EngineApiPayloadBuilder := mk_EngineApiPayloadBuilder b v.
Definition create_reth_payload_builder (b : BuildPayloadFn) (v : ValidateBlockFn) :
    EngineApiPayloadBuilder := engine_api_payload_builder_new b v.

Definition engine_api_build_payload (p : EngineApiPayloadBuilder)
    (req : BuildPayloadRequest) (w : W) : Result BuiltPayload string * W :=
  build_fn p req w.

Definition engine_api_validate_block (p : EngineApiPayloadBuilder)
    (block_bytes : bytes) (parent_hash : B256) (w : W) :
    Result ValidationResult string * W :=
  validate_fn p (mk_ValidateBlockRequest block_bytes parent_hash) w.

#[global] Instance EngineApiPayloadBuilder_PayloadBuilder :
    PayloadBuilder EngineApiPayloadBuilder W := {|
  build_payload := engine_api_build_payload;
  validate_block := engine_api_validate_block;
|}.
End builder.
Arguments EngineApiPayloadBuilder : clear implicits.

(** ** Engine API helpers *)

Definition build_payload_attributes (_parent_hash : B256) (timestamp : Z) :
    PayloadAttributes := {|
  attr_timestamp := timestamp;
  prev_randao := B256_ZERO;
  suggested_fee_recipient := Address_ZERO;
  withdrawals := Some [];
  attr_parent_beacon_block_root := Some B256_ZERO;
  attr_slot_number := None;
  target_gas_limit := None;
|}.

Definition build_payload_attributes_from_request (req : BuildPayloadRequest) :
    ForkchoiceState * PayloadAttributes :=
  let forkchoice_state := {|
    head_block_hash := req_parent_hash req;
    safe_block_hash := req_parent_hash req;
    finalized_block_hash := req_parent_hash req;
  |} in
  let pay_attrs := build_payload_attributes (req_parent_hash req) (req_timestamp req) in
  (forkchoice_state, pay_attrs).

(** ** Laws of a builder

    What the actor's clients rely on: the stamps a builder reports are 64-bit
    values, and a built block's millisecond stamp belongs to the second the
    request asked for. *)
Class BuilderLaws (P W : Type) `{!PayloadBuilder P W} : Prop := {
  build_millis p r w b w' :
    is_u64 (req_timestamp_millis r) →
    req_timestamp r = req_timestamp_millis r / 1000 →
    build_payload p r w = (Ok b, w') →
    is_u64 (bp_timestamp_millis b) ∧ bp_timestamp_millis b / 1000 = req_timestamp r;
  validate_millis p b h w meta w' :
    validate_block p b h w = (Ok (Valid meta), w') → is_u64 (bm_timestamp_millis meta);
}.

(** What proposer and verifier must agree on: whenever some node finds a block
    built by another valid, it reads back the hash, the number and the
    millisecond stamp the builder reported. *)
Class BuilderAgreement (P W : Type) `{!PayloadBuilder P W} : Prop :=
  build_validate_agree p q r w b w' h v meta v' :
    is_u64 (req_parent_number r) → is_u64 (req_timestamp_millis r) →
    build_payload p r w = (Ok b, w') →
    validate_block q (bp_block_bytes b) h v = (Ok (Valid meta), v') →
    bm_hash meta = bp_block_hash b ∧ bm_number meta = bp_block_number b ∧
    bm_timestamp_millis meta = bp_timestamp_millis b.
