(* ===== verification/ReferenceBuilder.v ===== *)
(** * A reference payload builder

    An executable instance of the [PayloadBuilder] interface for the witnesses:
    a block is its number, its millisecond stamp and its parent's hash, and
    its hash is a prefix of that.  Block 0 is invalid, other lengths do not
    decode, and building past the last number fails. *)

From S2P Require Import Prelude Extern Reference Executor.
Local Open Scope Z_scope.

Record ref_builder : Type := mk_ref_builder {}.

Definition ref_block_bytes (number millis : Z) (parent : B256) : bytes :=
  be_encode 8 number ++ be_encode 8 millis ++ b256_bytes parent.

Definition ref_build (r : BuildPayloadRequest) : Result BuiltPayload string :=
  if req_parent_number r =? u64_max then Err "number overflow"%string
  else
    let number := req_parent_number r + 1 in
    let b := ref_block_bytes number (req_timestamp_millis r) (req_parent_hash r) in
    Ok (mk_BuiltPayload b (keccak256 b) number (req_timestamp_millis r)).

Definition ref_validate (b : bytes) : Result ValidationResult string :=
  if decide (length b = 48%nat) then
    let number := be_decode (take 8 b) in
    let millis := be_decode (take 8 (drop 8 b)) in
    if number =? 0 then Ok (Invalid "genesis"%string)
    else Ok (Valid (mk_BlockMeta (keccak256 b) number (millis / 1000) millis))
  else Err "rlp decode"%string.

#[export] Instance ref_payload_builder : PayloadBuilder ref_builder unit := {|
  build_payload _ r w := (ref_build r, w);
  validate_block _ b _ w := (ref_validate b, w);
|}.

#[export] Instance ref_builder_laws : BuilderLaws ref_builder unit.
Proof.
  split; cbn.
  - intros _ r [] b [] Hu Ht [= Hb]. unfold ref_build in Hb.
    destruct (req_parent_number r =? u64_max); simplify_eq/=. done.
  - intros _ b _ [] meta [] [= Hv]. unfold ref_validate in Hv.
    case_decide as Hl; [|done]. destruct (be_decode (take 8 b) =? 0); simplify_eq/=.
    pose proof (be_decode_bound (take 8 (drop 8 b))) as Hb.
    rewrite length_take, length_drop, Hl in Hb. cbn in Hb.
    unfold is_u64, u64_max. lia.
Qed.

#[export] Instance ref_builder_agreement : BuilderAgreement ref_builder unit.
Proof.
  intros _ _ r [] b [] h [] meta [] Hn Hm [= Hb] [= Hv].
  unfold ref_build in Hb. destruct (Z.eqb_spec (req_parent_number r) u64_max); [done|].
  simplify_eq. cbn -[ref_block_bytes ref_validate keccak256] in Hv |- *.
  unfold ref_validate, ref_block_bytes in Hv.
  rewrite decide_True in Hv
    by (by rewrite !length_app, !be_encode_length, B256_length).
  rewrite take_app_exact, drop_app_exact, take_app_exact in Hv by apply be_encode_length.
  unfold is_u64, u64_max in *. rewrite !be_decode_encode in Hv by (cbn; lia).
  destruct (_ =? 0); by simplify_eq/=.
Qed.
