(* ===== verification/Application.v ===== *)
(** * allegro-consensus: the application actor (crates/consensus/src/application.rs)

    The actor between the simplex engine and the execution layer.  Its state is
    the [Actor] record of the source; the fields behind an [Arc] are shared
    with the relay, the block receiver and the finalizer, whose operations
    (other files) act on the same fields.  [actor_world] is the state of the
    execution layer the payload builder acts on.

    A handler returns what it sent on the message's oneshot responder, [None]
    when it dropped the responder without an answer. *)

From S2P Require Import Prelude Extern Reference Digest Validators Metrics Executor.
From S2P Require Import ReferenceBuilder.
Local Open Scope Z_scope.

(** [simplex::types::Round] (epoch and view). *)
Record Round : Type := mk_Round { round_epoch : Z; round_view : Z }.

(** [SystemTime]: nanoseconds since the Unix epoch, negative before it. *)
Abbreviation SystemTime := Z.

(** [now.duration_since(UNIX_EPOCH).unwrap_or_default().as_millis() as u64] *)
Definition unix_millis (now : SystemTime) : Z :=
  if now <? 0 then 0 else wrap 64 (now / 1000000).

Section application.
Context `{!Ed25519}.

(** ** Block info tracking *)

Record BlockInfo : Type := mk_BlockInfo {
  bi_number : Z;
  bi_hash : B256;
  bi_view : Z;
  bi_proposer : PublicKey;
  bi_timestamp : Z;
  bi_timestamp_millis : Z;
}.

Abbreviation BlockStore := (Lock (gmap Digest bytes)).
Abbreviation BlockInfoMap := (Lock (gmap Digest BlockInfo)).

(** [new_block_stores]: pending, received, block info. *)
Definition new_block_stores : BlockStore * BlockStore * BlockInfoMap :=
  (lock_new ∅, lock_new ∅, lock_new ∅).

(** ** Messages *)

Record Propose : Type := mk_Propose {
  p_parent : Z * Digest;
  p_round : Round;
  p_leader : PublicKey;
}.

Record Verify : Type := mk_Verify {
  v_parent : Z * Digest;
  v_payload : Digest;
  v_proposer : PublicKey;
  v_round : Round;
}.

Record Broadcast (R : Type) : Type := mk_Broadcast { b_digest : Digest; b_plan : Plan R }.
Arguments mk_Broadcast {R}.
Arguments b_digest {R}.
Arguments b_plan {R}.

Inductive Message (R : Type) : Type :=
| Message_Propose (p : Propose)
| Message_Verify (v : Verify)
| Message_Broadcast (b : Broadcast R).
Arguments Message_Propose {R}.
Arguments Message_Verify {R}.
Arguments Message_Broadcast {R}.

(** [simplex::types::Context], and the [Automaton] of the mailbox: the message
    it forwards to the actor. *)
Record SimplexContext : Type := mk_SimplexContext {
  c_round : Round;
  c_leader : PublicKey;
  c_parent : Z * Digest;
}.

Definition mailbox_propose {R} (context : SimplexContext) : Message R :=
  Message_Propose {|
    p_parent := c_parent context;
    p_round := c_round context;
    p_leader := c_leader context;
  |}.

Definition mailbox_verify {R} (context : SimplexContext) (payload : Digest) : Message R :=
  Message_Verify {|
    v_parent := c_parent context;
    v_payload := payload;
    v_proposer := c_leader context;
    v_round := c_round context;
  |}.

(** ** The actor *)

Record Actor (P W : Type) : Type := mk_Actor {
  actor_validators : ValidatorSet;
  proposal_count : Z;
  proposals : Lock (list Digest);
  pending_blocks : BlockStore;
  received_blocks : BlockStore;
  block_info : BlockInfoMap;
  payload_builder : P;
  metrics : option ConsensusMetrics;
  actor_world : W;
}.
Arguments mk_Actor {P W}.
Arguments actor_validators {P W}.
Arguments proposal_count {P W}.
Arguments proposals {P W}.
Arguments pending_blocks {P W}.
Arguments received_blocks {P W}.
Arguments block_info {P W}.
Arguments payload_builder {P W}.
Arguments metrics {P W}.
Arguments actor_world {P W}.

Section actor.
Context {P W : Type} `{!PayloadBuilder P W} {R : Type}.
Implicit Types (st : Actor P W).

Definition set_proposal_count n st : Actor P W :=
  mk_Actor (actor_validators st) n (proposals st) (pending_blocks st) (received_blocks st)
    (block_info st) (payload_builder st) (metrics st) (actor_world st).
Definition set_proposals l st : Actor P W :=
  mk_Actor (actor_validators st) (proposal_count st) l (pending_blocks st)
    (received_blocks st) (block_info st) (payload_builder st) (metrics st) (actor_world st).
Definition set_pending l st : Actor P W :=
  mk_Actor (actor_validators st) (proposal_count st) (proposals st) l
    (received_blocks st) (block_info st) (payload_builder st) (metrics st) (actor_world st).
Definition set_received l st : Actor P W :=
  mk_Actor (actor_validators st) (proposal_count st) (proposals st) (pending_blocks st) l
    (block_info st) (payload_builder st) (metrics st) (actor_world st).
Definition set_block_info l st : Actor P W :=
  mk_Actor (actor_validators st) (proposal_count st) (proposals st) (pending_blocks st)
    (received_blocks st) l (payload_builder st) (metrics st) (actor_world st).
Definition set_metrics m st : Actor P W :=
  mk_Actor (actor_validators st) (proposal_count st) (proposals st) (pending_blocks st)
    (received_blocks st) (block_info st) (payload_builder st) m (actor_world st).
Definition set_world w st : Actor P W :=
  mk_Actor (actor_validators st) (proposal_count st) (proposals st) (pending_blocks st)
    (received_blocks st) (block_info st) (payload_builder st) (metrics st) w.

(** [if let Some(ref m) = self.metrics { m.inc_...() }] *)
Definition on_metrics (inc : ConsensusMetrics → ConsensusMetrics) st : Actor P W :=
  set_metrics (inc <$> metrics st) st.

(** The actor that [Actor::new] returns: it registers the genesis block under
    the empty digest. *)
Definition actor_made (validators : ValidatorSet)
    (proposals_opt : option (Lock (list Digest)))
    (pending received : BlockStore) (info : BlockInfoMap) (builder : P)
    (m : option ConsensusMetrics)
    (genesis_hash : B256) (genesis_timestamp genesis_timestamp_millis : Z) (w : W) :
    Actor P W :=
  let genesis_digest := EMPTY in
  let genesis_sk := from_seed 0 in
  let info := lock_update (<[genesis_digest := {|
    bi_number := 0;
    bi_hash := genesis_hash;
    bi_view := 0;
    bi_proposer := public_key genesis_sk;
    bi_timestamp := genesis_timestamp;
    bi_timestamp_millis := genesis_timestamp_millis |}]>) info in
  {| actor_validators := validators;
     proposal_count := 0;
     proposals := default (lock_new []) proposals_opt;
     pending_blocks := pending;
     received_blocks := received;
     block_info := info;
     payload_builder := builder;
     metrics := m;
     actor_world := w |}.

(** The sender's side of the channel between the engine and the actor: what
    its buffer is. *)
Record Mailbox : Type := mk_Mailbox { mailbox_buffer : Z }.

(** [Actor::new]; [None] is the panic of [mpsc::channel], which refuses a
    buffer that is too large. *)
Definition actor_new `{!MpscChannel} (validators : ValidatorSet) (mailbox_size : Z)
    (proposals_opt : option (Lock (list Digest)))
    (pending received : BlockStore) (info : BlockInfoMap) (builder : P)
    (m : option ConsensusMetrics)
    (genesis_hash : B256) (genesis_timestamp genesis_timestamp_millis : Z) (w : W) :
    option (Actor P W * Mailbox) :=
  let actor := actor_made validators proposals_opt pending received info builder m
    genesis_hash genesis_timestamp genesis_timestamp_millis w in
  if mailbox_size <? mpsc_max_buffer then Some (actor, mk_Mailbox mailbox_size) else None.

(** *** [handle_propose] *)

(** Parent number, hash and millisecond stamp, with the fallback of an
    unknown parent. *)
Definition parent_of (guard : gmap Digest BlockInfo) (parent_digest : Digest) :
    Z * B256 * Z :=
  default (0, B256_ZERO, 0)
    ((λ info, (bi_number info, bi_hash info, bi_timestamp_millis info)) <$>
     guard !! parent_digest).

Definition propose_request (now : SystemTime) (msg : Propose)
    (parent : Z * B256 * Z) (proposer_bytes : B256) : BuildPayloadRequest :=
  let '(parent_number, parent_hash, parent_timestamp_millis) := parent in
  let '(parent_view, parent_digest) := p_parent msg in
  let now_millis := unix_millis now in
  let timestamp_millis :=
    Z.max now_millis (u64_saturating_add parent_timestamp_millis 1) in
  let timestamp := timestamp_millis / 1000 in
  {| req_parent_hash := parent_hash;
     req_parent_number := parent_number;
     req_parent_view := parent_view;
     req_parent_digest := parent_digest;
     req_epoch := round_epoch (p_round msg);
     req_view := round_view (p_round msg);
     req_proposer := proposer_bytes;
     req_timestamp := timestamp;
     req_timestamp_millis := timestamp_millis |}.

Definition handle_propose (now : SystemTime) (msg : Propose) st :
    Exec (option Digest) (Actor P W) :=
  let st := set_proposal_count (wrap 64 (proposal_count st + 1)) st in
  let st := on_metrics inc_blocks_proposed st in
  match lock_read (block_info st) with
  | Err _ => Done None st
  | Ok guard =>
    let parent := parent_of guard (p_parent msg).2 in
    match copy_from_slice (pk_as_ref (p_leader msg)) with
    | None => Panicked st
    | Some proposer_bytes =>
      let request := propose_request now msg parent proposer_bytes in
      let '(built, w) := build_payload (payload_builder st) request (actor_world st) in
      let st := set_world w st in
      match built with
      | Err _ => Done None (on_metrics inc_errors st)
      | Ok payload =>
        let digest := mk_Digest (bp_block_hash payload) in
        let st := set_block_info (lock_update (<[digest := {|
            bi_number := bp_block_number payload;
            bi_hash := bp_block_hash payload;
            bi_view := round_view (p_round msg);
            bi_proposer := p_leader msg;
            bi_timestamp := req_timestamp request;
            bi_timestamp_millis := bp_timestamp_millis payload |}]>) (block_info st)) st in
        let st := set_pending
          (lock_update (<[digest := bp_block_bytes payload]>) (pending_blocks st)) st in
        let st := set_proposals (lock_update (λ l, l ++ [digest]) (proposals st)) st in
        Done (Some digest) st
      end
    end
  end.

(** *** [handle_verify] *)

(** The bytes of a block: ours, or received from a peer; [Err] when the
    pending lock is poisoned. *)
Definition lookup_block_bytes (payload : Digest) st : Result (option bytes) unit :=
  let? guard := lock_read (pending_blocks st) in
  Ok (match guard !! payload with
      | Some b => Some b
      | None =>
        match lock_read (received_blocks st) with
        | Ok guard => guard !! payload
        | Err _ => None
        end
      end).

Definition handle_verify (msg : Verify) st : option bool * Actor P W :=
  match validator_lookup (actor_validators st) (v_proposer msg) with
  | None => (Some false, on_metrics inc_failed_validations st)
  | Some _ =>
    match lookup_block_bytes (v_payload msg) st with
    | Err _ => (Some false, st)
    | Ok None => (Some false, on_metrics inc_failed_validations st)
    | Ok (Some block_bytes) =>
      let expected_parent_hash := digest_get (v_parent msg).2 in
      let '(validated, w) :=
        validate_block (payload_builder st) block_bytes expected_parent_hash
          (actor_world st) in
      let st := set_world w st in
      match validated with
      | Ok (Valid meta) =>
        if negb (bm_timestamp_millis meta / 1000 =? bm_timestamp meta)
        then (Some false, on_metrics inc_failed_validations st)
        else
          let st := set_block_info (lock_update (<[v_payload msg := {|
              bi_number := bm_number meta;
              bi_hash := bm_hash meta;
              bi_view := round_view (v_round msg);
              bi_proposer := v_proposer msg;
              bi_timestamp := bm_timestamp meta;
              bi_timestamp_millis := bm_timestamp_millis meta |}]>) (block_info st)) st in
          (Some true, on_metrics inc_blocks_verified st)
      | Ok (Invalid _) => (Some false, on_metrics inc_failed_validations st)
      | Err _ =>
        (Some false, on_metrics inc_failed_validations (on_metrics inc_errors st))
      end
    end
  end.

(** *** [handle_broadcast] only logs. *)
Definition handle_broadcast (msg : Broadcast R) st : Actor P W := st.

(** *** [run]: one message at a time, until the channel closes or a handler
    panics.  [now] is the clock at the time the message is handled. *)

Inductive Response : Type :=
| Response_Propose (answer : option Digest)
| Response_Verify (answer : option bool)
| Response_None.

Definition handle_message (now : SystemTime) (msg : Message R) st :
    Exec Response (Actor P W) :=
  match msg with
  | Message_Propose p =>
    match handle_propose now p st with
    | Done answer st => Done (Response_Propose answer) st
    | Panicked st => Panicked st
    end
  | Message_Verify v =>
    let '(answer, st) := handle_verify v st in Done (Response_Verify answer) st
  | Message_Broadcast b => Done Response_None (handle_broadcast b st)
  end.

Fixpoint run (msgs : list (SystemTime * Message R)) st : Exec (list Response) (Actor P W) :=
  match msgs with
  | [] => Done [] st
  | (now, msg) :: msgs =>
    match handle_message now msg st with
    | Panicked st => Panicked st
    | Done r st =>
      match run msgs st with
      | Panicked st => Panicked st
      | Done rs st => Done (r :: rs) st
      end
    end
  end.
End actor.
End application.

Arguments mk_Broadcast {R}.
Arguments b_digest {R}.
Arguments b_plan {R}.
Arguments Message_Propose {_ R}.
Arguments Message_Verify {_ R}.
Arguments Message_Broadcast {_ R}.
Arguments mk_Actor {_ P W}.
Arguments actor_validators {_ P W}.
Arguments proposal_count {_ P W}.
Arguments proposals {_ P W}.
Arguments pending_blocks {_ P W}.
Arguments received_blocks {_ P W}.
Arguments block_info {_ P W}.
Arguments payload_builder {_ P W}.
Arguments metrics {_ P W}.
Arguments actor_world {_ P W}.

Abbreviation BlockStore := (Lock (gmap Digest bytes)).
Abbreviation BlockInfoMap := (Lock (gmap Digest BlockInfo)).

(** ** Lemmas *)

Section lemmas.
Context `{!Ed25519} {P W : Type} `{!PayloadBuilder P W} {R : Type}.
Implicit Types (st : Actor P W) (msg : Verify).

(** The shared stores and counters a rejected message must leave alone. *)
Definition stores st :=
  (actor_validators st, proposals st, pending_blocks st, received_blocks st, block_info st).

(** The abstract condition under which a proposal is acceptable: a known
    proposer, bytes at hand, a valid block, consistent time stamps. *)
Definition acceptable msg st (meta : BlockMeta) (w : W) : Prop :=
  is_Some (actor_validators st !! v_proposer msg) ∧
  (∃ b, lookup_block_bytes (v_payload msg) st = Ok (Some b) ∧
        validate_block (payload_builder st) b (digest_get (v_parent msg).2)
          (actor_world st) = (Ok (Valid meta), w)) ∧
  bm_timestamp_millis meta / 1000 = bm_timestamp meta.

(** What accepting records. *)
Definition verified_info msg (meta : BlockMeta) : BlockInfo := {|
  bi_number := bm_number meta;
  bi_hash := bm_hash meta;
  bi_view := round_view (v_round msg);
  bi_proposer := v_proposer msg;
  bi_timestamp := bm_timestamp meta;
  bi_timestamp_millis := bm_timestamp_millis meta |}.

Definition verify_record msg meta w st : Actor P W :=
  on_metrics inc_blocks_verified
    (set_block_info (lock_update (<[v_payload msg := verified_info msg meta]>)
       (block_info st)) (set_world w st)).

Lemma handle_verify_acceptable msg st meta w :
  acceptable msg st meta w → handle_verify msg st = (Some true, verify_record msg meta w st).
Proof.
  intros ([a Ha] & (b & Hb & Hv) & Hms). unfold handle_verify, validator_lookup.
  rewrite Ha, Hb, Hv, (proj2 (Z.eqb_eq _ _) Hms). done.
Qed.

(** Every other message is answered [false], and touches nothing but the
    metrics and the execution layer. *)
Lemma handle_verify_cases msg st :
  (∃ meta w, acceptable msg st meta w) ∨
  ((handle_verify msg st).1 = Some false ∧ stores (handle_verify msg st).2 = stores st ∧
   ∀ meta w, ¬ acceptable msg st meta w).
Proof.
  destruct (handle_verify msg st) as [answer st'] eqn:Hh.
  unfold handle_verify, validator_lookup in Hh. unfold acceptable.
  destruct (actor_validators st !! v_proposer msg) as [a|].
  2: { simplify_eq. right. split_and!; [done|done|]. by intros ? ? [[? [=]] _]. }
  destruct (lookup_block_bytes _ st) as [[b|]|].
  2,3: simplify_eq; right; split_and!; [done|done|]; intros ? ? (_ & (? & [=] & _) & _).
  destruct (validate_block _ b _ _) as [[[meta|]|] w] eqn:Hv.
  2,3: simplify_eq; right; split_and!; [done|done|];
       intros ? ? (_ & (? & [= <-] & ?) & _); congruence.
  destruct (Z.eqb_spec (bm_timestamp_millis meta / 1000) (bm_timestamp meta)) as [He|He].
  - left. exists meta, w. eauto.
  - simplify_eq/=. right. split_and!; [done|done|].
    intros ? ? (_ & (? & [= <-] & ?) & ?). congruence.
Qed.

(** The same split for a proposal: unreadable block info, a key that is not 32
    bytes, a failed build, a built payload. *)
Definition proposal_started st : Actor P W :=
  on_metrics inc_blocks_proposed (set_proposal_count (wrap 64 (proposal_count st + 1)) st).

Definition proposed_info (m : Propose) (r : BuildPayloadRequest) (b : BuiltPayload) :
    BlockInfo := {|
  bi_number := bp_block_number b;
  bi_hash := bp_block_hash b;
  bi_view := round_view (p_round m);
  bi_proposer := p_leader m;
  bi_timestamp := req_timestamp r;
  bi_timestamp_millis := bp_timestamp_millis b |}.

Definition propose_record (m : Propose) (r : BuildPayloadRequest) (b : BuiltPayload) (w : W) st :
    Actor P W :=
  let d := mk_Digest (bp_block_hash b) in
  mk_Actor (actor_validators st) (wrap 64 (proposal_count st + 1))
    (lock_update (λ l, l ++ [d]) (proposals st))
    (lock_update (<[d := bp_block_bytes b]>) (pending_blocks st))
    (received_blocks st)
    (lock_update (<[d := proposed_info m r b]>) (block_info st))
    (payload_builder st) (inc_blocks_proposed <$> metrics st) w.

Lemma handle_propose_poisoned now m st :
  poisoned (block_info st) = true → handle_propose now m st = Done None (proposal_started st).
Proof. intros Hp. unfold handle_propose, lock_read. cbn. by rewrite Hp. Qed.

Lemma handle_propose_readable now m st k :
  poisoned (block_info st) = false →
  copy_from_slice (pk_as_ref (p_leader m)) = Some k →
  let r := propose_request now m (parent_of (guarded (block_info st)) (p_parent m).2) k in
  handle_propose now m st =
  match build_payload (payload_builder st) r (actor_world st) with
  | (Err _, w) => Done None (on_metrics inc_errors (set_world w (proposal_started st)))
  | (Ok b, w) => Done (Some (mk_Digest (bp_block_hash b))) (propose_record m r b w st)
  end.
Proof.
  intros Hp Hk r. unfold handle_propose, lock_read. cbn. rewrite Hp, Hk. fold r.
  by destruct (build_payload _ r _) as [[]].
Qed.

Lemma handle_propose_Some now m st d st' :
  handle_propose now m st = Done (Some d) st' →
  ∃ k b w,
    let r := propose_request now m (parent_of (guarded (block_info st)) (p_parent m).2) k in
    poisoned (block_info st) = false ∧
    build_payload (payload_builder st) r (actor_world st) = (Ok b, w) ∧
    d = mk_Digest (bp_block_hash b) ∧ st' = propose_record m r b w st.
Proof.
  intros Hh. destruct (poisoned (block_info st)) eqn:Hp.
  { rewrite handle_propose_poisoned in Hh by done. by simplify_eq. }
  destruct (copy_from_slice (pk_as_ref (p_leader m))) as [k|] eqn:Hk.
  2: { unfold handle_propose, lock_read in Hh. cbn in Hh. by rewrite Hp, Hk in Hh. }
  rewrite (handle_propose_readable _ _ _ k) in Hh by done. cbv zeta in Hh.
  exists k. destruct (build_payload _ _ _) as [[b|e] w] eqn:Hb; simplify_eq. by exists b, w.
Qed.

Lemma handle_verify_true msg st st' :
  handle_verify msg st = (Some true, st') →
  ∃ meta w, acceptable msg st meta w ∧ st' = verify_record msg meta w st.
Proof.
  intros Hh. destruct (handle_verify_cases msg st) as [(meta & w & Ha)|(Hf & _)].
  - rewrite (handle_verify_acceptable _ _ _ _ Ha) in Hh. simplify_eq. eauto.
  - by rewrite Hh in Hf.
Qed.

Lemma leader_bytes `{!Ed25519Laws} (k : PublicKey) :
  ∃ b, copy_from_slice (pk_as_ref k) = Some b ∧ b256_bytes b = pk_as_ref k.
Proof. apply copy_from_slice_is_Some, pk_as_ref_length. Qed.

Lemma handle_message_done `{!Ed25519Laws} now (m : Message R) st :
  ∃ r st', handle_message now m st = Done r st'.
Proof.
  destruct m as [p|v|b]; cbn; [| |by eauto].
  - destruct (poisoned (block_info st)) eqn:Hp.
    { rewrite handle_propose_poisoned by done. eauto. }
    destruct (leader_bytes (p_leader p)) as (k & Hk & _).
    rewrite (handle_propose_readable _ _ _ k) by done.
    destruct (build_payload _ _ _) as [[] ]; eauto.
  - destruct (handle_verify v st). eauto.
Qed.
End lemmas.

(** What a message does to the stores: nothing, a proposal recorded, or an
    accepted block recorded. *)
Section effects.
Context `{!Ed25519} {P W : Type} `{!PayloadBuilder P W} {R : Type}.
Implicit Types (st : Actor P W).

Inductive message_effect now (st : Actor P W) : Message R → Actor P W → Prop :=
| effect_none m st' : stores st' = stores st → message_effect now st m st'
| effect_propose p k b w :
    let r := propose_request now p (parent_of (guarded (block_info st)) (p_parent p).2) k in
    build_payload (payload_builder st) r (actor_world st) = (Ok b, w) →
    message_effect now st (Message_Propose p) (propose_record p r b w st)
| effect_verify v meta w :
    acceptable v st meta w →
    message_effect now st (Message_Verify v) (verify_record v meta w st).

(** A proposal that answers nothing changes no store. *)
Lemma handle_propose_rejected now p st :
  match handle_propose now p st with
  | Done (Some _) _ => True
  | Done None st' | Panicked st' => stores st' = stores st
  end.
Proof.
  unfold handle_propose. destruct (lock_read _); [|done].
  destruct (copy_from_slice _); [|done]. by destruct (build_payload _ _ _) as [[] ].
Qed.

Lemma handle_message_effect now (m : Message R) st :
  message_effect now st m (exec_state (handle_message now m st)).
Proof.
  destruct m as [p|v|b]; cbn; [| |by apply effect_none].
  - pose proof (handle_propose_rejected now p st) as Hs.
    destruct (handle_propose now p st) as [[d|] st'|st'] eqn:Hh; cbn; [|by apply effect_none..].
    apply handle_propose_Some in Hh as (k & b & w & _ & Hb & _ & ->).
    by apply effect_propose.
  - destruct (handle_verify_cases v st) as [(meta & w & Ha)|(_ & Hs & _)].
    + rewrite (handle_verify_acceptable _ _ _ _ Ha). by apply effect_verify.
    + destruct (handle_verify v st). by apply effect_none.
Qed.
End effects.

(** ** Invariants of the actor *)

Section invariant.
Context `{!Ed25519} {P W : Type} `{!PayloadBuilder P W} {R : Type}.
Implicit Types (st : Actor P W) (msg : Verify).

(** A record's millisecond stamp is a [u64] of the second it records. *)
Definition info_consistent (i : BlockInfo) : Prop :=
  is_u64 (bi_timestamp_millis i) ∧ bi_timestamp_millis i / 1000 = bi_timestamp i.

Record actor_inv st : Prop := mk_actor_inv {
  inv_info : map_Forall (λ _, info_consistent) (guarded (block_info st));
  inv_genesis : is_Some (guarded (block_info st) !! EMPTY);
  inv_pending d :
    poisoned (block_info st) = false →
    is_Some (guarded (pending_blocks st) !! d) → is_Some (guarded (block_info st) !! d);
  inv_proposals d :
    poisoned (pending_blocks st) = false →
    d ∈ guarded (proposals st) → is_Some (guarded (pending_blocks st) !! d);
}.

(** The invariant depends on three stores only. *)
Lemma actor_inv_stores st st' :
  proposals st' = proposals st → pending_blocks st' = pending_blocks st →
  block_info st' = block_info st → actor_inv st → actor_inv st'.
Proof. intros Hp Hb Hi []. split; intros *; rewrite ?Hp, ?Hb, ?Hi; eauto. Qed.

Lemma insert_is_Some {A} (m : gmap Digest A) d e x :
  is_Some (m !! e) → is_Some (<[d := x]> m !! e).
Proof. intros. rewrite lookup_insert_is_Some'. auto. Qed.

(** Recording one more consistent block info preserves it. *)
Lemma actor_inv_record d i st st' :
  info_consistent i → proposals st' = proposals st →
  pending_blocks st' = pending_blocks st →
  block_info st' = lock_update (<[d := i]>) (block_info st) →
  actor_inv st → actor_inv st'.
Proof.
  intros Hi Hp Hb Hinfo [H1 H2 H3 H4]. split; rewrite ?Hinfo, ?Hp, ?Hb.
  - apply lock_update_ind; [done|]. intros. by apply map_Forall_insert_2.
  - apply lock_update_ind; [done|]. by apply insert_is_Some.
  - intros e. rewrite lock_update_poisoned. intros Hf He.
    rewrite lock_update_guarded by done. apply insert_is_Some. auto.
  - intros e Hf. auto.
Qed.

(** So do the other two stores of a proposal, each once the one before it is
    made. *)
Lemma actor_inv_pending d b st :
  (poisoned (block_info st) = false → is_Some (guarded (block_info st) !! d)) →
  actor_inv st → actor_inv (set_pending (lock_update (<[d := b]>) (pending_blocks st)) st).
Proof.
  intros Hd [H1 H2 H3 H4]. split; cbn; [done|done| |].
  - intros e Hf. apply (lock_update_ind (λ m, is_Some (m !! e) → _)); [by apply H3|].
    intros _. rewrite lookup_insert_is_Some'. intros [<-|He]; [by apply Hd|by apply H3].
  - intros e. rewrite lock_update_poisoned. intros Hf He.
    rewrite lock_update_guarded by done. by apply insert_is_Some, H4.
Qed.

Lemma actor_inv_proposal d st :
  (poisoned (pending_blocks st) = false → is_Some (guarded (pending_blocks st) !! d)) →
  actor_inv st → actor_inv (set_proposals (lock_update (λ l, l ++ [d]) (proposals st)) st).
Proof.
  intros Hd [H1 H2 H3 H4]. split; cbn; [done..|].
  intros e Hf. apply (lock_update_ind (λ l, e ∈ l → _)); [by apply H4|].
  intros _ [|<-%list_elem_of_singleton]%elem_of_app; [by apply H4|by apply Hd].
Qed.

Lemma unix_millis_u64 now : is_u64 (unix_millis now).
Proof.
  unfold unix_millis. destruct (now <? 0); [unfold is_u64, u64_max; lia|].
  apply wrap64_bound.
Qed.

Lemma propose_request_stamps now m parent k :
  is_u64 parent.2 →
  let r := propose_request now m parent k in
  is_u64 (req_timestamp_millis r) ∧
  req_timestamp r = req_timestamp_millis r / 1000 ∧
  unix_millis now ≤ req_timestamp_millis r ∧
  parent.2 ≤ req_timestamp_millis r ∧
  (parent.2 < u64_max → parent.2 < req_timestamp_millis r).
Proof.
  destruct parent as [[pn ph] pms], m as [[pv pd] rd ld]. cbn. intros Hp.
  pose proof (unix_millis_u64 now).
  unfold is_u64, u64_saturating_add in *. split_and!; lia.
Qed.

Lemma parent_of_u64 st d :
  actor_inv st → is_u64 (parent_of (guarded (block_info st)) d).2.
Proof.
  intros [Hinfo _ _ _]. unfold parent_of.
  destruct (guarded (block_info st) !! d) as [i|] eqn:E; cbn.
  - by apply (Hinfo _ _ E).
  - unfold is_u64, u64_max. lia.
Qed.

Context `{!BuilderLaws P W}.

Lemma propose_inv now m st :
  actor_inv st → actor_inv (exec_state (handle_propose now m st)).
Proof.
  intros Hst. destruct (poisoned (block_info st)) eqn:Hp.
  { rewrite handle_propose_poisoned by done. by apply (actor_inv_stores st). }
  destruct (copy_from_slice (pk_as_ref (p_leader m))) as [k|] eqn:Hk.
  2: { unfold handle_propose, lock_read. cbn. rewrite Hp, Hk. by apply (actor_inv_stores st). }
  rewrite (handle_propose_readable _ _ _ k) by done. cbv zeta.
  set (r := propose_request _ _ _ _).
  destruct (build_payload _ r _) as [[b|e] w] eqn:Hb; [|by apply (actor_inv_stores st)].
  destruct (propose_request_stamps now m (parent_of (guarded (block_info st)) (p_parent m).2) k)
    as (Hu & Ht & _); [by apply parent_of_u64|].
  destruct (build_millis _ _ _ _ _ Hu Ht Hb) as [Hbu Hbt].
  set (d := mk_Digest (bp_block_hash b)).
  assert (Hrec : actor_inv (set_block_info
    (lock_update (<[d := proposed_info m r b]>) (block_info st)) st)).
  { by apply (actor_inv_record d (proposed_info m r b) st). }
  apply (actor_inv_pending d (bp_block_bytes b)) in Hrec.
  2: { cbn. intros _. rewrite lock_update_guarded by done. by rewrite lookup_insert_eq. }
  apply (actor_inv_proposal d) in Hrec.
  2: { cbn. rewrite lock_update_poisoned. intros Hf. rewrite lock_update_guarded by done.
       by rewrite lookup_insert_eq. }
  by eapply actor_inv_stores, Hrec.
Qed.

Lemma verify_inv msg st : actor_inv st → actor_inv (handle_verify msg st).2.
Proof.
  intros Hst. destruct (handle_verify_cases msg st) as [(meta & w & Ha)|(_ & Hs & _)].
  - rewrite (handle_verify_acceptable _ _ _ _ Ha).
    destruct Ha as (_ & (b & _ & Hv) & Hms). cbn.
    apply (actor_inv_record (v_payload msg) (verified_info msg meta) st);
      [split; [by eapply validate_millis|done]|done..].
  - unfold stores in Hs. simplify_eq. by apply (actor_inv_stores st).
Qed.

Lemma handle_message_inv now (m : Message R) st :
  actor_inv st → actor_inv (exec_state (handle_message now m st)).
Proof.
  intros Hst. destruct m as [p|v|b]; cbn; [| |done].
  - pose proof (propose_inv now p st Hst). by destruct (handle_propose now p st).
  - pose proof (verify_inv v st Hst). by destruct (handle_verify v st).
Qed.

Lemma run_inv (msgs : list (SystemTime * Message R)) st :
  actor_inv st → actor_inv (exec_state (run msgs st)).
Proof.
  revert st. induction msgs as [|[now m] msgs IH]; intros st Hst; [done|]. cbn.
  pose proof (handle_message_inv now m st Hst) as Hm.
  destruct (handle_message now m st) as [r st1|st1]; [|done].
  pose proof (IH st1 Hm). by destruct (run msgs st1).
Qed.
End invariant.

(** Handlers leave the poison flags and the validators alone. *)
Section frame.
Context `{!Ed25519} {P W : Type} `{!PayloadBuilder P W} {R : Type}.
Implicit Types (st : Actor P W).

Definition flags st :=
  (poisoned (proposals st), poisoned (pending_blocks st), poisoned (received_blocks st),
   poisoned (block_info st), actor_validators st).

Lemma handle_message_flags now (m : Message R) st :
  flags (exec_state (handle_message now m st)) = flags st.
Proof.
  destruct m as [p|v|b]; cbn; [| |done].
  - unfold handle_propose. destruct (lock_read _); [|done].
    destruct (copy_from_slice _); [|done].
    destruct (build_payload _ _ _) as [[] ]; [|done].
    unfold flags. cbn. by rewrite !lock_update_poisoned.
  - destruct (handle_verify_cases v st) as [(meta & w & Ha)|(_ & Hs & _)].
    + rewrite (handle_verify_acceptable _ _ _ _ Ha). unfold flags. cbn.
      by rewrite lock_update_poisoned.
    + destruct (handle_verify v st) as [a st1]. cbn in *. unfold stores in Hs.
      unfold flags. congruence.
Qed.
End frame.

(** ** Sample states for the witnesses *)

Definition sample_entry (i : Z) : ValidatorEntry :=
  mk_ValidatorEntry (key_of i) (SocketV4 2130706433 (3000 + i)) (Ipv4 2130706433).
Definition sample_validators : ValidatorSet := from_entries [sample_entry 0; sample_entry 1].

Definition sample_actor : Actor ref_builder unit :=
  actor_made sample_validators None (lock_new ∅) (lock_new ∅) (lock_new ∅)
    mk_ref_builder (Some metrics_new) (B256_repeat Byte.x99) 1700000000 1700000000000 tt.

Definition sample_now : SystemTime := 1700000001234567890.
Definition sample_propose : Propose := mk_Propose (0, EMPTY) (mk_Round 0 1) (key_of 0).

(** The block the sample proposal builds on genesis. *)
Definition sample_payload : BuiltPayload :=
  let b := ref_block_bytes 1 1700000001234 (B256_repeat Byte.x99) in
  mk_BuiltPayload b (keccak256 b) 1 1700000001234.
Definition sample_digest : Digest := mk_Digest (bp_block_hash sample_payload).

Definition sample_verify : Verify :=
  mk_Verify (0, EMPTY) sample_digest (key_of 0) (mk_Round 0 1).

(** The peer that received the sample block under the digest [d]. *)
Definition sample_peer (d : Digest) : Actor ref_builder unit :=
  set_received (lock_new {[d := bp_block_bytes sample_payload]}) sample_actor.

(** ** Properties *)

Section properties.
Context `{!Ed25519} {P W : Type} `{!PayloadBuilder P W} {R : Type}.
Implicit Types (st : Actor P W) (msg : Verify).

(** C16: the time stamps of a proposal: the request a leader hands to the
    builder has [timestamp = timestamp_millis / 1000], a millisecond stamp not
    before the clock and strictly after the parent's (equal only when the
    parent's is the largest 64-bit value), and seconds that never go below the
    parent's, but need not be above them: with a clock not after the parent's
    stamp, a child stays in its parent's second as long as the next millisecond
    does.  (The repository's documents state another rule, one second after the
    parent at least.) *)
Theorem propose_stamps_monotone now (m : Propose) st k :
  actor_inv st →
  let parent := parent_of (guarded (block_info st)) (p_parent m).2 in
  let r := propose_request now m parent k in
  is_u64 (req_timestamp_millis r) ∧
  req_timestamp r = req_timestamp_millis r / 1000 ∧
  unix_millis now ≤ req_timestamp_millis r ∧
  (parent.2 < u64_max → parent.2 < req_timestamp_millis r) ∧
  (∀ i, guarded (block_info st) !! (p_parent m).2 = Some i →
        bi_timestamp i ≤ req_timestamp r) ∧
  (unix_millis now ≤ parent.2 → parent.2 < u64_max →
   (parent.2 + 1) / 1000 = parent.2 / 1000 → req_timestamp r = parent.2 / 1000).
Proof.
  intros Hst parent r. pose proof (parent_of_u64 st (p_parent m).2 Hst) as Hu.
  destruct (propose_request_stamps now m parent k Hu) as (H1 & H2 & H3 & H4 & H5).
  fold r in H1, H2, H3, H4, H5. split_and!; [done..| |].
  - intros i Hi. destruct Hst as [Hinfo _ _ _]. destruct (Hinfo _ _ Hi) as [_ <-].
    rewrite H2. apply Z.div_le_mono; [lia|]. etrans; [|apply H4].
    unfold parent, parent_of. by rewrite Hi.
  - intros Hnow Hmax Hsec. rewrite H2. rewrite <- Hsec. f_equal. unfold r, propose_request.
    destruct parent as [[pn ph] pms]. destruct (p_parent m). cbn [req_timestamp_millis snd] in *.
    unfold u64_saturating_add. lia.
Qed.

(** A proposal that builds: the leader answers the hash of the built
    block, records its info under that digest, keeps its bytes for the relay
    and appends the digest to the proposals; the info's hash is the digest, and
    received blocks and validators are untouched. *)
Theorem propose_success now (m : Propose) st k b w :
  poisoned (block_info st) = false → b256_bytes k = pk_as_ref (p_leader m) →
  let r := propose_request now m (parent_of (guarded (block_info st)) (p_parent m).2) k in
  build_payload (payload_builder st) r (actor_world st) = (Ok b, w) →
  let d := mk_Digest (bp_block_hash b) in
  ∃ st', handle_propose now m st = Done (Some d) st' ∧
    guarded (block_info st') !! d = Some (proposed_info m r b) ∧
    bi_hash (proposed_info m r b) = digest_get d ∧
    (∀ e, e ≠ d → guarded (block_info st') !! e = guarded (block_info st) !! e) ∧
    pending_blocks st' = lock_update (<[d := bp_block_bytes b]>) (pending_blocks st) ∧
    proposals st' = lock_update (λ l, l ++ [d]) (proposals st) ∧
    received_blocks st' = received_blocks st ∧ actor_validators st' = actor_validators st ∧
    actor_world st' = w.
Proof.
  intros Hp Hk r Hb d. apply copy_from_slice_Some in Hk.
  rewrite (handle_propose_readable _ _ _ k) by done. fold r. rewrite Hb.
  eexists. split; [done|]. cbn. rewrite lock_update_guarded by done.
  split_and!; [apply lookup_insert_eq|done| |done..].
  intros e He. by rewrite lookup_insert_ne.
Qed.

(** A proposal that fails leaves no trace in the stores: when the builder
    errs, or the block info cannot be read, the responder is dropped without
    an answer, and block info, pending and received blocks and proposals are
    what they were; only counters and, on a builder error, the execution layer
    moved. *)
Theorem propose_failure now (m : Propose) st k :
  b256_bytes k = pk_as_ref (p_leader m) →
  let r := propose_request now m (parent_of (guarded (block_info st)) (p_parent m).2) k in
  (∀ e w, poisoned (block_info st) = false →
    build_payload (payload_builder st) r (actor_world st) = (Err e, w) →
    ∃ st', handle_propose now m st = Done None st' ∧ stores st' = stores st ∧
      actor_world st' = w ∧
      metrics st' = inc_errors <$> (inc_blocks_proposed <$> metrics st)) ∧
  (poisoned (block_info st) = true →
    ∃ st', handle_propose now m st = Done None st' ∧ stores st' = stores st ∧
      actor_world st' = actor_world st).
Proof.
  intros Hk%copy_from_slice_Some r. split.
  - intros e w Hp Hb. rewrite (handle_propose_readable _ _ _ k) by done. fold r.
    rewrite Hb. by eexists.
  - intros Hp. rewrite handle_propose_poisoned by done. by eexists.
Qed.

(** C6: [handle_verify] implements its abstract condition: it answers [true]
    exactly when the proposer is a validator, the block's bytes are at hand,
    the builder finds them valid, and the millisecond stamp agrees with the
    second; it then records exactly the validated metadata under the payload
    digest.  In every other case it answers [false] and no store changes. *)
Theorem verify_refines_condition msg st :
  (∀ meta w, acceptable msg st meta w →
     handle_verify msg st = (Some true, verify_record msg meta w st)) ∧
  ((¬ ∃ meta w, acceptable msg st meta w) →
     (handle_verify msg st).1 = Some false ∧ stores (handle_verify msg st).2 = stores st) ∧
  ((handle_verify msg st).1 = Some true ↔ ∃ meta w, acceptable msg st meta w).
Proof.
  split_and!.
  - intros meta w. apply handle_verify_acceptable.
  - intros Hn. destruct (handle_verify_cases msg st) as [?|(? & ? & _)]; [done|done].
  - split.
    + intros Ht. destruct (handle_verify_cases msg st) as [?|(Hf & _)]; [done|congruence].
    + intros (meta & w & Ha). by rewrite (handle_verify_acceptable _ _ _ _ Ha).
Qed.

(** A block whose stamps disagree ([timestamp_millis / 1000 <> timestamp])
    is rejected even when the execution layer finds it valid, and is not
    recorded, so no descendant can inherit the stamp. *)
Theorem verify_rejects_inconsistent_stamps msg st b meta w :
  lookup_block_bytes (v_payload msg) st = Ok (Some b) →
  validate_block (payload_builder st) b (digest_get (v_parent msg).2) (actor_world st) =
    (Ok (Valid meta), w) →
  bm_timestamp_millis meta / 1000 ≠ bm_timestamp meta →
  (handle_verify msg st).1 = Some false ∧
  block_info (handle_verify msg st).2 = block_info st.
Proof.
  intros Hb Hv Hne. destruct (handle_verify_cases msg st) as [(? & ? & Ha)|(? & Hs & _)].
  - destruct Ha as (_ & (? & ? & ?) & ?). congruence.
  - split; [done|]. unfold stores in Hs. congruence.
Qed.

(** A node's own block cannot be displaced by a peer: after a successful
    proposal, the bytes found for its digest are the built ones, whatever the
    received blocks hold under the same digest. *)
Theorem own_block_precedes_received now (m : Propose) st d st' l :
  poisoned (pending_blocks st) = false →
  handle_propose now m st = Done (Some d) st' →
  ∃ r b w, build_payload (payload_builder st) r (actor_world st) = (Ok b, w) ∧
    d = mk_Digest (bp_block_hash b) ∧
    lookup_block_bytes d (set_received l st') = Ok (Some (bp_block_bytes b)).
Proof.
  intros Hpend Hh.
  destruct (handle_propose_Some _ _ _ _ _ Hh) as (k & b & w & _ & Hb & -> & ->).
  eexists _, b, w. split_and!; [exact Hb|done|].
  unfold lookup_block_bytes, lock_read. cbn.
  rewrite lock_update_poisoned, Hpend. cbn.
  rewrite lock_update_guarded by done. by rewrite lookup_insert_eq.
Qed.

(** Nothing ties the digest being voted on to the block that was
    validated: if a peer delivered the bytes of a valid block under any other
    digest, [handle_verify] answers [true] for that digest and records the
    other block's hash under it. *)
Theorem verify_accepts_foreign_block msg st b meta w :
  is_Some (actor_validators st !! v_proposer msg) →
  poisoned (pending_blocks st) = false → poisoned (block_info st) = false →
  guarded (pending_blocks st) !! v_payload msg = None →
  received_blocks st = lock_new {[v_payload msg := b]} →
  validate_block (payload_builder st) b (digest_get (v_parent msg).2) (actor_world st) =
    (Ok (Valid meta), w) →
  bm_timestamp_millis meta / 1000 = bm_timestamp meta →
  bm_hash meta ≠ digest_get (v_payload msg) →
  (handle_verify msg st).1 = Some true ∧
  ∃ i, guarded (block_info (handle_verify msg st).2) !! v_payload msg = Some i ∧
       bi_hash i ≠ digest_get (v_payload msg).
Proof.
  intros Hval Hp Hi Hn Hr Hv Hms Hne.
  assert (Ha : acceptable msg st meta w).
  { split_and!; [done| |done]. exists b. split; [|done].
    unfold lookup_block_bytes, lock_read. rewrite Hp. cbn.
    rewrite Hn, Hr. cbn. by rewrite lookup_singleton_eq. }
  rewrite (handle_verify_acceptable _ _ _ _ Ha). cbn. split; [done|].
  rewrite lock_update_guarded by done. exists (verified_info msg meta).
  by rewrite lookup_insert_eq.
Qed.

(** The actor makes progress: with 32-byte validator keys no message
    makes it panic, every message is handled, in order, and every verification
    request is answered. *)
Theorem run_total `{!Ed25519Laws} (msgs : list (SystemTime * Message R)) st :
  ∃ rs st', run msgs st = Done rs st' ∧ length rs = length msgs ∧
    Forall (λ r, r ≠ Response_Verify None) rs.
Proof.
  revert st. induction msgs as [|[now m] msgs IH]; intros st; [by eexists _, _|].
  destruct (handle_message_done now m st) as (r & st1 & Hm).
  destruct (IH st1) as (rs & st2 & Hr & Hl & Hf).
  exists (r :: rs), st2. cbn. rewrite Hm, Hr. split_and!; [done|by rewrite Hl|].
  constructor; [|done]. destruct m as [p|v|b]; cbn in Hm.
  - destruct (handle_propose now p st); by simplify_eq.
  - destruct (handle_verify v st) as [a s] eqn:Hh. simplify_eq.
    destruct (handle_verify_cases v st) as [(? & ? & Ha)|(Ha & _)].
    + rewrite (handle_verify_acceptable _ _ _ _ Ha) in Hh. by simplify_eq.
    + rewrite Hh in Ha. by simplify_eq/=.
  - by simplify_eq.
Qed.

(** C15: invariant of the actor: from the state [Actor::new] makes with fresh
    stores and consistent genesis stamps, after any sequence of messages,
    every block info has a millisecond stamp of its second, genesis is
    registered, every pending block has its info and every proposal its
    pending bytes - also when a handler panics. *)
Theorem run_invariant `{!BuilderLaws P W} vs builder m ghash gts gms w
    (msgs : list (SystemTime * Message R)) :
  is_u64 gms → gms / 1000 = gts →
  actor_inv (exec_state (run msgs
    (actor_made vs None (lock_new ∅) (lock_new ∅) (lock_new ∅) builder m ghash gts gms w))).
Proof.
  intros Hu Hg. apply run_inv. split; cbn.
  - by apply map_Forall_insert_2; [|apply map_Forall_empty].
  - by rewrite lookup_insert_eq.
  - intros d _ [x Hx]. by rewrite lookup_empty in Hx.
  - by intros d _ ?%elem_of_nil.
Qed.

(** The first proposal builds on genesis: after [Actor::new] the empty
    digest resolves to block 0 with the chain's genesis hash, and the request
    for a child of it carries that hash and a stamp after genesis. *)
Theorem genesis_proposal vs props pending received info builder m ghash gts gms w
    now (p : Propose) k :
  poisoned info = false → (p_parent p).2 = EMPTY → is_u64 gms → gms < u64_max →
  let st := actor_made (P := P) (W := W) vs props pending received info builder m ghash gts gms w in
  let r := propose_request now p (parent_of (guarded (block_info st)) (p_parent p).2) k in
  req_parent_hash r = ghash ∧ req_parent_number r = 0 ∧
  gms < req_timestamp_millis r ∧ gms / 1000 ≤ req_timestamp r.
Proof.
  intros Hp Hd Hu Hlt st r. unfold r, st, actor_made. cbn.
  rewrite lock_update_guarded by done. rewrite Hd. unfold parent_of.
  rewrite lookup_insert_eq. cbn -[Z.div]. unfold propose_request.
  destruct (p_parent p) as [pv pd]. cbn -[Z.div].
  unfold u64_saturating_add. rewrite Z.min_l by lia.
  split_and!; [done|done|lia|]. apply Z.div_le_mono; lia.
Qed.

(** Counting responses. *)
Definition is_propose (r : Response) : bool :=
  match r with Response_Propose _ => true | _ => false end.
Definition is_verdict (v : bool) (r : Response) : bool :=
  match r with Response_Verify (Some a) => Bool.eqb a v | _ => false end.
Definition count (f : Response → bool) (rs : list Response) : Z :=
  Z.of_nat (length (List.filter f rs)).

(** The three counters move as one message's response says. *)
Lemma handle_message_metrics now (msg : Message R) st mt r st' :
  metrics st = Some mt → poisoned (pending_blocks st) = false → metrics_wf mt →
  handle_message now msg st = Done r st' →
  ∃ mt', metrics st' = Some mt' ∧ metrics_wf mt' ∧
    load BlocksProposed mt' = wrap 64 (load BlocksProposed mt + count is_propose [r]) ∧
    load BlocksVerified mt' = wrap 64 (load BlocksVerified mt + count (is_verdict true) [r]) ∧
    load FailedValidations mt' =
      wrap 64 (load FailedValidations mt + count (is_verdict false) [r]).
Proof.
  intros Hm Hp Hwf Hh.
  assert (Hsame : ∀ c, load c mt = wrap 64 (load c mt + 0)).
  { intros c. rewrite Z.add_0_r, wrap64_id; [done|apply Hwf]. }
  destruct msg as [p|v|b]; cbn in Hh.
  - assert (Hr : ∃ a, r = Response_Propose a) by
      (destruct (handle_propose now p st); simplify_eq; eauto).
    destruct Hr as [a ->].
    unfold handle_propose in Hh.
    branches; rewrite Hm; eexists; (split; [done|]).
    all: unfold inc_blocks_proposed, inc_errors, count; cbn.
    all: split; [by auto with allegro|]; counters; auto.
  - unfold handle_verify, lookup_block_bytes, lock_read in Hh. rewrite Hp in Hh. cbn in Hh.
    branches; rewrite Hm; eexists; (split; [done|]).
    all: unfold inc_blocks_verified, inc_errors, inc_failed_validations, count; cbn.
    all: split; [by auto with allegro|]; counters; auto.
  - simplify_eq. exists mt. cbn. auto.
Qed.

Lemma count_cons f r rs : count f (r :: rs) = count f [r] + count f rs.
Proof. unfold count. cbn. destruct (f r); cbn; lia. Qed.

(** The actor's counters are exact: over any run, modulo 2^64,
    [blocks_proposed] grows by the number of proposal requests,
    [blocks_verified] by the number of [true] answers and
    [failed_validations] by the number of [false] answers (while the pending
    store is not poisoned). *)
Theorem run_metrics_exact (msgs : list (SystemTime * Message R)) st mt rs st' :
  metrics st = Some mt → metrics_wf mt → poisoned (pending_blocks st) = false →
  run msgs st = Done rs st' →
  ∃ mt', metrics st' = Some mt' ∧ metrics_wf mt' ∧
    load BlocksProposed mt' = wrap 64 (load BlocksProposed mt + count is_propose rs) ∧
    load BlocksVerified mt' = wrap 64 (load BlocksVerified mt + count (is_verdict true) rs) ∧
    load FailedValidations mt' =
      wrap 64 (load FailedValidations mt + count (is_verdict false) rs).
Proof.
  revert st mt rs. induction msgs as [|[now m] msgs IH]; intros st mt rs Hm Hwf Hp Hr.
  { cbn in Hr. simplify_eq. exists mt. unfold count. cbn.
    rewrite !Z.add_0_r, !wrap64_id by apply Hwf. auto. }
  cbn in Hr. destruct (handle_message now m st) as [r st1|] eqn:Hh; [|done].
  destruct (run msgs st1) as [rs' st2|] eqn:Hr'; [|done]. simplify_eq.
  destruct (handle_message_metrics _ _ _ _ _ _ Hm Hp Hwf Hh)
    as (mt1 & Hm1 & Hwf1 & H1 & H2 & H3).
  pose proof (handle_message_flags now m st) as Hf. rewrite Hh in Hf.
  unfold flags in Hf. cbn in Hf.
  destruct (IH st1 mt1 rs' Hm1 Hwf1 ltac:(congruence) Hr') as (mt2 & Hm2 & Hwf2 & H4 & H5 & H6).
  exists mt2. rewrite !(count_cons _ r rs'), H4, H5, H6, H1, H2, H3, !wrap_add_assoc. auto.
Qed.
End properties.

(** ** Witnesses *)

Lemma sample_inv : actor_inv sample_actor.
Proof.
  split; cbn.
  - apply map_Forall_insert_2; [|apply map_Forall_empty].
    split; [by vm_compute; split | reflexivity].
  - by rewrite lookup_insert_eq.
  - intros d _ [x Hx]. by rewrite lookup_empty in Hx.
  - by intros d _ ?%elem_of_nil.
Qed.

Lemma propose_stamps_monotone_witness :
  let parent := parent_of (guarded (block_info sample_actor)) (p_parent sample_propose).2 in
  let r := propose_request sample_now sample_propose parent (key_of 0) in
  parent.2 = 1700000000000 ∧ req_timestamp_millis r = 1700000001234 ∧
  parent.2 < req_timestamp_millis r ∧
  req_timestamp (propose_request 0 sample_propose parent (key_of 0)) = parent.2 / 1000.
Proof.
  intros parent r. split; [vm_compute; reflexivity|]. split; [vm_compute; reflexivity|]. split.
  - destruct (propose_stamps_monotone sample_now sample_propose sample_actor (key_of 0)
      sample_inv) as (_ & _ & _ & H & _).
    apply H. vm_compute. reflexivity.
  - destruct (propose_stamps_monotone 0 sample_propose sample_actor (key_of 0)
      sample_inv) as (_ & _ & _ & _ & _ & H).
    apply H; vm_compute; (reflexivity || discriminate).
Defined.

Lemma propose_success_witness :
  ∃ st', handle_propose sample_now sample_propose sample_actor =
         Done (Some sample_digest) st' ∧
         received_blocks st' = received_blocks sample_actor.
Proof.
  destruct (propose_success sample_now sample_propose sample_actor (key_of 0)
    sample_payload tt eq_refl eq_refl) as (st' & H1 & _ & _ & _ & _ & _ & H2 & _).
  - vm_compute. reflexivity.
  - exists st'. split; [exact H1|exact H2].
Defined.

(** The actor whose genesis is the last block number. *)
Definition sample_full : Actor ref_builder unit :=
  set_block_info (lock_new {[EMPTY :=
    mk_BlockInfo u64_max (B256_repeat Byte.x99) 0 (key_of 0) 0 0]}) sample_actor.

Lemma propose_failure_witness :
  ∃ st', handle_propose sample_now sample_propose sample_full = Done None st' ∧
         stores st' = stores sample_full.
Proof.
  destruct (proj1 (propose_failure sample_now sample_propose sample_full (key_of 0) eq_refl)
    "number overflow"%string tt eq_refl) as (st' & H1 & H2 & _).
  - vm_compute. reflexivity.
  - exists st'. split; [exact H1|exact H2].
Defined.

Lemma verify_refines_condition_witness :
  (handle_verify sample_verify (sample_peer sample_digest)).1 = Some true.
Proof.
  apply (proj2 (proj2 (verify_refines_condition sample_verify (sample_peer sample_digest)))).
  exists (mk_BlockMeta (bp_block_hash sample_payload) 1 1700000001 1700000001234), tt.
  split_and!; [eexists; vm_compute; reflexivity| |reflexivity].
  exists (bp_block_bytes sample_payload). split; vm_compute; reflexivity.
Defined.

(** A builder whose blocks all carry a stamp an hour ahead of their second. *)
Definition drift_builder : EngineApiPayloadBuilder unit :=
  mk_EngineApiPayloadBuilder (λ _ w, (Err "unused"%string, w))
    (λ _ w, (Ok (Valid (mk_BlockMeta (key_of 5) 1 1700000001 1700003601000)), w)).
Definition drift_actor : Actor (EngineApiPayloadBuilder unit) unit :=
  set_received (lock_new {[sample_digest := []]})
    (actor_made sample_validators None (lock_new ∅) (lock_new ∅) (lock_new ∅)
      drift_builder None (B256_repeat Byte.x99) 0 0 tt).

Lemma verify_rejects_inconsistent_stamps_witness :
  (handle_verify sample_verify drift_actor).1 = Some false ∧
  block_info (handle_verify sample_verify drift_actor).2 = block_info drift_actor.
Proof.
  apply (verify_rejects_inconsistent_stamps sample_verify drift_actor []
    (mk_BlockMeta (key_of 5) 1 1700000001 1700003601000) tt).
  - vm_compute. reflexivity.
  - reflexivity.
  - vm_compute. discriminate.
Defined.

Lemma own_block_precedes_received_witness :
  ∃ r b w, build_payload mk_ref_builder r tt = (Ok b, w) ∧
    sample_digest = mk_Digest (bp_block_hash b) ∧
    lookup_block_bytes sample_digest
      (set_received (lock_new {[sample_digest := [Byte.x00]]})
         (exec_state (handle_propose sample_now sample_propose sample_actor))) =
    Ok (Some (bp_block_bytes b)).
Proof.
  apply (own_block_precedes_received sample_now sample_propose sample_actor sample_digest
    (exec_state (handle_propose sample_now sample_propose sample_actor))
    (lock_new {[sample_digest := [Byte.x00]]}) eq_refl).
  apply exec_done. vm_compute. reflexivity.
Defined.

Definition foreign_verify : Verify :=
  mk_Verify (0, EMPTY) (mk_Digest (key_of 77)) (key_of 0) (mk_Round 0 1).

Lemma verify_accepts_foreign_block_witness :
  let st := sample_peer (mk_Digest (key_of 77)) in
  (handle_verify foreign_verify st).1 = Some true ∧
  ∃ i, guarded (block_info (handle_verify foreign_verify st).2) !! mk_Digest (key_of 77) =
       Some i ∧ bi_hash i ≠ key_of 77.
Proof.
  apply (verify_accepts_foreign_block foreign_verify (sample_peer (mk_Digest (key_of 77)))
    (bp_block_bytes sample_payload)
    (mk_BlockMeta (bp_block_hash sample_payload) 1 1700000001 1700000001234) tt).
  - eexists. vm_compute. reflexivity.
  - reflexivity.
  - reflexivity.
  - vm_compute. reflexivity.
  - reflexivity.
  - vm_compute. reflexivity.
  - reflexivity.
  - vm_compute. discriminate.
Defined.

Definition sample_messages : list (SystemTime * Message unit) :=
  [(sample_now, Message_Propose sample_propose); (sample_now, Message_Verify sample_verify);
   (sample_now, Message_Verify foreign_verify)].

Lemma run_total_witness :
  ∃ rs st', run sample_messages sample_actor = Done rs st' ∧
    length rs = 3%nat ∧ Forall (λ r, r ≠ Response_Verify None) rs.
Proof. exact (run_total sample_messages sample_actor). Defined.

Lemma run_invariant_witness :
  actor_inv (exec_state (run sample_messages sample_actor)).
Proof.
  apply (run_invariant sample_validators mk_ref_builder (Some metrics_new)
    (B256_repeat Byte.x99) 1700000000 1700000000000 tt sample_messages).
  - by vm_compute; split.
  - reflexivity.
Defined.

Lemma genesis_proposal_witness :
  let r := propose_request sample_now sample_propose
    (parent_of (guarded (block_info sample_actor)) EMPTY) (key_of 0) in
  req_parent_hash r = B256_repeat Byte.x99 ∧ req_parent_number r = 0 ∧
  1700000000000 < req_timestamp_millis r ∧ 1700000000000 / 1000 ≤ req_timestamp r.
Proof.
  apply (genesis_proposal (P := ref_builder) (W := unit) sample_validators None
    (lock_new ∅) (lock_new ∅) (lock_new ∅) mk_ref_builder (Some metrics_new)
    (B256_repeat Byte.x99) 1700000000 1700000000000 tt sample_now sample_propose (key_of 0)).
  - reflexivity.
  - reflexivity.
  - by vm_compute; split.
  - reflexivity.
Defined.

Lemma run_metrics_exact_witness :
  ∃ rs st' mt', run sample_messages sample_actor = Done rs st' ∧ metrics st' = Some mt' ∧
    load BlocksProposed mt' = 1 ∧ load BlocksVerified mt' = 1 ∧ load FailedValidations mt' = 1.
Proof.
  assert (Hr : exec_value (run sample_messages sample_actor) =
    Some [Response_Propose (Some sample_digest); Response_Verify (Some true);
          Response_Verify (Some false)]) by (vm_compute; reflexivity).
  apply exec_done in Hr.
  destruct (run_metrics_exact sample_messages sample_actor metrics_new _ _
    eq_refl metrics_new_wf eq_refl Hr) as (mt' & Hm & _ & H1 & H2 & H3).
  eexists _, _, mt'. split; [exact Hr|]. split; [exact Hm|].
  rewrite H1, H2, H3. split_and!; vm_compute; reflexivity.
Defined.
