(* ===== verification/Mailbox.v ===== *)
(** * allegro-consensus: the mailbox and its actor (crates/consensus/src/application.rs)

    The engine calls [Mailbox::propose] and [Mailbox::verify] from its own
    tasks; each call makes a oneshot channel, sends a message through the
    bounded channel of [Actor::new], and returns the oneshot's receiver.
    [Actor::run] takes one message after the other.  Here calls and turns come
    in any order; the theorem says that the whole is [Application.run]: every
    call is answered once, by its own message's handler, in the order of the
    calls. *)

From S2P Require Import Prelude Extern Reference Digest Validators Metrics Executor.
From S2P Require Import ReferenceBuilder Application.
From Stdlib Require Import Sorting.Sorted.
From stdpp Require Import sorting.
Local Open Scope Z_scope.

(** The receiving half of a oneshot channel. *)
Inductive Rx (A : Type) : Type :=
| Rx_Pending
| Rx_Ready (a : A)
| Rx_Canceled.
Arguments Rx_Pending {A}.
Arguments Rx_Ready {A}.
Arguments Rx_Canceled {A}.

Section mailbox.
Context `{!Ed25519} {P W C R : Type} `{!PayloadBuilder P W}.
Context `{!Channel C (nat * Message R), !ChannelRx C (nat * Message R)}.
Context `{!ChannelClose C (nat * Message R)}.

(** What a call's receiver yields. *)
Abbreviation Answer := (Digest + bool)%type.

(** A call is named by its number; [ml_issued] and [ml_rx] are indexed by it. *)
Record Mail : Type := mk_Mail {
  ml_chan : C;
  ml_running : bool;
  ml_issued : list (Message R);
  ml_rx : list (Rx Answer);
  ml_actor : Actor P W;
}.

Definition mail_new (chan : C) (a : Actor P W) : Mail := mk_Mail chan true [] [] a.

(** What the handler did with the responder: sent an answer, or dropped it. *)
Definition answer_of (r : Response) : Rx Answer :=
  match r with
  | Response_Propose (Some digest) => Rx_Ready (inl digest)
  | Response_Verify (Some b) => Rx_Ready (inr b)
  | _ => Rx_Canceled
  end.

(** [self.sender.send(message).await]: waits while the channel is full, fails
    when the receiver is gone - then the message is dropped, its responder
    with it. *)
Definition mail_send (msg : Message R) (m : Mail) : option Mail :=
  let issued := ml_issued m ++ [msg] in
  if ml_running m then
    match try_send (length (ml_issued m), msg) (ml_chan m) with
    | (Ok _, c) => Some (mk_Mail c true issued (ml_rx m ++ [Rx_Pending]) (ml_actor m))
    | (Err Full, _) => None
    | (Err Closed, c) => Some (mk_Mail c true issued (ml_rx m ++ [Rx_Canceled]) (ml_actor m))
    end
  else Some (mk_Mail (ml_chan m) false issued (ml_rx m ++ [Rx_Canceled]) (ml_actor m)).

Definition cancel (r : Rx Answer) : Rx Answer :=
  match r with Rx_Pending => Rx_Canceled | _ => r end.

(** The actor's next message; a panic ends the task and drops what is queued. *)
Definition mail_turn (now : SystemTime) (m : Mail) : option Mail :=
  if ml_running m then
    match chan_recv (ml_chan m) with
    | Recv_Item (id, msg) c =>
      match handle_message now msg (ml_actor m) with
      | Done r a => Some (mk_Mail c true (ml_issued m) (<[id := answer_of r]> (ml_rx m)) a)
      | Panicked a => Some (mk_Mail c false (ml_issued m) (cancel <$> ml_rx m) a)
      end
    | Recv_Pending => None
    | Recv_Closed => Some (mk_Mail (ml_chan m) false (ml_issued m) (ml_rx m) (ml_actor m))
    end
  else None.

(** The last clone of the mailbox is dropped. *)
Definition mail_close (m : Mail) : Mail :=
  mk_Mail (chan_close (ml_chan m)) (ml_running m) (ml_issued m) (ml_rx m) (ml_actor m).

Inductive MailStep : Type :=
| Ml_Propose (context : SimplexContext)
| Ml_Verify (context : SimplexContext) (payload : Digest)
| Ml_Turn (now : SystemTime)
| Ml_Close.

Definition mail_step (s : MailStep) (m : Mail) : option Mail :=
  match s with
  | Ml_Propose context => mail_send (mailbox_propose context) m
  | Ml_Verify context payload => mail_send (mailbox_verify context payload) m
  | Ml_Turn now => mail_turn now m
  | Ml_Close => Some (mail_close m)
  end.

Fixpoint mail_run (ss : list MailStep) (m : Mail) : option Mail :=
  match ss with
  | [] => Some m
  | s :: ss => mail_step s m ≫= mail_run ss
  end.

(** ** Lemmas *)

Context `{!ChannelLaws C (nat * Message R), !ChannelRxLaws C (nat * Message R)}.
Context `{!ChannelCloseLaws C (nat * Message R), !Ed25519Laws}.

Lemma recv_item c x c' : chan_recv c = Recv_Item x c' → chan_queue c = x :: chan_queue c'.
Proof.
  intros Hr. destruct (chan_queue c) as [|y l] eqn:Hq.
  - destruct (chan_recv_empty c Hq) as [He|He]; by rewrite He in Hr.
  - destruct (chan_recv_head y l c Hq) as (c1 & He & Hl). rewrite He in Hr. by simplify_eq.
Qed.

Lemma recv_closed c : chan_recv c = Recv_Closed → chan_queue c = [].
Proof.
  intros Hr. destruct (chan_queue c) as [|y l] eqn:Hq; [done|].
  destruct (chan_recv_head y l c Hq) as (c1 & He & Hl). by rewrite He in Hr.
Qed.

Lemma run_app (l1 l2 : list (SystemTime * Message R)) (st : Actor P W) rs1 st1 rs2 st2 :
  run l1 st = Done rs1 st1 → run l2 st1 = Done rs2 st2 →
  run (l1 ++ l2) st = Done (rs1 ++ rs2) st2.
Proof.
  revert st rs1. induction l1 as [|[now m] l1 IH]; intros st rs1; cbn.
  - intros [= <- <-]. done.
  - destruct (handle_message now m st) as [r st0|]; [|done].
    destruct (run l1 st0) as [rs st'|] eqn:Hr; [|done]. intros [= <- <-] H2.
    by rewrite (IH st0 rs Hr H2).
Qed.

(** A message the actor has handled: the call, the time, what it answered. *)
Record Handled : Type := mk_Handled { hd_id : nat; hd_now : SystemTime; hd_msg : Message R }.

(** The state after the calls and turns so far: [hs] were handled, in order,
    and what is queued comes after them. *)
Record mail_inv (a0 : Actor P W) (hs : list Handled) (rs : list Response) (m : Mail) : Prop :=
  mk_mail_inv {
    mi_run : run ((λ h, (hd_now h, hd_msg h)) <$> hs) a0 = Done rs (ml_actor m);
    mi_length : length rs = length hs;
    mi_rx : length (ml_rx m) = length (ml_issued m);
    mi_order : StronglySorted lt ((hd_id <$> hs) ++ (fst <$> chan_queue (ml_chan m)));
    mi_handled : ∀ k h r, hs !! k = Some h → rs !! k = Some r →
      ml_issued m !! hd_id h = Some (hd_msg h) ∧ ml_rx m !! hd_id h = Some (answer_of r);
    mi_queued : ∀ id msg, (id, msg) ∈ chan_queue (ml_chan m) →
      ml_issued m !! id = Some msg ∧ ml_rx m !! id = Some Rx_Pending;
    mi_pending : ∀ id, ml_rx m !! id = Some Rx_Pending →
      id ∈ fst <$> chan_queue (ml_chan m);
    mi_stopped : ml_running m = false → chan_queue (ml_chan m) = [];
  }.

Lemma mail_new_inv c a0 : chan_queue c = [] → mail_inv a0 [] [] (mail_new c a0).
Proof.
  intros Hq. split; cbn; try rewrite Hq; try done.
  - apply SSorted_nil.
  - intros id msg []%elem_of_nil.
Qed.

Lemma answer_not_pending r : answer_of r ≠ Rx_Pending.
Proof. by destruct r as [[]|[]|]. Qed.

Section invariant.
Variables (a0 : Actor P W) (hs : list Handled) (rs : list Response) (m : Mail).
Hypothesis Hinv : mail_inv a0 hs rs m.

(** Every call is older than the next one. *)
Lemma old_ids :
  Forall (λ id, (id < length (ml_issued m))%nat)
    ((hd_id <$> hs) ++ (fst <$> chan_queue (ml_chan m))).
Proof.
  destruct Hinv as [_ Hlen _ _ Hh Hq _ _]. apply Forall_app. split; apply Forall_fmap, Forall_forall.
  - intros h [k Hk]%list_elem_of_lookup.
    destruct (rs !! k) as [r|] eqn:Hr.
    + destruct (Hh k h r Hk Hr) as [Hi _]. by eapply lookup_lt_Some.
    + apply lookup_ge_None in Hr. apply lookup_lt_Some in Hk. lia.
  - intros [id msg] Hin. destruct (Hq id msg Hin) as [Hi _]. by eapply lookup_lt_Some.
Qed.

(** A call adds its receiver; it is queued, or canceled at once. *)
Lemma send_inv msg c running rx :
  (rx = Rx_Pending ∧ chan_queue c = chan_queue (ml_chan m) ++ [(length (ml_issued m), msg)]) ∨
  (rx = Rx_Canceled ∧ chan_queue c = chan_queue (ml_chan m)) →
  (running = false → chan_queue c = []) →
  mail_inv a0 hs rs (mk_Mail c running (ml_issued m ++ [msg]) (ml_rx m ++ [rx]) (ml_actor m)).
Proof.
  intros Hc Hstop. pose proof old_ids as Hold. destruct Hinv as [Hrun Hlen Hrx Hord Hh Hq Hp _].
  assert (Hold_q : ∀ id msg', (id, msg') ∈ chan_queue (ml_chan m) →
    (ml_issued m ++ [msg]) !! id = Some msg' ∧ (ml_rx m ++ [rx]) !! id = Some Rx_Pending).
  { intros id msg' Hin. destruct (Hq id msg' Hin). split; by apply lookup_app_l_Some. }
  split; cbn; [done|done|by rewrite !length_app, Hrx| | | | |done].
  - destruct Hc as [[_ ->]|[_ ->]]; [|done]. rewrite fmap_app, app_assoc. cbn.
    apply StronglySorted_app_2; [|done|by repeat constructor].
    intros x1 x2 Hx1 ->%list_elem_of_singleton. rewrite Forall_forall in Hold. by apply Hold.
  - intros k h r Hk Hr. destruct (Hh k h r Hk Hr). split; by apply lookup_app_l_Some.
  - intros id msg' Hin. destruct Hc as [[-> Hc]|[-> Hc]]; rewrite Hc in Hin; [|by apply Hold_q].
    apply elem_of_app in Hin as [Hin|Hin]; [by apply Hold_q|].
    apply list_elem_of_singleton in Hin. simplify_eq.
    rewrite list_lookup_middle by done. split; [done|]. by apply list_lookup_middle.
  - intros id Hid. apply lookup_app_Some in Hid as [Hid|[Hge Hid]].
    + apply Hp in Hid. destruct Hc as [[_ ->]|[_ ->]]; [|done]. rewrite fmap_app, elem_of_app. by left.
    + apply list_lookup_singleton_Some in Hid as [Hz Hid]. destruct Hc as [[_ ->]|[-> _]]; [|done].
      rewrite fmap_app, elem_of_app. right. apply list_elem_of_singleton. cbn. lia.
Qed.

(** The actor handles the head of the queue. *)
Lemma turn_inv id msg c now r a :
  chan_queue (ml_chan m) = (id, msg) :: chan_queue c →
  handle_message now msg (ml_actor m) = Done r a →
  mail_inv a0 (hs ++ [mk_Handled id now msg]) (rs ++ [r])
    (mk_Mail c true (ml_issued m) (<[id := answer_of r]> (ml_rx m)) a).
Proof.
  intros Hc Hm. destruct Hinv as [Hrun Hlen Hrx Hord Hh Hq Hp _]. rewrite Hc in Hord, Hq, Hp.
  cbn in Hord. destruct (Hq id msg) as [Hi Hri]; [by left|].
  assert (Hbefore : ∀ h, h ∈ hs → (hd_id h < id)%nat).
  { intros h Hin. eapply (StronglySorted_app_1_elem_of _ _ _ _ _ Hord); [|by left].
    by apply list_elem_of_fmap_2. }
  assert (Hafter : ∀ id' msg', (id', msg') ∈ chan_queue c → (id < id')%nat).
  { intros id' msg' Hin. apply StronglySorted_app_1_r, StronglySorted_cons in Hord as [Hall _].
    rewrite Forall_forall in Hall. apply Hall. by apply (list_elem_of_fmap_2 fst _ _ Hin). }
  split; cbn; [| |by rewrite length_insert| | | | |done].
  - rewrite fmap_app. eapply run_app; [done|]. cbn. by rewrite Hm.
  - rewrite !length_app. cbn. lia.
  - by rewrite fmap_app, <- app_assoc.
  - intros k h r' [Hk|[Hge Hk]]%lookup_app_Some Hr.
    + rewrite lookup_app_l in Hr by (apply lookup_lt_Some in Hk; lia).
      destruct (Hh k h r' Hk Hr) as [? Hrx']. split; [done|].
      rewrite list_lookup_insert_ne; [done|].
      assert (hd_id h < id)%nat by (apply Hbefore; by eapply list_elem_of_lookup_2). lia.
    + apply list_lookup_singleton_Some in Hk as [Hz <-].
      rewrite lookup_app_r in Hr by lia. apply list_lookup_singleton_Some in Hr as [_ <-].
      split; [done|]. cbn. apply list_lookup_insert_eq. by eapply lookup_lt_Some.
  - intros id' msg' Hin. destruct (Hq id' msg') as [? Hrx']; [by right|]. split; [done|].
    rewrite list_lookup_insert_ne; [done|]. specialize (Hafter _ _ Hin). lia.
  - intros j Hj. apply list_lookup_insert_Some in Hj as [(_ & Hj & _)|[Hne Hj]].
    + by destruct (answer_not_pending r).
    + apply Hp in Hj. cbn in Hj. by apply elem_of_cons in Hj as [->|Hj].
Qed.

Lemma close_inv : mail_inv a0 hs rs (mail_close m).
Proof. destruct Hinv. by split; cbn [mail_close ml_chan]; rewrite ?chan_close_queue. Qed.

Lemma mail_step_inv s m' :
  mail_step s m = Some m' →
  ∃ hs' rs', mail_inv a0 hs' rs' m' ∧ prefix hs hs'.
Proof.
  assert (Hsend : ∀ msg, mail_send msg m = Some m' →
    ∃ hs' rs', mail_inv a0 hs' rs' m' ∧ prefix hs hs').
  { intros msg Hs. exists hs, rs. split; [|done]. unfold mail_send in Hs.
    destruct (ml_running m) eqn:Hrun.
    - destruct (try_send _ _) as [[[]|[]] c] eqn:Ht; simplify_eq; apply send_inv; try done.
      + left. split; [done|]. by apply try_send_ok in Ht.
      + right. split; [done|]. by apply try_send_err in Ht.
    - simplify_eq. apply send_inv; [by right|]. intros _. by apply (mi_stopped _ _ _ _ Hinv). }
  destruct s as [ctx|ctx d|now|]; cbn [mail_step]; [apply Hsend..| |].
  2: { intros [= <-]. exists hs, rs. split; [by apply close_inv|done]. }
  intros Hs. unfold mail_turn in Hs. destruct (ml_running m) eqn:Hrun; [|done].
  destruct (chan_recv (ml_chan m)) as [[id msg] c| |] eqn:Hr; [|done|].
  - destruct (handle_message_done now msg (ml_actor m)) as (r & a & Hm). rewrite Hm in Hs.
    simplify_eq. eexists _, _. split; [by apply turn_inv; [apply recv_item|]|by apply prefix_app_r].
  - simplify_eq. exists hs, rs. split; [|done]. destruct Hinv. split; try done.
    intros _. by apply recv_closed.
Qed.

(** An answer is final. *)
Lemma mail_step_final s m' id x :
  mail_step s m = Some m' → ml_rx m !! id = Some x → x ≠ Rx_Pending → ml_rx m' !! id = Some x.
Proof.
  intros Hs Hx Hne.
  assert (Hsend : ∀ msg, mail_send msg m = Some m' → ml_rx m' !! id = Some x).
  { intros msg Hm. unfold mail_send in Hm. destruct (ml_running m).
    - destruct (try_send _ _) as [[[]|[]] c]; simplify_eq; by apply lookup_app_l_Some.
    - simplify_eq. by apply lookup_app_l_Some. }
  destruct s as [ctx|ctx d|now|]; cbn [mail_step] in Hs; [by eapply Hsend..| |by simplify_eq].
  unfold mail_turn in Hs. destruct (ml_running m); [|done].
  destruct (chan_recv (ml_chan m)) as [[j msg] c| |] eqn:Hr; [|done|by simplify_eq].
  destruct (handle_message_done now msg (ml_actor m)) as (r & a & Hm). rewrite Hm in Hs.
  simplify_eq. cbn. rewrite list_lookup_insert_ne; [done|]. intros ->.
  apply recv_item in Hr. destruct (mi_queued _ _ _ _ Hinv id msg) as [_ Hp]; [rewrite Hr; by left|].
  congruence.
Qed.
End invariant.

Lemma mail_run_app ss1 ss2 m : mail_run (ss1 ++ ss2) m = mail_run ss1 m ≫= mail_run ss2.
Proof.
  revert m. induction ss1 as [|s ss1 IH]; intros m; [done|]. cbn.
  destruct (mail_step s m); [apply IH|done].
Qed.

Lemma mail_run_inv a0 ss m m' hs rs :
  mail_inv a0 hs rs m → mail_run ss m = Some m' → ∃ hs' rs', mail_inv a0 hs' rs' m'.
Proof.
  revert m hs rs. induction ss as [|s ss IH]; cbn; intros m hs rs Hi Hr; [simplify_eq; eauto|].
  apply bind_Some in Hr as (m1 & Hs & Hr).
  destruct (mail_step_inv a0 hs rs m Hi s m1 Hs) as (hs1 & rs1 & Hi1 & _). eauto.
Qed.

Lemma mail_run_final a0 ss m m' hs rs id x :
  mail_inv a0 hs rs m → mail_run ss m = Some m' →
  ml_rx m !! id = Some x → x ≠ Rx_Pending → ml_rx m' !! id = Some x.
Proof.
  revert m hs rs. induction ss as [|s ss IH]; cbn; intros m hs rs Hi Hr Hx Hne; [by simplify_eq|].
  apply bind_Some in Hr as (m1 & Hs & Hr).
  destruct (mail_step_inv a0 hs rs m Hi s m1 Hs) as (hs1 & rs1 & Hi1 & _).
  eapply IH; [done|done| |done]. by apply (mail_step_final a0 hs rs m Hi s).
Qed.

(** Nothing is queued, and nothing is left pending. *)
Definition drained (m : Mail) : Prop :=
  chan_queue (ml_chan m) = [] ∧ ∀ id, ml_rx m !! id ≠ Some Rx_Pending.

Lemma inv_drained a0 hs rs m : mail_inv a0 hs rs m → chan_queue (ml_chan m) = [] → drained m.
Proof.
  intros Hi Hq. split; [done|]. intros id Hid. apply (mi_pending _ _ _ _ Hi) in Hid.
  rewrite Hq in Hid. by apply elem_of_nil in Hid.
Qed.

(** The actor drains its mailbox, as a run over what is queued. *)
Lemma mail_drains a0 m hs rs now :
  mail_inv a0 hs rs m →
  ∃ m' rs', mail_run (replicate (length (chan_queue (ml_chan m))) (Ml_Turn now)) m = Some m' ∧
    drained m' ∧ ml_running m' = ml_running m ∧
    chan_open (ml_chan m') = chan_open (ml_chan m) ∧
    run ((λ x, (now, x.2)) <$> chan_queue (ml_chan m)) (ml_actor m) = Done rs' (ml_actor m').
Proof.
  remember (chan_queue (ml_chan m)) as q eqn:Hq. revert m hs rs Hq.
  induction q as [|[id msg] q IH]; intros m hs rs Hq Hi.
  { exists m, []. split_and!; [done|by eapply inv_drained|done..]. }
  destruct (ml_running m) eqn:Hrun.
  2: { pose proof (mi_stopped _ _ _ _ Hi Hrun). congruence. }
  destruct (chan_recv_head (id, msg) q (ml_chan m)) as (c & Hc & Hcq); [done|].
  destruct (handle_message_done now msg (ml_actor m)) as (r & a & Hm).
  assert (Hs : mail_step (Ml_Turn now) m =
    Some (mk_Mail c true (ml_issued m) (<[id := answer_of r]> (ml_rx m)) a)).
  { cbn. unfold mail_turn. by rewrite Hrun, Hc, Hm. }
  destruct (mail_step_inv a0 hs rs m Hi _ _ Hs) as (hs1 & rs1 & Hi1 & _).
  destruct (IH (mk_Mail c true (ml_issued m) (<[id := answer_of r]> (ml_rx m)) a) hs1 rs1
    (eq_sym Hcq) Hi1) as (m' & rs' & Hr & Hd & Hrun' & Ho & Hrs).
  exists m', (r :: rs'). cbn [ml_chan ml_running ml_actor] in *. split_and!; [|done..| |].
  - cbn [length replicate mail_run]. by rewrite Hs.
  - by rewrite Ho, (chan_recv_open _ _ _ Hc).
  - cbn. rewrite Hm. by rewrite Hrs.
Qed.

(** Once the last handle is gone it drains the mailbox and ends. *)
Lemma mail_ends a0 m hs rs now :
  mail_inv a0 hs rs m → ml_running m = true →
  ∃ m' rs', mail_run
      (Ml_Close :: replicate (length (chan_queue (ml_chan m))) (Ml_Turn now) ++ [Ml_Turn now]) m =
      Some m' ∧ drained m' ∧ ml_running m' = false ∧
    run ((λ x, (now, x.2)) <$> chan_queue (ml_chan m)) (ml_actor m) = Done rs' (ml_actor m').
Proof.
  intros Hi Hrun. pose proof (close_inv _ _ _ _ Hi) as Hc.
  destruct (mail_drains a0 (mail_close m) hs rs now Hc) as (m' & rs' & Hr & [Hq Hp] & Hrun' & Ho & Hrs).
  cbn [mail_close ml_chan ml_running ml_actor] in *.
  rewrite chan_close_queue in *. rewrite chan_close_open in Ho. rewrite Hrun in Hrun'.
  exists (mk_Mail (ml_chan m') false (ml_issued m') (ml_rx m') (ml_actor m')), rs'.
  split_and!; [|by split|done..]. cbn [mail_run mail_step mbind option_bind].
  rewrite mail_run_app, Hr. cbn. unfold mail_turn.
  by rewrite Hrun', chan_recv_closed.
Qed.

(** ** Property *)

(** C9: the mailbox and its actor are one queue: whatever the order of calls
    and turns, the actor has handled, in the order of the calls, exactly a run
    of [Application.run], and each handled call's receiver has the answer of
    its own message's handler; a receiver is pending exactly while its message
    is queued, so that every call is answered once, and an answer never
    changes; with as many turns as there are messages queued no receiver is
    left pending; and when the last handle is dropped, the actor still handles
    all that is queued, as a run, and ends. *)
Theorem mailbox_refines_run (c : C) a0 ss (m : Mail) now :
  chan_queue c = [] → mail_run ss (mail_new c a0) = Some m →
  (∃ hs rs, run ((λ h, (hd_now h, hd_msg h)) <$> hs) a0 = Done rs (ml_actor m) ∧
     StronglySorted lt (hd_id <$> hs) ∧
     ∀ k h r, hs !! k = Some h → rs !! k = Some r →
       ml_issued m !! hd_id h = Some (hd_msg h) ∧ ml_rx m !! hd_id h = Some (answer_of r)) ∧
  (∀ id, ml_rx m !! id = Some Rx_Pending ↔ id ∈ fst <$> chan_queue (ml_chan m)) ∧
  (∀ ss' m' id x, mail_run ss' m = Some m' → ml_rx m !! id = Some x → x ≠ Rx_Pending →
     ml_rx m' !! id = Some x) ∧
  (∃ m', mail_run (replicate (length (chan_queue (ml_chan m))) (Ml_Turn now)) m = Some m' ∧
     drained m') ∧
  (ml_running m = true → ∃ m' rs', mail_run
       (Ml_Close :: replicate (length (chan_queue (ml_chan m))) (Ml_Turn now) ++ [Ml_Turn now]) m =
       Some m' ∧ drained m' ∧ ml_running m' = false ∧
     run ((λ x, (now, x.2)) <$> chan_queue (ml_chan m)) (ml_actor m) = Done rs' (ml_actor m')).
Proof.
  intros Hc Hr. destruct (mail_run_inv a0 ss _ m _ _ (mail_new_inv c a0 Hc) Hr) as (hs & rs & Hi).
  pose proof Hi as [Hrun _ _ Hord Hh Hq Hp _]. split_and!.
  - exists hs, rs. split_and!; [done|by eapply StronglySorted_app_1_l|done].
  - intros id. split; [apply Hp|]. intros ([id' msg] & -> & Hin)%list_elem_of_fmap.
    by destruct (Hq id' msg Hin).
  - intros ss' m' id x. by eapply mail_run_final.
  - destruct (mail_drains a0 m hs rs now Hi) as (m' & rs' & Hd & Hdr & _). by exists m'.
  - by apply (mail_ends a0 m hs rs).
Qed.
End mailbox.

(** ** Witness *)

Definition sample_call : SimplexContext :=
  mk_SimplexContext (mk_Round 0 1) (key_of 0) (0, EMPTY).

Abbreviation SampleMail := (Mail (P := ref_builder) (W := unit)
  (C := ref_queue (nat * Message unit)) (R := unit)).

Definition sample_mail_steps : list MailStep :=
  [Ml_Propose sample_call; Ml_Verify sample_call (mk_Digest (B256_repeat Byte.x42));
   Ml_Turn sample_now; Ml_Propose sample_call].

(** A mailbox of two messages. *)
Definition sample_mail_start : SampleMail := mail_new (mk_ref_queue [] 2 true) sample_actor.

Definition sample_mail : SampleMail :=
  default sample_mail_start (mail_run sample_mail_steps sample_mail_start).

Lemma mailbox_refines_run_witness :
  (∃ m' : SampleMail, mail_run [Ml_Close; Ml_Turn sample_now; Ml_Turn sample_now;
       Ml_Turn sample_now] sample_mail = Some m' ∧ drained m' ∧ ml_running m' = false) ∧
  ml_rx sample_mail !! 1%nat = Some Rx_Pending.
Proof.
  assert (Hr : mail_run sample_mail_steps sample_mail_start = Some sample_mail).
  { unfold sample_mail. destruct (mail_run _ _) eqn:Hrun; [reflexivity|].
    assert (Hb : bool_decide (is_Some (mail_run sample_mail_steps sample_mail_start)) = true)
      by (vm_compute; reflexivity).
    rewrite Hrun in Hb. discriminate Hb. }
  assert (Hq : chan_queue (A := nat * Message unit)
    (mk_ref_queue [] 2 true : ref_queue (nat * Message unit)) = []) by reflexivity.
  destruct (mailbox_refines_run (P := ref_builder) (W := unit) (R := unit)
    (C := ref_queue (nat * Message unit)) (mk_ref_queue [] 2 true) sample_actor sample_mail_steps
    sample_mail sample_now Hq Hr) as (_ & Hpend & _ & _ & Hend).
  assert (Hl : length (chan_queue (ml_chan sample_mail)) = 2%nat) by (vm_compute; reflexivity).
  rewrite Hl in Hend. split; [|vm_compute; reflexivity].
  assert (Hrun : ml_running sample_mail = true) by (vm_compute; reflexivity).
  destruct (Hend Hrun) as (m' & rs' & Hm & Hd & Hstop & _).
  exists m'. split; [exact Hm|]. split; [exact Hd|exact Hstop].
Defined.
