(* ===== verification/Engine.v ===== *)
(** * allegro-consensus: engine wiring (crates/consensus/src/engine.rs)

    The block relay and the block receiver (the two ends of the block channel),
    the reporter that feeds the finalizer, and [start_simplex_engine], which
    checks the configuration and wires the components together. *)

From S2P Require Import Prelude Extern Reference Digest Validators Metrics Error Executor.
From S2P Require Import ReferenceBuilder Application.
From S2P Require Config.
Import Config (ConsensusConfig, Duration).
Local Open Scope Z_scope.

(** ** Block relay *)

Section relay.
Context `{!Ed25519, !ActorFeedback} {S : Type} `{!P2pSender S}.

Record BlockRelay : Type := mk_BlockRelay {
  relay_pending : BlockStore;
  relay_sender : S;
  relay_metrics : option ConsensusMetrics;
}.

(** [BlockRelay::new] *)
Definition relay_new (pending : BlockStore) (sender : S) (m : option ConsensusMetrics) :
    BlockRelay := mk_BlockRelay pending sender m.

(** Wire format: 32-byte digest, then the block bytes. *)
Definition wire_message (digest : Digest) (block_bytes : bytes) : bytes :=
  digest_as_ref digest ++ block_bytes.

Definition plan_recipients (plan : Plan Recipients) : Recipients :=
  match plan with
  | Plan_Propose => Recipients_All
  | Plan_Forward recipients => recipients
  end.

Definition broadcast (digest : Digest) (plan : Plan Recipients) (relay : BlockRelay) :
    Exec Feedback BlockRelay :=
  match lock_read (relay_pending relay) with
  | Err _ => Panicked relay
  | Ok pending =>
    match pending !! digest with
    | None => Done Feedback_Ok relay
    | Some block_bytes =>
      let msg := wire_message digest block_bytes in
      let recipients := plan_recipients plan in
      let '(checked, sender) := check recipients (relay_sender relay) in
      match checked with
      | Err _ =>
        Done Feedback_Ok
          (mk_BlockRelay (relay_pending relay) sender (inc_errors <$> relay_metrics relay))
      | Ok checked =>
        let '(outcome, sender) := checked_send checked msg false sender in
        let inc := if accepted outcome then inc_blocks_broadcast else inc_errors in
        Done Feedback_Ok
          (mk_BlockRelay (relay_pending relay) sender (inc <$> relay_metrics relay))
      end
    end
  end.
End relay.
Arguments BlockRelay S : clear implicits.

(** ** Block receiver task *)

Section receiver.
Context `{!Ed25519} {E : Type}.

(** The stores the task shares: received blocks and metrics. *)
Record ReceiverState : Type := mk_ReceiverState {
  rx_received : BlockStore;
  rx_metrics : option ConsensusMetrics;
}.

(** One turn of the loop on what [rx.recv()] returned; the answer is the pause
    before the next turn. *)
Definition receive_block (event : Result (PublicKey * bytes) E) (st : ReceiverState) :
    Exec (option Duration) ReceiverState :=
  match event with
  | Ok (sender, data) =>
    if decide (length data < 32)%nat then Done None st
    else
      match copy_from_slice (take 32 data) with
      | None => Panicked st
      | Some digest_arr =>
        let digest := mk_Digest digest_arr in
        let block_vec := drop 32 data in
        if poisoned (rx_received st)
        then Done None (mk_ReceiverState (rx_received st) (inc_errors <$> rx_metrics st))
        else Done None (mk_ReceiverState
               (lock_update (<[digest := block_vec]>) (rx_received st))
               (inc_blocks_received <$> rx_metrics st))
      end
  | Err _ =>
    Done (Some (Config.from_millis 100))
      (mk_ReceiverState (rx_received st) (inc_errors <$> rx_metrics st))
  end.

(** The loop never ends by itself; here over the events seen so far. *)
Fixpoint receiver_loop (events : list (Result (PublicKey * bytes) E)) (st : ReceiverState) :
    Exec unit ReceiverState :=
  match events with
  | [] => Done () st
  | e :: events =>
    match receive_block e st with
    | Done _ st => receiver_loop events st
    | Panicked st => Panicked st
    end
  end.
End receiver.

(** ** Reporters *)

Section reporter.
Context `{!ActorFeedback} {C : Type} `{!Channel C Digest}.

Record MetricsReporter : Type := mk_MetricsReporter {
  reporter_metrics : option ConsensusMetrics;
  finalized_tx : option C;
}.

(** [MetricsReporter::new] *)
Definition reporter_new (m : option ConsensusMetrics) (tx : option C) : MetricsReporter :=
  mk_MetricsReporter m tx.

(** [TracingReporter::report] logs the activity. *)
Definition tracing_report (activity : Activity Digest) : Feedback := Feedback_Ok.

(** [MetricsReporter::report]; a digest the sink refuses is dropped. *)
Definition report (activity : Activity Digest) (r : MetricsReporter) :
    Feedback * MetricsReporter :=
  let r :=
    match activity with
    | Activity_Finalization _ payload =>
      mk_MetricsReporter (inc_blocks_finalized <$> reporter_metrics r)
        ((λ tx, (try_send payload tx).2) <$> finalized_tx r)
    | _ => r
    end in
  (tracing_report activity, r).
End reporter.
Arguments MetricsReporter C : clear implicits.

(** ** Starting the engine *)

Inductive Elector : Type :=
| RoundRobin
| RoundRobinTerm (length : Z) (stall_timeout : Duration) (optimistic_views : Z).

Inductive SimplexForwarding : Type := Simplex_SilentVoters.

(** commonware's [simplex::Config], as filled by the program. *)
Record SimplexConfig `{!Ed25519, !CommonwareEngine} : Type := mk_SimplexConfig {
  sc_scheme : Scheme;
  sc_automaton : Mailbox;
  sc_elector : Elector;
  sc_track_historical_votes : bool;
  sc_partition : string;
  sc_mailbox_size : Z;
  sc_epoch : Z;
  sc_floor : Digest;
  sc_leader_timeout : Duration;
  sc_certification_timeout : Duration;
  sc_timeout_retry : Duration;
  sc_view_retention : Z;
  sc_skip_timeout : Duration;
  sc_fetch_timeout : Duration;
  sc_forwarding : SimplexForwarding;
  sc_replay_buffer : Z;
  sc_write_buffer : Z;
  sc_page_cache : Z * Z;
}.

Section start.
Context `{!Ed25519, !CommonwareEngine, !ActorFeedback} {S C P W : Type}
  `{!P2pSender S, !Channel C Digest, !PayloadBuilder P W}.

Record EngineConfig : Type := mk_EngineConfig {
  signing_key : PrivateKey;
  ec_validators : ValidatorSet;
  consensus_config : ConsensusConfig;
  ec_proposals : Lock (list Digest);
  ec_partition : string;
  ec_payload_builder : P;
  ec_metrics : option ConsensusMetrics;
  genesis_hash : B256;
  genesis_timestamp : Z;
  ec_finalized_tx : option C;
  genesis_timestamp_millis : Z;
}.

(** What is running after a start: the actor with the stores it shares, the
    relay, the block receiver, the reporter, the engine's configuration.  The
    block info handed to the finalizer is the actor's. *)
Record StartedEngine : Type := mk_StartedEngine {
  se_actor : Actor P W;
  se_relay : BlockRelay S;
  se_receiver : ReceiverState;
  se_reporter : MetricsReporter C;
  se_simplex : SimplexConfig;
}.

Definition map_forwarding (p : Config.ForwardingPolicy) : SimplexForwarding :=
  match p with
  | Config.SilentVoters => Simplex_SilentVoters
  | Config.All => Simplex_SilentVoters
  end.

Definition choose_elector (cc : ConsensusConfig) : Elector :=
  if 1 <? Config.term_length cc
  then RoundRobinTerm (Config.term_length cc) (Config.stall_timeout cc)
         (Config.optimistic_views cc)
  else RoundRobin.

(** The [simplex::Config] literal: its [NZUsize!]s panic on zero. *)
Definition simplex_config (scheme : Scheme) (mailbox : Mailbox) (page_cache : Z * Z) (config : EngineConfig) :
    option SimplexConfig :=
  let cc := consensus_config config in
  match nz (Config.mailbox_size cc), nz (Config.replay_buffer_size cc),
        nz (Config.write_buffer_size cc) with
  | Some mailbox_size, Some replay, Some write => Some {|
      sc_scheme := scheme;
      sc_automaton := mailbox;
      sc_elector := choose_elector cc;
      sc_track_historical_votes := Config.track_historical_votes cc;
      sc_partition := ec_partition config;
      sc_mailbox_size := mailbox_size;
      sc_epoch := 0;
      sc_floor := EMPTY;
      sc_leader_timeout := Config.leader_timeout cc;
      sc_certification_timeout := Config.certification_timeout cc;
      sc_timeout_retry := Config.timeout_retry cc;
      sc_view_retention := Config.view_retention cc;
      sc_skip_timeout := Config.skip_timeout cc;
      sc_fetch_timeout := Config.fetch_timeout cc;
      sc_forwarding := map_forwarding (Config.forwarding_policy cc);
      sc_replay_buffer := replay;
      sc_write_buffer := write;
      sc_page_cache := page_cache |}
  | _, _, _ => None
  end.

(** [None] is a panic.  [Engine::new] and [engine.start] are commonware's:
    the result holds what they are given, and what they assert of it is not
    modelled. *)
Definition start_simplex_engine (debug : Duration → string) (config : EngineConfig)
    (block_sender : S) (w : W) : option (Result StartedEngine ConsensusError) :=
  match Config.validate debug (consensus_config config) with
  | Err e => Some (Err e)
  | Ok _ =>
    let cc := consensus_config config in
    let pks := keys (ec_validators config) in
    if decide (pks = []) then
      Some (Err (InvalidValidatorConfig "validator set is empty"))
    else
      match set_try_from pks with
      | Err e => Some (Err (InvalidValidatorConfig ("duplicate validators: " +:+ e)))
      | Ok participants =>
        let namespace := "allegro"%string in
        let scheme :=
          match scheme_signer namespace participants (signing_key config) with
          | Some s => s
          | None => scheme_verifier namespace participants
          end in
        let '(pending_blocks, received_blocks, info) := new_block_stores in
        let m := ec_metrics config in
        let relay := relay_new pending_blocks block_sender m in
        match actor_new (ec_validators config) (Config.mailbox_size cc)
                (Some (ec_proposals config)) pending_blocks received_blocks info
                (ec_payload_builder config) m (genesis_hash config) (genesis_timestamp config)
                (genesis_timestamp_millis config) w with
        | None => None
        | Some (actor, mailbox) =>
          match nz (Config.page_cache_pages cc), nz (Config.page_cache_capacity cc) with
          | Some pages, Some capacity =>
            match simplex_config scheme mailbox (pages, capacity) config with
            | None => None
            | Some simplex =>
              Some (Ok {|
                se_actor := actor;
                se_relay := relay;
                se_receiver := mk_ReceiverState received_blocks m;
                se_reporter := reporter_new m (ec_finalized_tx config);
                se_simplex := simplex |})
            end
          | _, _ => None
          end
        end
      end
  end.
End start.
Arguments EngineConfig {_} C P.
Arguments StartedEngine {_ _} S C P W.

(** ** Lemmas *)

Section wire.
Context `{!Ed25519} {E : Type}.

(** What a well-formed message says, as the wire format documents it. *)
Definition parse_wire (data : bytes) : option (Digest * bytes) :=
  (λ a, (mk_Digest a, drop 32 data)) <$> copy_from_slice (take 32 data).

Lemma parse_wire_message digest b : parse_wire (wire_message digest b) = Some (digest, b).
Proof.
  unfold parse_wire, wire_message, digest_as_ref. destruct digest as [a]. cbn -[take drop].
  rewrite take_app_exact, drop_app_exact by apply B256_length.
  by rewrite copy_from_slice_bytes.
Qed.

Lemma parse_wire_short data : (length data < 32)%nat → parse_wire data = None.
Proof.
  intros Hl. unfold parse_wire.
  rewrite (proj2 (copy_from_slice_None _)); [done|]. rewrite length_take. lia.
Qed.

Lemma parse_wire_long data :
  (32 ≤ length data)%nat → ∃ a, copy_from_slice (take 32 data) = Some a ∧
    parse_wire data = Some (mk_Digest a, drop 32 data).
Proof.
  intros Hl. destruct (copy_from_slice_is_Some (take 32 data)) as (a & Ha & _).
  - rewrite length_take. lia.
  - exists a. unfold parse_wire. by rewrite Ha.
Qed.

(** The blocks in what was received. *)
Definition event_block (e : Result (PublicKey * bytes) E) : option (Digest * bytes) :=
  match e with Ok (_, data) => parse_wire data | Err _ => None end.

Definition store_block (m : gmap Digest bytes) (x : Digest * bytes) : gmap Digest bytes :=
  <[x.1 := x.2]> m.

(** One turn of the receiver, by the block the event carries. *)
Lemma receive_block_spec (e : Result (PublicKey * bytes) E) st :
  exec_state (receive_block e st) =
    match event_block e with
    | Some x => mk_ReceiverState (lock_update (λ m, store_block m x) (rx_received st))
        ((if poisoned (rx_received st) then inc_errors else inc_blocks_received) <$>
           rx_metrics st)
    | None => match e with
              | Ok _ => st
              | Err _ => mk_ReceiverState (rx_received st) (inc_errors <$> rx_metrics st)
              end
    end ∧ ∃ p, exec_value (receive_block e st) = Some p.
Proof.
  destruct e as [[sender data]|err]; cbn -[take drop]; [|by eauto].
  case_decide as Hl.
  - rewrite parse_wire_short by done. cbn. eauto.
  - destruct (parse_wire_long data) as (a & -> & ->); [lia|].
    destruct (poisoned (rx_received st)) eqn:Hp; cbn -[take drop]; [|by eauto].
    rewrite lock_update_id by done. eauto.
Qed.

Lemma receiver_loop_cons (e : Result (PublicKey * bytes) E) es st :
  receiver_loop (e :: es) st = receiver_loop es (exec_state (receive_block e st)).
Proof.
  cbn. destruct (receive_block_spec e st) as [_ [p Hp]].
  by destruct (receive_block e st).
Qed.
End wire.

(** How many events carry a block, and how many are errors of the channel. *)
Definition blocks_in `{!Ed25519} {E} (es : list (Result (PublicKey * bytes) E)) : Z :=
  Z.of_nat (length (omap event_block es)).
Definition errors_in {A E} (es : list (Result A E)) : Z :=
  Z.of_nat (length (List.filter (λ e, negb (is_ok e)) es)).

Section relay_lemmas.
Context `{!Ed25519, !ActorFeedback} {S : Type} `{!P2pSender S}.

(** The branches of [broadcast] on a readable pending store. *)
Lemma broadcast_known digest plan (relay : BlockRelay S) b :
  poisoned (relay_pending relay) = false →
  guarded (relay_pending relay) !! digest = Some b →
  ∃ relay' c, broadcast digest plan relay = Done Feedback_Ok relay' ∧
    relay_pending relay' = relay_pending relay ∧
    relay_metrics relay' = fetch_add c <$> relay_metrics relay ∧
    match check (plan_recipients plan) (relay_sender relay) with
    | (Ok chk, s) =>
      let '(o, s') := checked_send chk (wire_message digest b) false s in
      relay_sender relay' = s' ∧ c = if accepted o then BlocksBroadcast else ErrorsTotal
    | (Err _, s) => relay_sender relay' = s ∧ c = ErrorsTotal
    end.
Proof.
  intros Hp Hd. unfold broadcast, lock_read. rewrite Hp, Hd.
  destruct (check _ _) as [[chk|t] s].
  2: { by eexists _, ErrorsTotal. }
  destruct (checked_send _ _ _ _) as [o s']. eexists _, _.
  split; [done|]. cbn. split; [done|]. split; [|done].
  by destruct (accepted o).
Qed.
End relay_lemmas.

(** ** Properties *)

Section receiver_properties.
Context `{!Ed25519} {E : Type}.

(** C23: the block receiver is total and stores what was sent: whatever a peer
    sends, no turn of the loop panics; messages shorter than a digest are
    ignored; the store holds, over what it held, the last block received for
    each digest, in order of arrival; a poisoned store is left alone. *)
Theorem receiver_stores_messages (es : list (Result (PublicKey * bytes) E)) st :
  ∃ st', receiver_loop es st = Done () st' ∧
    rx_received st' =
      lock_update (λ m, foldl store_block m (omap event_block es)) (rx_received st).
Proof.
  revert st. induction es as [|e es IH]; intros st.
  { exists st. split; [done|]. cbn. destruct (rx_received st) as [[] m]; done. }
  rewrite receiver_loop_cons. destruct (IH (exec_state (receive_block e st))) as (st' & Hr & Hst).
  exists st'. split; [done|]. rewrite Hst. clear Hst Hr IH.
  destruct (receive_block_spec e st) as [-> _]. cbn [omap list_omap].
  destruct (event_block e) as [x|]; [|by destruct e].
  cbn. unfold lock_update. by destruct (rx_received st) as [[] m].
Qed.

(** The receiver's counters are exact modulo 2^64: every stored block
    counts in [blocks_received], every channel error (and every block met with
    a poisoned store) in [errors]. *)
Theorem receiver_metrics_exact (es : list (Result (PublicKey * bytes) E)) st mt :
  rx_metrics st = Some mt → metrics_wf mt →
  let received := if poisoned (rx_received st) then 0 else blocks_in es in
  let failed := errors_in es + (if poisoned (rx_received st) then blocks_in es else 0) in
  ∃ mt', rx_metrics (exec_state (receiver_loop es st)) = Some mt' ∧
    load BlocksReceived mt' = wrap 64 (load BlocksReceived mt + received) ∧
    load ErrorsTotal mt' = wrap 64 (load ErrorsTotal mt + failed).
Proof.
  revert st mt. induction es as [|e es IH]; intros st mt Hm Hwf.
  { exists mt. unfold blocks_in, errors_in. cbn. rewrite Hm.
    destruct (poisoned _); by rewrite !Z.add_0_r, !wrap64_id by apply Hwf. }
  rewrite receiver_loop_cons. destruct (receive_block_spec e st) as [-> _].
  destruct (event_block e) as [x|] eqn:He.
  - assert (Hb : blocks_in (e :: es) = 1 + blocks_in es)
      by (unfold blocks_in; cbn [omap list_omap]; rewrite He; cbn; lia).
    assert (Hf : errors_in (e :: es) = errors_in es) by (by destruct e).
    destruct (IH (mk_ReceiverState (lock_update (λ m, store_block m x) (rx_received st))
      ((if poisoned (rx_received st) then inc_errors else inc_blocks_received) <$> rx_metrics st))
      ((if poisoned (rx_received st) then inc_errors else inc_blocks_received) mt))
      as (mt' & Hm' & H1 & H2).
    { cbn. by rewrite Hm. }
    { destruct (poisoned _); by apply fetch_add_wf. }
    exists mt'. split; [done|]. cbn in H1, H2. rewrite lock_update_poisoned in H1, H2.
    rewrite H1, H2, Hb, Hf. unfold inc_errors, inc_blocks_received.
    destruct (poisoned _); counters; rewrite ?wrap_add_assoc; split; f_equal; lia.
  - assert (Hb : blocks_in (e :: es) = blocks_in es)
      by (unfold blocks_in; cbn [omap list_omap]; by rewrite He).
    destruct e as [a|err].
    { rewrite Hb. by apply IH. }
    assert (Hf : errors_in (Err err :: es) = 1 + errors_in es)
      by (unfold errors_in; cbn; lia).
    destruct (IH (mk_ReceiverState (rx_received st) (inc_errors <$> rx_metrics st))
      (inc_errors mt)) as (mt' & Hm' & H1 & H2).
    { cbn. by rewrite Hm. }
    { by apply fetch_add_wf. }
    exists mt'. split; [done|]. cbn in H1, H2. rewrite H1, H2, Hb, Hf. unfold inc_errors.
    destruct (poisoned _); counters; rewrite ?wrap_add_assoc; split; f_equal; lia.
Qed.
End receiver_properties.

Section relay_properties.
Context `{!Ed25519, !ActorFeedback} {S : Type} `{!P2pSender S}.

(** C22: the relay's contract: it panics exactly when the pending store is
    poisoned, and then sends nothing; otherwise it always reports [Ok] and
    leaves the pending store alone; a digest it has no block for sends nothing
    and counts nothing; for a known block the message handed to the transport
    is the digest and the bytes, addressed to everyone for a proposal and to
    the plan's recipients for a forward, and exactly one of
    [blocks_broadcast] (accepted) and [errors] (rate-limited or refused)
    grows by one. *)
Theorem broadcast_contract digest plan (relay : BlockRelay S) :
  (poisoned (relay_pending relay) = true → broadcast digest plan relay = Panicked relay) ∧
  (poisoned (relay_pending relay) = false →
   (guarded (relay_pending relay) !! digest = None →
      broadcast digest plan relay = Done Feedback_Ok relay) ∧
   (∀ b, guarded (relay_pending relay) !! digest = Some b →
      ∃ relay' c, broadcast digest plan relay = Done Feedback_Ok relay' ∧
        relay_pending relay' = relay_pending relay ∧
        relay_metrics relay' = fetch_add c <$> relay_metrics relay ∧
        match check (match plan with
                     | Plan_Propose => Recipients_All
                     | Plan_Forward recipients => recipients
                     end) (relay_sender relay) with
        | (Ok chk, s) =>
          let '(o, s') := checked_send chk (digest_as_ref digest ++ b) false s in
          relay_sender relay' = s' ∧ c = if accepted o then BlocksBroadcast else ErrorsTotal
        | (Err _, s) => relay_sender relay' = s ∧ c = ErrorsTotal
        end)).
Proof.
  split; [|intros Hp; split].
  - intros Hp. unfold broadcast, lock_read. by rewrite Hp.
  - intros Hd. unfold broadcast, lock_read. by rewrite Hp, Hd.
  - intros b Hd. destruct plan; exact (broadcast_known _ _ _ _ Hp Hd).
Qed.
End relay_properties.

Section propagation.
Context `{!Ed25519} {P W : Type} `{!PayloadBuilder P W} {E R : Type}.
Implicit Types (st : Actor P W).

(** The receiver's turn on a relayed block. *)
Lemma receive_relayed (k : PublicKey) d b rx :
  poisoned (rx_received rx) = false →
  let rx' := exec_state (receive_block (E := E) (Ok (k, wire_message d b)) rx) in
  poisoned (rx_received rx') = false ∧ guarded (rx_received rx') !! d = Some b.
Proof.
  intros Hp rx'. unfold rx'.
  destruct (receive_block_spec (E := E) (Ok (k, wire_message d b)) rx) as [-> _].
  cbn [event_block]. rewrite parse_wire_message. cbn.
  rewrite lock_update_poisoned, lock_update_guarded by done.
  split; [done|]. apply lookup_insert_eq.
Qed.

(** A proposed block reaches its verifiers: the message the relay makes
    of the leader's pending bytes, taken in by a peer's receiver, makes those
    very bytes the ones the peer's actor will validate for the digest. *)
Theorem proposal_reaches_peer now (m : Propose) stA d stA' (stB : Actor P W) rx (k : PublicKey) :
  poisoned (pending_blocks stA) = false →
  handle_propose now m stA = Done (Some d) stA' →
  poisoned (pending_blocks stB) = false → guarded (pending_blocks stB) !! d = None →
  poisoned (rx_received rx) = false →
  ∃ b, guarded (pending_blocks stA') !! d = Some b ∧
    lookup_block_bytes d (set_received
      (rx_received (exec_state (receive_block (E := E) (Ok (k, wire_message d b)) rx))) stB) =
    Ok (Some b).
Proof.
  intros HpA Hh HpB HnB Hrx.
  destruct (handle_propose_Some _ _ _ _ _ Hh) as (kb & b & w & _ & Hb & -> & ->).
  exists (bp_block_bytes b). cbn -[receive_block]. rewrite lock_update_guarded by done.
  split; [apply lookup_insert_eq|]. unfold lookup_block_bytes, lock_read. cbn -[receive_block].
  rewrite HpB. cbn -[receive_block]. rewrite HnB.
  destruct (receive_relayed k (mk_Digest (bp_block_hash b)) (bp_block_bytes b) rx Hrx)
    as [-> ->]. done.
Qed.

Context `{!BuilderLaws P W, !BuilderAgreement P W}.

(** C5: proposer and verifier record the same block info: when a leader
    proposes in a consensus context, and a peer that received the relayed
    block accepts it in the same context, both nodes hold the identical
    [BlockInfo] for the digest - number, hash, view, proposer and both time
    stamps - so they build and check its children alike. *)
Theorem proposer_verifier_agree now nowB (ctx : SimplexContext) stA d stA'
    (stB stB' : Actor P W) rx
    (k : PublicKey) b :
  actor_inv stA → is_u64 (parent_of (guarded (block_info stA)) (c_parent ctx).2).1.1 →
  poisoned (pending_blocks stA) = false →
  handle_message (R := R) now (mailbox_propose ctx) stA =
    Done (Response_Propose (Some d)) stA' →
  guarded (pending_blocks stA') !! d = Some b →
  poisoned (rx_received rx) = false → poisoned (pending_blocks stB) = false →
  guarded (pending_blocks stB) !! d = None → poisoned (block_info stB) = false →
  handle_message (R := R) nowB (mailbox_verify ctx d) (set_received
      (rx_received (exec_state (receive_block (E := E) (Ok (k, wire_message d b)) rx))) stB) =
    Done (Response_Verify (Some true)) stB' →
  ∃ i, guarded (block_info stA') !! d = Some i ∧ guarded (block_info stB') !! d = Some i.
Proof.
  intros HA Hnum HpA Hprop Hb Hrx HpB HnB HiB Hver.
  cbn in Hprop. destruct (handle_propose _ _ _) as [o s|] eqn:Hh; simplify_eq.
  apply handle_propose_Some in Hh as (kb & pl & w & HiA & Hbuild & -> & ->).
  cbn in Hb. rewrite lock_update_guarded, lookup_insert_eq in Hb by done. injection Hb as <-.
  cbn -[receive_block] in Hver.
  destruct (handle_verify _ _) as [o s] eqn:Hv; simplify_eq.
  apply handle_verify_true in Hv as (meta & w' & (_ & (b' & Hlook & Hval) & Hms) & ->).
  cbn -[receive_block] in *.
  destruct (receive_relayed k (mk_Digest (bp_block_hash pl)) (bp_block_bytes pl) rx Hrx)
    as [Hr1 Hr2].
  unfold lookup_block_bytes, lock_read in Hlook. cbn -[receive_block] in Hlook.
  rewrite HpB in Hlook. cbn -[receive_block] in Hlook.
  rewrite HnB, Hr1, Hr2 in Hlook. injection Hlook as <-.
  set (p := mk_Propose _ _ _) in *. set (par := parent_of _ _) in *.
  destruct (propose_request_stamps now p par kb) as (Hu & Ht & _).
  { by apply parent_of_u64. }
  destruct (build_millis _ _ _ _ _ Hu Ht Hbuild) as [_ Hsec].
  assert (Hpn : req_parent_number (propose_request now p par kb) = par.1.1).
  { destruct par as [[]]. unfold p. cbn. by destruct (c_parent ctx). }
  destruct (build_validate_agree _ _ _ _ _ _ _ _ _ _ ltac:(by rewrite Hpn) Hu Hbuild Hval)
    as (Heh & Hen & Hem).
  rewrite !lock_update_guarded by done. rewrite !lookup_insert_eq.
  eexists. split; [done|]. unfold verified_info, proposed_info. cbn.
  rewrite Heh, Hen, Hem. do 2 f_equal. rewrite <- Hms, Hem, Hsec. done.
Qed.
End propagation.

Section reporter_properties.
Context `{!ActorFeedback} {C : Type} `{!Channel C Digest}.

Definition finalized_payload (a : Activity Digest) : option Digest :=
  match a with Activity_Finalization _ d => Some d | _ => None end.

Definition report_all (acts : list (Activity Digest)) (r : MetricsReporter C) :
    MetricsReporter C :=
  foldl (λ r a, (report a r).2) r acts.

(** One report, by what it finalizes. *)
Lemma report_spec a (r : MetricsReporter C) :
  report a r = (Feedback_Ok,
    match finalized_payload a with
    | Some d => mk_MetricsReporter (inc_blocks_finalized <$> reporter_metrics r)
                  ((λ tx, (try_send d tx).2) <$> finalized_tx r)
    | None => r
    end).
Proof. by destruct a. Qed.

(** The reporter's contract: every activity is answered [Ok]; over any
    sequence of activities, only finalizations have an effect: the sink
    receives finalized digests in the order of finalization, each at most
    once per certificate, dropping only what it refuses; and
    [blocks_finalized] counts every finalization, dropped or not, modulo
    2^64, the other counters staying put. *)
Theorem reporter_forwards_finalizations `{!ChannelLaws C Digest} acts
    (r : MetricsReporter C) tx mt :
  finalized_tx r = Some tx → reporter_metrics r = Some mt → metrics_wf mt →
  (∀ a, (report a r).1 = Feedback_Ok) ∧
  (∀ v d, is_ok (try_send d tx).1 = true →
     chan_queue <$> finalized_tx (report (Activity_Finalization v d) r).2 =
     Some (chan_queue tx ++ [d])) ∧
  ∃ tx' mt' sent,
    finalized_tx (report_all acts r) = Some tx' ∧
    reporter_metrics (report_all acts r) = Some mt' ∧
    chan_queue tx' = chan_queue tx ++ sent ∧ sent `sublist_of` omap finalized_payload acts ∧
    load BlocksFinalized mt' =
      wrap 64 (load BlocksFinalized mt + Z.of_nat (length (omap finalized_payload acts))) ∧
    (∀ c, c ≠ BlocksFinalized → load c mt' = load c mt).
Proof.
  intros Htx Hmt Hwf. split_and!.
  { intros a. by rewrite report_spec. }
  { intros v d Hok. rewrite report_spec. cbn. rewrite Htx. cbn.
    destruct (try_send d tx) as [[[]|] tx'] eqn:Hs; [|done]. cbn.
    by rewrite (try_send_ok _ _ _ Hs). }
  revert r tx mt Htx Hmt Hwf. induction acts as [|a acts IH]; intros r tx mt Htx Hmt Hwf.
  { exists tx, mt, []. cbn. rewrite app_nil_r, Z.add_0_r, wrap64_id by apply Hwf.
    split_and!; [done..|constructor|done|done]. }
  cbn [report_all foldl]. rewrite report_spec. cbn [omap list_omap snd].
  destruct (finalized_payload a) as [d|]; [|by apply IH].
  destruct (try_send d tx) as [res tx1] eqn:Hs.
  destruct (IH (mk_MetricsReporter (Some (inc_blocks_finalized mt)) (Some tx1)) tx1
    (inc_blocks_finalized mt)) as (tx' & mt' & sent & H1 & H2 & H3 & H4 & H5 & H6);
    [done|done|by apply fetch_add_wf|].
  rewrite Hmt, Htx. cbn [fmap option_fmap option_map]. rewrite Hs.
  exists tx', mt', ((if is_ok res then [d] else []) ++ sent).
  split_and!; [exact H1|exact H2| | | |].
  - rewrite H3, app_assoc. f_equal. destruct res as [[]|e]; cbn.
    + by rewrite (try_send_ok _ _ _ Hs).
    + by rewrite (try_send_err _ _ _ _ Hs), app_nil_r.
  - destruct (is_ok res); by constructor.
  - rewrite H5. unfold inc_blocks_finalized. counters. rewrite wrap_add_assoc. cbn [length].
    f_equal. lia.
  - intros c Hc. rewrite H6 by done. by apply load_fetch_add_ne.
Qed.
End reporter_properties.

Section start_properties.
Context `{!Ed25519, !CommonwareEngine, !ActorFeedback, !CommonwareEngineLaws}
  {S C P W : Type} `{!P2pSender S}.

Definition buffers_set (cc : ConsensusConfig) : Prop :=
  Config.page_cache_pages cc ≠ 0 ∧ Config.page_cache_capacity cc ≠ 0 ∧
  Config.replay_buffer_size cc ≠ 0 ∧ Config.write_buffer_size cc ≠ 0.

(** The sizes that [validate] does not check, and the bound of the actor's
    channel, which it does not check either. *)
Definition sizes_fit (cc : ConsensusConfig) : Prop :=
  buffers_set cc ∧ Config.mailbox_size cc < mpsc_max_buffer.

(** What a start leaves running. *)
Definition wired (config : EngineConfig C P) (s : StartedEngine S C P W) : Prop :=
  let cc := consensus_config config in
  relay_pending (se_relay s) = pending_blocks (se_actor s) ∧
  rx_received (se_receiver s) = received_blocks (se_actor s) ∧
  relay_metrics (se_relay s) = ec_metrics config ∧
  rx_metrics (se_receiver s) = ec_metrics config ∧
  metrics (se_actor s) = ec_metrics config ∧
  reporter_metrics (se_reporter s) = ec_metrics config ∧
  finalized_tx (se_reporter s) = ec_finalized_tx config ∧
  actor_validators (se_actor s) = ec_validators config ∧
  sc_floor (se_simplex s) = EMPTY ∧
  (bi_hash <$> guarded (block_info (se_actor s)) !! sc_floor (se_simplex s)) =
    Some (genesis_hash config) ∧
  (sc_elector (se_simplex s) = RoundRobin ↔ Config.term_length cc = 1) ∧
  sc_mailbox_size (se_simplex s) = Config.mailbox_size cc ∧
  mailbox_buffer (sc_automaton (se_simplex s)) = Config.mailbox_size cc.

Lemma nz_nonzero z : z ≠ 0 → nz z = Some z.
Proof. intros. rewrite nz_zero. by rewrite decide_False. Qed.

Lemma set_try_from_keys (vs : ValidatorSet) : ∃ ps, set_try_from (keys vs) = Ok ps.
Proof.
  pose proof (proj2 (set_try_from_ok (keys vs)) (keys_NoDup vs)) as Hok.
  destruct (set_try_from (keys vs)); [by eexists|done].
Qed.

(** A start with a valid configuration and some validator. *)
Lemma start_valid debug (config : EngineConfig C P) (sender : S) (w : W) :
  Config.config_unsigned (consensus_config config) →
  Config.validate debug (consensus_config config) = Ok () → ec_validators config ≠ ∅ →
  (sizes_fit (consensus_config config) ∧
   ∃ s, start_simplex_engine debug config sender w = Some (Ok s) ∧ wired config s ∧
     actor_world (se_actor s) = w) ∨
  (¬ sizes_fit (consensus_config config) ∧ start_simplex_engine debug config sender w = None).
Proof.
  intros Hu Hok He. set (cc := consensus_config config) in *. unfold start_simplex_engine. fold cc.
  pose proof (proj1 (Config.validate_Ok debug cc Hu) Hok) as Hinv.
  unfold Config.checked_invariants in Hinv.
  rewrite Hok, decide_False by (by rewrite keys_nil).
  destruct (set_try_from_keys (ec_validators config)) as [ps ->].
  cbn [new_block_stores]. unfold simplex_config, actor_new, sizes_fit. fold cc.
  destruct (Z.ltb_spec (Config.mailbox_size cc) mpsc_max_buffer); [|right; split; [lia|done]].
  rewrite (nz_nonzero (Config.mailbox_size cc)) by lia.
  rewrite !nz_zero. unfold buffers_set. repeat case_decide.
  all: try (right; split; [tauto|done]).
  left. split; [by split_and!|]. eexists. split; [done|]. split; [|done]. unfold wired. cbn.
  split_and!; [done..| |done|done]. unfold choose_elector. fold cc.
  destruct (Z.ltb_spec 1 (Config.term_length cc)); split; try done; lia.
Qed.

(** The parts a start leaves running, each as its constructor makes it. *)
Lemma start_parts debug (config : EngineConfig C P) (sender : S) (w : W) s :
  start_simplex_engine debug config sender w = Some (Ok s) →
  se_actor s = actor_made (ec_validators config) (Some (ec_proposals config)) (lock_new ∅)
    (lock_new ∅) (lock_new ∅) (ec_payload_builder config) (ec_metrics config)
    (genesis_hash config) (genesis_timestamp config) (genesis_timestamp_millis config) w ∧
  se_relay s = relay_new (lock_new ∅) sender (ec_metrics config) ∧
  se_receiver s = mk_ReceiverState (lock_new ∅) (ec_metrics config) ∧
  se_reporter s = reporter_new (ec_metrics config) (ec_finalized_tx config).
Proof.
  unfold start_simplex_engine. destruct (Config.validate _ _); [|done]. case_decide; [done|].
  destruct (set_try_from _); [|done]. cbn [new_block_stores]. unfold actor_new.
  destruct (_ <? _); [|done]. destruct (nz _); [|done]. destruct (nz _); [|done]. destruct (simplex_config _ _ _); [|done].
  by intros [= <-].
Qed.

(** C19: every way a start can end: an invalid configuration is returned as
    [validate]'s error; an empty validator set is returned as an error (the
    documented panic does not happen, and no validator set can reach the
    "duplicate validators" branch); otherwise the panics of the program's own
    code are exactly a zero page cache, replay or write buffer and a mailbox
    size that the actor's channel refuses, which [validate] lets through; and
    in every other case the engine starts, with the relay, actor, reporter and
    finalizer sharing their stores and the genesis block registered under the
    engine's floor. *)
Theorem start_engine_outcomes debug (config : EngineConfig C P) (sender : S) (w : W) :
  Config.config_unsigned (consensus_config config) →
  let cc := consensus_config config in
  let out := start_simplex_engine debug config sender w in
  (∀ e, Config.validate debug cc = Err e → out = Some (Err e)) ∧
  (Config.validate debug cc = Ok () → ec_validators config = ∅ →
   out = Some (Err (InvalidValidatorConfig "validator set is empty"))) ∧
  (Config.validate debug cc = Ok () → ec_validators config ≠ ∅ →
   (sizes_fit cc ∧ ∃ s, out = Some (Ok s) ∧ wired config s) ∨
   (¬ sizes_fit cc ∧ out = None)).
Proof.
  intros Hu cc out. split_and!.
  - intros e He. unfold out, start_simplex_engine. fold cc. by rewrite He.
  - intros Hok He. unfold out, start_simplex_engine. fold cc. rewrite Hok.
    rewrite decide_True by (by apply keys_nil). done.
  - intros Hok He. destruct (start_valid debug config sender w Hu Hok He)
      as [(Hb & s & Hs & Hw & _)|?]; [left; eauto|by right].
Qed.
End start_properties.

(** ** Witnesses *)

Lemma reporter_forwards_finalizations_witness :
  let r := reporter_new (Some metrics_new) (Some (mk_ref_queue [] 1 true)) in
  let acts := [Activity_Finalization 1 sample_digest; Activity_Nullify 2;
               Activity_Finalization 3 EMPTY] in
  ∃ tx' mt' sent,
    finalized_tx (report_all acts r) = Some tx' ∧
    reporter_metrics (report_all acts r) = Some mt' ∧
    chan_queue tx' = sent ∧ sent `sublist_of` [sample_digest; EMPTY] ∧
    load BlocksFinalized mt' = 2.
Proof.
  intros r acts.
  destruct (reporter_forwards_finalizations acts r (mk_ref_queue [] 1 true) metrics_new
    eq_refl eq_refl metrics_new_wf) as (_ & _ & tx' & mt' & sent & H1 & H2 & H3 & H4 & H5 & _).
  exists tx', mt', sent. split_and!; [exact H1|exact H2|exact H3|exact H4|].
  rewrite H5. vm_compute. reflexivity.
Defined.

(** The sample network's start: defaults, two validators, reference parts. *)
Definition sample_engine_config : EngineConfig (ref_queue Digest) ref_builder := {|
  signing_key := 0 : PrivateKey (Ed25519 := ref_ed25519);
  ec_validators := sample_validators;
  consensus_config := Config.default_config;
  ec_proposals := lock_new [];
  ec_partition := "allegro_0";
  ec_payload_builder := mk_ref_builder;
  ec_metrics := Some metrics_new;
  genesis_hash := B256_repeat Byte.x99;
  genesis_timestamp := 1700000000;
  ec_finalized_tx := Some (mk_ref_queue [] 32 true);
  genesis_timestamp_millis := 1700000000000;
|}.

Definition debug_none (d : Duration) : string := "".

Lemma sample_validators_nonempty : sample_validators ≠ ∅.
Proof.
  intros He. assert (Hk : sample_validators !! key_of 0 = None) by (by rewrite He).
  vm_compute in Hk. discriminate.
Qed.

Lemma start_engine_outcomes_witness :
  ∃ s : StartedEngine ref_transport (ref_queue Digest) ref_builder unit,
    start_simplex_engine debug_none sample_engine_config ([] : ref_transport) tt =
      Some (Ok s) ∧ wired sample_engine_config s.
Proof.
  destruct (start_engine_outcomes debug_none sample_engine_config ([] : ref_transport) tt
    Config.default_config_unsigned) as (_ & _ & H).
  destruct (H eq_refl sample_validators_nonempty) as [[_ Hs]|[Hb _]]; [exact Hs|].
  destruct Hb. cbv. split_and!; (discriminate || reflexivity).
Defined.

(** The leader's proposal on the sample actor. *)
Lemma sample_proposes :
  handle_propose sample_now sample_propose sample_actor =
  Done (Some sample_digest) (exec_state (handle_propose sample_now sample_propose sample_actor)).
Proof. apply exec_done. vm_compute. reflexivity. Qed.

Definition sample_receiver : ReceiverState := mk_ReceiverState (lock_new ∅) None.

Lemma proposal_reaches_peer_witness :
  ∃ b, lookup_block_bytes sample_digest (set_received
      (rx_received (exec_state (receive_block (E := unit)
        (Ok (key_of 0, wire_message sample_digest b)) sample_receiver))) sample_actor) =
    Ok (Some b).
Proof.
  destruct (proposal_reaches_peer (E := unit) sample_now sample_propose sample_actor
    sample_digest _ sample_actor sample_receiver (key_of 0) eq_refl sample_proposes
    eq_refl eq_refl eq_refl) as (b & _ & Hb).
  exists b. exact Hb.
Defined.

Definition sample_context : SimplexContext := mk_SimplexContext (mk_Round 0 1) (key_of 0) (0, EMPTY).

Definition sample_relayed : ReceiverState :=
  exec_state (receive_block (E := unit)
    (Ok (key_of 0, wire_message sample_digest (bp_block_bytes sample_payload))) sample_receiver).

Lemma proposer_verifier_agree_witness :
  ∃ i, guarded (block_info (exec_state (handle_message (R := unit) sample_now
         (mailbox_propose sample_context) sample_actor))) !! sample_digest = Some i ∧
       guarded (block_info (exec_state (handle_message (R := unit) sample_now
         (mailbox_verify sample_context sample_digest)
         (set_received (rx_received sample_relayed) sample_actor)))) !! sample_digest = Some i.
Proof.
  apply (proposer_verifier_agree (E := unit) (R := unit) sample_now sample_now sample_context
    sample_actor sample_digest _ sample_actor _ sample_receiver (key_of 0)
    (bp_block_bytes sample_payload)).
  - exact sample_inv.
  - vm_compute. split; discriminate.
  - reflexivity.
  - apply exec_done. vm_compute. reflexivity.
  - vm_compute. reflexivity.
  - reflexivity.
  - reflexivity.
  - reflexivity.
  - reflexivity.
  - apply exec_done. vm_compute. reflexivity.
Defined.

Definition sample_events : list (Result (PublicKey * bytes) unit) :=
  [Ok (key_of 0, wire_message sample_digest []); Err tt; Ok (key_of 0, [])].

Lemma receiver_metrics_exact_witness :
  ∃ mt', rx_metrics (exec_state (receiver_loop sample_events
      (mk_ReceiverState (lock_new ∅) (Some metrics_new)))) = Some mt' ∧
    load BlocksReceived mt' = 1 ∧ load ErrorsTotal mt' = 1.
Proof.
  destruct (receiver_metrics_exact sample_events
    (mk_ReceiverState (lock_new ∅) (Some metrics_new)) metrics_new eq_refl metrics_new_wf)
    as (mt' & Hm & H1 & H2).
  exists mt'. split; [exact Hm|]. rewrite H1, H2. split; vm_compute; reflexivity.
Defined.

Definition sample_relay : BlockRelay ref_transport :=
  relay_new (lock_new {[sample_digest := [Byte.x07]]}) [] (Some metrics_new).

Lemma broadcast_contract_witness :
  ∃ relay', broadcast sample_digest Plan_Propose sample_relay = Done Feedback_Ok relay' ∧
    relay_sender relay' = [(None, digest_as_ref sample_digest ++ [Byte.x07])].
Proof.
  destruct (broadcast_contract sample_digest Plan_Propose sample_relay) as [_ Hb].
  destruct (proj2 (Hb eq_refl) [Byte.x07]) as (relay' & c & H1 & _ & _ & H2).
  - vm_compute. reflexivity.
  - exists relay'. split; [exact H1|]. exact (proj1 H2).
Defined.
