(* ===== verification/Loopback.v ===== *)
(** * allegro-consensus: the loopback transport (crates/consensus/src/loopback.rs)

    An in-process channel pair for a single node: an instance of the transport
    interface whose every message comes back to its sender.  A sender, its
    clones and its checked senders hold the same channel, kept here in the
    sender's state. *)

From S2P Require Import Prelude Extern Reference Digest Metrics Executor Application Engine.
Local Open Scope Z_scope.

Section loopback.
Context `{!Ed25519, !ActorFeedback} {C : Type}
  `{!Channel C (PublicKey * bytes), !ChannelRx C (PublicKey * bytes)}.

Record LoopbackSender : Type := mk_LoopbackSender { self_key : PublicKey; lb_tx : C }.

Record LoopbackCheckedSender : Type := mk_LoopbackCheckedSender { sent_to : PublicKey }.

(** [loopback_channel]: [c] is the fresh channel of the given capacity; the
    receiver is its other end. *)
Definition loopback_channel (self : PublicKey) (c : C) : LoopbackSender :=
  mk_LoopbackSender self c.

Definition loopback_check (_recipients : option (list PublicKey)) (s : LoopbackSender) :
    Result LoopbackCheckedSender Z * LoopbackSender :=
  (Ok (mk_LoopbackCheckedSender (self_key s)), s).

Definition loopback_recipients (c : LoopbackCheckedSender) : list PublicKey := [sent_to c].

(** [CheckedSender::send]: a full buffer drops the message. *)
Definition loopback_send (c : LoopbackCheckedSender) (message : bytes) (_priority : bool)
    (s : LoopbackSender) : Unreliable * LoopbackSender :=
  let '(sent, tx) := try_send (sent_to c, message) (lb_tx s) in
  let s := mk_LoopbackSender (self_key s) tx in
  match sent with
  | Ok _ => (unreliable_new Feedback_Ok, s)
  | Err Full => (unreliable_rejected, s)
  | Err Closed => (unreliable_new Feedback_Closed, s)
  end.

#[global] Instance loopback_p2p : P2pSender LoopbackSender := {|
  Recipients := option (list PublicKey);
  Recipients_All := None;
  Checked := LoopbackCheckedSender;
  check := loopback_check;
  checked_recipients := loopback_recipients;
  checked_send := loopback_send;
|}.

(** [LoopbackReceiver::recv]: [Some] of a panic or an item, [None] to wait.
    The error type is [Infallible]. *)
Definition loopback_recv (c : C) : option (Exec (Result (PublicKey * bytes) Empty_set) C) :=
  match chan_recv c with
  | Recv_Item m c => Some (Done (Ok m) c)
  | Recv_Pending => None
  | Recv_Closed => Some (Panicked c)
  end.

(** Sending in a row through one sender. *)
Definition loopback_send_all (msgs : list bytes) (s : LoopbackSender) : LoopbackSender :=
  foldl (λ s m, (loopback_send (mk_LoopbackCheckedSender (self_key s)) m false s).2) s msgs.

(** Receiving [n] messages in a row, without waiting. *)
Fixpoint loopback_recv_n (n : nat) (c : C) : list (PublicKey * bytes) :=
  match n with
  | O => []
  | S n =>
    match loopback_recv c with
    | Some (Done (Ok m) c) => m :: loopback_recv_n n c
    | _ => []
    end
  end.

Context `{!ChannelLaws C (PublicKey * bytes), !ChannelRxLaws C (PublicKey * bytes)}.

Lemma loopback_send_queue c m p s :
  let '(o, s') := loopback_send c m p s in
  self_key s' = self_key s ∧
  chan_queue (lb_tx s') = chan_queue (lb_tx s) ++
    (if is_ok (try_send (sent_to c, m) (lb_tx s)).1 then [(sent_to c, m)] else []).
Proof.
  unfold loopback_send. destruct (try_send _ _) as [[[]|[]] tx] eqn:Hs; cbn.
  - split; [done|]. by rewrite (try_send_ok _ _ _ Hs).
  - split; [done|]. by rewrite (try_send_err _ _ _ _ Hs), app_nil_r.
  - split; [done|]. by rewrite (try_send_err _ _ _ _ Hs), app_nil_r.
Qed.

Lemma loopback_recv_queue l c :
  chan_queue c = l → loopback_recv_n (length l) c = l.
Proof.
  revert c. induction l as [|m l IH]; intros c Hc; [done|]. cbn.
  destruct (chan_recv_head _ _ _ Hc) as (c' & Hr & Hq). unfold loopback_recv.
  rewrite Hr. by rewrite (IH c').
Qed.

(** The loopback is a lossy FIFO to oneself: of the messages sent, those
    the buffer took come back in the order they were sent, unchanged and
    addressed by the sender's own key, after what was already queued. *)
Theorem loopback_fifo msgs s :
  let s' := loopback_send_all msgs s in
  ∃ sent, sent `sublist_of` msgs ∧
    loopback_recv_n (length (chan_queue (lb_tx s')))%nat (lb_tx s') =
    chan_queue (lb_tx s) ++ ((λ m, (self_key s, m)) <$> sent).
Proof.
  intros s'. enough (∃ sent, sent `sublist_of` msgs ∧
    chan_queue (lb_tx s') = chan_queue (lb_tx s) ++ ((λ m, (self_key s, m)) <$> sent))
    as (sent & Hs & Hq).
  { exists sent. split; [done|]. by rewrite loopback_recv_queue by done. }
  unfold s'. clear s'. revert s. induction msgs as [|m msgs IH]; intros s.
  { exists []. split; [constructor|]. by rewrite app_nil_r. }
  cbn [loopback_send_all foldl].
  pose proof (loopback_send_queue (mk_LoopbackCheckedSender (self_key s)) m false s) as Hs.
  destruct (loopback_send _ m false s) as [o s1]. destruct Hs as [Hk Hq]. cbn [snd sent_to] in *.
  destruct (IH s1) as (sent & Hsub & Hq1). rewrite Hk in Hq1.
  destruct (is_ok _).
  - exists (m :: sent). split; [by constructor|].
    unfold loopback_send_all in Hq1. by rewrite Hq1, Hq, <- app_assoc.
  - exists sent. split; [by constructor|].
    unfold loopback_send_all in Hq1. by rewrite Hq1, Hq, app_nil_r.
Qed.

(** A node alone on the loopback receives its own proposal: when the
    relay's sender is a loopback with room, broadcasting a pending block and
    taking one message off the channel makes the receiver store exactly that
    block under its digest. *)
Theorem loopback_block_roundtrip digest plan (relay : BlockRelay LoopbackSender) b rx :
  poisoned (relay_pending relay) = false →
  guarded (relay_pending relay) !! digest = Some b →
  chan_queue (lb_tx (relay_sender relay)) = [] →
  (∀ m, is_ok (try_send m (lb_tx (relay_sender relay))).1 = true) →
  poisoned (rx_received rx) = false →
  ∃ relay' msg c,
    broadcast digest plan relay = Done Feedback_Ok relay' ∧
    loopback_recv (lb_tx (relay_sender relay')) = Some (Done (Ok msg) c) ∧
    chan_queue c = [] ∧ msg.1 = self_key (relay_sender relay) ∧
    guarded (rx_received (exec_state (receive_block (E := Empty_set) (Ok msg) rx))) !! digest =
      Some b.
Proof.
  intros Hp Hd Hq Hok Hrx. destruct (broadcast_known digest plan relay b Hp Hd)
    as (relay' & c & Hb & _ & _ & Hc).
  cbn [check loopback_p2p loopback_check] in Hc. cbn [checked_send loopback_p2p] in Hc.
  pose proof (loopback_send_queue (mk_LoopbackCheckedSender (self_key (relay_sender relay)))
    (wire_message digest b) false (relay_sender relay)) as Hs.
  destruct (loopback_send _ _ _ _) as [o s'] in Hs, Hc.
  destruct Hs as [_ Hs]. destruct Hc as [Hs' _].
  rewrite Hok, Hq in Hs. cbn [app sent_to] in Hs.
  destruct (chan_recv_head _ _ _ Hs) as (c' & Hr & Hq').
  exists relay', (self_key (relay_sender relay), wire_message digest b), c'.
  split_and!; [done| |done|done|].
  - unfold loopback_recv. by rewrite Hs', Hr.
  - by apply receive_relayed.
Qed.
End loopback.
Arguments LoopbackSender {_} C.

(** ** Witnesses *)

(** A queue that always has room. *)
Record ref_unbounded (A : Type) : Type := mk_ref_unbounded { ru_items : list A }.
Arguments mk_ref_unbounded {A}.
Arguments ru_items {A}.

#[export] Instance ref_unbounded_channel A : Channel (ref_unbounded A) A := {|
  chan_queue := ru_items;
  try_send a c := (Ok (), mk_ref_unbounded (ru_items c ++ [a]));
|}.
#[export] Instance ref_unbounded_laws A : ChannelLaws (ref_unbounded A) A.
Proof. split; intros; cbn in *; by simplify_eq. Qed.
#[export] Instance ref_unbounded_rx A : ChannelRx (ref_unbounded A) A := λ c,
  match ru_items c with a :: l => Recv_Item a (mk_ref_unbounded l) | [] => Recv_Pending end.
#[export] Instance ref_unbounded_rx_laws A : ChannelRxLaws (ref_unbounded A) A.
Proof.
  split; unfold chan_recv, ref_unbounded_rx; cbn.
  - intros a l c ->. eauto.
  - intros c ->. auto.
Qed.

Lemma loopback_fifo_witness :
  let s := mk_LoopbackSender (key_of 3) (mk_ref_queue [] 2 true) in
  ∃ sent, sent `sublist_of` [[Byte.x01]; [Byte.x02]; [Byte.x03]] ∧
    loopback_recv_n 2 (lb_tx (loopback_send_all [[Byte.x01]; [Byte.x02]; [Byte.x03]] s)) =
    (λ m, (key_of 3, m)) <$> sent.
Proof.
  intros s.
  destruct (loopback_fifo [[Byte.x01]; [Byte.x02]; [Byte.x03]] s) as (sent & Hs & Hr).
  exists sent. split; [exact Hs|]. exact Hr.
Defined.

Definition sample_loopback : BlockRelay (LoopbackSender (ref_unbounded (B256 * bytes))) :=
  relay_new (lock_new {[sample_digest := [Byte.x07]]})
    (mk_LoopbackSender (key_of 3) (mk_ref_unbounded [])) None.

Lemma loopback_block_roundtrip_witness :
  ∃ relay' msg c,
    broadcast sample_digest Plan_Propose sample_loopback = Done Feedback_Ok relay' ∧
    loopback_recv (lb_tx (relay_sender relay')) = Some (Done (Ok msg) c) ∧
    chan_queue c = [] ∧ msg.1 = self_key (relay_sender sample_loopback) ∧
    guarded (rx_received (exec_state (receive_block (E := Empty_set) (Ok msg)
      sample_receiver))) !! sample_digest = Some [Byte.x07].
Proof.
  apply (loopback_block_roundtrip sample_digest Plan_Propose sample_loopback).
  - reflexivity.
  - vm_compute. reflexivity.
  - reflexivity.
  - reflexivity.
  - reflexivity.
Defined.
