(* ===== verification/Reth.v ===== *)
(** * Interface of reth's engine API and Ethereum blocks

    Nothing here models code of the repository: [RethEngine] states what the
    node crate uses of reth (the engine handle, the payload builder handle,
    the Ethereum block type), [RethEngineLaws] the documented behaviour the
    theorems rely on.  A reference engine, with its laws, ends the file. *)

From S2P Require Import Prelude Extern Reference Executor.
Local Open Scope Z_scope.

(** [alloy_rpc_types_engine::PayloadStatusEnum] *)
Inductive PayloadStatusEnum : Type :=
| Status_Valid
| Status_Invalid (validation_error : string)
| Status_Syncing
| Status_Accepted.

#[global] Instance PayloadStatusEnum_eq_dec : EqDecision PayloadStatusEnum.
Proof. solve_decision. Defined.

(** [PayloadStatus::is_valid] *)
Definition status_is_valid (s : PayloadStatusEnum) : bool :=
  match s with Status_Valid => true | _ => false end.

(** An execution layer with state [W].  [el_sleep] is the state after the
    caller slept (the engine goes on meanwhile); the string of an error is its
    display. *)
Class RethEngine (W : Type) : Type := {
  PayloadId : Type;
  EthBlock : Type;
  eth_hash_slow : EthBlock → B256;
  eth_number : EthBlock → Z;
  eth_timestamp : EthBlock → Z;
  (** [alloy_rlp::encode], [Decodable::decode] (with the rest of the input) *)
  eth_encode : EthBlock → bytes;
  eth_decode : bytes → Result (EthBlock * bytes) string;
  ExecutionData : Type;
  (** [EthPayloadTypes::block_to_payload] of the sealed block *)
  block_to_payload : EthBlock → ExecutionData;
  (** the payload status and id of the answer *)
  fork_choice_updated :
    ForkchoiceState → option PayloadAttributes → W →
    Result (PayloadStatusEnum * option PayloadId) string * W;
  (** [resolve_kind(id, PayloadKind::WaitForPending)] *)
  resolve_kind : PayloadId → W → option (Result EthBlock string) * W;
  new_payload : ExecutionData → W → Result PayloadStatusEnum string * W;
  el_sleep : Z → W → W;
}.

Class RethEngineLaws (W : Type) `{!RethEngine W} : Prop := {
  eth_u64 b : is_u64 (eth_number b) ∧ is_u64 (eth_timestamp b);
  eth_roundtrip b rest : eth_decode (eth_encode b ++ rest) = Ok (b, rest);
  (** a payload job builds for the attributes it was started with *)
  payload_timestamp fcs attrs st id b w w1 w2 :
    fork_choice_updated fcs (Some attrs) w = (Ok (st, Some id), w1) →
    resolve_kind id w1 = (Some (Ok b), w2) →
    eth_timestamp b = attr_timestamp attrs;
}.

(** A payload job outlives the calls that come between its start and its
    resolution: [job_for id timestamp w] says that [id] names a job started for
    that time stamp, which may have expired. *)
Class RethJobs (W : Type) `{!RethEngine W} : Type := {
  job_for : PayloadId → Z → W → Prop;
  job_started fcs attrs st id w w1 :
    fork_choice_updated fcs (Some attrs) w = (Ok (st, Some id), w1) →
    job_for id (attr_timestamp attrs) w1;
  job_kept id timestamp fcs attrs w :
    job_for id timestamp w → job_for id timestamp (fork_choice_updated fcs attrs w).2;
  job_resolved id timestamp b w w1 :
    job_for id timestamp w → resolve_kind id w = (Some (Ok b), w1) →
    eth_timestamp b = timestamp;
}.

Lemma eth_decode_encode {W} `{!RethEngine W, !RethEngineLaws W} (b : EthBlock) :
  eth_decode (eth_encode b) = Ok (b, []).
Proof. rewrite <- (app_nil_r (eth_encode b)). apply eth_roundtrip. Qed.

(** ** A reference engine

    Blocks are a number, a time stamp and a parent; the engine keeps the
    blocks it knows and the payload jobs it started, and refuses a block that
    is not its parent's successor or goes back in time. *)

Record ref_block : Type := mk_ref_block {
  rb_number : Z;
  rb_timestamp : Z;
  rb_parent : B256;
  rb_wf : bool_decide (is_u64 rb_number ∧ is_u64 rb_timestamp);
}.

Lemma ref_block_eq a b :
  rb_number a = rb_number b → rb_timestamp a = rb_timestamp b → rb_parent a = rb_parent b →
  a = b.
Proof.
  destruct a, b; cbn; intros -> -> ->. f_equal. apply proof_irrel.
Qed.

Program Definition ref_block_of (number timestamp : Z) (parent : B256) : ref_block :=
  mk_ref_block (wrap 64 number) (wrap 64 timestamp) parent _.
Next Obligation. intros. apply bool_decide_pack. split; apply wrap64_bound. Qed.

Definition ref_eth_encode (b : ref_block) : bytes :=
  be_encode 8 (rb_number b) ++ be_encode 8 (rb_timestamp b) ++ b256_bytes (rb_parent b).

Definition ref_eth_decode (l : bytes) : Result (ref_block * bytes) string :=
  match copy_from_slice (take 32 (drop 8 (drop 8 l))) with
  | Some parent =>
    Ok (ref_block_of (be_decode (take 8 l)) (be_decode (take 8 (drop 8 l))) parent,
        drop 32 (drop 8 (drop 8 l)))
  | None => Err "input too short"%string
  end.

Record ref_engine_state : Type := mk_ref_engine_state {
  re_known : gmap B256 (Z * Z);
  re_jobs : list ref_block;
}.

Definition ref_fcu (s : ForkchoiceState) (a : option PayloadAttributes) (w : ref_engine_state) :
    Result (PayloadStatusEnum * option nat) string * ref_engine_state :=
  match re_known w !! head_block_hash s with
  | None => (Ok (Status_Syncing, None), w)
  | Some (number, timestamp) =>
    match a with
    | None => (Ok (Status_Valid, None), w)
    | Some a =>
      if decide (is_u64 (attr_timestamp a)) then
        if attr_timestamp a <? timestamp then (Err "invalid payload attributes"%string, w)
        else (Ok (Status_Valid, Some (length (re_jobs w))),
              mk_ref_engine_state (re_known w)
                (re_jobs w ++ [ref_block_of (number + 1) (attr_timestamp a) (head_block_hash s)]))
      else (Err "invalid payload attributes"%string, w)
    end
  end.

Definition ref_new_payload (b : ref_block) (w : ref_engine_state) :
    Result PayloadStatusEnum string * ref_engine_state :=
  match re_known w !! rb_parent b with
  | None => (Ok Status_Syncing, w)
  | Some (number, timestamp) =>
    if (rb_number b =? number + 1) && (timestamp <=? rb_timestamp b)
    then (Ok Status_Valid, mk_ref_engine_state
            (<[keccak256 (ref_eth_encode b) := (rb_number b, rb_timestamp b)]> (re_known w))
            (re_jobs w))
    else (Ok (Status_Invalid "bad header"), w)
  end.

#[export] Instance ref_reth : RethEngine ref_engine_state := {|
  PayloadId := nat;
  EthBlock := ref_block;
  eth_hash_slow b := keccak256 (ref_eth_encode b);
  eth_number := rb_number;
  eth_timestamp := rb_timestamp;
  eth_encode := ref_eth_encode;
  eth_decode := ref_eth_decode;
  ExecutionData := ref_block;
  block_to_payload b := b;
  fork_choice_updated := ref_fcu;
  resolve_kind id w := (Ok <$> re_jobs w !! id, w);
  new_payload := ref_new_payload;
  el_sleep _ w := w;
|}.

#[export] Instance ref_reth_laws : RethEngineLaws ref_engine_state.
Proof.
  split.
  - intros b. exact (bool_decide_unpack _ (rb_wf b)).
  - intros b rest. change (ref_eth_decode (ref_eth_encode b ++ rest) = Ok (b, rest)). unfold ref_eth_decode, ref_eth_encode.
    destruct (bool_decide_unpack _ (rb_wf b)) as [Hn Ht].
    rewrite <- !app_assoc.
    rewrite !drop_app_exact, !take_app_exact
      by (apply be_encode_length || apply B256_length).
    rewrite copy_from_slice_bytes. do 2 f_equal.
    unfold is_u64, u64_max in *. rewrite !be_decode_encode by (cbn; lia).
    apply ref_block_eq; cbn; [| |done]; apply wrap64_id; unfold is_u64, u64_max; lia.
  - intros fcs attrs st id b w w1 w2 Hf Hr. cbn in Hf, Hr. unfold ref_fcu in Hf.
    destruct (re_known w !! _) as [[n t]|]; [|done].
    case_decide as Hu; [|done]. destruct (_ <? t); [done|]. injection Hf as <- <- <-.
    injection Hr as Hr _. cbn in Hr. rewrite lookup_app_r, Nat.sub_diag in Hr by lia.
    injection Hr as <-. by apply wrap64_id.
Qed.

Definition ref_job_for (id : nat) (timestamp : Z) (w : ref_engine_state) : Prop :=
  rb_timestamp <$> re_jobs w !! id = Some timestamp.

#[export] Instance ref_jobs : RethJobs ref_engine_state.
Proof.
  refine {| job_for := ref_job_for : @PayloadId _ ref_reth → Z → ref_engine_state → Prop |};
    unfold ref_job_for.
  - intros fcs attrs st id w w1 Hf. cbn in Hf. unfold ref_fcu in Hf.
    destruct (re_known w !! _) as [[n t]|]; [|done].
    case_decide as Hu; [|done]. destruct (_ <? t); [done|]. injection Hf as <- <- <-. cbn.
    rewrite lookup_app_r, Nat.sub_diag by lia. cbn. f_equal. by apply wrap64_id.
  - intros id timestamp fcs attrs w Hj. cbn. unfold ref_fcu.
    destruct (re_known w !! _) as [[n t]|]; [|done]. destruct attrs as [a|]; [|done].
    case_decide; [|done]. destruct (_ <? t); [done|]. cbn.
    apply fmap_Some in Hj as (b & Hj & ->). by rewrite (lookup_app_l_Some _ _ _ _ Hj).
  - intros id timestamp b w w1 Hj Hr. cbn in Hr. injection Hr as Hr _.
    apply fmap_Some in Hr as (b' & Hb & [= ->]).
    change (rb_timestamp <$> re_jobs w !! (id : nat) = Some timestamp) in Hj.
    rewrite Hb in Hj. by injection Hj.
Defined.
