(* ===== verification/Builder.v ===== *)
(** * allegro-node: the production payload builder (crates/node/src/builder.rs)

    The two closures that drive reth's engine API, and the forkchoice tracker
    they share with the finalizer.  A closure acts on [NodeWorld]: the tracker
    and the execution layer. *)

From S2P Require Import Prelude Extern Reference Digest Executor Reth Application.
From S2P Require Config.
Local Open Scope Z_scope.

(** [ForkchoiceTracker]: last finalized (hash, number), behind a
    [parking_lot] lock, which does not poison. *)
Abbreviation ForkchoiceTracker := (B256 * Z)%type.

Definition tracker_new (genesis_hash : B256) : ForkchoiceTracker := (genesis_hash, 0).

Record NodeWorld (W : Type) : Type := mk_NodeWorld { nw_tracker : ForkchoiceTracker; nw_el : W }.
Arguments mk_NodeWorld {W}.
Arguments nw_tracker {W}.
Arguments nw_el {W}.

Definition tracker_finalized {W} (nw : NodeWorld W) : B256 * Z := nw_tracker nw.
Definition tracker_set_finalized {W} (hash : B256) (number : Z) (nw : NodeWorld W) : NodeWorld W :=
  mk_NodeWorld (hash, number) (nw_el nw).

Section builder.
Context {W : Type} `{!RethEngine W}.
(** [{:?}] of a payload status: only the text of an error. *)
Variable debug : PayloadStatusEnum → string.

(** ** The build closure *)

(** The retry loop of the forkchoice update: [attempts] are left, [attempt] is
    the loop variable, [last_err] the error so far. *)
Fixpoint fcu_loop (attempts attempt : nat) (fcs : ForkchoiceState) (attrs : PayloadAttributes)
    (last_err : string) (w : W) : Result PayloadId string * W :=
  match attempts with
  | O => (Err last_err, w)
  | S attempts =>
    let w := if (0 <? attempt)%nat then el_sleep (Config.from_millis 50) w else w in
    match fork_choice_updated fcs (Some attrs) w with
    | (Ok (_, Some id), w) => (Ok id, w)
    | (Ok (_, None), w) =>
      fcu_loop attempts (S attempt) fcs attrs "engine returned no payload id" w
    | (Err e, w) =>
      fcu_loop attempts (S attempt) fcs attrs ("fork_choice_updated error: " +:+ e) w
    end
  end.

Definition build_fcs (req : BuildPayloadRequest) (finalized_hash : B256) : ForkchoiceState := {|
  head_block_hash := req_parent_hash req;
  safe_block_hash := finalized_hash;
  finalized_block_hash := finalized_hash;
|}.

Definition built_payload (block : EthBlock) : BuiltPayload := {|
  bp_block_bytes := eth_encode block;
  bp_block_hash := eth_hash_slow block;
  bp_block_number := eth_number block;
  bp_timestamp_millis := u64_saturating_mul (eth_timestamp block) 1000;
|}.

(** Resolve the payload, import it, and encode it. *)
Definition import_built (payload_id : PayloadId) (w : W) : Result BuiltPayload string * W :=
  match resolve_kind payload_id w with
  | (None, w) => (Err "payload job not found"%string, w)
  | (Some (Err e), w) => (Err ("payload build error: " +:+ e)%string, w)
  | (Some (Ok block), w) =>
    match new_payload (block_to_payload block) w with
    | (Err e, w) => (Err ("self-import new_payload: " +:+ e)%string, w)
    | (Ok Status_Valid, w) | (Ok Status_Accepted, w) => (Ok (built_payload block), w)
    | (Ok other, w) => (Err ("self-import rejected (" +:+ debug other +:+ ")")%string, w)
    end
  end.

Definition build_closure (req : BuildPayloadRequest) (nw : NodeWorld W) :
    Result BuiltPayload string * NodeWorld W :=
  let '(_fcs, attrs) := build_payload_attributes_from_request req in
  let '(finalized_hash, _finalized_num) := tracker_finalized nw in
  let fcs := build_fcs req finalized_hash in
  let '(r, w) :=
    match fcu_loop 5 0 fcs attrs "" (nw_el nw) with
    | (Err last_err, w) => (Err last_err, w)
    | (Ok payload_id, w) => import_built payload_id w
    end in
  (r, mk_NodeWorld (nw_tracker nw) w).

(** ** The validate closure *)

Definition validate_closure (req : ValidateBlockRequest) (nw : NodeWorld W) :
    Result ValidationResult string * NodeWorld W :=
  match eth_decode (vreq_block_bytes req) with
  | Err e => (Err ("rlp decode: " +:+ e)%string, nw)
  | Ok (block, _rest) =>
    let hash := eth_hash_slow block in
    let number := eth_number block in
    let timestamp := eth_timestamp block in
    let '(status, w) := new_payload (block_to_payload block) (nw_el nw) in
    let nw := mk_NodeWorld (nw_tracker nw) w in
    match status with
    | Err e => (Err ("engine new_payload error: " +:+ e)%string, nw)
    | Ok Status_Valid =>
      (Ok (Valid {| bm_hash := hash; bm_number := number; bm_timestamp := timestamp;
                    bm_timestamp_millis := u64_saturating_mul timestamp 1000 |}), nw)
    | Ok (Status_Invalid validation_error) => (Ok (Invalid validation_error), nw)
    | Ok Status_Syncing | Ok Status_Accepted =>
      (Err "parent unknown to execution layer (syncing)"%string, nw)
    end
  end.

Definition create_engine_payload_builder : EngineApiPayloadBuilder (NodeWorld W) :=
  engine_api_payload_builder_new build_closure validate_closure.

(** ** Lemmas *)

(** Attempt [i] of the retry loop, from a given state. *)
Definition fcu_attempt (fcs : ForkchoiceState) (attrs : PayloadAttributes) (i : nat) (w : W) :
    Result PayloadId string * W :=
  let w := if (0 <? i)%nat then el_sleep (Config.from_millis 50) w else w in
  let '(r, w) := fork_choice_updated fcs (Some attrs) w in
  (match r with
   | Ok (_, Some id) => Ok id
   | Ok (_, None) => Err "engine returned no payload id"%string
   | Err e => Err ("fork_choice_updated error: " +:+ e)%string
   end, w).

(** The state before attempt [i] (after attempts [from], ..., [i - 1]). *)
Fixpoint before_attempt fcs attrs (from i : nat) (w : W) : W :=
  match i with
  | O => w
  | S i => before_attempt fcs attrs (S from) i (fcu_attempt fcs attrs from w).2
  end.

Lemma fcu_loop_step n i fcs attrs e w :
  fcu_loop (S n) i fcs attrs e w =
  match fcu_attempt fcs attrs i w with
  | (Ok id, w) => (Ok id, w)
  | (Err e, w) => fcu_loop n (S i) fcs attrs e w
  end.
Proof.
  cbn [fcu_loop]. unfold fcu_attempt.
  by destruct (fork_choice_updated _ _ _) as [[[? []]|]].
Qed.

Lemma fcu_loop_cases n i fcs attrs e w :
  let state j := before_attempt fcs attrs i j w in
  let outcome j := (fcu_attempt fcs attrs (i + j) (state j)).1 in
  (∃ j id, (j < n)%nat ∧ (∀ k, (k < j)%nat → is_ok (outcome k) = false) ∧
     outcome j = Ok id ∧ fcu_loop n i fcs attrs e w = (Ok id, state (S j))) ∨
  ((∀ k, (k < n)%nat → is_ok (outcome k) = false) ∧
   ∃ last, fcu_loop n i fcs attrs e w = (Err last, state n) ∧
     (n = 0%nat → last = e) ∧ (∀ m, n = S m → outcome m = Err last)).
Proof.
  revert i e w. induction n as [|n IH]; intros i e w state outcome.
  { right. split; [lia|]. exists e. split_and!; [done|done|lia]. }
  rewrite fcu_loop_step.
  assert (Hout : ∀ j, outcome (S j) =
    (fcu_attempt fcs attrs (S i + j)
       (before_attempt fcs attrs (S i) j (fcu_attempt fcs attrs i w).2)).1).
  { intros j. unfold outcome, state. cbn. by rewrite Nat.add_succ_r. }
  assert (H0 : outcome 0%nat = (fcu_attempt fcs attrs i w).1)
    by (unfold outcome, state; cbn; by rewrite Nat.add_0_r).
  destruct (fcu_attempt fcs attrs i w) as [[id|e1] w1] eqn:Ha.
  { left. exists 0%nat, id. split_and!; [lia|lia|by rewrite H0|].
    unfold state. cbn. by rewrite Ha. }
  cbn in H0, Hout.
  assert (Hlt : ∀ m, (∀ k, (k < m)%nat → is_ok (outcome (S k)) = false) →
    ∀ k, (k < S m)%nat → is_ok (outcome k) = false).
  { intros m Hm [|k] Hk; [by rewrite H0|]. apply Hm. lia. }
  destruct (IH (S i) e1 w1) as [(j & id & Hj & Hf & Ho & ->)|(Hf & last & -> & He & Hl)].
  - left. exists (S j), id. split_and!; [lia| |by rewrite Hout|].
    + apply Hlt. intros k Hk. rewrite Hout. by apply Hf.
    + unfold state. cbn. by rewrite Ha.
  - right. split.
    + apply Hlt. intros k Hk. rewrite Hout. by apply Hf.
    + exists last. split_and!; [unfold state; cbn; by rewrite Ha|lia|].
      intros m [= <-]. destruct n as [|n]; [by rewrite H0, He|]. rewrite Hout. by apply Hl.
Qed.

Lemma import_built_cases id w :
  match (import_built id w).1 with
  | Ok b => ∃ block w1 st, resolve_kind id w = (Some (Ok block), w1) ∧
      new_payload (block_to_payload block) w1 = (Ok st, (import_built id w).2) ∧
      (st = Status_Valid ∨ st = Status_Accepted) ∧ b = built_payload block
  | Err _ => ∀ block w1 w2, resolve_kind id w = (Some (Ok block), w1) →
      new_payload (block_to_payload block) w1 ≠ (Ok Status_Valid, w2) ∧
      new_payload (block_to_payload block) w1 ≠ (Ok Status_Accepted, w2)
  end.
Proof.
  unfold import_built. destruct (resolve_kind id w) as [[[block|e]|] w1]; cbn.
  2,3: congruence.
  destruct (new_payload _ w1) as [[[]|] w2] eqn:Hn; cbn; eauto 10.
  all: intros ? ? ? [= <- <-]; rewrite Hn; split; congruence.
Qed.

Lemma build_closure_spec req nw :
  build_closure req nw =
  let '(r, w) :=
    match fcu_loop 5 0 (build_fcs req (nw_tracker nw).1)
            (build_payload_attributes (req_parent_hash req) (req_timestamp req)) "" (nw_el nw) with
    | (Err e, w) => (Err e, w)
    | (Ok id, w) => import_built id w
    end in (r, mk_NodeWorld (nw_tracker nw) w).
Proof.
  unfold build_closure, tracker_finalized. cbn -[fcu_loop build_payload_attributes].
  by destruct (nw_tracker nw).
Qed.

(** A build that succeeds: which block, from which attempt. *)
Lemma build_closure_Ok req nw b nw' :
  build_closure req nw = (Ok b, nw') →
  let fcs := build_fcs req (nw_tracker nw).1 in
  let attrs := build_payload_attributes (req_parent_hash req) (req_timestamp req) in
  ∃ w0 st id w1 block w2 st',
    fork_choice_updated fcs (Some attrs) w0 = (Ok (st, Some id), w1) ∧
    resolve_kind id w1 = (Some (Ok block), w2) ∧
    new_payload (block_to_payload block) w2 = (Ok st', nw_el nw') ∧
    (st' = Status_Valid ∨ st' = Status_Accepted) ∧
    b = built_payload block ∧ nw_tracker nw' = nw_tracker nw.
Proof.
  rewrite build_closure_spec. intros Hb fcs attrs. fold fcs attrs in Hb.
  destruct (fcu_loop_cases 5 0 fcs attrs "" (nw_el nw))
    as [(j & id & _ & _ & Ho & Hl)|(_ & e & Hl & _)]; rewrite Hl in Hb; [|by simplify_eq/=].
  set (w := before_attempt fcs attrs 0 j (nw_el nw)) in *.
  assert (Hw : before_attempt fcs attrs 0 (S j) (nw_el nw) = (fcu_attempt fcs attrs j w).2).
  { unfold w. clear. change (fcu_attempt fcs attrs j) with (fcu_attempt fcs attrs (0 + j)).
    generalize 0%nat (nw_el nw). induction j as [|j IH]; intros i w; cbn.
    - by rewrite Nat.add_0_r.
    - cbn in IH. rewrite IH. by rewrite Nat.add_succ_r. }
  rewrite Hw in Hb. cbn [Nat.add] in Ho. unfold fcu_attempt in Ho, Hb.
  destruct (fork_choice_updated _ _ _) as [[[st [id'|]]|e] w1] eqn:Hf; cbn in Ho; simplify_eq.
  cbn [snd] in Hb. pose proof (import_built_cases id w1) as Hi.
  destruct (import_built id w1) as [r w'] in Hi, Hb. simplify_eq. cbn in Hi.
  destruct Hi as (block & w2 & st' & ? & ? & ? & ?). by eexists _, st, id, w1, block, w2, st'.
Qed.

Lemma build_closure_tracker req nw : nw_tracker (build_closure req nw).2 = nw_tracker nw.
Proof.
  rewrite build_closure_spec. destruct (fcu_loop _ _ _ _ _ _) as [[id|e] w]; [|done].
  by destruct (import_built id w).
Qed.

Lemma validate_closure_tracker req nw : nw_tracker (validate_closure req nw).2 = nw_tracker nw.
Proof.
  unfold validate_closure. destruct (eth_decode _) as [[]|]; [|done].
  by destruct (new_payload _ _) as [[[]|] w].
Qed.

Lemma validate_closure_Valid req nw meta nw' :
  validate_closure req nw = (Ok (Valid meta), nw') →
  ∃ block rest, eth_decode (vreq_block_bytes req) = Ok (block, rest) ∧
    new_payload (block_to_payload block) (nw_el nw) = (Ok Status_Valid, nw_el nw') ∧
    meta = mk_BlockMeta (eth_hash_slow block) (eth_number block) (eth_timestamp block)
             (u64_saturating_mul (eth_timestamp block) 1000).
Proof.
  unfold validate_closure. destruct (eth_decode _) as [[block rest]|e]; [|done].
  destruct (new_payload _ _) as [[[]|] w] eqn:Hn; intros ?; simplify_eq. eauto.
Qed.
End builder.

(** ** The builder as an implementation of the consensus layer's interface *)

(** The builder handle the actor holds. *)
Record RethPayloadBuilder : Type := mk_RethPayloadBuilder { rpb_debug : PayloadStatusEnum → string }.

Section implements.
Context {W : Type} `{!RethEngine W}.

#[global] Instance reth_payload_builder : PayloadBuilder RethPayloadBuilder (NodeWorld W) := {|
  build_payload p := build_payload (create_engine_payload_builder (rpb_debug p));
  validate_block p := validate_block (create_engine_payload_builder (rpb_debug p));
|}.

Lemma sat_millis_of_seconds m :
  is_u64 m → u64_saturating_mul (m / 1000) 1000 = m - m mod 1000.
Proof.
  unfold is_u64, u64_saturating_mul. intros Hm.
  pose proof (Z.div_mod m 1000 ltac:(lia)). pose proof (Z.mod_pos_bound m 1000 ltac:(lia)). lia.
Qed.

(** The stamp of a whole second belongs to that second. *)
Lemma sat_seconds_consistent m :
  is_u64 m →
  is_u64 (u64_saturating_mul (m / 1000) 1000) ∧
  u64_saturating_mul (m / 1000) 1000 / 1000 = m / 1000.
Proof.
  intros Hu. rewrite sat_millis_of_seconds by done.
  pose proof (Z.mod_pos_bound m 1000 ltac:(lia)). pose proof (Z.mod_le m 1000).
  unfold is_u64 in *. split; [lia|].
  rewrite (Z.div_mod m 1000) at 1 by lia.
  rewrite Z.add_simpl_r, Z.mul_comm. by rewrite Z.div_mul by lia.
Qed.

Context `{!RethEngineLaws W}.

(** A built block carries the second that was asked for. *)
Lemma reth_build_Ok (p : RethPayloadBuilder) r (w : NodeWorld W) b w' :
  build_payload p r w = (Ok b, w') →
  ∃ block, b = built_payload block ∧ eth_timestamp block = req_timestamp r.
Proof.
  cbn. intros Hb. apply build_closure_Ok in Hb
    as (w0 & st & id & w1 & block & w2 & st' & Hf & Hr & _ & _ & -> & _).
  exists block. split; [done|]. exact (payload_timestamp _ _ _ _ _ _ _ _ Hf Hr).
Qed.

#[global] Instance reth_builder_laws : BuilderLaws RethPayloadBuilder (NodeWorld W).
Proof.
  split.
  - intros p r w b w' Hu Ht Hb. apply reth_build_Ok in Hb as (block & -> & Hts).
    cbn -[u64_saturating_mul]. rewrite Hts, Ht. by apply sat_seconds_consistent.
  - intros p b h w meta w' Hv. cbn in Hv. apply validate_closure_Valid in Hv
      as (block & rest & _ & _ & ->). cbn -[u64_saturating_mul].
    apply sat_mul_bound; [apply eth_u64|by vm_compute; split].
Qed.

#[global] Instance reth_builder_agreement : BuilderAgreement RethPayloadBuilder (NodeWorld W).
Proof.
  intros p q r w b w' h v meta v' _ _ Hb Hv. cbn in Hv.
  apply reth_build_Ok in Hb as (block & -> & _).
  apply validate_closure_Valid in Hv as (block' & rest & Hd & _ & ->). cbn in Hd.
  rewrite eth_decode_encode in Hd. by simplify_eq/=.
Qed.
End implements.

(** ** Properties *)

Section properties.
Context {W : Type} `{!RethEngine W}.
Variable debug : PayloadStatusEnum → string.

(** The forkchoice retry is bounded and faithful: at most five attempts
    are made, 50 ms apart; the loop answers the payload id of the FIRST attempt
    that yields one and stops there, or, when none of the five does, the
    error of the LAST attempt. *)
Theorem fcu_retry_first_success fcs attrs (w : W) :
  let state i := before_attempt fcs attrs 0 i w in
  let outcome i := (fcu_attempt fcs attrs i (state i)).1 in
  (∃ i id, (i < 5)%nat ∧ (∀ k, (k < i)%nat → is_ok (outcome k) = false) ∧
     outcome i = Ok id ∧ fcu_loop 5 0 fcs attrs "" w = (Ok id, state (S i))) ∨
  ((∀ k, (k < 5)%nat → is_ok (outcome k) = false) ∧
   ∃ e, outcome 4%nat = Err e ∧ fcu_loop 5 0 fcs attrs "" w = (Err e, state 5%nat)).
Proof.
  intros state outcome. destruct (fcu_loop_cases 5 0 fcs attrs "" w) as [H|(H & e & Hl & _ & He)].
  - by left.
  - right. split; [done|]. exists e. split; [by apply He|done].
Qed.

(** C18: a build succeeds only soundly: the answer's bytes, hash, number and
    stamp are those of one block, which the engine resolved for a job started
    with the request's own attributes on a forkchoice whose head is the
    requested parent and whose safe and finalized blocks are the tracker's,
    and which the engine itself imported as valid or accepted; the tracker is
    never touched, on success or on failure. *)
Theorem build_closure_sound req (nw : NodeWorld W) :
  nw_tracker (build_closure debug req nw).2 = nw_tracker nw ∧
  (∀ b nw', build_closure debug req nw = (Ok b, nw') →
   ∃ block w0 st id w1 w2 st',
     fork_choice_updated
       (mk_ForkchoiceState (req_parent_hash req) (nw_tracker nw).1 (nw_tracker nw).1)
       (Some (build_payload_attributes (req_parent_hash req) (req_timestamp req))) w0 =
       (Ok (st, Some id), w1) ∧
     resolve_kind id w1 = (Some (Ok block), w2) ∧
     new_payload (block_to_payload block) w2 = (Ok st', nw_el nw') ∧
     (st' = Status_Valid ∨ st' = Status_Accepted) ∧
     bp_block_bytes b = eth_encode block ∧ bp_block_hash b = eth_hash_slow block ∧
     bp_block_number b = eth_number block ∧
     bp_timestamp_millis b = u64_saturating_mul (eth_timestamp block) 1000).
Proof.
  split; [apply build_closure_tracker|]. intros b nw' Hb.
  apply build_closure_Ok in Hb
    as (w0 & st & id & w1 & block & w2 & st' & Hf & Hr & Hn & Hst & -> & _).
  by exists block, w0, st, id, w1, w2, st'.
Qed.

(** C24: validation maps the engine's verdict: undecodable bytes are an error
    and never reach the engine; a valid block is answered with its own hash,
    number and second and the derived millisecond stamp; an invalid block is a
    verdict, not an error; syncing and accepted (unknown parent) are errors, so
    the block can be validated again later. *)
Theorem validate_closure_verdicts req (nw : NodeWorld W) :
  (∀ e, eth_decode (vreq_block_bytes req) = Err e →
     validate_closure req nw = (Err ("rlp decode: " +:+ e)%string, nw)) ∧
  (∀ block rest st w', eth_decode (vreq_block_bytes req) = Ok (block, rest) →
     new_payload (block_to_payload block) (nw_el nw) = (st, w') →
     let nw' := mk_NodeWorld (nw_tracker nw) w' in
     match st with
     | Ok Status_Valid => validate_closure req nw =
         (Ok (Valid (mk_BlockMeta (eth_hash_slow block) (eth_number block)
            (eth_timestamp block) (u64_saturating_mul (eth_timestamp block) 1000))), nw')
     | Ok (Status_Invalid msg) => validate_closure req nw = (Ok (Invalid msg), nw')
     | Ok _ => ∃ e, validate_closure req nw = (Err e, nw')
     | Err e => validate_closure req nw = (Err ("engine new_payload error: " +:+ e)%string, nw')
     end).
Proof.
  unfold validate_closure. split; [by intros e ->|].
  intros block rest st w' Hd Hn. cbv zeta. rewrite Hd, Hn. destruct st as [[]|]; eauto.
Qed.

Context `{!RethEngineLaws W}.

(** C26: the production builder keeps the promises the consensus layer relies
    on: over any engine with the documented laws it satisfies the builder
    interface, and any two nodes agree on the metadata of a block one built
    and the other found valid. *)
Theorem reth_builder_implements :
  BuilderLaws RethPayloadBuilder (NodeWorld W) ∧
  BuilderAgreement RethPayloadBuilder (NodeWorld W).
Proof. split; apply _. Qed.

(** C35: time stamps in reth mode: a built block's recorded millisecond stamp
    is the requested one rounded down to its second, so it may fall back to
    the parent's (the request's strict increase is lost), but never below it
    when the parent's record was made the same way; and of the blocks the
    engine finds valid, the consistency check of [handle_verify] rejects
    exactly those whose second times 1000 exceeds 64 bits. *)
Theorem reth_mode_stamps (p : RethPayloadBuilder) :
  (∀ r (nw : NodeWorld W) b nw' parent_millis,
     is_u64 (req_timestamp_millis r) → req_timestamp r = req_timestamp_millis r / 1000 →
     parent_millis mod 1000 = 0 → parent_millis ≤ req_timestamp_millis r →
     build_payload p r nw = (Ok b, nw') →
     bp_timestamp_millis b = req_timestamp_millis r - req_timestamp_millis r mod 1000 ∧
     parent_millis ≤ bp_timestamp_millis b ∧
     (bp_timestamp_millis b = parent_millis ↔ req_timestamp_millis r < parent_millis + 1000)) ∧
  (∀ bs h (nw : NodeWorld W) meta nw',
     validate_block p bs h nw = (Ok (Valid meta), nw') →
     (bm_timestamp_millis meta / 1000 = bm_timestamp meta ↔
      bm_timestamp meta ≤ u64_max / 1000)).
Proof.
  split.
  - intros r nw b nw' pm Hu Ht Hpm Hle Hb. apply reth_build_Ok in Hb as (block & -> & Hts).
    cbn -[u64_saturating_mul]. rewrite Hts, Ht, sat_millis_of_seconds by done.
    pose proof (Z.div_mod pm 1000 ltac:(lia)).
    pose proof (Z.div_mod (req_timestamp_millis r) 1000 ltac:(lia)).
    pose proof (Z.mod_pos_bound (req_timestamp_millis r) 1000 ltac:(lia)).
    split_and!; [done|nia|nia].
  - intros bs h nw meta nw' Hv. cbn in Hv. apply validate_closure_Valid in Hv
      as (block & rest & _ & _ & ->). cbn -[u64_saturating_mul u64_max Z.div].
    apply sat_mul_1000_div, eth_u64.
Qed.
End properties.

(** ** Witnesses *)

Definition sample_genesis_hash : B256 := B256_repeat Byte.x99.

(** An engine that knows genesis, and the node around it. *)
Definition sample_el : ref_engine_state :=
  mk_ref_engine_state {[sample_genesis_hash := (0, 1700000000)]} [].
Definition sample_world : NodeWorld ref_engine_state :=
  mk_NodeWorld (tracker_new sample_genesis_hash) sample_el.
Definition sample_reth : RethPayloadBuilder := mk_RethPayloadBuilder (λ _, "").

Definition sample_request : BuildPayloadRequest :=
  propose_request sample_now sample_propose (0, sample_genesis_hash, 1700000000000) (key_of 0).

Definition sample_eth_block : ref_block := ref_block_of 1 1700000001 sample_genesis_hash.
Definition sample_built : BuiltPayload := @built_payload ref_engine_state ref_reth sample_eth_block.

Lemma build_closure_sound_witness :
  ∃ nw', build_closure (λ _, "") sample_request sample_world =
    (Ok sample_built, nw') ∧
    nw_tracker nw' = (sample_genesis_hash, 0).
Proof.
  destruct (build_closure (λ _, "") sample_request sample_world) as [r nw'] eqn:Hb.
  exists nw'. split.
  - f_equal. transitivity (build_closure (λ _, "") sample_request sample_world).1.
    + by rewrite Hb.
    + vm_compute. reflexivity.
  - destruct (build_closure_sound (λ _, "") sample_request sample_world) as [Ht _].
    rewrite Hb in Ht. exact Ht.
Defined.

Lemma validate_closure_verdicts_witness :
  (validate_closure (W := ref_engine_state)
     (mk_ValidateBlockRequest (ref_eth_encode sample_eth_block) sample_genesis_hash)
     sample_world).1 =
  Ok (Valid (mk_BlockMeta (keccak256 (ref_eth_encode sample_eth_block)) 1 1700000001 1700000001000)).
Proof.
  destruct (validate_closure_verdicts (W := ref_engine_state)
     (mk_ValidateBlockRequest (ref_eth_encode sample_eth_block) sample_genesis_hash)
     sample_world) as [_ H].
  pose proof (H sample_eth_block [] (Ok Status_Valid)
    (ref_new_payload sample_eth_block sample_el).2) as Hv.
  rewrite Hv; [vm_compute; reflexivity| |].
  - exact (eth_roundtrip (W := ref_engine_state) sample_eth_block []).
  - apply injective_projections; vm_compute; reflexivity.
Defined.

Lemma reth_builder_implements_witness :
  BuilderLaws RethPayloadBuilder (NodeWorld ref_engine_state) ∧
  BuilderAgreement RethPayloadBuilder (NodeWorld ref_engine_state).
Proof. exact (reth_builder_implements (W := ref_engine_state)). Defined.

(** A parent recorded in the same second: the child's record is no later. *)
Lemma reth_mode_stamps_witness :
  (build_payload sample_reth sample_request sample_world).1 =
    Ok sample_built ∧
  req_timestamp_millis sample_request = 1700000001234 ∧
  bp_timestamp_millis sample_built = 1700000001000.
Proof.
  assert (Hb : (build_payload sample_reth sample_request sample_world).1 =
    Ok sample_built) by (vm_compute; reflexivity).
  split; [exact Hb|]. split; [vm_compute; reflexivity|].
  destruct (build_payload sample_reth sample_request sample_world) as [r nw'] eqn:Hbp.
  cbn [fst] in Hb. subst r.
  destruct (reth_mode_stamps (W := ref_engine_state) sample_reth) as [H _].
  destruct (H sample_request sample_world
    sample_built nw' 1700000000000) as (-> & _ & _).
  - by vm_compute; split.
  - reflexivity.
  - reflexivity.
  - vm_compute. discriminate.
  - exact Hbp.
  - reflexivity.
Defined.
