(* ===== verification/Finalizer.v ===== *)
(** * allegro-node: the finalizer (crates/node/src/finalizer.rs)

    The task that turns finalized digests into forkchoice updates.  It reads
    the block info it shares with the actor, and writes the tracker it shares
    with the payload builder. *)

From S2P Require Import Prelude Extern Reference Digest Executor Reth Application Builder.
Local Open Scope Z_scope.

Section finalizer.
Context `{!Ed25519} {W : Type} `{!RethEngine W}.

Definition finalized_fcs (hash : B256) : ForkchoiceState := {|
  head_block_hash := hash;
  safe_block_hash := hash;
  finalized_block_hash := hash;
|}.

(** One turn of the loop on a received digest. *)
Definition finalize (digest : Digest) (info : BlockInfoMap) (nw : NodeWorld W) : NodeWorld W :=
  match lock_read info with
  | Err _ => nw
  | Ok guard =>
    match (λ i, (bi_hash i, bi_number i, bi_timestamp i)) <$> guard !! digest with
    | None => nw
    | Some (hash, number, _timestamp) =>
      let '(fcu, w) := fork_choice_updated (finalized_fcs hash) None (nw_el nw) in
      let nw := mk_NodeWorld (nw_tracker nw) w in
      match fcu with
      | Ok (status, _) =>
        if status_is_valid status then tracker_set_finalized hash number nw else nw
      | Err _ => nw
      end
    end
  end.

(** The loop, over what [rx.next()] returned so far, each with the block info
    at that time; true when the task has exited. *)
Fixpoint finalizer_loop (events : list (option Digest * BlockInfoMap)) (nw : NodeWorld W) :
    bool * NodeWorld W :=
  match events with
  | [] => (false, nw)
  | (None, _) :: _ => (true, nw)
  | (Some digest, info) :: events => finalizer_loop events (finalize digest info nw)
  end.

(** ** Lemmas *)

(** What the engine was asked and answered for a digest. *)
Definition finalizes (digest : Digest) (info : BlockInfoMap) (nw : NodeWorld W) (i : BlockInfo) : Prop :=
  poisoned info = false ∧ guarded info !! digest = Some i ∧
  ∃ id w, fork_choice_updated (finalized_fcs (bi_hash i)) None (nw_el nw) = (Ok (Status_Valid, id), w).

Lemma finalize_cases digest info nw :
  (∃ i, finalizes digest info nw i ∧
        nw_tracker (finalize digest info nw) = (bi_hash i, bi_number i)) ∨
  ((∀ i, ¬ finalizes digest info nw i) ∧
   nw_tracker (finalize digest info nw) = nw_tracker nw).
Proof.
  unfold finalize, finalizes, lock_read. destruct (poisoned info).
  { right. split; [|done]. by intros ? (? & _). }
  destruct (guarded info !! digest) as [i|]; cbn.
  2: { right. split; [|done]. by intros ? (_ & ? & _). }
  destruct (fork_choice_updated _ _ _) as [[[st id]|e] w] eqn:Hf.
  2: { right. split; [|done]. intros ? (_ & [= <-] & ? & ? & ?). congruence. }
  destruct st; cbn; [by left; exists i; eauto 10|..].
  all: right; split; [|done]; intros ? (_ & [= <-] & ? & ? & ?); congruence.
Qed.

(** A digest whose block is not recorded never reaches the engine. *)
Lemma finalize_unknown digest info nw :
  poisoned info = true ∨ guarded info !! digest = None → finalize digest info nw = nw.
Proof.
  unfold finalize, lock_read. destruct (poisoned info); [done|].
  by intros [[=]| ->].
Qed.

(** The worlds the loop goes through. *)
Lemma finalizer_loop_app es1 es2 nw :
  finalizer_loop (es1 ++ es2) nw =
  if (finalizer_loop es1 nw).1 then finalizer_loop es1 nw
  else finalizer_loop es2 (finalizer_loop es1 nw).2.
Proof.
  revert nw. induction es1 as [|[[d|] i] es1 IH]; intros nw; cbn; [done|apply IH|done].
Qed.

(** ** Properties *)

(** C34: A turn of the finalizer: a digest without a recorded block (or a
    poisoned map) leaves engine and tracker alone; otherwise the engine is
    asked to make the recorded hash head, safe and finalized at once, and the
    tracker takes the recorded hash and number exactly when it answers
    valid. *)
Theorem finalize_contract digest info (nw : NodeWorld W) :
  (poisoned info = true ∨ guarded info !! digest = None → finalize digest info nw = nw) ∧
  (∀ i, poisoned info = false → guarded info !! digest = Some i →
   nw_el (finalize digest info nw) =
     (fork_choice_updated (mk_ForkchoiceState (bi_hash i) (bi_hash i) (bi_hash i)) None
        (nw_el nw)).2 ∧
   nw_tracker (finalize digest info nw) =
     match (fork_choice_updated (mk_ForkchoiceState (bi_hash i) (bi_hash i) (bi_hash i)) None
              (nw_el nw)).1 with
     | Ok (Status_Valid, _) => (bi_hash i, bi_number i)
     | _ => nw_tracker nw
     end).
Proof.
  split; [apply finalize_unknown|]. intros i Hp Hi.
  unfold finalize, lock_read. rewrite Hp, Hi. cbn.
  unfold finalized_fcs. by destruct (fork_choice_updated _ _ _) as [[[[] ?]|] w].
Qed.

(** The tracker holds the last valid finalization: after any sequence of
    finalized digests it is what it was, or the recorded hash and number of a
    digest of the sequence that the engine accepted, and no digest after that
    one was accepted. *)
Theorem tracker_is_last_valid events (nw : NodeWorld W) :
  let world k := (finalizer_loop (take k events) nw).2 in
  let at_ k d info := events !! k = Some (Some d, info) ∧
                      (∀ j, (j < k)%nat → ∀ i', events !! j ≠ Some (None, i')) in
  (nw_tracker (finalizer_loop events nw).2 = nw_tracker nw ∧
   ∀ k d info i, at_ k d info → ¬ finalizes d info (world k) i) ∨
  (∃ k d info i, at_ k d info ∧ finalizes d info (world k) i ∧
     nw_tracker (finalizer_loop events nw).2 = (bi_hash i, bi_number i) ∧
     ∀ k' d' info' i', (k < k')%nat → at_ k' d' info' → ¬ finalizes d' info' (world k') i').
Proof.
  revert nw. induction events as [|[[d|] info] es IH]; intros nw world at_.
  { left. split; [done|]. by intros k d info i [? _]. }
  2: { left. split; [done|]. intros [|k] d i' i [Hk Hn]; [by cbn in Hk; simplify_eq|].
       by destruct (Hn 0%nat ltac:(lia) info). }
  assert (Hat : ∀ k d' info', at_ (S k) d' info' ↔
    (es !! k = Some (Some d', info') ∧ ∀ j, (j < k)%nat → ∀ i', es !! j ≠ Some (None, i'))).
  { intros k d' info'. unfold at_. cbn. split; intros [H1 H2]; (split; [done|]).
    - intros j Hj. exact (H2 (S j) ltac:(lia)).
    - intros [|j] Hj i'; [done|]. apply (H2 j). lia. }
  assert (Hw : ∀ k, world (S k) = (finalizer_loop (take k es) (finalize d info nw)).2) by done.
  destruct (IH (finalize d info nw)) as [[Ht Hno]|(k & d1 & info1 & i & Ha & Hf & Ht & Hl)].
  - destruct (finalize_cases d info nw) as [(i & Hf & Hi)|[Hn Hi]].
    + right. exists 0%nat, d, info, i. split_and!; [by split; [|lia]|done|by cbn; rewrite Ht|].
      intros [|k'] d' info' i' Hk Ha'; [lia|]. rewrite Hw. apply Hno. by apply Hat.
    + left. split; [by cbn; rewrite Ht|]. intros [|k'] d' info' i' Ha'.
      * destruct Ha' as [[= <- <-] _]. apply Hn.
      * rewrite Hw. apply Hno. by apply Hat.
  - right. exists (S k), d1, info1, i. rewrite Hat, Hw. split; [exact Ha|]. split; [exact Hf|].
    split; [exact Ht|].
    intros [|k'] d' info' i' Hk Ha'; [lia|]. rewrite Hw. apply Hl; [lia|by apply Hat].
Qed.

(** C31: finalization reaches block building: once the engine accepted a
    finalization, and whatever blocks are built and validated meanwhile, the
    next build declares the finalized block's hash as safe and finalized on
    its forkchoice update. *)
Theorem finalization_reaches_builder debug digest info (nw : NodeWorld W) i
    (work : list (BuildPayloadRequest + ValidateBlockRequest)) req b nw' :
  finalizes digest info nw i →
  let meanwhile := foldl (λ nw x,
    match x with
    | inl r => (build_closure debug r nw).2
    | inr v => (validate_closure v nw).2
    end) (finalize digest info nw) work in
  build_closure debug req meanwhile = (Ok b, nw') →
  ∃ w0 attrs st id w1,
    fork_choice_updated (mk_ForkchoiceState (req_parent_hash req) (bi_hash i) (bi_hash i))
      (Some attrs) w0 = (Ok (st, Some id), w1) ∧
    nw_tracker nw' = (bi_hash i, bi_number i).
Proof.
  intros Hf meanwhile Hb.
  assert (Ht : nw_tracker meanwhile = (bi_hash i, bi_number i)).
  { unfold meanwhile. clear Hb. induction work as [|x work IH] using rev_ind.
    - cbn. destruct (finalize_cases digest info nw) as [(i' & Hf' & ->)|[Hn _]].
      + destruct Hf as (_ & Hi & _), Hf' as (_ & Hi' & _). by simplify_eq.
      + by destruct (Hn i).
    - rewrite foldl_app. cbn. rewrite <- IH.
      destruct x; [apply build_closure_tracker|apply validate_closure_tracker]. }
  apply build_closure_Ok in Hb as (w0 & st & id & w1 & block & w2 & st' & Hfcu & _ & _ & _ & _ & Htr).
  unfold build_fcs in Hfcu. rewrite Ht in Hfcu. cbn in Hfcu.
  exists w0, (build_payload_attributes (req_parent_hash req) (req_timestamp req)), st, id, w1.
  split; [done|]. by rewrite Htr.
Qed.
End finalizer.

(** ** Witnesses *)

(** Genesis is recorded by the sample actor and known to the sample engine. *)
Definition sample_genesis_info : BlockInfo :=
  mk_BlockInfo 0 sample_genesis_hash 0 (key_of 0) 1700000000 1700000000000.

Lemma sample_genesis_recorded :
  guarded (block_info sample_actor) !! EMPTY = Some sample_genesis_info.
Proof. exact (lookup_insert_eq _ _ _). Qed.

Lemma sample_genesis_fcu :
  fork_choice_updated (finalized_fcs sample_genesis_hash) None sample_el =
  (Ok (Status_Valid, None), sample_el).
Proof.
  change (ref_fcu (finalized_fcs sample_genesis_hash) None sample_el =
          (Ok (Status_Valid, None), sample_el)).
  unfold ref_fcu, sample_el, finalized_fcs. cbn [re_known head_block_hash].
  by rewrite lookup_singleton_eq.
Qed.

Lemma sample_finalizes :
  finalizes EMPTY (block_info sample_actor) sample_world sample_genesis_info.
Proof. split; [done|]. split; [exact sample_genesis_recorded|].
  exists None, sample_el. exact sample_genesis_fcu. Qed.

Definition moved_world : NodeWorld ref_engine_state := mk_NodeWorld (key_of 9, 9) sample_el.

Lemma finalize_contract_witness :
  nw_tracker (finalize EMPTY (block_info sample_actor) moved_world) = (sample_genesis_hash, 0) ∧
  finalize sample_digest (lock_new ∅ : BlockInfoMap) moved_world = moved_world.
Proof.
  split.
  - destruct (finalize_contract EMPTY (block_info sample_actor) moved_world) as [_ H].
    destruct (H sample_genesis_info eq_refl) as [_ Ht].
    + exact sample_genesis_recorded.
    + rewrite Ht. change (match (fork_choice_updated (finalized_fcs sample_genesis_hash) None
        sample_el).1 with Ok (Status_Valid, _) => (sample_genesis_hash, 0) | _ => (key_of 9, 9) end
        = (sample_genesis_hash, 0)).
      rewrite sample_genesis_fcu. reflexivity.
  - apply (proj1 (finalize_contract sample_digest (lock_new ∅) moved_world)).
    right. apply lookup_empty.
Defined.

Lemma finalization_reaches_builder_witness :
  ∃ nw', build_closure (λ _, "") sample_request
      (finalize EMPTY (block_info sample_actor) sample_world) = (Ok sample_built, nw') ∧
    nw_tracker nw' = (sample_genesis_hash, 0).
Proof.
  assert (Hb : (build_closure (λ _, "") sample_request
      (finalize EMPTY (block_info sample_actor) sample_world)).1 = Ok sample_built)
    by (vm_compute; reflexivity).
  destruct (build_closure _ _ _) as [r nw'] eqn:Hbc. cbn [fst] in Hb. subst r.
  exists nw'. split; [reflexivity|].
  destruct (finalization_reaches_builder (λ _, "") EMPTY (block_info sample_actor) sample_world
    sample_genesis_info [] sample_request sample_built nw' sample_finalizes Hbc)
    as (w0 & attrs & st & id & w1 & _ & Ht).
  exact Ht.
Defined.

Lemma tracker_is_last_valid_witness :
  nw_tracker (finalizer_loop [(Some EMPTY, block_info sample_actor);
    (None, lock_new ∅); (Some EMPTY, lock_new ∅)] moved_world).2 = (sample_genesis_hash, 0).
Proof.
  destruct (tracker_is_last_valid [(Some EMPTY, block_info sample_actor);
    (None, lock_new ∅); (Some EMPTY, lock_new ∅)] moved_world) as [[_ Hn]|H].
  - exfalso. apply (Hn 0%nat EMPTY (block_info sample_actor) sample_genesis_info).
    + split; [reflexivity|]. intros j Hj. lia.
    + exact sample_finalizes.
  - destruct H as (k & d & info & i & _ & _ & _ & _). vm_compute. reflexivity.
Defined.
