(* ===== verification/Turns.v ===== *)
(** * The build closure and the finalizer, call by call

    The build closure of builder.rs waits for the engine at every call - up to
    five forkchoice updates with a sleep between two of them, the resolution
    of the payload, its import - and the finalizer task of finalizer.rs calls
    the same engine and moves the tracker meanwhile.  Here both run one call
    at a time, in any order: [Builder.build_closure] is the run in which the
    finalizer has no turn.  The calls to [fork_choice_updated] are kept in a
    trace, newest last. *)

From S2P Require Import Prelude Extern Reference Digest Executor Reth Application Builder.
From S2P Require Import Finalizer.
From S2P Require Config.
Local Open Scope Z_scope.

Section turns.
Context `{!Ed25519} {W : Type} `{!RethEngine W}.
Variable debug : PayloadStatusEnum → string.

(** ** The build closure, by the call it makes next *)

Inductive At : Type :=
| At_Ask (attempt : nat)
| At_Sleep (attempt : nat)
| At_Resolve (payload_id : PayloadId)
| At_Import (block : EthBlock)
| At_End (result : Result BuiltPayload string).

(** [for attempt in 0..5], after an attempt without a payload id. *)
Definition next_attempt (attempt : nat) (last_err : string) : At :=
  if (S attempt <? 5)%nat then At_Sleep (S attempt) else At_End (Err last_err).

Definition build_turn (fcs : ForkchoiceState) (attrs : PayloadAttributes) (at_ : At) (w : W) :
    At * W :=
  match at_ with
  | At_Sleep attempt => (At_Ask attempt, el_sleep (Config.from_millis 50) w)
  | At_Ask attempt =>
    match fork_choice_updated fcs (Some attrs) w with
    | (Ok (_, Some id), w) => (At_Resolve id, w)
    | (Ok (_, None), w) => (next_attempt attempt "engine returned no payload id", w)
    | (Err e, w) => (next_attempt attempt ("fork_choice_updated error: " +:+ e), w)
    end
  | At_Resolve payload_id =>
    match resolve_kind payload_id w with
    | (None, w) => (At_End (Err "payload job not found"%string), w)
    | (Some (Err e), w) => (At_End (Err ("payload build error: " +:+ e)%string), w)
    | (Some (Ok block), w) => (At_Import block, w)
    end
  | At_Import block =>
    match new_payload (block_to_payload block) w with
    | (Err e, w) => (At_End (Err ("self-import new_payload: " +:+ e)%string), w)
    | (Ok Status_Valid, w) | (Ok Status_Accepted, w) => (At_End (Ok (built_payload block)), w)
    | (Ok other, w) =>
      (At_End (Err ("self-import rejected (" +:+ debug other +:+ ")")%string), w)
    end
  | At_End result => (At_End result, w)
  end.

(** ** The finalizer: the call, then the tracker *)

(** A forkchoice update, with attributes when the builder asks. *)
Abbreviation Call := (ForkchoiceState * option PayloadAttributes)%type.

Definition finalize_ask (digest : Digest) (info : BlockInfoMap) (w : W) :
    list Call * option (B256 * Z) * W :=
  match lock_read info with
  | Err _ => ([], None, w)
  | Ok guard =>
    match guard !! digest with
    | None => ([], None, w)
    | Some i =>
      let state := finalized_fcs (bi_hash i) in
      let '(fcu, w) := fork_choice_updated state None w in
      ([(state, None)],
       match fcu with
       | Ok (status, _) => if status_is_valid status then Some (bi_hash i, bi_number i) else None
       | Err _ => None
       end, w)
    end
  end.

(** ** Both tasks, over the world they share *)

Record Turns : Type := mk_Turns {
  tn_build : At;
  tn_accepted : option (B256 * Z);  (* answered valid, the tracker not yet moved *)
  tn_world : NodeWorld W;
  tn_asked : list Call;
}.

Inductive Turn : Type :=
| T_Build
| T_Finalize (digest : Digest) (info : BlockInfoMap)
| T_Set.

Definition calls_of (fcs : ForkchoiceState) (attrs : PayloadAttributes) (at_ : At) : list Call :=
  match at_ with At_Ask _ => [(fcs, Some attrs)] | _ => [] end.

Definition turn (fcs : ForkchoiceState) (attrs : PayloadAttributes) (t : Turn) (s : Turns) :
    option Turns :=
  match t, tn_accepted s with
  | T_Build, acc =>
    let '(at_, w) := build_turn fcs attrs (tn_build s) (nw_el (tn_world s)) in
    Some (mk_Turns at_ acc (mk_NodeWorld (nw_tracker (tn_world s)) w)
            (tn_asked s ++ calls_of fcs attrs (tn_build s)))
  | T_Finalize digest info, None =>
    let '(calls, acc, w) := finalize_ask digest info (nw_el (tn_world s)) in
    Some (mk_Turns (tn_build s) acc (mk_NodeWorld (nw_tracker (tn_world s)) w)
            (tn_asked s ++ calls))
  | T_Set, Some (hash, number) =>
    Some (mk_Turns (tn_build s) None (tracker_set_finalized hash number (tn_world s))
            (tn_asked s))
  | _, _ => None
  end.

Fixpoint turns_run fcs attrs (ts : list Turn) (s : Turns) : option Turns :=
  match ts with
  | [] => Some s
  | t :: ts => turn fcs attrs t s ≫= turns_run fcs attrs ts
  end.

(** The closure reads the tracker once, before its first call. *)
Definition begin_build (nw : NodeWorld W) : Turns := mk_Turns (At_Ask 0) None nw [].

Definition build_run (req : BuildPayloadRequest) (nw : NodeWorld W) (ts : list Turn) :
    option Turns :=
  turns_run (build_fcs req (tracker_finalized nw).1)
    (build_payload_attributes (req_parent_hash req) (req_timestamp req)) ts (begin_build nw).

(** ** Lemmas *)

(** *** The finalizer in one go is [Finalizer.finalize] *)

Lemma finalize_turns digest info nw :
  finalize digest info nw =
  let '(_, acc, w) := finalize_ask digest info (nw_el nw) in
  mk_NodeWorld (default (nw_tracker nw) acc) w.
Proof.
  unfold finalize, finalize_ask. destruct nw as [tr w]. cbn.
  destruct (lock_read info) as [g|]; [|done]. destruct (g !! digest) as [i|]; [|done]. cbn.
  destruct (fork_choice_updated _ _ _) as [[[st id]|e] w']; [|done].
  by destruct (status_is_valid st).
Qed.

(** A finalizer's turn asks for the recorded block, or nothing. *)
Lemma finalize_ask_calls digest info w f a :
  (f, a) ∈ (finalize_ask digest info w).1.1 →
  a = None ∧ ∃ i, guarded info !! digest = Some i ∧ f = finalized_fcs (bi_hash i).
Proof.
  unfold finalize_ask, lock_read. destruct (poisoned info); [by intros ?%elem_of_nil|].
  destruct (guarded info !! digest) as [i|]; [|by intros ?%elem_of_nil].
  destruct (fork_choice_updated _ _ _) as [fcu w']. intros Hf%list_elem_of_singleton.
  simplify_eq. eauto.
Qed.

Lemma finalize_ask_accepts digest info w i :
  poisoned info = false → guarded info !! digest = Some i →
  ∀ id w', fork_choice_updated (finalized_fcs (bi_hash i)) None w = (Ok (Status_Valid, id), w') →
  finalize_ask digest info w =
    ([(finalized_fcs (bi_hash i), None)], Some (bi_hash i, bi_number i), w').
Proof.
  intros Hp Hi id w' Hf. unfold finalize_ask, lock_read. by rewrite Hp, Hi, Hf.
Qed.

(** *** The build's turns *)

(** Turns left until the end, at most. *)
Definition turns_left (at_ : At) : nat :=
  match at_ with
  | At_Ask i => 2 * (5 - i) + 1
  | At_Sleep i => 2 * (5 - i) + 2
  | At_Resolve _ => 2
  | At_Import _ => 1
  | At_End _ => 0
  end.

(** Calls for a payload made so far, at most. *)
Definition asks_made (at_ : At) : nat :=
  match at_ with At_Ask i | At_Sleep i => i | _ => 5 end.

Definition at_ok (at_ : At) : Prop :=
  match at_ with At_Ask i | At_Sleep i => (i < 5)%nat | _ => True end.

Lemma turns_left_end at_ : turns_left at_ = 0%nat → ∃ r, at_ = At_End r.
Proof. destruct at_; cbn; try lia. eauto. Qed.

Lemma next_attempt_ok i e :
  (i < 5)%nat →
  at_ok (next_attempt i e) ∧ (turns_left (next_attempt i e) < turns_left (At_Ask i))%nat ∧
  (S i ≤ asks_made (next_attempt i e) ≤ 5)%nat.
Proof.
  intros Hi. unfold next_attempt. destruct (Nat.ltb_spec (S i) 5); cbn; lia.
Qed.

Lemma build_turn_ok fcs attrs at_ w :
  at_ok at_ →
  let at' := (build_turn fcs attrs at_ w).1 in
  at_ok at' ∧ (turns_left at' ≤ Nat.pred (turns_left at_))%nat ∧
  (length (calls_of fcs attrs at_) + asks_made at_ ≤ asks_made at' ≤ 5)%nat.
Proof.
  intros Hok. destruct at_ as [i|i|id|b|r]; cbn [build_turn].
  - destruct (fork_choice_updated _ _ _) as [[[st [id|]]|e] w']; cbn [fst].
    1: by cbn in *; lia.
    + destruct (next_attempt_ok i "engine returned no payload id" Hok) as (? & ? & ?).
      cbn [length calls_of asks_made]. split; [done|]. lia.
    + destruct (next_attempt_ok i ("fork_choice_updated error: " +:+ e) Hok) as (? & ? & ?).
      cbn [length calls_of asks_made]. split; [done|]. lia.
  - cbn in *. lia.
  - destruct (resolve_kind _ _) as [[[]|] ]; cbn; lia.
  - destruct (new_payload _ _) as [[[]|] ]; cbn; lia.
  - cbn; lia.
Qed.

(** Turns of the build alone. *)
Fixpoint build_turns fcs attrs (n : nat) (s : At * W) : At * W :=
  match n with
  | O => s
  | S n => build_turns fcs attrs n (build_turn fcs attrs s.1 s.2)
  end.

Lemma build_turns_end fcs attrs n r w :
  build_turns fcs attrs n (At_End r, w) = (At_End r, w).
Proof. by induction n. Qed.

Lemma build_turns_resolve fcs attrs n id w :
  build_turns fcs attrs (S (S n)) (At_Resolve id, w) =
  let '(r, w) := import_built debug id w in (At_End r, w).
Proof.
  cbn. unfold import_built.
  destruct (resolve_kind _ _) as [[[b|e]|] w1]; cbn; [|apply build_turns_end..].
  destruct (new_payload _ _) as [[[]|e] w2]; apply build_turns_end.
Qed.

(** What the closure does with the outcome of its retry loop. *)
Definition after_loop (s : Result PayloadId string * W) : At * W :=
  match s with
  | (Err e, w) => (At_End (Err e), w)
  | (Ok id, w) => let '(r, w) := import_built debug id w in (At_End r, w)
  end.

Lemma build_turns_ask fcs attrs n m i w e :
  (S n + i = 5)%nat → (2 * n + 3 ≤ m)%nat →
  build_turns fcs attrs m (At_Ask i, if (0 <? i)%nat then el_sleep (Config.from_millis 50) w else w) =
  after_loop (fcu_loop (S n) i fcs attrs e w).
Proof.
  revert i m w e. induction n as [|n IH]; intros i m w e Hi Hm; (destruct m as [|m]; [lia|]).
  all: rewrite fcu_loop_step; unfold fcu_attempt; cbn -[Nat.ltb fcu_loop]; unfold next_attempt.
  all: destruct (fork_choice_updated _ _ _) as [[[st [id|]]|e'] w'].
  all: try (destruct m as [|[|m]]; [lia..|]; apply build_turns_resolve).
  1,2: destruct (Nat.ltb_spec (S i) 5); [lia|]; apply build_turns_end.
  all: destruct (Nat.ltb_spec (S i) 5); [|lia]; (destruct m as [|m]; [lia|]).
  all: apply (IH (S i)); lia.
Qed.

(** A build without the finalizer is the closure. *)
Lemma build_turns_closure req nw n :
  (11 ≤ n)%nat →
  build_turns (build_fcs req (tracker_finalized nw).1)
    (build_payload_attributes (req_parent_hash req) (req_timestamp req)) n
    (At_Ask 0, nw_el nw) =
  (At_End (build_closure debug req nw).1, nw_el (build_closure debug req nw).2).
Proof.
  intros Hn. rewrite build_closure_spec. unfold tracker_finalized.
  rewrite (build_turns_ask _ _ 4 n 0 (nw_el nw) "") by lia.
  destruct (fcu_loop _ _ _ _ _ _) as [[id|e] w]; [|done]. cbn.
  by destruct (import_built debug id w).
Qed.

(** *** Runs *)

Lemma turns_run_app fcs attrs ts1 ts2 s :
  turns_run fcs attrs (ts1 ++ ts2) s = turns_run fcs attrs ts1 s ≫= turns_run fcs attrs ts2.
Proof.
  revert s. induction ts1 as [|t ts1 IH]; intros s; [done|]. cbn.
  destruct (turn fcs attrs t s); [apply IH|done].
Qed.

Lemma turns_run_snoc fcs attrs ts t s s' :
  turns_run fcs attrs (ts ++ [t]) s = Some s' ↔
  ∃ s1, turns_run fcs attrs ts s = Some s1 ∧ turn fcs attrs t s1 = Some s'.
Proof.
  rewrite turns_run_app, bind_Some. split; intros (s1 & Hs1 & Ht); exists s1; split; try done.
  - cbn in Ht. by destruct (turn _ _ _ _).
  - cbn. by rewrite Ht.
Qed.

Definition is_build (t : Turn) : bool := match t with T_Build => true | _ => false end.
Abbreviation build_count ts := (length (filter is_build ts)).
(** The calls of the builder. *)
Definition builds_on (c : Call) : bool := match c.2 with Some _ => true | None => false end.
Abbreviation ask_count calls := (length (filter builds_on calls)).

Lemma finalize_ask_no_build digest info w :
  filter builds_on (finalize_ask digest info w).1.1 = [].
Proof.
  unfold finalize_ask. destruct (lock_read info) as [g|]; [|done].
  destruct (g !! digest) as [i|]; [|done]. by destruct (fork_choice_updated _ _ _).
Qed.

Lemma filter_build_snoc ts t :
  build_count (ts ++ [t]) = (build_count ts + if is_build t then 1 else 0)%nat.
Proof.
  rewrite filter_app, length_app. f_equal. destruct t; cbn; done.
Qed.

Lemma turn_Some fcs attrs t s s' :
  turn fcs attrs t s = Some s' →
  match t with
  | T_Build => ∃ w,
      build_turn fcs attrs (tn_build s) (nw_el (tn_world s)) = (tn_build s', w) ∧
      tn_accepted s' = tn_accepted s ∧
      tn_world s' = mk_NodeWorld (nw_tracker (tn_world s)) w ∧
      tn_asked s' = tn_asked s ++ calls_of fcs attrs (tn_build s)
  | T_Finalize digest info => ∃ calls w,
      finalize_ask digest info (nw_el (tn_world s)) = (calls, tn_accepted s', w) ∧
      tn_accepted s = None ∧ tn_build s' = tn_build s ∧
      tn_world s' = mk_NodeWorld (nw_tracker (tn_world s)) w ∧
      tn_asked s' = tn_asked s ++ calls
  | T_Set => ∃ hash number,
      tn_accepted s = Some (hash, number) ∧ tn_accepted s' = None ∧
      tn_build s' = tn_build s ∧
      tn_world s' = tracker_set_finalized hash number (tn_world s) ∧ tn_asked s' = tn_asked s
  end.
Proof.
  unfold turn. destruct t as [|digest info|].
  - destruct (build_turn _ _ _ _) as [at' w]. intros; simplify_eq. cbn. eauto.
  - destruct (tn_accepted s); [done|].
    destruct (finalize_ask _ _ _) as [[calls acc] w]. intros; simplify_eq. cbn. eauto 10.
  - destruct (tn_accepted s) as [[h n]|]; [|done]. intros; simplify_eq. cbn. eauto 10.
Qed.

(** However the turns fall: at most eleven are the build's, at most five calls
    for a payload are made. *)
Lemma run_bounds fcs attrs ts nw s :
  turns_run fcs attrs ts (begin_build nw) = Some s →
  at_ok (tn_build s) ∧ (turns_left (tn_build s) ≤ 11 - build_count ts)%nat ∧
  (ask_count (tn_asked s) ≤ asks_made (tn_build s) ≤ 5)%nat.
Proof.
  revert s. induction ts as [|t ts IH] using rev_ind; intros s Hr.
  { cbn in Hr. simplify_eq. cbn. lia. }
  apply turns_run_snoc in Hr as (s1 & Hr & Ht). specialize (IH s1 Hr) as (Hok & Hl & Ha).
  apply turn_Some in Ht. rewrite filter_build_snoc. destruct t as [|digest info|]; cbn [is_build].
  - destruct Ht as (w & Hb & _ & _ & ->).
    destruct (build_turn_ok fcs attrs (tn_build s1) (nw_el (tn_world s1)) Hok) as (? & Hl' & Ha').
    rewrite Hb in *. cbn [fst] in *. rewrite filter_app, length_app.
    pose proof (length_filter builds_on (calls_of fcs attrs (tn_build s1))).
    split; [done|]. split; lia.
  - destruct Ht as (calls & w & Hf & _ & -> & _ & ->).
    rewrite filter_app, length_app.
    assert (Hn : filter builds_on calls = []).
    { pose proof (finalize_ask_no_build digest info (nw_el (tn_world s1))) as Hn.
      by rewrite Hf in Hn. }
    rewrite Hn. cbn [length]. split; [done|]. lia.
  - destruct Ht as (hash & number & _ & _ & -> & _ & ->). split; [done|]. lia.
Qed.

(** Whose calls the trace has. *)
Lemma run_calls fcs attrs ts nw s :
  turns_run fcs attrs ts (begin_build nw) = Some s →
  ∀ f a, (f, a) ∈ tn_asked s →
  (f = fcs ∧ a = Some attrs) ∨
  (a = None ∧ ∃ digest info i, T_Finalize digest info ∈ ts ∧
     guarded info !! digest = Some i ∧ f = finalized_fcs (bi_hash i)).
Proof.
  revert s. induction ts as [|t ts IH] using rev_ind; intros s Hr f a Hin.
  { cbn in Hr. simplify_eq. by apply elem_of_nil in Hin. }
  apply turns_run_snoc in Hr as (s1 & Hr & Ht). apply turn_Some in Ht.
  assert (Hold : (f, a) ∈ tn_asked s1 → (f = fcs ∧ a = Some attrs) ∨
    (a = None ∧ ∃ digest info i, T_Finalize digest info ∈ ts ++ [t] ∧
     guarded info !! digest = Some i ∧ f = finalized_fcs (bi_hash i))).
  { intros H1. destruct (IH s1 Hr f a H1) as [?|(? & d & inf & i & Hd & ?)]; [by left|].
    right. split; [done|]. exists d, inf, i. split; [|done]. apply elem_of_app. by left. }
  destruct t as [|digest info|].
  - destruct Ht as (w & _ & _ & _ & Heq). rewrite Heq in Hin.
    apply elem_of_app in Hin as [Hin|Hin]; [by apply Hold|].
    destruct (tn_build s1); cbn in Hin; try by apply elem_of_nil in Hin.
    apply list_elem_of_singleton in Hin. simplify_eq. by left.
  - destruct Ht as (calls & w & Hf & _ & _ & _ & Heq). rewrite Heq in Hin.
    apply elem_of_app in Hin as [Hin|Hin]; [by apply Hold|].
    destruct (finalize_ask_calls digest info (nw_el (tn_world s1)) f a) as (-> & i & Hi & ->);
      [by rewrite Hf|].
    right. split; [done|]. exists digest, info, i. split; [|done].
    apply elem_of_app. right. by apply list_elem_of_singleton.
  - destruct Ht as (hash & number & _ & _ & _ & _ & Heq). rewrite Heq in Hin. by apply Hold.
Qed.

(** Without a turn of the finalizer's, the run is the build's turns. *)
Lemma run_alone fcs attrs ts nw s :
  Forall (λ t, t = T_Build) ts → turns_run fcs attrs ts (begin_build nw) = Some s →
  (tn_build s, nw_el (tn_world s)) = build_turns fcs attrs (length ts) (At_Ask 0, nw_el nw) ∧
  nw_tracker (tn_world s) = nw_tracker nw.
Proof.
  change (At_Ask 0, nw_el nw) with
    (tn_build (begin_build nw), nw_el (tn_world (begin_build nw))).
  change (nw_tracker nw) with (nw_tracker (tn_world (begin_build nw))).
  generalize (begin_build nw). intros s0 Hb. revert s0.
  induction Hb as [|t ts -> Hb IH]; intros s0 Hr; cbn in Hr; [by simplify_eq|].
  destruct (build_turn _ _ _ _) as [at' w] eqn:Hbt. cbn in Hr.
  destruct (IH _ Hr) as [-> ->]. cbn. by rewrite Hbt.
Qed.

(** *** Where a block comes from *)

Section provenance.
Context `{!RethJobs W}.

(** The turn of [ts] that imported [block]. *)
Definition imported_in fcs attrs ts (s0 : Turns) (block : EthBlock) : Prop :=
  ∃ ts1 ts2 s1 st w,
    ts = ts1 ++ T_Build :: ts2 ∧ turns_run fcs attrs ts1 s0 = Some s1 ∧
    new_payload (block_to_payload block) (nw_el (tn_world s1)) = (Ok st, w) ∧
    (st = Status_Valid ∨ st = Status_Accepted).

(** Where the build stands: at a job, a block or a payload of the requested
    second. *)
Definition at_from (timestamp : Z) (at_ : At) (w : W) : Prop :=
  match at_ with
  | At_Resolve id => job_for id timestamp w
  | At_Import block => eth_timestamp block = timestamp
  | At_End (Ok b) => ∃ block, b = built_payload block ∧ eth_timestamp block = timestamp
  | _ => True
  end.

Definition provenance fcs attrs ts s0 (s : Turns) : Prop :=
  at_from (attr_timestamp attrs) (tn_build s) (nw_el (tn_world s)) ∧
  ∀ b, tn_build s = At_End (Ok b) → ∃ block, b = built_payload block ∧
    eth_timestamp block = attr_timestamp attrs ∧ imported_in fcs attrs ts s0 block.

Lemma imported_snoc fcs attrs ts t s0 block :
  imported_in fcs attrs ts s0 block → imported_in fcs attrs (ts ++ [t]) s0 block.
Proof.
  intros (ts1 & ts2 & s1 & st & w & -> & H1). exists ts1, (ts2 ++ [t]), s1, st, w.
  by rewrite <- app_assoc.
Qed.

Lemma build_turn_from fcs attrs at_ w :
  at_from (attr_timestamp attrs) at_ w →
  at_from (attr_timestamp attrs) (build_turn fcs attrs at_ w).1 (build_turn fcs attrs at_ w).2.
Proof.
  intros Ha. destruct at_ as [i|i|id|block|r]; cbn [build_turn]; [|done| | |done].
  - destruct (fork_choice_updated _ _ _) as [[[st [id|]]|e] w'] eqn:Hf.
    1: by eapply job_started.
    all: unfold next_attempt; by destruct (_ <? _)%nat.
  - destruct (resolve_kind _ _) as [[[block|e]|] w'] eqn:Hr; [|done..]. by eapply job_resolved.
  - destruct (new_payload _ _) as [[[]|e] w']; cbn; eauto.
Qed.

(** The build's own turn. *)
Lemma provenance_build fcs attrs ts s0 s1 s :
  turns_run fcs attrs ts s0 = Some s1 → turn fcs attrs T_Build s1 = Some s →
  provenance fcs attrs ts s0 s1 → provenance fcs attrs (ts ++ [T_Build]) s0 s.
Proof.
  intros Hr Ht [Hfrom Hend]. apply turn_Some in Ht as (w & Hb & _ & Hw & _).
  pose proof (build_turn_from fcs attrs _ _ Hfrom) as Hf. rewrite Hb in Hf.
  unfold provenance. rewrite Hw. split; [done|]. intros b Hs. rewrite Hs in Hb.
  destruct (tn_build s1) as [i|i|id|block|r] eqn:Ha; cbn [build_turn] in Hb.
  - destruct (fork_choice_updated _ _ _) as [[[st [id|]]|e] w']; [done|..].
    all: unfold next_attempt in Hb; by destruct (_ <? _)%nat.
  - done.
  - by destruct (resolve_kind _ _) as [[[]|] ].
  - destruct (new_payload _ _) as [[st|e] w'] eqn:Hn; [|done].
    exists block. destruct st; simplify_eq; split_and!; [done|done| |done|done|].
    all: eexists ts, [], s1, _, _; split_and!; eauto.
  - injection Hb as -> _. destruct (Hend b eq_refl) as (block & ? & ? & ?).
    exists block. split_and!; [done..|]. by apply imported_snoc.
Qed.

(** The finalizer's turns. *)
Lemma at_from_keeps timestamp at_ w w' :
  (∀ id, job_for id timestamp w → job_for id timestamp w') →
  at_from timestamp at_ w → at_from timestamp at_ w'.
Proof. intros Hj. destruct at_; cbn; auto. Qed.

Lemma provenance_other fcs attrs ts t s0 s1 s :
  tn_build s = tn_build s1 →
  (∀ id timestamp, job_for id timestamp (nw_el (tn_world s1)) →
     job_for id timestamp (nw_el (tn_world s))) →
  provenance fcs attrs ts s0 s1 → provenance fcs attrs (ts ++ [t]) s0 s.
Proof.
  intros Hb Hj [Hf He]. unfold provenance. rewrite Hb. split.
  - eapply at_from_keeps; [|done]. auto.
  - intros b Hs. destruct (He b Hs) as (block & ? & ? & ?). eauto using imported_snoc.
Qed.

Lemma finalize_ask_keeps id ts digest info w :
  job_for id ts w → job_for id ts (finalize_ask digest info w).2.
Proof.
  intros Hj. unfold finalize_ask. destruct (lock_read info) as [g|]; [|done].
  destruct (g !! digest) as [i|]; [|done].
  pose proof (job_kept id ts (finalized_fcs (bi_hash i)) None w Hj) as Hk.
  by destruct (fork_choice_updated _ _ _).
Qed.

Lemma run_provenance fcs attrs ts nw s :
  turns_run fcs attrs ts (begin_build nw) = Some s →
  provenance fcs attrs ts (begin_build nw) s.
Proof.
  revert s. induction ts as [|t ts IH] using rev_ind; intros s Hr.
  { cbn in Hr. simplify_eq. by split. }
  apply turns_run_snoc in Hr as (s1 & Hr & Ht). specialize (IH s1 Hr).
  destruct t as [|digest info|]; [by eapply provenance_build| |]; apply turn_Some in Ht.
  - destruct Ht as (calls & w & Hf & _ & Hb & Hw & _). eapply provenance_other; [done| |done].
    intros id timestamp Hj. rewrite Hw. cbn.
    pose proof (finalize_ask_keeps _ _ digest info _ Hj) as Hk. by rewrite Hf in Hk.
  - destruct Ht as (h & n & _ & _ & Hb & Hw & _). eapply provenance_other; [done| |done].
    intros id timestamp Hj. by rewrite Hw.
Qed.
End provenance.

Lemma build_turns_add fcs attrs n m s :
  build_turns fcs attrs (n + m) s = build_turns fcs attrs m (build_turns fcs attrs n s).
Proof. revert s. induction n as [|n IH]; intros s; [done|]. apply IH. Qed.

(** The build always has a turn. *)
Lemma build_can_run fcs attrs n s : is_Some (turns_run fcs attrs (replicate n T_Build) s).
Proof.
  revert s. induction n as [|n IH]; intros s; [done|]. cbn.
  destruct (build_turn _ _ _ _) as [at' w]. apply IH.
Qed.

Lemma build_count_replicate ts n :
  build_count (ts ++ replicate n T_Build) = (build_count ts + n)%nat.
Proof.
  rewrite filter_app, length_app. f_equal. induction n as [|n IH]; [done|].
  change (replicate (S n) T_Build) with ([T_Build] ++ replicate n T_Build).
  by rewrite filter_app, length_app, IH.
Qed.

(** ** Properties *)

(** C17: a build whose calls interleave with the finalizer's: however the
    finalizer's turns fall between the build's, eleven turns of the build are
    enough for it to end, and it can always take them; it makes at most five
    calls for a payload, each with the request's attributes and the finalized
    hash the tracker held when it began, and every other forkchoice update is
    the finalizer's, for a recorded block; when it succeeds the payload is one
    block, of the requested second, that one of its turns imported; and when
    the finalizer has no turn, it is the build closure. *)
Theorem interleaved_build `{!RethJobs W} req nw ts s :
  build_run req nw ts = Some s →
  let fcs := mk_ForkchoiceState (req_parent_hash req) (nw_tracker nw).1 (nw_tracker nw).1 in
  let attrs := build_payload_attributes (req_parent_hash req) (req_timestamp req) in
  ((11 ≤ build_count ts)%nat → ∃ r, tn_build s = At_End r) ∧
  (∃ s' r, build_run req nw (ts ++ replicate 11 T_Build) = Some s' ∧ tn_build s' = At_End r) ∧
  (ask_count (tn_asked s) ≤ 5)%nat ∧
  (∀ f a, (f, a) ∈ tn_asked s →
    (f = fcs ∧ a = Some attrs) ∨
    (a = None ∧ ∃ digest info i, T_Finalize digest info ∈ ts ∧
       guarded info !! digest = Some i ∧ f = finalized_fcs (bi_hash i))) ∧
  (∀ b, tn_build s = At_End (Ok b) →
    ∃ block, b = built_payload block ∧ eth_timestamp block = req_timestamp req ∧
      imported_in fcs attrs ts (begin_build nw) block) ∧
  (∀ r, Forall (λ t, t = T_Build) ts → tn_build s = At_End r →
    build_closure debug req nw = (r, tn_world s)).
Proof.
  intros Hr fcs attrs. unfold build_run in *. fold attrs in Hr |- *.
  change (build_fcs req (tracker_finalized nw).1) with fcs in *.
  assert (Hend : ∀ ts s, turns_run fcs attrs ts (begin_build nw) = Some s →
    (11 ≤ build_count ts)%nat → ∃ r, tn_build s = At_End r).
  { intros ts' s' (_ & Hl & _)%run_bounds Hc. apply turns_left_end. lia. }
  split_and!.
  - by apply Hend.
  - destruct (build_can_run fcs attrs 11 s) as [s' Hs'].
    assert (Hr' : turns_run fcs attrs (ts ++ replicate 11 T_Build) (begin_build nw) = Some s')
      by (by rewrite turns_run_app, Hr).
    destruct (Hend _ _ Hr') as [r ?]; [rewrite build_count_replicate; lia|]. eauto.
  - apply run_bounds in Hr. lia.
  - by apply (run_calls _ _ _ nw).
  - intros b Hb. apply run_provenance in Hr as [_ Hr]. by apply Hr.
  - intros r Hall Hb. apply run_alone in Hr as [Hr Ht]; [|done]. rewrite Hb in Hr.
    pose proof (build_turns_closure req nw (length ts + 11) ltac:(lia)) as Hc.
    change (build_fcs req (tracker_finalized nw).1) with fcs in Hc. fold attrs in Hc.
    rewrite build_turns_add, <- Hr, build_turns_end in Hc.
    pose proof (build_closure_tracker debug req nw) as Htr.
    destruct (build_closure debug req nw) as [r' [tr w]], (tn_world s). cbn in *. by simplify_eq.
Qed.

(** C32: a retry can declare a finalized block the engine has left behind: when
    the first attempt yields no payload id and the finalizer's update is
    accepted during the sleep, the tracker moves to the block it finalized,
    but the second attempt, made after it, still declares the hash read when
    the build began. *)
Theorem retry_declares_stale_finalization req nw digest info i :
  let fcs := mk_ForkchoiceState (req_parent_hash req) (nw_tracker nw).1 (nw_tracker nw).1 in
  let attrs := build_payload_attributes (req_parent_hash req) (req_timestamp req) in
  let '(first, w) := fcu_attempt fcs attrs 0 (nw_el nw) in
  let nw' := mk_NodeWorld (nw_tracker nw) (el_sleep (Config.from_millis 50) w) in
  is_ok first = false → finalizes digest info nw' i →
  ∃ s, build_run req nw [T_Build; T_Build; T_Finalize digest info; T_Set; T_Build] = Some s ∧
    nw_tracker (tn_world s) = (bi_hash i, bi_number i) ∧
    tn_asked s = [(fcs, Some attrs); (finalized_fcs (bi_hash i), None); (fcs, Some attrs)].
Proof.
  intros fcs attrs. destruct (fcu_attempt fcs attrs 0 (nw_el nw)) as [first w] eqn:Ha.
  intros nw' Hfail (Hp & Hi & id & w' & Hf).
  assert (Hb : ∃ e, build_turn fcs attrs (At_Ask 0) (nw_el nw) = (next_attempt 0 e, w)).
  { unfold fcu_attempt in Ha. cbn [Nat.ltb Nat.leb] in Ha. cbn [build_turn].
    destruct (fork_choice_updated _ _ _) as [[[st [p|]]|e] w1]; simplify_eq; eauto. }
  destruct Hb as [e Hb]. unfold build_run.
  change (build_fcs req (tracker_finalized nw).1) with fcs. fold attrs.
  cbn -[build_turn finalize_ask]. rewrite Hb. cbn -[build_turn finalize_ask].
  cbn [build_turn]. cbn -[build_turn finalize_ask].
  pose proof (finalize_ask_accepts digest info _ i Hp Hi id w' Hf) as Hfin.
  cbn -[finalize_ask] in Hfin. rewrite Hfin. cbn -[build_turn].
  destruct (build_turn fcs attrs (At_Ask 1) w') as [at' w2]. cbn. eexists. by split_and!.
Qed.
End turns.

(** ** Witnesses *)

Definition sample_turns : list Turn :=
  [T_Build; T_Finalize EMPTY (block_info sample_actor); T_Build; T_Set; T_Build].

Definition payload_of `{!RethEngine W} (at_ : At (W := W)) : option BuiltPayload :=
  match at_ with At_End (Ok b) => Some b | _ => None end.

Lemma interleaved_build_witness :
  ∃ block : @EthBlock ref_engine_state ref_reth,
    sample_built = built_payload block ∧ eth_timestamp block = req_timestamp sample_request ∧
    imported_in (λ _, "") (mk_ForkchoiceState (req_parent_hash sample_request)
        (nw_tracker sample_world).1 (nw_tracker sample_world).1)
      (build_payload_attributes (req_parent_hash sample_request) (req_timestamp sample_request))
      sample_turns (begin_build sample_world) block.
Proof.
  assert (Hr : build_run (λ _, "") sample_request sample_world sample_turns ≫=
                 (λ s, payload_of (tn_build s)) = Some sample_built) by (vm_compute; reflexivity).
  destruct (build_run (λ _, "") sample_request sample_world sample_turns) as [s|] eqn:Hs;
    [|discriminate Hr].
  assert (Hb : tn_build s = At_End (Ok sample_built)).
  { cbn [mbind option_bind] in Hr. destruct (tn_build s) as [| | | |[b|]]; try discriminate Hr.
    by injection Hr as ->. }
  destruct (interleaved_build (λ _, "") sample_request sample_world sample_turns s Hs)
    as (_ & _ & _ & _ & Hok & _).
  exact (Hok sample_built Hb).
Defined.

(** A request on a parent the engine does not know. *)
Definition orphan_request : BuildPayloadRequest :=
  propose_request sample_now sample_propose (0, key_of 5, 1700000000000) (key_of 0).

Lemma retry_declares_stale_finalization_witness :
  ∃ s, build_run (W := ref_engine_state) (λ _, "") orphan_request moved_world
      [T_Build; T_Build; T_Finalize EMPTY (block_info sample_actor); T_Set; T_Build] = Some s ∧
    nw_tracker (tn_world s) = (sample_genesis_hash, 0) ∧
    (λ c, finalized_block_hash c.1) <$> tn_asked s = [key_of 9; sample_genesis_hash; key_of 9].
Proof.
  pose proof (retry_declares_stale_finalization (W := ref_engine_state) (λ _, "")
    orphan_request moved_world EMPTY (block_info sample_actor) sample_genesis_info) as H.
  assert (Hf : fcu_attempt (W := ref_engine_state)
      (mk_ForkchoiceState (req_parent_hash orphan_request) (nw_tracker moved_world).1
         (nw_tracker moved_world).1)
      (build_payload_attributes (req_parent_hash orphan_request) (req_timestamp orphan_request))
      0 (nw_el moved_world) = (Err "engine returned no payload id"%string, sample_el))
    by (apply injective_projections; vm_compute; reflexivity).
  cbv zeta in H. rewrite Hf in H.
  destruct (H eq_refl sample_finalizes) as (s & Hs & Ht & Ha).
  exists s. split; [exact Hs|]. split; [exact Ht|]. rewrite Ha. reflexivity.
Defined.
