(* ===== verification/Genesis.v ===== *)
(** * Genesis files

    The alloy genesis records, with the fields the generator fills, and the
    interface to JSON, hex, socket addresses' text and reth's chain
    specification, shared by the loader and the generator.  Nothing here models
    code of the repository; a reference instance ends the file. *)

From S2P Require Import Prelude Extern Reference Validators.
From Stdlib Require Import Ascii.
From stdpp Require Import pretty.
Local Open Scope Z_scope.

(** [alloy_genesis::ChainConfig] *)
Record ChainConfig : Type := mk_ChainConfig {
  chain_id : Z;
  homestead_block : option Z;
  eip150_block : option Z;
  eip155_block : option Z;
  eip158_block : option Z;
  byzantium_block : option Z;
  constantinople_block : option Z;
  petersburg_block : option Z;
  istanbul_block : option Z;
  muir_glacier_block : option Z;
  berlin_block : option Z;
  london_block : option Z;
  arrow_glacier_block : option Z;
  gray_glacier_block : option Z;
  terminal_total_difficulty : option Z;
  merge_netsplit_block : option Z;
  shanghai_time : option Z;
  cancun_time : option Z;
  prague_time : option Z;
  osaka_time : option Z;
  amsterdam_time : option Z;
}.

(** [alloy_genesis::Genesis]; [alloc] maps addresses to balances. *)
Record Genesis : Type := mk_Genesis {
  config : ChainConfig;
  g_nonce : Z;
  g_timestamp : Z;
  g_extra_data : bytes;
  g_gas_limit : Z;
  g_difficulty : Z;
  g_mix_hash : B256;
  coinbase : bytes;
  alloc : gmap bytes Z;
  g_base_fee_per_gas : option Z;
  g_excess_blob_gas : option Z;
  g_blob_gas_used : option Z;
  g_number : option Z;
  g_parent_hash : option B256;
}.

(** One entry of the ["validators"] array: the two structs that derive serde
    for it ([ValidatorFileEntry] of the loader, [ValidatorOutput] of the
    generator) have the same fields under the same camel-case names. *)
Record ValidatorFileEntry : Type := mk_ValidatorFileEntry {
  vf_index : Z;
  vf_public_key : string;
  vf_ingress : string;
  vf_egress : string;
}.

#[global] Instance ChainConfig_eq_dec : EqDecision ChainConfig.
Proof. solve_decision. Defined.
#[global] Instance Genesis_eq_dec : EqDecision Genesis.
Proof. solve_decision. Defined.
#[global] Instance ValidatorFileEntry_eq_dec : EqDecision ValidatorFileEntry.
Proof. solve_decision. Defined.

(** serde_json, hex, [SocketAddr]'s [FromStr] and [Display], reth's chain
    specifications. *)
Class ChainFiles : Type := {
  ChainSpec : Type;
  (** [reth_chainspec::DEV], [ChainSpec::from_genesis] *)
  DEV : ChainSpec;
  chain_spec_from_genesis : Genesis → ChainSpec;
  Json : Type;
  (** [serde_json::from_str], [to_string_pretty] *)
  json_parse : string → Result Json string;
  json_pretty : Json → string;
  (** no floating-point number, whose text may be rounded, is inside *)
  json_exact : Json → Prop;
  (** [value.as_object_mut().and_then(|obj| obj.remove(key))] *)
  json_remove : string → Json → option Json * Json;
  (** [if let Some(obj) = value.as_object_mut() { obj.insert(key, v) }] *)
  json_insert : string → Json → Json → Json;
  (** [serde_json::from_value] and [to_value] at the two types *)
  json_entries : Json → Result (list ValidatorFileEntry) string;
  entries_json : list ValidatorFileEntry → Json;
  json_genesis : Json → Result Genesis string;
  genesis_json : Genesis → Json;
  hex_decode : string → option bytes;
  hex_encode : bytes → string;
  socket_parse : string → option SocketAddr;
  socket_display : SocketAddr → string;
}.

(** The values of the fields' Rust types: integers of 64 bits (those of wider
    types are narrower still in what the program writes), addresses of 20
    bytes, 256-bit balances, 16-bit indices and ports. *)
Definition opt_u64 (o : option Z) : Prop := from_option is_u64 True o.

Definition config_wf (c : ChainConfig) : Prop :=
  is_u64 (chain_id c) ∧
  Forall opt_u64 [homestead_block c; eip150_block c; eip155_block c; eip158_block c;
    byzantium_block c; constantinople_block c; petersburg_block c; istanbul_block c;
    muir_glacier_block c; berlin_block c; london_block c; arrow_glacier_block c;
    gray_glacier_block c; terminal_total_difficulty c; merge_netsplit_block c;
    shanghai_time c; cancun_time c; prague_time c; osaka_time c; amsterdam_time c].

Definition account_wf (address : bytes) (balance : Z) : Prop :=
  length address = 20%nat ∧ 0 ≤ balance < 2 ^ 256.

Definition genesis_wf (g : Genesis) : Prop :=
  config_wf (config g) ∧
  Forall is_u64 [g_nonce g; g_timestamp g; g_gas_limit g; g_difficulty g] ∧
  Forall opt_u64 [g_base_fee_per_gas g; g_excess_blob_gas g; g_blob_gas_used g; g_number g] ∧
  length (coinbase g) = 20%nat ∧ map_Forall account_wf (alloc g).

Definition file_entry_wf (e : ValidatorFileEntry) : Prop := 0 ≤ vf_index e ≤ u16_max.

(** A socket address whose text is all of it: the text of an IPv6 address
    leaves the flow information out. *)
Definition socket_wf (s : SocketAddr) : Prop :=
  match s with
  | SocketV4 a p => 0 ≤ a < 2 ^ 32 ∧ 0 ≤ p ≤ u16_max
  | SocketV6 a p flow scope =>
    0 ≤ a < 2 ^ 128 ∧ 0 ≤ p ≤ u16_max ∧ flow = 0 ∧ 0 ≤ scope < 2 ^ 32
  end.

#[global] Instance socket_wf_dec s : Decision (socket_wf s).
Proof. destruct s; cbn; apply _. Defined.

Class ChainFilesLaws `{!ChainFiles} : Prop := {
  json_roundtrip v : json_exact v → json_parse (json_pretty v) = Ok v;
  genesis_exact g : genesis_wf g → json_exact (genesis_json g);
  entries_exact l : Forall file_entry_wf l → json_exact (entries_json l);
  insert_exact k x v : json_exact x → json_exact v → json_exact (json_insert k x v);
  entries_roundtrip l : Forall file_entry_wf l → json_entries (entries_json l) = Ok l;
  genesis_roundtrip g l :
    genesis_wf g → Forall file_entry_wf l →
    ∃ v, json_remove "validators" (json_insert "validators" (entries_json l) (genesis_json g)) =
         (Some (entries_json l), v) ∧ json_genesis v = Ok g;
  hex_roundtrip b : hex_decode (hex_encode b) = Some b;
  socket_parse_wf t s : socket_parse t = Some s → socket_wf s;
  socket_roundtrip s : socket_wf s → socket_parse (socket_display s) = Some s;
  socket_display_localhost p :
    0 ≤ p ≤ u16_max → socket_display (SocketV4 2130706433 p) = "127.0.0.1:" +:+ pretty p;
}.

(** A file system with state [FS], of regular files without links: [std::fs::read_to_string],
    [create_dir_all] and [write]; the string of an error is its display. *)
Class FileSystem (FS : Type) : Type := {
  fs_read : FS → string → Result string string;
  create_dir_all : string → FS → Result unit string * FS;
  fs_write : string → string → FS → Result unit string * FS;
}.

(** A file name of one component. *)
Definition plain_name (s : string) : bool :=
  negb (String.eqb s EmptyString) &&
  forallb (λ c, negb (Ascii.eqb c "/"%char)) (String.list_ascii_of_string s).

(** What is written is read back, and the other files of the directory stay. *)
Class FileSystemLaws (FS : Type) `{!FileSystem FS} : Prop := {
  write_read p c fs fs' : fs_write p c fs = (Ok (), fs') → fs_read fs' p = Ok c;
  write_other dir a b c fs :
    plain_name a = true → plain_name b = true → a ≠ b →
    fs_read (fs_write (path_join dir a) c fs).2 (path_join dir b) =
    fs_read fs (path_join dir b);
}.

(** ** A reference instance

    A document is a genesis with or without validators, or a list of entries;
    its text is the binary form of its countable code. *)

#[global] Instance ChainConfig_countable : Countable ChainConfig.
Proof.
  refine (inj_countable
    (λ c, (chain_id c, [homestead_block c; eip150_block c; eip155_block c; eip158_block c;
       byzantium_block c; constantinople_block c; petersburg_block c; istanbul_block c;
       muir_glacier_block c; berlin_block c; london_block c; arrow_glacier_block c;
       gray_glacier_block c; terminal_total_difficulty c; merge_netsplit_block c;
       shanghai_time c; cancun_time c; prague_time c; osaka_time c; amsterdam_time c]))
    (λ x, match x with
     | (id, [a; b; c; d; e; f; g; h; i; j; k; l; m; n; o; p; q; r; s; t]) =>
       Some (mk_ChainConfig id a b c d e f g h i j k l m n o p q r s t)
     | _ => None
     end) _).
  by intros [].
Defined.

#[global] Program Instance Genesis_countable : Countable Genesis :=
  inj_countable'
    (λ g, (config g, (g_nonce g, g_timestamp g, g_extra_data g, g_gas_limit g, g_difficulty g),
           (g_mix_hash g, coinbase g, alloc g),
           (g_base_fee_per_gas g, g_excess_blob_gas g, g_blob_gas_used g, g_number g,
            g_parent_hash g)))
    (λ x, let '(c, (n, t, ed, gl, di), (mh, cb, al), (bf, eb, bg, nu, ph)) := x in
          mk_Genesis c n t ed gl di mh cb al bf eb bg nu ph) _.
Next Obligation. by intros []. Qed.

#[global] Program Instance ValidatorFileEntry_countable : Countable ValidatorFileEntry :=
  inj_countable' (λ e, (vf_index e, vf_public_key e, vf_ingress e, vf_egress e))
    (λ x, let '(i, k, a, b) := x in mk_ValidatorFileEntry i k a b) _.
Next Obligation. by intros []. Qed.

#[global] Program Instance SocketAddr_countable : Countable SocketAddr :=
  inj_countable'
    (λ s, match s with SocketV4 a p => inl (a, p) | SocketV6 a p f i => inr (a, p, f, i) end)
    (λ x, match x with inl (a, p) => SocketV4 a p | inr (a, p, f, i) => SocketV6 a p f i end) _.
Next Obligation. by intros []. Qed.

(** The binary form of a positive number, as text. *)
Fixpoint bits_of (p : positive) : string :=
  match p with
  | xH => EmptyString
  | xO p => String "0"%char (bits_of p)
  | xI p => String "1"%char (bits_of p)
  end.
Fixpoint of_bits (s : string) : positive :=
  match s with
  | EmptyString => xH
  | String c s => if decide (c = "1"%char) then xI (of_bits s) else xO (of_bits s)
  end.
Lemma of_bits_of p : of_bits (bits_of p) = p.
Proof. induction p as [p IH|p IH|]; cbn; [..|done]; by rewrite IH. Qed.

Definition text_of {A} `{Countable A} (a : A) : string := bits_of (encode a).
Definition of_text {A} `{Countable A} (s : string) : option A := decode (of_bits s).
Lemma of_text_of {A} `{Countable A} (a : A) : of_text (text_of a) = Some a.
Proof. unfold of_text, text_of. by rewrite of_bits_of, decode_encode. Qed.

(** A genesis document with its validators, or an array of entries. *)
Abbreviation ref_json := (Genesis * option (list ValidatorFileEntry) + list ValidatorFileEntry)%type.

Definition localhost_text (p : Z) : string := "127.0.0.1:" +:+ pretty p.

Definition ref_socket_display (s : SocketAddr) : string :=
  match s with
  | SocketV4 a p =>
    if decide (a = 2130706433 ∧ 0 ≤ p ≤ u16_max) then localhost_text p
    else String "x"%char (text_of s)
  | _ => String "x"%char (text_of s)
  end.

(** The first of [n] ports from [p] on whose socket on localhost reads [t]. *)
Fixpoint find_port (t : string) (n : nat) (p : Z) : option Z :=
  match n with
  | O => None
  | S n => if String.eqb t (localhost_text p) then Some p else find_port t n (p + 1)
  end.

Definition ref_socket_parse (t : string) : option SocketAddr :=
  match t with
  | String "x"%char t => s ← of_text t; if decide (socket_wf s) then Some s else None
  | _ => SocketV4 2130706433 <$> find_port t (Z.to_nat (u16_max + 1)) 0
  end.

#[export] Instance ref_files : ChainFiles := {|
  ChainSpec := option Genesis;
  DEV := None;
  chain_spec_from_genesis g := Some g;
  Json := ref_json;
  json_parse t := ok_or (of_text t) "syntax"%string;
  json_pretty v := text_of v;
  json_exact _ := True;
  json_remove _ v := match v with
    | inl (g, vs) => (inr <$> vs, inl (g, None)) | inr l => (None, inr l) end;
  json_insert _ x v := match v, x with
    | inl (g, _), inr l => inl (g, Some l) | _, _ => v end;
  json_entries v := match v with inr l => Ok l | inl _ => Err "not an array"%string end;
  entries_json l := inr l;
  json_genesis v := match v with inl (g, _) => Ok g | inr _ => Err "not an object"%string end;
  genesis_json g := inl (g, None);
  hex_decode t := of_text t;
  hex_encode b := text_of b;
  socket_parse := ref_socket_parse;
  socket_display := ref_socket_display;
|}.

Lemma ref_socket_parse_x s :
  socket_wf s → ref_socket_parse (String "x"%char (text_of s)) = Some s.
Proof. intros Hs. cbn [ref_socket_parse]. rewrite of_text_of. cbn. by rewrite decide_True. Qed.

Lemma localhost_text_inj p q : localhost_text p = localhost_text q → p = q.
Proof. unfold localhost_text. intros Hq%(inj (String.append _)). by apply (inj pretty). Qed.

Lemma find_port_found n p q :
  p ≤ q < p + Z.of_nat n → find_port (localhost_text q) n p = Some q.
Proof.
  revert p. induction n as [|n IH]; intros p Hq; [lia|]. cbn -[localhost_text].
  destruct (String.eqb_spec (localhost_text q) (localhost_text p)) as [->%localhost_text_inj|Hne];
    [done|].
  apply IH. assert (q ≠ p) by (by intros ->). lia.
Qed.

Lemma ref_socket_parse_localhost p :
  0 ≤ p ≤ u16_max → ref_socket_parse (localhost_text p) = Some (SocketV4 2130706433 p).
Proof.
  intros Hp. change (ref_socket_parse (localhost_text p)) with
    (SocketV4 2130706433 <$> find_port (localhost_text p) (Z.to_nat (u16_max + 1)) 0).
  rewrite find_port_found; [done|]. unfold u16_max in *. lia.
Qed.

Lemma find_port_range t n p q : find_port t n p = Some q → p ≤ q < p + Z.of_nat n.
Proof.
  revert p. induction n as [|n IH]; intros p; cbn -[localhost_text]; [done|].
  destruct (String.eqb _ _); [intros [= <-]; lia|]. intros Hq%IH. lia.
Qed.

Lemma ref_socket_parse_wf t s : ref_socket_parse t = Some s → socket_wf s.
Proof.
  assert (Hport : SocketV4 2130706433 <$> find_port t (Z.to_nat (u16_max + 1)) 0 = Some s →
    socket_wf s).
  { intros (q & Hq%find_port_range & ->)%fmap_Some. cbn. unfold u16_max in *. lia. }
  destruct t as [|c t']; [exact Hport|]. unfold ref_socket_parse.
  destruct (decide (c = "x"%char)) as [->|Hc].
  - intros (s' & _ & Hs)%bind_Some. case_decide; by simplify_eq.
  - intros Hs. apply Hport. destruct c as [[] [] [] [] [] [] [] []]; first [exact Hs|done].
Qed.

#[export] Instance ref_files_laws : ChainFilesLaws.
Proof.
  split.
  - intros v _. cbn. by rewrite of_text_of.
  - done.
  - done.
  - done.
  - done.
  - intros g l _ _. cbn. by eexists.
  - intros b. cbn. apply of_text_of.
  - intros t s. cbn. apply ref_socket_parse_wf.
  - intros s Hs. cbn. unfold ref_socket_display. destruct s as [a p|a p f i].
    + case_decide as Hd; [|by apply ref_socket_parse_x].
      destruct Hd as [-> Hp]. by apply ref_socket_parse_localhost.
    + by apply ref_socket_parse_x.
  - intros p Hp. cbn. by rewrite decide_True.
Qed.

#[export] Instance ref_fs : FileSystem (gmap string string) := {|
  fs_read fs p := ok_or (fs !! p) "No such file"%string;
  create_dir_all _ fs := (Ok (), fs);
  fs_write p c fs := (Ok (), <[p := c]> fs);
|}.

Lemma path_join_inj dir a b : path_join dir a = path_join dir b → a = b.
Proof.
  unfold path_join. case_decide; [done|]. destruct (ends_with_slash dir); intros He.
  - by apply (inj (String.append dir)).
  - apply (inj (String.append dir)) in He. by injection He.
Qed.

#[export] Instance ref_fs_laws : FileSystemLaws (gmap string string).
Proof.
  split.
  - intros p c fs fs' [= <-]. cbn. by rewrite lookup_insert_eq.
  - intros dir a b c fs _ _ Hab. cbn. rewrite lookup_insert_ne; [done|].
    by intros ?%path_join_inj.
Qed.
