(* ===== verification/RethConsensus.v ===== *)
(** * allegro-node: relaxed-timestamp consensus (crates/node/src/allegro_consensus.rs)

    The wrappers around reth's beacon consensus and engine validator.  Both
    relax one check, so that consecutive blocks may share a second; everything
    else is reth's. *)

From S2P Require Import Prelude Extern Reference Digest Executor Reth Application Genesis.
Local Open Scope Z_scope.

(** What the module uses of reth: header checks and the wrapped validators,
    whose code is not part of the repository. *)
Class RethChecks `{!ChainFiles} : Type := {
  EthHeader : Type;
  EthBody : Type;
  SealedBlock : Type;
  RecoveredBlock : Type;
  ExecutionResult : Type;
  Bloom : Type;
  hdr_timestamp : EthHeader → Z;
  (** [reth_consensus::ConsensusError], with the variant the module builds *)
  RethError : Type;
  TimestampIsInPast : Z → Z → RethError;
  check_hash_number : EthHeader → EthHeader → Result unit RethError;
  check_gas_limit : EthHeader → EthHeader → ChainSpec → Result unit RethError;
  check_base_fee : EthHeader → EthHeader → ChainSpec → Result unit RethError;
  BlobParams : Type;
  blob_params_at_timestamp : ChainSpec → Z → option BlobParams;
  check_4844 : EthHeader → EthHeader → BlobParams → Result unit RethError;
  (** [EthBeaconConsensus], by its chain specification *)
  eth_validate_header : ChainSpec → EthHeader → Result unit RethError;
  eth_validate_against_parent : ChainSpec → EthHeader → EthHeader → Result unit RethError;
  eth_validate_body : ChainSpec → EthBody → EthHeader → Result unit RethError;
  eth_validate_pre_execution : ChainSpec → SealedBlock → Result unit RethError;
  eth_validate_pre_execution_root :
    ChainSpec → SealedBlock → option B256 → Result unit RethError;
  (** [validate_block_post_execution] *)
  eth_validate_post_execution :
    RecoveredBlock → ChainSpec → ExecutionResult → option (B256 * Bloom) → option B256 →
    Result unit RethError;
  (** [EthereumEngineValidator] and its argument types *)
  PayloadData : Type;
  NewPayloadError : Type;
  EngineApiMessageVersion : Type;
  PayloadOrAttributes : Type;
  EngineObjectValidationError : Type;
  InvalidPayloadAttributesError : Type;
  InvalidTimestamp : InvalidPayloadAttributesError;
  eth_convert_payload : ChainSpec → PayloadData → Result SealedBlock NewPayloadError;
  eth_version_specific_fields :
    ChainSpec → EngineApiMessageVersion → PayloadOrAttributes →
    Result unit EngineObjectValidationError;
  eth_well_formed_attributes :
    ChainSpec → EngineApiMessageVersion → PayloadAttributes →
    Result unit EngineObjectValidationError;
}.

Section checks.
Context `{!ChainFiles, !RethChecks}.

(** ** [AllegroBeaconConsensus] *)

Record AllegroBeaconConsensus : Type := mk_AllegroBeaconConsensus { bc_chain_spec : ChainSpec }.

Definition beacon_consensus_new (chain_spec : ChainSpec) : AllegroBeaconConsensus :=
  mk_AllegroBeaconConsensus chain_spec.

Definition validate_header (c : AllegroBeaconConsensus) (header : EthHeader) :
    Result unit RethError :=
  eth_validate_header (bc_chain_spec c) header.

Definition validate_header_against_parent (c : AllegroBeaconConsensus)
    (header parent : EthHeader) : Result unit RethError :=
  let? _ := check_hash_number header parent in
  if hdr_timestamp header <? hdr_timestamp parent
  then Err (TimestampIsInPast (hdr_timestamp parent) (hdr_timestamp header))
  else
    let? _ := check_gas_limit header parent (bc_chain_spec c) in
    let? _ := check_base_fee header parent (bc_chain_spec c) in
    match blob_params_at_timestamp (bc_chain_spec c) (hdr_timestamp header) with
    | Some blob_params => let? _ := check_4844 header parent blob_params in Ok ()
    | None => Ok ()
    end.

Definition validate_body_against_header (c : AllegroBeaconConsensus) (body : EthBody)
    (header : EthHeader) : Result unit RethError :=
  eth_validate_body (bc_chain_spec c) body header.

Definition validate_block_pre_execution (c : AllegroBeaconConsensus) (block : SealedBlock) :
    Result unit RethError :=
  eth_validate_pre_execution (bc_chain_spec c) block.

Definition validate_block_pre_execution_with_tx_root (c : AllegroBeaconConsensus)
    (block : SealedBlock) (transaction_root : option B256) : Result unit RethError :=
  eth_validate_pre_execution_root (bc_chain_spec c) block transaction_root.

Definition validate_block_post_execution (c : AllegroBeaconConsensus) (block : RecoveredBlock)
    (result : ExecutionResult) (receipt_root_bloom : option (B256 * Bloom))
    (block_access_list_hash : option B256) : Result unit RethError :=
  eth_validate_post_execution block (bc_chain_spec c) result receipt_root_bloom
    block_access_list_hash.

(** [AllegroConsensusBuilder::build_consensus]: over the context's chain. *)
Definition build_consensus (ctx_chain_spec : ChainSpec) : AllegroBeaconConsensus :=
  beacon_consensus_new ctx_chain_spec.

(** ** [AllegroEngineValidator] *)

Record AllegroEngineValidator : Type := mk_AllegroEngineValidator { ev_chain_spec : ChainSpec }.

Definition engine_validator_new (chain_spec : ChainSpec) : AllegroEngineValidator :=
  mk_AllegroEngineValidator chain_spec.

Definition convert_payload_to_block (v : AllegroEngineValidator) (payload : PayloadData) :
    Result SealedBlock NewPayloadError :=
  eth_convert_payload (ev_chain_spec v) payload.

Definition validate_payload_attributes_against_header (v : AllegroEngineValidator)
    (attr : PayloadAttributes) (header : EthHeader) :
    Result unit InvalidPayloadAttributesError :=
  if attr_timestamp attr <? hdr_timestamp header then Err InvalidTimestamp else Ok ().

Definition validate_version_specific_fields (v : AllegroEngineValidator)
    (version : EngineApiMessageVersion) (p : PayloadOrAttributes) :
    Result unit EngineObjectValidationError :=
  eth_version_specific_fields (ev_chain_spec v) version p.

Definition ensure_well_formed_attributes (v : AllegroEngineValidator)
    (version : EngineApiMessageVersion) (attributes : PayloadAttributes) :
    Result unit EngineObjectValidationError :=
  eth_well_formed_attributes (ev_chain_spec v) version attributes.

(** [AllegroEngineValidatorBuilder::build]: over the node's chain. *)
Definition build_validator (config_chain : ChainSpec) : AllegroEngineValidator :=
  engine_validator_new config_chain.

(** ** What the relaxation means *)

(** The checks other than the time stamp's. *)
Definition other_checks (spec : ChainSpec) (header parent : EthHeader) : Prop :=
  check_hash_number header parent = Ok () ∧
  check_gas_limit header parent spec = Ok () ∧
  check_base_fee header parent spec = Ok () ∧
  (∀ bp, blob_params_at_timestamp spec (hdr_timestamp header) = Some bp →
         check_4844 header parent bp = Ok ()).
End checks.

(** Upstream's check, as documented: the same ones, and a time stamp strictly
    after the parent's. *)
Class RethChecksLaws `{!ChainFiles, !RethChecks} : Prop :=
  eth_against_parent spec header parent :
    eth_validate_against_parent spec header parent = Ok () ↔
    other_checks spec header parent ∧ hdr_timestamp parent < hdr_timestamp header.

Section relaxed.
Context `{!ChainFiles, !RethChecks}.

Lemma result_unit {E} (r : Result unit E) : r = Ok () ∨ ∃ e, r = Err e.
Proof. destruct r as [[]|e]; eauto. Qed.

Lemma against_parent_Ok c header parent :
  validate_header_against_parent c header parent = Ok () ↔
  other_checks (bc_chain_spec c) header parent ∧ hdr_timestamp parent ≤ hdr_timestamp header.
Proof.
  unfold validate_header_against_parent, other_checks.
  destruct (result_unit (check_hash_number header parent)) as [->|[e ->]]; cbn; [|intuition congruence].
  destruct (Z.ltb_spec (hdr_timestamp header) (hdr_timestamp parent)); [split; [done|lia]|].
  destruct (result_unit (check_gas_limit header parent (bc_chain_spec c))) as [->|[e ->]];
    cbn; [|intuition congruence].
  destruct (result_unit (check_base_fee header parent (bc_chain_spec c))) as [->|[e ->]];
    cbn; [|intuition congruence].
  destruct (blob_params_at_timestamp _ _) as [bp|].
  - destruct (result_unit (check_4844 header parent bp)) as [Hc|[e Hc]]; rewrite Hc; cbn.
    + split; [|done]. intros _. split_and!; [done..| |lia]. intros ? [= <-]. done.
    + split; [done|]. intros [(_ & _ & _ & H4) _]. specialize (H4 bp eq_refl). congruence.
  - split; [|done]. intros _. split_and!; [done..|lia].
Qed.

(** C27: the relaxed header check: a header is accepted exactly when upstream
    would accept it, or when it shares its parent's second and passes every
    other check; a header before its parent is refused as being in the past,
    once number and parent hash are right. *)
Theorem relaxed_header_check `{!RethChecksLaws} c header parent :
  (validate_header_against_parent c header parent = Ok () ↔
   eth_validate_against_parent (bc_chain_spec c) header parent = Ok () ∨
   (other_checks (bc_chain_spec c) header parent ∧
    hdr_timestamp header = hdr_timestamp parent)) ∧
  (check_hash_number header parent = Ok () → hdr_timestamp header < hdr_timestamp parent →
   validate_header_against_parent c header parent =
     Err (TimestampIsInPast (hdr_timestamp parent) (hdr_timestamp header))).
Proof.
  split.
  - rewrite against_parent_Ok, eth_against_parent.
    destruct (Z.lt_total (hdr_timestamp parent) (hdr_timestamp header)) as [|[|]];
      intuition lia.
  - intros Hn Hlt. unfold validate_header_against_parent. rewrite Hn. cbn.
    by rewrite (proj2 (Z.ltb_lt _ _) Hlt).
Qed.
End relaxed.

Section attributes.
Context `{!ChainFiles, !RethChecks, !Ed25519} {P W : Type} `{!PayloadBuilder P W}.

(** C33: the relaxation is the one the proposer needs: the payload attributes
    of any proposal pass the engine's check against the parent's header,
    whenever the parent is recorded with its header's second - also when both
    blocks fall in the same second, where the strict check would refuse. *)
Theorem proposal_attributes_accepted v now (m : Propose) (st : Actor P W) k i header :
  actor_inv st → guarded (block_info st) !! (p_parent m).2 = Some i →
  hdr_timestamp header = bi_timestamp i →
  let r := propose_request now m (parent_of (guarded (block_info st)) (p_parent m).2) k in
  validate_payload_attributes_against_header v
    (build_payload_attributes_from_request r).2 header = Ok ().
Proof.
  intros Hst Hi Hh r. destruct (propose_request_stamps now m
    (parent_of (guarded (block_info st)) (p_parent m).2) k) as (_ & Ht & _ & Hle & _).
  { by apply parent_of_u64. }
  unfold validate_payload_attributes_against_header. cbn -[propose_request].
  fold r in Ht, Hle |- *. rewrite Ht, Hh.
  destruct Hst as [Hinfo _ _ _]. destruct (Hinfo _ _ Hi) as [_ <-].
  rewrite (proj2 (Z.ltb_ge _ _)); [done|]. apply Z.div_le_mono; [lia|].
  etrans; [|exact Hle]. unfold parent_of. by rewrite Hi.
Qed.
End attributes.

(** ** Witnesses *)

(** Checks over headers that are a time stamp, with upstream's strict rule. *)
#[export] Instance ref_checks : RethChecks := {|
  EthHeader := Z; EthBody := unit; SealedBlock := unit;
  RecoveredBlock := unit; ExecutionResult := unit; Bloom := unit;
  hdr_timestamp h := h;
  RethError := string;
  TimestampIsInPast _ _ := "timestamp in past"%string;
  check_hash_number _ _ := Ok ();
  check_gas_limit _ _ _ := Ok ();
  check_base_fee _ _ _ := Ok ();
  BlobParams := unit;
  blob_params_at_timestamp _ _ := None;
  check_4844 _ _ _ := Ok ();
  eth_validate_header _ _ := Ok ();
  eth_validate_against_parent _ h p :=
    if h <=? p then Err "timestamp in past"%string else Ok ();
  eth_validate_body _ _ _ := Ok ();
  eth_validate_pre_execution _ _ := Ok ();
  eth_validate_pre_execution_root _ _ _ := Ok ();
  eth_validate_post_execution _ _ _ _ _ := Ok ();
  PayloadData := unit; NewPayloadError := unit; EngineApiMessageVersion := unit;
  PayloadOrAttributes := unit; EngineObjectValidationError := unit;
  InvalidPayloadAttributesError := unit; InvalidTimestamp := ();
  eth_convert_payload _ _ := Ok ();
  eth_version_specific_fields _ _ _ := Ok ();
  eth_well_formed_attributes _ _ _ := Ok ();
|}.

#[export] Instance ref_checks_laws : RethChecksLaws.
Proof.
  intros spec h p. unfold other_checks. cbn. destruct (Z.leb_spec h p).
  - split; [done|]. intros [_ ?]. lia.
  - split; [|done]. intros _. split; [|done]. split_and!; [done..|]. by intros [].
Qed.

Definition sample_consensus : AllegroBeaconConsensus := @beacon_consensus_new ref_files None.
Definition sample_validator : AllegroEngineValidator := @engine_validator_new ref_files None.

Lemma relaxed_header_check_witness :
  @validate_header_against_parent ref_files ref_checks sample_consensus 1700000000 1700000000 = Ok () ∧
  @eth_validate_against_parent ref_files ref_checks (bc_chain_spec sample_consensus) 1700000000 1700000000 ≠ Ok () ∧
  @validate_header_against_parent ref_files ref_checks sample_consensus 1699999999 1700000000 =
    Err "timestamp in past"%string.
Proof.
  split; [|split; [vm_compute; discriminate|]].
  - apply (proj1 (@relaxed_header_check ref_files ref_checks ref_checks_laws sample_consensus 1700000000 1700000000)).
    right. split; [|reflexivity]. repeat split.
  - apply (proj2 (@relaxed_header_check ref_files ref_checks ref_checks_laws sample_consensus 1699999999 1700000000));
      reflexivity.
Defined.

Definition sample_genesis : BlockInfo :=
  @mk_BlockInfo ref_ed25519 0 (B256_repeat Byte.x99) 0 (key_of 0) 1700000000 1700000000000.

Lemma proposal_attributes_accepted_witness :
  @validate_payload_attributes_against_header ref_files ref_checks sample_validator
    (build_payload_attributes_from_request (propose_request 0 sample_propose
       (parent_of (guarded (block_info sample_actor)) EMPTY) (key_of 0))).2
    1700000000 = Ok ().
Proof.
  apply (@proposal_attributes_accepted ref_files ref_checks _ _ _ sample_validator 0 sample_propose sample_actor
    (key_of 0) sample_genesis).
  - exact sample_inv.
  - exact (lookup_insert_eq _ _ _).
  - reflexivity.
Defined.
