(* ===== verification/Chainspec.v ===== *)
(** * allegro-node: chain specification and genesis file (crates/node/src/chainspec.rs)

    Loading a genesis file with its embedded validators.  JSON, hex, the
    textual form of socket addresses and reth's chain specification are the
    interface of [Genesis.v]; a file system is a function from paths to
    contents. *)

From S2P Require Import Prelude Extern Reference Validators Genesis.
From stdpp Require Import pretty.
Local Open Scope Z_scope.

Section loader.
Context `{!Ed25519, !ChainFiles}.

(** [std::fs::read_to_string] *)
Variable read_to_string : string → Result string string.

Definition dev_chainspec : ChainSpec := DEV.

Definition entry_error (what : string) (e : ValidatorFileEntry) (detail : string) : string :=
  what +:+ " for validator " +:+ pretty (vf_index e) +:+ ": " +:+ detail.

(** The body of the loop over the file's entries. *)
Definition parse_entry (e : ValidatorFileEntry) : Result ValidatorEntry string :=
  let? pk_bytes := ok_or (hex_decode (vf_public_key e))
    (entry_error "invalid hex public_key" e (vf_public_key e)) in
  let? public_key := map_err (entry_error "invalid public_key bytes" e) (pk_decode pk_bytes) in
  let? ingress := ok_or (socket_parse (vf_ingress e))
    (entry_error "invalid ingress address" e (vf_ingress e)) in
  let? egress := ok_or (socket_ip <$> socket_parse (vf_egress e))
    (entry_error "invalid egress address" e (vf_egress e)) in
  Ok (mk_ValidatorEntry public_key ingress egress).

Fixpoint parse_entries (entries : list ValidatorFileEntry) : Result (list ValidatorEntry) string :=
  match entries with
  | [] => Ok []
  | e :: entries =>
    let? v := parse_entry e in
    let? vs := parse_entries entries in
    Ok (v :: vs)
  end.

Definition load_chain_with_validators (path : string) : Result (ChainSpec * ValidatorSet) string :=
  let? content := map_err (λ e, "read genesis file " +:+ path +:+ ": " +:+ e)
    (read_to_string path) in
  let? value := map_err (λ e, "parse genesis JSON " +:+ path +:+ ": " +:+ e)
    (json_parse content) in
  let '(removed, value) := json_remove "validators" value in
  let? validators :=
    match removed with
    | None => Ok None
    | Some v => map_err (λ e, "parse validators in genesis " +:+ path +:+ ": " +:+ e)
                  (result_map Some (json_entries v))
    end in
  let? genesis := map_err (λ e, "parse genesis fields " +:+ path +:+ ": " +:+ e)
    (json_genesis value) in
  let chain_spec := chain_spec_from_genesis genesis in
  let? validator_set :=
    match validators with
    | Some entries => result_map from_entries (parse_entries entries)
    | None => Ok validators_new
    end in
  Ok (chain_spec, validator_set).

Definition chain_spec_from_genesis_json (path : string) : Result ChainSpec string :=
  let? (spec, _) := load_chain_with_validators path in Ok spec.

(** ** Lemmas *)

Lemma result_bind_Ok {A B F} (r : Result A F) (k : A → Result B F) b :
  result_bind r k = Ok b ↔ ∃ a, r = Ok a ∧ k a = Ok b.
Proof.
  destruct r as [a|e]; cbn.
  - split; [eauto|]. by intros (? & [= ->] & ?).
  - split; [done|]. by intros (? & ? & _).
Qed.

Lemma parse_entries_Ok entries vs :
  Forall2 (λ e v, parse_entry e = Ok v) entries vs → parse_entries entries = Ok vs.
Proof. induction 1 as [|e v es vs He _ IH]; cbn; [done|]. by rewrite He, IH. Qed.

(** All entries parse, or the first that does not is the error. *)
Lemma parse_entries_cases entries :
  (∃ vs, parse_entries entries = Ok vs ∧ Forall2 (λ e v, parse_entry e = Ok v) entries vs) ∨
  (∃ pre e rest err, entries = pre ++ e :: rest ∧ Forall (λ x, is_ok (parse_entry x) = true) pre ∧
     parse_entry e = Err err ∧ parse_entries entries = Err err).
Proof.
  induction entries as [|e es IH]; [left; exists []; split; [done|constructor]|].
  cbn. destruct (parse_entry e) as [v|err] eqn:He; cbn.
  - destruct IH as [(vs & -> & Hf)|(pre & e' & rest & err & -> & Hf & He' & ->)]; cbn.
    + left. exists (v :: vs). split; [done|]. by constructor.
    + right. exists (e :: pre), e', rest, err. split_and!; [done| |done|done].
      constructor; [by rewrite He|done].
  - right. exists [], e, es, err. split_and!; [done|constructor|done|done].
Qed.

(** C36: genesis loading is all-or-nothing: a file without a ["validators"]
    field gives the empty set; with one, either every entry is well-formed and
    the set has, for every listed key, the address of the last entry with that
    key and nothing else - of two entries with one key the earlier is dropped
    without a word -, or the load fails with the error of the first malformed
    entry. *)
Theorem load_all_or_nothing path content value removed value' genesis :
  read_to_string path = Ok content → json_parse content = Ok value →
  json_remove "validators" value = (removed, value') → json_genesis value' = Ok genesis →
  (removed = None →
   load_chain_with_validators path = Ok (chain_spec_from_genesis genesis, ∅)) ∧
  (∀ v entries, removed = Some v → json_entries v = Ok entries →
   (∃ vs, Forall2 (λ e w, parse_entry e = Ok w) entries vs ∧
      load_chain_with_validators path =
        Ok (chain_spec_from_genesis genesis, from_entries vs) ∧
      ∀ k, from_entries vs !! k =
        entry_address <$> last (filter (λ w, ve_public_key w = k) vs)) ∨
   (∃ pre e rest err, entries = pre ++ e :: rest ∧
      Forall (λ x, is_ok (parse_entry x) = true) pre ∧ parse_entry e = Err err ∧
      load_chain_with_validators path = Err err)).
Proof.
  intros Hr Hp Hj Hg. unfold load_chain_with_validators. rewrite Hr. cbn. rewrite Hp. cbn.
  rewrite Hj. split.
  - intros ->. cbn. by rewrite Hg.
  - intros v entries -> He. rewrite He. cbn. rewrite Hg. cbn.
    destruct (parse_entries_cases entries)
      as [(vs & -> & Hf)|(pre & e & rest & err & Heq & Hf & He' & ->)]; cbn.
    + left. exists vs. split_and!; [done|done|]. intros k. apply from_entries_last.
    + right. by exists pre, e, rest, err.
Qed.
End loader.

(** ** Witness *)

Definition sample_chain : ChainConfig :=
  mk_ChainConfig 1337 None None None None None None None None None None None None None
    None None None None None None None.
Definition sample_file : Genesis :=
  mk_Genesis sample_chain 0 0 [] 0 0 B256_ZERO [] ∅ None None None None None.

Definition sample_text : string := @json_pretty ref_files (@genesis_json ref_files sample_file).

(** The same with validators. *)
Definition text_with (l : list ValidatorFileEntry) : string :=
  @json_pretty ref_files (@json_insert ref_files "validators" (@entries_json ref_files l)
    (@genesis_json ref_files sample_file)).

Definition file_entry (i k p : Z) : ValidatorFileEntry :=
  mk_ValidatorFileEntry i (hex_encode (b256_bytes (key_of k))) (localhost_text p)
    (localhost_text p).

Definition localhost_address (p : Z) : Address :=
  Validators.Asymmetric (Ingress_Socket (SocketV4 2130706433 p)) (SocketV4 2130706433 0).

(** The third entry has the key of the first. *)
Definition listed : list ValidatorFileEntry :=
  [file_entry 0 7 13; file_entry 1 8 14; file_entry 2 7 15].

(** The second entry's key is no hex, and neither is the third's. *)
Definition malformed : list ValidatorFileEntry :=
  [file_entry 0 7 13; mk_ValidatorFileEntry 1 "" "" ""; mk_ValidatorFileEntry 2 "" "" ""].

Definition load_text (text : string) : Result (option Genesis * ValidatorSet) string :=
  load_chain_with_validators (λ _, Ok text) "genesis.json".

(** What the entries parse to, evaluated. *)
Definition addresses (vs : list ValidatorEntry) : option Address * option Address :=
  (from_entries vs !! key_of 7, from_entries vs !! key_of 8).
Lemma listed_loads :
  result_map addresses (parse_entries listed) =
  Ok (Some (localhost_address 15), Some (localhost_address 14)).
Proof. vm_compute. reflexivity. Qed.

Lemma result_map_of_Ok {A B F} (f : A → B) (r : Result A F) a b :
  r = Ok a → result_map f r = Ok b → f a = b.
Proof. intros -> [= <-]. done. Qed.
Lemma listed_parse : forallb (λ e, is_ok (parse_entry e)) listed = true.
Proof. vm_compute. reflexivity. Qed.
Lemma malformed_parse : (λ e, is_ok (parse_entry e)) <$> malformed = [true; false; false].
Proof. vm_compute. reflexivity. Qed.

Lemma first_false {A} (f : A → bool) l pre e rest :
  f <$> l = [true; false; false] → l = pre ++ e :: rest → Forall (λ x, f x = true) pre →
  f e = false → length pre = 1%nat.
Proof.
  intros Hl -> Hpre He. rewrite fmap_app, fmap_cons, He in Hl.
  destruct pre as [|x [|y pre]]; [done|done|]. exfalso.
  apply Forall_cons in Hpre as [_ [Hy _]%Forall_cons]. cbn in Hl. congruence.
Qed.

Lemma not_all_true {A} (f : A → bool) l pre e rest :
  forallb f l = true → l = pre ++ e :: rest → f e = false → False.
Proof.
  intros Hl -> He. pose proof (proj1 (forallb_forall _ _) Hl e (in_elt _ _ _)). congruence.
Qed.

Lemma second_false {A} (f : A → bool) l :
  f <$> l = [true; false; false] → Forall (λ x, f x = true) l → False.
Proof.
  destruct l as [|x [|y l]]; [done|done|]. intros Hl [_ [Hy _]%Forall_cons]%Forall_cons.
  cbn in Hl. congruence.
Qed.

Lemma Forall2_parse_ok es vs :
  Forall2 (λ e v, parse_entry e = Ok v) es vs → Forall (λ e, is_ok (parse_entry e) = true) es.
Proof. induction 1 as [|e v es vs He _ IH]; constructor; [by rewrite He|done]. Qed.

Lemma load_all_or_nothing_witness :
  load_text sample_text = Ok (Some sample_file, ∅) ∧
  (∃ vs, load_text (text_with listed) = Ok (Some sample_file, from_entries vs) ∧
     from_entries vs !! key_of 7 = Some (localhost_address 15) ∧
     from_entries vs !! key_of 8 = Some (localhost_address 14)) ∧
  (∃ pre e rest err, malformed = pre ++ e :: rest ∧ length pre = 1%nat ∧
     load_text (text_with malformed) = Err err ∧ parse_entry e = Err err).
Proof.
  pose proof (λ text v, @load_all_or_nothing ref_ed25519 ref_files (λ _, Ok text)
    "genesis.json" text (inl (sample_file, v))) as Hall.
  assert (Hplain : @json_parse ref_files sample_text = Ok (inl (sample_file, None)))
    by (apply (@json_roundtrip ref_files ref_files_laws); exact I).
  assert (Htext : ∀ l, @json_parse ref_files (text_with l) = Ok (inl (sample_file, Some l)))
    by (intros l; apply (@json_roundtrip ref_files ref_files_laws); exact I).
  split; [|split].
  - apply (proj1 (Hall _ _ None _ sample_file eq_refl Hplain eq_refl eq_refl)). reflexivity.
  - destruct (proj2 (Hall _ _ (Some (inr listed)) _ sample_file eq_refl (Htext listed) eq_refl
      eq_refl) (inr listed) listed eq_refl eq_refl)
      as [(vs & Hvs & Hload & _)|(pre & e & rest & err & He & _ & Herr & _)].
    + exists vs.
      pose proof (result_map_of_Ok _ _ _ _ (parse_entries_Ok _ _ Hvs) listed_loads) as Hl.
      split; [exact Hload|]. split; [exact (f_equal fst Hl)|exact (f_equal snd Hl)].
    + exfalso. exact (not_all_true _ _ _ _ _ listed_parse He (f_equal is_ok Herr)).
  - destruct (proj2 (Hall _ _ (Some (inr malformed)) _ sample_file eq_refl (Htext malformed)
      eq_refl eq_refl) (inr malformed) malformed eq_refl eq_refl)
      as [(vs & Hvs & _)|(pre & e & rest & err & He & Hpre & Herr & Hload)].
    + destruct (second_false _ _ malformed_parse (Forall2_parse_ok _ _ Hvs)).
    + exists pre, e, rest, err. split; [exact He|]. split; [|split; [exact Hload|exact Herr]].
      apply (first_false _ _ _ _ _ malformed_parse He Hpre). rewrite Herr. reflexivity.
Defined.
