(* ===== verification/Launch.v ===== *)
(** * allegro-node: launching reth (crates/node/src/launch.rs)

    The node configuration with its defaults, the two ways a reth node is
    launched, and the handle they return.  reth's node builder, its database
    and the running node are the interface [RethLauncher]. *)

From S2P Require Import Prelude Extern Reference Digest Executor Reth Application Genesis.
From S2P Require Import Builder RethConsensus Chainspec.
Local Open Scope Z_scope.

(** ** What the module uses of reth *)

(** reth's configuration records, with the fields the program sets; the others
    keep reth's defaults. *)
Record RpcServerArgs : Type := mk_RpcServerArgs {
  http : bool;
  rpc_http_port : Z;
  auth_port : Z;
  ipcdisable : bool;
}.

Record NetworkArgs : Type := mk_NetworkArgs {
  net_port : Z;
  disable_discovery : bool;
}.

Record NodeConfig `{!ChainFiles} : Type := mk_NodeConfig {
  nc_chain : ChainSpec;
  nc_datadir : string;
  nc_rpc : RpcServerArgs;
  nc_network : NetworkArgs;
}.

(** [launch_builder] is [with_types().with_components(..).with_add_ons(..)
    .launch()] with the consensus and payload-validator builders it is given;
    it answers the running node and what its exit future resolves to.
    [node_el] is the execution layer behind the node's two handles. *)
Class RethLauncher `{!ChainFiles} (W : Type) : Type := {
  Database : Type;
  init_db : string → Result Database string;
  WithLaunchContext : Type;
  builder_new : NodeConfig → Database → WithLaunchContext;
  (** [builder.config().datadir().data_dir()] *)
  builder_datadir : WithLaunchContext → string;
  builder_chain : WithLaunchContext → ChainSpec;
  FullNode : Type;
  launch_builder :
    WithLaunchContext → (ChainSpec → AllegroBeaconConsensus) →
    (ChainSpec → AllegroEngineValidator) → Result (FullNode * Result unit string) string;
  node_el : FullNode → W;
  node_chain_spec : FullNode → ChainSpec;
  node_consensus : FullNode → AllegroBeaconConsensus;
  node_validator : FullNode → AllegroEngineValidator;
  chain_genesis_hash : ChainSpec → B256;
  chain_genesis_timestamp : ChainSpec → Z;
}.

(** A launched node runs the chain of its configuration with the components
    it was given. *)
Class RethLauncherLaws `{!ChainFiles} (W : Type) `{!RethLauncher W} : Prop := {
  builder_new_chain cfg db : builder_chain (builder_new cfg db) = nc_chain cfg;
  launch_components b c v n e :
    launch_builder b c v = Ok (n, e) →
    node_chain_spec n = builder_chain b ∧
    node_consensus n = c (node_chain_spec n) ∧ node_validator n = v (node_chain_spec n);
  genesis_timestamp_u64 spec : is_u64 (chain_genesis_timestamp spec);
}.

(** ** The configuration *)

Section config.
Context `{!Ed25519, !ChainFiles}.

Record RethNodeConfig : Type := mk_RethNodeConfig {
  rc_datadir : string;
  rc_http_port : Z;
  rc_authrpc_port : Z;
  rc_p2p_port : Z;
  rc_chain : ChainSpec;
}.

(** [Default::default], given [std::env::temp_dir()]. *)
Definition reth_node_config_default (temp_dir : string) : RethNodeConfig := {|
  rc_datadir := path_join temp_dir "allegro-reth";
  rc_http_port := 8545;
  rc_authrpc_port := 8551;
  rc_p2p_port := 30303;
  rc_chain := dev_chainspec;
|}.
End config.

(** ** Launching *)

Section launch.
Context `{!ChainFiles} {W : Type} `{!RethLauncher W}.

(** The two handles of the source, both on the execution layer [ln_el]. *)
Record LaunchedRethNode : Type := mk_LaunchedRethNode {
  ln_datadir : string;
  ln_el : W;
  ln_genesis_hash : B256;
  ln_genesis_timestamp : Z;
  ln_genesis_timestamp_millis : Z;
  ln_keep_alive : FullNode;
  ln_exit : Result unit string;
}.

(** [wrap_err]: the message, with the cause after it. *)
Definition wrap_err {A} (msg : string) (r : Result A string) : Result A string :=
  map_err (λ e, msg +:+ ": " +:+ e) r.

(** The macro [into_launched!]. *)
Definition into_launched (node : FullNode) (exit : Result unit string) (datadir : string) :
    LaunchedRethNode :=
  let genesis_hash := chain_genesis_hash (node_chain_spec node) in
  let genesis_timestamp := chain_genesis_timestamp (node_chain_spec node) in
  {| ln_datadir := datadir;
     ln_el := node_el node;
     ln_genesis_hash := genesis_hash;
     ln_genesis_timestamp := genesis_timestamp;
     ln_genesis_timestamp_millis := u64_saturating_mul genesis_timestamp 1000;
     ln_keep_alive := node;
     ln_exit := exit |}.

Definition launch_with_builder (builder : WithLaunchContext) : Result LaunchedRethNode string :=
  let datadir := builder_datadir builder in
  let? (node, node_exit_future) :=
    wrap_err "failed to launch reth node"
      (launch_builder builder build_consensus build_validator) in
  Ok (into_launched node node_exit_future datadir).

Definition node_config (cfg : RethNodeConfig) : NodeConfig := {|
  nc_chain := rc_chain cfg;
  nc_datadir := rc_datadir cfg;
  nc_rpc := {|
    http := true;
    rpc_http_port := rc_http_port cfg;
    auth_port := rc_authrpc_port cfg;
    ipcdisable := true |};
  nc_network := {|
    net_port := rc_p2p_port cfg;
    disable_discovery := true |};
|}.

Definition launch (cfg : RethNodeConfig) : Result LaunchedRethNode string :=
  let? db := wrap_err "failed to open database" (init_db (path_join (rc_datadir cfg) "db")) in
  let datadir := rc_datadir cfg in
  let? (node, node_exit_future) :=
    wrap_err "failed to launch reth node"
      (launch_builder (builder_new (node_config cfg) db) build_consensus build_validator) in
  Ok (into_launched node node_exit_future datadir).
End launch.
Arguments LaunchedRethNode {_} W {_}.

(** ** Lemmas *)

Section lemmas.
Context `{!ChainFiles} {W : Type} `{!RethLauncher W, !RethLauncherLaws W}.

(** What a node launched from a builder looks like: the two ways to launch
    end in the same step. *)
Definition launched_from (builder : WithLaunchContext) (datadir : string)
    (n : LaunchedRethNode W) : Prop :=
  ln_datadir n = datadir ∧
  ln_genesis_hash n = chain_genesis_hash (builder_chain builder) ∧
  ln_genesis_timestamp n = chain_genesis_timestamp (builder_chain builder) ∧
  ln_genesis_timestamp_millis n =
    u64_saturating_mul (chain_genesis_timestamp (builder_chain builder)) 1000 ∧
  is_u64 (ln_genesis_timestamp_millis n) ∧
  bc_chain_spec (node_consensus (ln_keep_alive n)) = builder_chain builder ∧
  ev_chain_spec (node_validator (ln_keep_alive n)) = builder_chain builder.

Lemma launch_builder_launched builder datadir n e :
  launch_builder builder build_consensus build_validator = Ok (n, e) →
  launched_from builder datadir (into_launched n e datadir).
Proof.
  intros (Hc & Hb & Hv)%launch_components. unfold launched_from.
  cbn -[u64_saturating_mul]. rewrite Hb, Hv, Hc. split_and!; try done.
  apply sat_mul_bound; [apply genesis_timestamp_u64|by vm_compute; split].
Qed.

(** C21: every way a launch can end: with the database's error, with reth's
    error, or with a node whose consensus and engine validator are the relaxed
    ones over the configured chain, and whose handle reports the configured
    data directory and that chain's genesis - its hash, its second, and its
    millisecond stamp, which saturates instead of overflowing.  The node of
    the command line ([launch_with_builder]) ends the same ways without the
    database step. *)
Theorem launch_outcomes (cfg : RethNodeConfig) :
  match init_db (path_join (rc_datadir cfg) "db") with
  | Err e => launch cfg = Err ("failed to open database: " +:+ e)%string
  | Ok db =>
    launch cfg = result_map
      (λ n, into_launched (ln_keep_alive n) (ln_exit n) (rc_datadir cfg))
      (launch_with_builder (builder_new (node_config cfg) db)) ∧
    ∀ n, launch cfg = Ok n →
      launched_from (builder_new (node_config cfg) db) (rc_datadir cfg) n ∧
      builder_chain (builder_new (node_config cfg) db) = rc_chain cfg
  end ∧
  ∀ builder,
    match launch_builder builder build_consensus build_validator with
    | Err e => launch_with_builder builder = Err ("failed to launch reth node: " +:+ e)%string
    | Ok (node, exit) =>
      ∃ n, launch_with_builder builder = Ok n ∧ ln_exit n = exit ∧ ln_el n = node_el node ∧
        launched_from builder (builder_datadir builder) n
    end.
Proof.
  split.
  - unfold launch, launch_with_builder. destruct (init_db _) as [db|e]; [|done]. cbn [wrap_err map_err result_bind].
    destruct (launch_builder _ _ _) as [[node exit]|e] eqn:Hl; [|by split].
    split; [done|]. intros n [= <-].
    split; [by apply launch_builder_launched|apply builder_new_chain].
  - intros builder. unfold launch_with_builder.
    destruct (launch_builder _ _ _) as [[node exit]|e] eqn:Hl; [|done].
    eexists. split_and!; [done..|]. by apply launch_builder_launched.
Qed.
End lemmas.

(** ** A reference launcher, and the witness *)

(** A node is its chain and its components; an empty path has no database. *)
#[export] Instance ref_launcher : RethLauncher ref_engine_state := {|
  Database := string;
  init_db path := if decide (path = "/db"%string) then Err "not found"%string else Ok path;
  WithLaunchContext := NodeConfig;
  builder_new cfg _ := cfg;
  builder_datadir := nc_datadir;
  builder_chain := nc_chain;
  FullNode := ChainSpec * AllegroBeaconConsensus * AllegroEngineValidator;
  launch_builder b c v := Ok (nc_chain b, c (nc_chain b), v (nc_chain b), Ok ());
  node_el n := mk_ref_engine_state
    {[sample_genesis_hash := (0, wrap 64 (default 0 (g_timestamp <$> n.1.1)))]} [];
  node_chain_spec n := n.1.1;
  node_consensus n := n.1.2;
  node_validator n := n.2;
  chain_genesis_hash _ := sample_genesis_hash;
  chain_genesis_timestamp c := wrap 64 (default 0 (g_timestamp <$> c));
|}.

#[export] Instance ref_launcher_laws : RethLauncherLaws ref_engine_state.
Proof.
  split.
  - done.
  - intros b c v n e Hl. by injection Hl as <- _.
  - intros spec. apply wrap64_bound.
Qed.

(** A genesis of the end of time: its milliseconds saturate. *)
Definition late_genesis : Genesis :=
  mk_Genesis sample_chain 0 u64_max [] 0 0 B256_ZERO [] ∅ None None None None None.

Definition late_config : @RethNodeConfig ref_files :=
  @mk_RethNodeConfig ref_files "/data" 8545 8551 30303 (Some late_genesis).

Lemma launch_outcomes_witness :
  ∃ n : @LaunchedRethNode ref_files ref_engine_state ref_launcher,
    launch late_config = Ok n ∧ ln_datadir n = "/data"%string ∧
    ln_genesis_timestamp_millis n = u64_max ∧
    bc_chain_spec (node_consensus (ln_keep_alive n)) = Some late_genesis.
Proof.
  destruct (@launch_outcomes ref_files ref_engine_state ref_launcher ref_launcher_laws late_config)
    as [[_ Hok] _].
  assert (Hl : is_ok (launch late_config) = true) by (vm_compute; reflexivity).
  destruct (launch late_config) as [n|e]; [|discriminate Hl]. exists n. split; [reflexivity|].
  destruct (Hok n eq_refl) as [(Hd & _ & _ & Hms & _ & Hc & _) Hchain].
  split; [exact Hd|]. rewrite Hchain in Hms, Hc. split; [|exact Hc].
  rewrite Hms. vm_compute. reflexivity.
Defined.
