(* ===== verification/Xtask.v ===== *)
(** * allegro-xtask: the devnet generator (xtask/src/main.rs)

    Which sockets the validators get, the manifest entries derived from them,
    the genesis with its prefunded accounts, the two files written and the
    lines printed, over the file system of [Genesis.v].  The key derivation of
    the funded accounts ([MnemonicBuilder]) is a parameter; strings are
    ASCII. *)

From S2P Require Import Prelude Extern Reference Validators Genesis Chainspec.
From Stdlib Require Import Ascii.
From Stdlib Require Strings.String.
From stdpp Require Import pretty.
Local Open Scope Z_scope.

(** ** What the generator uses of [str] *)

Definition chars (s : string) : list ascii := String.list_ascii_of_string s.
Definition text (l : list ascii) : string := String.string_of_list_ascii l.

Definition digit_of (c : ascii) : option Z :=
  let n := Z.of_N (N_of_ascii c) in
  if (48 <=? n) && (n <=? 57) then Some (n - 48) else None.

Fixpoint parse_digits (l : list ascii) (acc : Z) : option Z :=
  match l with
  | [] => Some acc
  | c :: l =>
    match digit_of c with
    | None => None
    | Some d => let acc := acc * 10 + d in if u16_max <? acc then None else parse_digits l acc
    end
  end.

(** [str::parse::<u16>]: an optional plus sign and at least one digit. *)
Definition parse_u16 (s : string) : option Z :=
  match chars s with
  | [] => None
  | c :: l =>
    if decide (c = "+"%char)
    then match l with [] => None | _ => parse_digits l 0 end
    else parse_digits (c :: l) 0
  end.

(** [str::split] at a character *)
Fixpoint split_on (sep : ascii) (l : list ascii) : list (list ascii) :=
  match l with
  | [] => [[]]
  | c :: l =>
    let ws := split_on sep l in
    if decide (c = sep) then [] :: ws else (c :: hd [] ws) :: tl ws
  end.

Definition is_space (c : ascii) : bool :=
  let n := N_of_ascii c in ((9 <=? n) && (n <=? 13) || (n =? 32))%N.

Fixpoint trim_start (l : list ascii) : list ascii :=
  match l with
  | c :: k => if is_space c then trim_start k else l
  | [] => []
  end.

(** [str::trim] *)
Definition trim (l : list ascii) : list ascii := rev (trim_start (rev (trim_start l))).

(** ** The generator *)

Record GenesisCmd : Type := mk_GenesisCmd {
  cmd_validators : string;
  cmd_base_port : Z;
  cmd_chain_id : Z;
  cmd_output : string;
}.

Inductive Cli : Type :=
| Cli_Genesis (cmd : GenesisCmd).

(** The defaults of the command line. *)
Definition default_cmd : GenesisCmd := mk_GenesisCmd "4" 13000 1337 "./devnet".

(** [ValidatorOutput]: serialized with the fields of [ValidatorFileEntry]. *)
Definition ValidatorOutput : Type := ValidatorFileEntry.

Definition PREFUND_COUNT : nat := 20.

(** 10_000 ETH in wei *)
Definition PREFUND_BALANCE : Z := 10 ^ 22.

Section generator.
Context `{!Ed25519, !ChainFiles}.

(** [MnemonicBuilder::try_from_phrase_nth(ANVIL_MNEMONIC, i)] and its address *)
Variable derive_account : nat → Result bytes string.

(** [{s:?}] of a printable ASCII string without quotes or backslashes *)
Definition quoted (s : string) : string :=
  let quote := String (ascii_of_nat 34) EmptyString in quote +:+ s +:+ quote.

Definition listed_socket (s : list ascii) : Result string string :=
  let s := text (trim s) in
  let? addr := ok_or (socket_parse s) ("invalid validator socket " +:+ quoted s) in
  Ok (socket_display addr).

Fixpoint listed_sockets (l : list (list ascii)) : Result (list string) string :=
  match l with
  | [] => Ok []
  | s :: l =>
    let? a := listed_socket s in
    let? addrs := listed_sockets l in
    Ok (a :: addrs)
  end.

(** The sockets of [--validators]: a count, or a comma-separated list. *)
Definition sockets (cmd : GenesisCmd) : Result (list string) string :=
  match parse_u16 (cmd_validators cmd) with
  | Some n =>
    if (0 <? n) && (u16_max <? cmd_base_port cmd + (n - 1))
    then Err ("--base-port " +:+ pretty (cmd_base_port cmd) +:+ " with " +:+ pretty n +:+
              " validators exceeds the max port 65535")
    else Ok ((λ i, "127.0.0.1:" +:+ pretty (wrap 16 (cmd_base_port cmd + i))) <$> seqZ 0 n)
  | None => listed_sockets (split_on ","%char (chars (cmd_validators cmd)))
  end.

Definition validator_output (i : nat) (socket : string) : ValidatorOutput :=
  let i := wrap 16 (Z.of_nat i) in
  let sk := from_seed i in
  let pk := public_key sk in
  mk_ValidatorFileEntry i (hex_encode (pk_as_ref pk)) socket socket.

Definition validator_outputs (sockets : list string) : list ValidatorOutput :=
  imap validator_output sockets.

(** The loop that funds accounts [i], ..., [PREFUND_COUNT - 1]. *)
Fixpoint fund_accounts (n i : nat) (alloc : gmap bytes Z) : Result (gmap bytes Z) string :=
  match n with
  | O => Ok alloc
  | S n =>
    let? addr := map_err (λ e, "derive account " +:+ pretty i +:+ " from mnemonic: " +:+ e)
      (derive_account i) in
    fund_accounts n (S i) (<[addr := PREFUND_BALANCE]> alloc)
  end.

Definition chain_config (id : Z) : ChainConfig := {|
  chain_id := id;
  homestead_block := Some 0;
  eip150_block := Some 0;
  eip155_block := Some 0;
  eip158_block := Some 0;
  byzantium_block := Some 0;
  constantinople_block := Some 0;
  petersburg_block := Some 0;
  istanbul_block := Some 0;
  muir_glacier_block := Some 0;
  berlin_block := Some 0;
  london_block := Some 0;
  arrow_glacier_block := Some 0;
  gray_glacier_block := Some 0;
  terminal_total_difficulty := Some 0;
  merge_netsplit_block := None;
  shanghai_time := Some 0;
  cancun_time := Some 0;
  prague_time := Some 0;
  osaka_time := Some 0;
  amsterdam_time := None;
|}.

Definition devnet_genesis (id : Z) (alloc : gmap bytes Z) : Genesis := {|
  config := chain_config id;
  g_nonce := 66;
  g_timestamp := 0;
  g_extra_data := [];
  g_gas_limit := 30000000;
  g_difficulty := 0;
  g_mix_hash := B256_ZERO;
  coinbase := replicate 20 Byte.x00;
  alloc := alloc;
  g_base_fee_per_gas := None;
  g_excess_blob_gas := None;
  g_blob_gas_used := None;
  g_number := None;
  g_parent_hash := None;
|}.

(** The validators, and the contents of genesis.json and validators.json. *)
Definition genesis_contents (cmd : GenesisCmd) :
    Result (list ValidatorOutput * string * string) string :=
  let? sockets := sockets cmd in
  if u16_max <? Z.of_nat (length sockets)
  then Err ("too many validators: " +:+ pretty (length sockets) +:+ " (max 65535)")
  else
    let validators := validator_outputs sockets in
    let? alloc := fund_accounts PREFUND_COUNT 0 ∅ in
    let genesis := devnet_genesis (cmd_chain_id cmd) alloc in
    let genesis_value := genesis_json genesis in
    let validators_value := entries_json validators in
    let genesis_value := json_insert "validators" validators_value genesis_value in
    Ok (validators, json_pretty genesis_value, json_pretty validators_value).

(** The lines that say how to start each node. *)
Definition start_hint (genesis_path : string) (v : ValidatorOutput) : string :=
  "  allegro node --chain " +:+ genesis_path +:+ " --consensus.node-index " +:+
  pretty (vf_index v) +:+ " --consensus.listen-address " +:+ vf_ingress v.

(** [GenesisCmd::run]: the outcome, the lines printed, the file system left. *)
Definition genesis_run {FS : Type} `{!FileSystem FS} (cmd : GenesisCmd) (fs : FS) :
    Result unit string * list string * FS :=
  let output := cmd_output cmd in
  match create_dir_all output fs with
  | (Err _, fs) => (Err ("failed to create " +:+ output), [], fs)
  | (Ok _, fs) =>
    match genesis_contents cmd with
    | Err e => (Err e, [], fs)
    | Ok (validators, genesis_json, val_json) =>
      let genesis_path := path_join output "genesis.json" in
      match fs_write genesis_path genesis_json fs with
      | (Err _, fs) => (Err ("write " +:+ genesis_path), [], fs)
      | (Ok _, fs) =>
        let printed := ["wrote genesis (with " +:+ pretty (length validators) +:+
                        " validators) to " +:+ genesis_path] in
        let val_path := path_join output "validators.json" in
        match fs_write val_path val_json fs with
        | (Err _, fs) => (Err ("write " +:+ val_path), printed, fs)
        | (Ok _, fs) =>
          (Ok (), printed ++
             ["wrote " +:+ pretty (length validators) +:+ " validators to " +:+ val_path +:+
              " (reference)"; ""%string;
              "To start a node (validators and their peers are embedded in genesis.json):"%string]
             ++ (start_hint genesis_path <$> validators), fs)
        end
      end
    end
  end.

(** [main] *)
Definition xtask_main {FS : Type} `{!FileSystem FS} (cli : Cli) (fs : FS) :
    Result unit string * list string * FS :=
  match cli with Cli_Genesis cmd => genesis_run cmd fs end.

(** ** Lemmas *)

Lemma result_bind_Ok' {A B F} (r : Result A F) (k : A → Result B F) b :
  result_bind r k = Ok b → ∃ a, r = Ok a ∧ k a = Ok b.
Proof. apply result_bind_Ok. Qed.

Lemma ok_or_Ok {A F} (o : option A) (e : F) a : ok_or o e = Ok a → o = Some a.
Proof. destruct o; cbn; congruence. Qed.

Lemma parse_digits_bound l acc n :
  0 ≤ acc ≤ u16_max → parse_digits l acc = Some n → 0 ≤ n ≤ u16_max.
Proof.
  revert acc. induction l as [|c l IH]; intros acc Hacc; cbn.
  - by intros [= <-].
  - unfold digit_of. destruct ((48 <=? Z.of_N (N_of_ascii c)) && _) eqn:Hd; [|done].
    apply andb_true_iff in Hd as [Hlo Hhi].
    destruct (Z.ltb_spec u16_max (acc * 10 + (Z.of_N (N_of_ascii c) - 48))); [done|].
    apply IH. lia.
Qed.

Lemma parse_u16_bound s n : parse_u16 s = Some n → 0 ≤ n ≤ u16_max.
Proof.
  assert (Hz : 0 ≤ 0 ≤ u16_max) by (vm_compute; by split).
  unfold parse_u16. destruct (chars s) as [|c l]; [done|]. intros Hp. case_decide.
  - destruct l; [done|]. by eapply parse_digits_bound.
  - by eapply parse_digits_bound.
Qed.

Definition localhost (p : Z) : SocketAddr := SocketV4 2130706433 p.

Context `{!ChainFilesLaws}.

(** Sockets that were parsed read back from their text. *)
Lemma listed_sockets_display l ss :
  listed_sockets l = Ok ss → ∃ addrs, ss = socket_display <$> addrs ∧ Forall socket_wf addrs.
Proof.
  revert ss. induction l as [|s l IH]; intros ss; cbn.
  - intros [= <-]. by exists [].
  - intros (a & Ha & (rest & Hl & [= <-])%result_bind_Ok')%result_bind_Ok'.
    destruct (IH _ Hl) as (addrs & -> & Hwf).
    apply result_bind_Ok' in Ha as (addr & Hp%ok_or_Ok & [= <-]). exists (addr :: addrs).
    split; [done|]. constructor; [|done]. by eapply socket_parse_wf.
Qed.

Lemma localhost_wf p : 0 ≤ p ≤ u16_max → socket_wf (localhost p).
Proof. cbn. lia. Qed.

(** The sockets of a count: one port per validator, none beyond 65535. *)
Lemma sockets_count cmd n :
  parse_u16 (cmd_validators cmd) = Some n → 0 ≤ cmd_base_port cmd ≤ u16_max →
  (u16_max < cmd_base_port cmd + n - 1 ∧ 0 < n → ∃ e, sockets cmd = Err e) ∧
  (cmd_base_port cmd + n - 1 ≤ u16_max ∨ n = 0 →
   sockets cmd = Ok (socket_display <$>
     ((λ i, localhost (cmd_base_port cmd + i)) <$> seqZ 0 n))).
Proof.
  intros Hn Hb. pose proof (parse_u16_bound _ _ Hn) as Hbn. unfold sockets. rewrite Hn.
  destruct (Z.ltb_spec 0 n); destruct (Z.ltb_spec u16_max (cmd_base_port cmd + (n - 1)));
    cbn [andb]; (split; [intros ?|intros ?]); try lia; try (by eexists).
  all: f_equal; rewrite <- list_fmap_compose; apply list_fmap_ext; intros k i Hi.
  all: apply lookup_seqZ in Hi; cbn.
  all: assert (Hw : wrap 16 (cmd_base_port cmd + i) = cmd_base_port cmd + i)
    by (unfold wrap, u16_max in *; apply Z.mod_small; lia).
  all: rewrite Hw; symmetry; apply socket_display_localhost; lia.
Qed.

Lemma sockets_display cmd ss :
  0 ≤ cmd_base_port cmd ≤ u16_max → sockets cmd = Ok ss →
  ∃ addrs, ss = socket_display <$> addrs ∧ Forall socket_wf addrs.
Proof.
  intros Hb Hs. destruct (parse_u16 (cmd_validators cmd)) as [n|] eqn:Hn.
  - pose proof (sockets_count cmd n Hn Hb) as [Hover Hfit].
    destruct (decide (cmd_base_port cmd + n - 1 ≤ u16_max ∨ n = 0)) as [Hok|Hbad].
    + rewrite Hfit in Hs by done. injection Hs as <-. eexists. split; [done|].
      pose proof (parse_u16_bound _ _ Hn).
      apply Forall_fmap, Forall_seqZ. intros i Hi. apply localhost_wf. lia.
    + pose proof (parse_u16_bound _ _ Hn). destruct Hover as [e He]; [lia|]. congruence.
  - unfold sockets in Hs. rewrite Hn in Hs. by eapply listed_sockets_display.
Qed.

Context `{!Ed25519Laws}.

(** The manifest entries parse back to the entries they stand for. *)
Lemma parse_output i a :
  Z.of_nat i ≤ u16_max → socket_wf a →
  parse_entry (validator_output i (socket_display a)) = Ok (seed_entry i a).
Proof.
  intros Hi Ha. unfold parse_entry, validator_output, seed_entry. cbn.
  assert (Hw : wrap 16 (Z.of_nat i) = Z.of_nat i)
    by (unfold wrap, u16_max in *; apply Z.mod_small; lia).
  rewrite Hw, hex_roundtrip. cbn. rewrite pk_decode_as_ref. cbn.
  by rewrite socket_roundtrip.
Qed.

Lemma parse_outputs addrs :
  Z.of_nat (length addrs) ≤ u16_max → Forall socket_wf addrs →
  parse_entries (validator_outputs (socket_display <$> addrs)) = Ok (seed_entries addrs).
Proof.
  unfold validator_outputs, seed_entries. induction addrs as [|a addrs IH] using rev_ind.
  { done. }
  rewrite length_app. cbn [length]. intros Hl [Hwf [Ha _]%Forall_cons]%Forall_app. rewrite fmap_app, !imap_app.
  rewrite length_fmap. cbn.
  assert (Happ : ∀ es e vs v, parse_entries es = Ok vs → parse_entry e = Ok v →
    parse_entries (es ++ [e]) = Ok (vs ++ [v])).
  { clear. induction es as [|x es IH]; intros e vs v; cbn.
    - intros [= <-] ->. done.
    - intros (x' & Hx & (vs' & Hvs & [= <-])%result_bind_Ok')%result_bind_Ok' He.
      rewrite Hx. cbn. by rewrite (IH _ _ _ Hvs He). }
  apply Happ; [apply IH; [lia|done]|]. rewrite Nat.add_0_r. apply parse_output; [lia|done].
Qed.

(** ** Properties *)

(** Ports of a generated devnet: a count whose last port would exceed
    65535 is refused; otherwise there is one socket per validator, on
    consecutive ports of localhost from the base port, all at most 65535 and
    pairwise distinct. *)
Theorem devnet_ports cmd n :
  parse_u16 (cmd_validators cmd) = Some n → 0 ≤ cmd_base_port cmd ≤ u16_max →
  ((∃ e, sockets cmd = Err e) ↔ 0 < n ∧ u16_max < cmd_base_port cmd + n - 1) ∧
  (∀ ss, sockets cmd = Ok ss →
   Z.of_nat (length ss) = n ∧ NoDup ss ∧
   ∀ i, 0 ≤ i < n → ss !! Z.to_nat i = Some ("127.0.0.1:" +:+ pretty (cmd_base_port cmd + i)) ∧
                    cmd_base_port cmd + i ≤ u16_max).
Proof.
  intros Hn Hb. pose proof (parse_u16_bound _ _ Hn) as Hnb.
  pose proof (sockets_count cmd n Hn Hb) as [Hover Hfit].
  assert (Hcase : u16_max < cmd_base_port cmd + n - 1 ∧ 0 < n ∨
                  (cmd_base_port cmd + n - 1 ≤ u16_max ∨ n = 0)) by lia.
  split.
  - split; [|intros [? ?]; by apply Hover]. intros [e He].
    destruct Hcase as [?|Hok]; [lia|]. rewrite Hfit in He by done. congruence.
  - intros ss Hss. destruct Hcase as [Hbad|Hok].
    { destruct (Hover Hbad) as [e He]. congruence. }
    rewrite Hfit in Hss by done. injection Hss as <-.
    rewrite !length_fmap, length_seqZ. split_and!; [lia| |].
    + rewrite <- list_fmap_compose. apply NoDup_fmap_2_strong; [|apply NoDup_seqZ].
      intros i j Hi%elem_of_seqZ Hj%elem_of_seqZ Heq. apply (f_equal socket_parse) in Heq. cbn in Heq.
      rewrite !socket_roundtrip in Heq by (apply localhost_wf; lia). injection Heq. lia.
    + intros i Hi. rewrite !list_lookup_fmap, lookup_seqZ_lt by lia. cbn.
      rewrite Z.add_0_l, Z2Nat.id by lia.
      rewrite socket_display_localhost by lia. split; [done|lia].
Qed.

(** The contents of the files, whenever the sockets and the funded accounts
    are determined. *)
Lemma genesis_contents_Ok cmd ss alloc :
  sockets cmd = Ok ss → Z.of_nat (length ss) ≤ u16_max →
  fund_accounts PREFUND_COUNT 0 ∅ = Ok alloc →
  genesis_contents cmd = Ok (validator_outputs ss,
    json_pretty (json_insert "validators" (entries_json (validator_outputs ss))
      (genesis_json (devnet_genesis (cmd_chain_id cmd) alloc))),
    json_pretty (entries_json (validator_outputs ss))).
Proof.
  intros Hs Hl Hf. unfold genesis_contents. rewrite Hs. cbn [result_bind].
  rewrite (proj2 (Z.ltb_ge _ _)) by done. by rewrite Hf.
Qed.

Lemma genesis_contents_inv cmd x :
  genesis_contents cmd = Ok x →
  ∃ ss alloc, sockets cmd = Ok ss ∧ Z.of_nat (length ss) ≤ u16_max ∧
    fund_accounts PREFUND_COUNT 0 ∅ = Ok alloc.
Proof.
  unfold genesis_contents. intros (ss & Hs & Hx)%result_bind_Ok'.
  destruct (Z.ltb_spec u16_max (Z.of_nat (length ss))) as [|Hl]; [done|].
  apply result_bind_Ok' in Hx as (alloc & Ha & _). by exists ss, alloc.
Qed.

(** What the generator writes is well-formed. *)
Lemma outputs_wf ss : Forall file_entry_wf (validator_outputs ss).
Proof.
  apply Forall_lookup. intros i e He. unfold validator_outputs in He.
  rewrite list_lookup_imap in He. destruct (ss !! i); [|done]. injection He as <-.
  unfold file_entry_wf. cbn [vf_index validator_output]. unfold wrap, u16_max.
  pose proof (Z.mod_pos_bound (Z.of_nat i) (2 ^ 16)). lia.
Qed.

Lemma fund_accounts_wf n i m alloc :
  (∀ j addr, derive_account j = Ok addr → length addr = 20%nat) →
  map_Forall account_wf m → fund_accounts n i m = Ok alloc → map_Forall account_wf alloc.
Proof.
  intros Hd. revert i m. induction n as [|n IH]; intros i m Hm; cbn; [by intros [= <-]|].
  intros (addr & Ha & Hf)%result_bind_Ok'. refine (IH _ _ _ Hf).
  destruct (derive_account i) as [addr'|] eqn:He; [|done]. injection Ha as ->.
  apply map_Forall_insert_2; [|done]. split; [by eapply Hd|]. by vm_compute.
Qed.

Lemma devnet_genesis_wf id alloc :
  is_u64 id → map_Forall account_wf alloc → genesis_wf (devnet_genesis id alloc).
Proof.
  intros Hid Ha. unfold genesis_wf, config_wf. cbn -[account_wf].
  split_and!; try done; by repeat constructor.
Qed.

(** A file with these contents loads. *)
Lemma contents_load read path addrs cmd alloc :
  Z.of_nat (length addrs) ≤ u16_max → Forall socket_wf addrs →
  genesis_wf (devnet_genesis (cmd_chain_id cmd) alloc) →
  read path = Ok (json_pretty (json_insert "validators"
    (entries_json (validator_outputs (socket_display <$> addrs)))
    (genesis_json (devnet_genesis (cmd_chain_id cmd) alloc)))) →
  load_chain_with_validators read path =
    Ok (chain_spec_from_genesis (devnet_genesis (cmd_chain_id cmd) alloc),
        from_entries (seed_entries addrs)).
Proof.
  intros Hl Hs Hwf Hr. unfold load_chain_with_validators. rewrite Hr. cbn.
  pose proof (outputs_wf (socket_display <$> addrs)) as Ho.
  destruct (genesis_roundtrip (devnet_genesis (cmd_chain_id cmd) alloc)
    (validator_outputs (socket_display <$> addrs)) Hwf Ho) as (v & Hrem & Hgen).
  rewrite json_roundtrip by (apply insert_exact; [by apply entries_exact|by apply genesis_exact]).
  cbn. rewrite Hrem, entries_roundtrip by done. cbn.
  rewrite Hgen. cbn. by rewrite parse_outputs.
Qed.

(** What a run that succeeds has written, and what it printed. *)
Lemma genesis_run_Ok {FS : Type} `{!FileSystem FS, !FileSystemLaws FS} cmd (fs fs' : FS) printed :
  genesis_run cmd fs = (Ok (), printed, fs') →
  ∃ vs gt vt, genesis_contents cmd = Ok (vs, gt, vt) ∧ length printed = (4 + length vs)%nat ∧
    fs_read fs' (path_join (cmd_output cmd) "genesis.json") = Ok gt ∧
    fs_read fs' (path_join (cmd_output cmd) "validators.json") = Ok vt.
Proof.
  unfold genesis_run. destruct (create_dir_all _ fs) as [[_|e] fs1]; [|done].
  destruct (genesis_contents cmd) as [[[vs gt] vt]|e]; [|done].
  destruct (fs_write (path_join _ "genesis.json") _ _) as [[[]|e] fs2] eqn:Hw1; [|done].
  pose proof (write_other (cmd_output cmd) "validators.json" "genesis.json" vt fs2 eq_refl eq_refl
    ltac:(done)) as Ho.
  destruct (fs_write (path_join _ "validators.json") _ _) as [[[]|e] fs3] eqn:Hw2; [|done].
  intros [= <- <-]. exists vs, gt, vt. split_and!; [done|cbn; by rewrite length_fmap| |].
  - cbn in Ho. rewrite Ho. by eapply write_read.
  - by eapply write_read.
Qed.

(** C30: what the generator writes, the node reads: when a run succeeds, the
    genesis file it left under its output directory loads as the devnet
    genesis of the requested chain with the funded accounts, and as the
    validator set in which seed [i]'s key has the [i]-th socket as ingress and
    its IP as egress, with no two validators confused; a run whose arguments
    are refused writes no file and prints nothing. *)
Theorem devnet_files_load {FS : Type} `{!SeedsDistinct, !FileSystem FS, !FileSystemLaws FS} cmd
    (fs fs' : FS) printed :
  0 ≤ cmd_base_port cmd ≤ u16_max → is_u64 (cmd_chain_id cmd) →
  (∀ i addr, derive_account i = Ok addr → length addr = 20%nat) →
  (genesis_run cmd fs = (Ok (), printed, fs') →
   ∃ addrs alloc,
     sockets cmd = Ok (socket_display <$> addrs) ∧ fund_accounts PREFUND_COUNT 0 ∅ = Ok alloc ∧
     load_chain_with_validators (fs_read fs') (path_join (cmd_output cmd) "genesis.json") =
       Ok (chain_spec_from_genesis (devnet_genesis (cmd_chain_id cmd) alloc),
           from_entries (seed_entries addrs)) ∧
     (∀ i a, addrs !! i = Some a →
      from_entries (seed_entries addrs) !! public_key (from_seed (Z.of_nat i)) =
        Some (Validators.Asymmetric (Ingress_Socket a) (socket_from (socket_ip a) 0)))) ∧
  (∀ e fs1, genesis_contents cmd = Err e → create_dir_all (cmd_output cmd) fs = (Ok (), fs1) →
   genesis_run cmd fs = (Err e, [], fs1)).
Proof.
  intros Hb Hid Hd. split.
  - intros (vs & gt & vt & Hc & _ & Hg & _)%genesis_run_Ok.
    destruct (genesis_contents_inv _ _ Hc) as (ss & alloc & Hs & Hl & Ha).
    rewrite (genesis_contents_Ok cmd ss alloc) in Hc by done. injection Hc as <- <- <-.
    destruct (sockets_display cmd ss Hb Hs) as (addrs & -> & Hwf).
    rewrite length_fmap in Hl. pose proof (fund_accounts_wf _ _ _ _ Hd (map_Forall_empty _) Ha).
    exists addrs, alloc. split_and!; [done|done| |].
    + apply contents_load; [done|done| |done]. by apply devnet_genesis_wf.
    + intros i a Hi. by apply seed_entries_lookup.
  - intros e fs1 Hc Hdir. unfold genesis_run. by rewrite Hdir, Hc.
Qed.
End generator.

(** ** Witnesses *)

Definition sample_cmd : GenesisCmd := mk_GenesisCmd "2" 13000 1337 "devnet".
Definition sample_account (i : nat) : Result bytes string := Ok (replicate 20 (byte_of_Z (Z.of_nat i))).

Lemma devnet_ports_witness :
  (∀ ss, sockets sample_cmd = Ok ss → Z.of_nat (length ss) = 2 ∧ NoDup ss) ∧
  ∃ e, sockets (mk_GenesisCmd "2" 65535 1337 "devnet") = Err e.
Proof.
  split.
  - intros ss Hs. destruct (devnet_ports sample_cmd 2) as [_ Hp].
    + reflexivity.
    + vm_compute. split; discriminate.
    + destruct (Hp ss Hs) as (Hl & Hd & _). split; [exact Hl|exact Hd].
  - apply (devnet_ports (mk_GenesisCmd "2" 65535 1337 "devnet") 2).
    + reflexivity.
    + vm_compute. split; discriminate.
    + vm_compute. split; reflexivity.
Defined.

Lemma fund_accounts_ok (derive : nat → Result bytes string) n i m :
  (∀ j, is_ok (derive j) = true) → ∃ alloc, fund_accounts derive n i m = Ok alloc.
Proof.
  intros Hd. revert i m. induction n as [|n IH]; intros i m; cbn; [by eexists|].
  specialize (Hd i). destruct (derive i); [|done]. cbn. apply IH.
Qed.

Lemma sample_sockets :
  sockets sample_cmd = Ok ["127.0.0.1:13000"%string; "127.0.0.1:13001"%string].
Proof. vm_compute. reflexivity. Qed.

(** A run in an empty file system. *)
Definition sample_fs_after : gmap string string :=
  (genesis_run sample_account sample_cmd (∅ : gmap string string)).2.
Definition sample_printed : list string :=
  (genesis_run sample_account sample_cmd (∅ : gmap string string)).1.2.

Lemma sample_genesis_run :
  genesis_run sample_account sample_cmd (∅ : gmap string string) =
  (Ok (), sample_printed, sample_fs_after).
Proof.
  unfold sample_printed, sample_fs_after.
  destruct (fund_accounts_ok sample_account PREFUND_COUNT 0 ∅ (λ _, eq_refl)) as [alloc Ha].
  assert (Hl : Z.of_nat (length ["127.0.0.1:13000"%string; "127.0.0.1:13001"%string]) ≤ u16_max)
    by (vm_compute; discriminate).
  pose proof (genesis_contents_Ok sample_account sample_cmd _ alloc sample_sockets Hl Ha) as Hc.
  unfold genesis_run. cbn [create_dir_all ref_fs]. by rewrite Hc.
Qed.

Lemma sample_account_length i addr : sample_account i = Ok addr → length addr = 20%nat.
Proof. intros [= <-]. reflexivity. Qed.

Lemma devnet_files_load_witness :
  (∃ addrs spec, length addrs = 2%nat ∧
     load_chain_with_validators (fs_read sample_fs_after) "devnet/genesis.json" =
       Ok (spec, from_entries (seed_entries addrs))) ∧
  ∃ e, genesis_run sample_account (mk_GenesisCmd "2" 65535 1337 "devnet")
         (∅ : gmap string string) = (Err e, [], ∅).
Proof.
  assert (Hb : 0 ≤ cmd_base_port sample_cmd ≤ u16_max) by (vm_compute; split; discriminate).
  assert (Hid : is_u64 1337) by (unfold is_u64, u64_max; lia).
  split.
  - destruct (devnet_files_load sample_account sample_cmd (∅ : gmap string string)
      sample_fs_after sample_printed Hb Hid sample_account_length) as [Hok _].
    destruct (Hok sample_genesis_run) as (addrs & alloc & Hs & _ & Hload & _).
    exists addrs. eexists. split; [|exact Hload].
    rewrite sample_sockets in Hs. injection Hs as Hs. apply (f_equal length) in Hs.
    rewrite length_fmap in Hs. symmetry. exact Hs.
  - eexists. apply (devnet_files_load sample_account (mk_GenesisCmd "2" 65535 1337 "devnet")
      (∅ : gmap string string) ∅ []);
      [vm_compute; split; discriminate|exact Hid|exact sample_account_length|reflexivity
      |reflexivity].
Defined.
