(* ===== verification/Main.v ===== *)
(** * The allegro binary (bin/allegro/src/main.rs)

    The consensus command line, the chain parser with its stashed genesis
    path, the validator set, the configuration, peer tracking, and the wiring
    of one node.  A [None] is a panic.  Building with overflow checks or
    without is a parameter where it matters. *)

From S2P Require Import Prelude Extern Reference Digest Validators Metrics Error Executor.
From S2P Require Import ReferenceBuilder Application Engine Reth Builder Genesis Chainspec Launch.
From S2P Require Config.
From stdpp Require Import pretty.
Local Open Scope Z_scope.

(** ** The command line *)

Record ConsensusArgs : Type := mk_ConsensusArgs {
  node : Z;
  arg_listen : option SocketAddr;
  peers : list SocketAddr;
  storage_dir : option string;
  leader_timeout_ms : Z;
  cert_timeout_ms : Z;
  timeout_retry_ms : Z;
  fetch_timeout_ms : Z;
  max_msg_size : Z;
  arg_mailbox_size : Z;
  arg_view_retention : Z;
  skip_timeout_ms : Z;
  arg_term_length : Z;
  stall_timeout_ms : Z;
  arg_optimistic_views : Z;
  synchrony_ms : Z;
  arg_metrics : bool;
}.

(** The [default_value]s. *)
Definition default_args : ConsensusArgs := {|
  node := 0;
  arg_listen := None;
  peers := [];
  storage_dir := None;
  leader_timeout_ms := 2000;
  cert_timeout_ms := 4000;
  timeout_retry_ms := 1000;
  fetch_timeout_ms := 2000;
  max_msg_size := 1048576;
  arg_mailbox_size := 1024;
  arg_view_retention := 10;
  skip_timeout_ms := 5000;
  arg_term_length := 1;
  stall_timeout_ms := 8000;
  arg_optimistic_views := 0;
  synchrony_ms := 2000;
  arg_metrics := false;
|}.

Definition set_listen (l : option SocketAddr) (a : ConsensusArgs) : ConsensusArgs :=
  mk_ConsensusArgs (node a) l (peers a) (storage_dir a) (leader_timeout_ms a)
    (cert_timeout_ms a) (timeout_retry_ms a) (fetch_timeout_ms a) (max_msg_size a)
    (arg_mailbox_size a) (arg_view_retention a) (skip_timeout_ms a) (arg_term_length a)
    (stall_timeout_ms a) (arg_optimistic_views a) (synchrony_ms a) (arg_metrics a).

(** [127.0.0.1:0] in dev mode, [0.0.0.0:3000] else *)
Definition resolve_listen (dev : bool) (a : ConsensusArgs) : ConsensusArgs :=
  match arg_listen a with
  | None => set_listen (Some (if dev then SocketV4 2130706433 0 else SocketV4 0 3000)) a
  | Some _ => a
  end.

(** Panics when the address is not resolved. *)
Definition listen (a : ConsensusArgs) : option SocketAddr := arg_listen a.

(** ** The chain parser *)

Section parser.
Context `{!Ed25519, !ChainFiles}.
Variable read_to_string : string → Result string string.

(** The state is [GENESIS_PATH]. *)
Definition chain_parse (s : string) (path : Lock (option string)) :
    Exec (Result ChainSpec string) (Lock (option string)) :=
  let stash v spec :=
    if poisoned path then Panicked path else Done (Ok spec) (lock_update (λ _, v) path) in
  if decide (s = "dev") then stash None dev_chainspec
  else
    match load_chain_with_validators read_to_string s with
    | Err e => Done (Err e) path
    | Ok (spec, _validators) => stash (Some s) spec
    end.

(** What [main] reads back: the validators of the stashed path. *)
Definition genesis_validators (path : Lock (option string)) :
    Exec (Result ValidatorSet string) (Lock (option string)) :=
  if poisoned path then Panicked path
  else
    let taken := lock_update (λ _, None) path in
    match guarded path with
    | Some p => Done (result_map snd (load_chain_with_validators read_to_string p)) taken
    | None => Done (Ok validators_new) taken
    end.
End parser.

(** ** The validator set *)

Section validators.
Context `{!Ed25519}.

(** The address of the [i]-th derived validator. *)
Definition derived_addr (a : ConsensusArgs) (i : nat) : option SocketAddr :=
  let my_index := Z.to_nat (node a) in
  if decide (i = my_index) then listen a
  else if decide (i < my_index)%nat then peers a !! i
  else peers a !! (i - 1)%nat.

Definition derived_entry (a : ConsensusArgs) (i : nat) : option ValidatorEntry :=
  match derived_addr a i with
  | Some addr => Some (mk_ValidatorEntry (public_key (from_seed (Z.of_nat i))) addr (socket_ip addr))
  | None => None
  end.

(** [1 + args.peers.len() as u8]: the cast truncates, the sum overflows. *)
Definition num_validators (overflow_checks : bool) (a : ConsensusArgs) : option Z :=
  let n := 1 + wrap 8 (Z.of_nat (length (peers a))) in
  if overflow_checks && (u8_max <? n) then None else Some (wrap 8 n).

Definition build_validator_set (overflow_checks : bool) (a : ConsensusArgs)
    (genesis_validators : ValidatorSet) : option ValidatorSet :=
  if negb (validators_is_empty genesis_validators) then Some genesis_validators
  else
    match num_validators overflow_checks a with
    | None => None
    | Some n =>
      match mapM (derived_entry a) (seq 0 (Z.to_nat n)) with
      | None => None
      | Some entries => Some (from_entries entries)
      end
    end.
End validators.

Definition build_consensus_config (a : ConsensusArgs) : Config.ConsensusConfig := {|
  Config.mailbox_size := arg_mailbox_size a;
  Config.leader_timeout := Config.from_millis (leader_timeout_ms a);
  Config.certification_timeout := Config.from_millis (cert_timeout_ms a);
  Config.timeout_retry := Config.from_millis (timeout_retry_ms a);
  Config.fetch_timeout := Config.from_millis (fetch_timeout_ms a);
  Config.view_retention := arg_view_retention a;
  Config.skip_timeout := Config.from_millis (skip_timeout_ms a);
  Config.term_length := arg_term_length a;
  Config.stall_timeout := Config.from_millis (stall_timeout_ms a);
  Config.optimistic_views := arg_optimistic_views a;
  Config.track_historical_votes := false;
  Config.forwarding_policy := Config.SilentVoters;
  Config.replay_buffer_size := 8 * 1024 * 1024;
  Config.write_buffer_size := 1024 * 1024;
  Config.page_cache_pages := 4096;
  Config.page_cache_capacity := 8192;
  Config.partition := "allegro_" +:+ pretty (node a);
  Config.strict_startup := false;
|}.

(** ** Peer-to-peer *)

(** What the binary uses of commonware's lookup network. *)
Class LookupNetwork `{!Ed25519} : Type := {
  union_unique : string → string → bytes;
  peer_set_limit : list PublicKey → PublicKey → Z;
  (** [ordered::Map::try_from], which refuses duplicate keys *)
  PeerMap : Type;
  map_try_from : list (PublicKey * Address) → Result PeerMap string;
  (** [oracle.track(id, peers)] *)
  Oracle : Type;
  oracle_track : Z → PeerMap → Oracle → Oracle;
}.

Class LookupNetworkLaws `{!Ed25519, !LookupNetwork} : Prop :=
  map_try_from_ok l : is_ok (map_try_from l) = true ↔ NoDup l.*1.

(** [lookup::Config] *)
Record LookupConfig `{!Ed25519} : Type := mk_LookupConfig {
  lc_namespace : bytes;
  lc_crypto : PrivateKey;
  lc_listen : SocketAddr;
  lc_max_message_size : Z;
  lc_max_peers_per_set : Z;
  lc_mailbox_size : Z;
  lc_send_batch_size : Z;
  lc_bypass_ip_check : bool;
  lc_allow_private_ips : bool;
  lc_allow_dns : bool;
  lc_tracked_peer_sets : Z;
  lc_synchrony_bound : Z;
  lc_dial_frequency : Z;
  lc_dial_timeout : Z;
  lc_max_handshake_age : Z;
  lc_handshake_timeout : Z;
  lc_max_concurrent_handshakes : Z;
  lc_block_duration : Z;
  lc_ping_frequency : Z;
  lc_peer_connection_cooldown : Z;
  lc_handshake_rate_per_ip : Z;
  lc_handshake_rate_per_subnet : Z;
}.

Section network.
Context `{!Ed25519, !CommonwareEngine, !LookupNetwork}.

Definition dev_lookup_config (a : ConsensusArgs) (crypto : PrivateKey) (vs : ValidatorSet) :
    option LookupConfig :=
  match listen a, nz (arg_mailbox_size a) with
  | Some addr, Some mailbox => Some {|
      lc_namespace := union_unique "allegro_p2p" "_P2P";
      lc_crypto := crypto;
      lc_listen := addr;
      lc_max_message_size := max_msg_size a;
      lc_max_peers_per_set := peer_set_limit (keys vs) (public_key crypto);
      lc_mailbox_size := mailbox;
      lc_send_batch_size := 8;
      lc_bypass_ip_check := false;
      lc_allow_private_ips := true;
      lc_allow_dns := false;
      lc_tracked_peer_sets := 3;
      lc_synchrony_bound := Config.from_millis (synchrony_ms a);
      lc_dial_frequency := Config.from_millis 200;
      lc_dial_timeout := Config.from_secs 10;
      lc_max_handshake_age := Config.from_secs 300;
      lc_handshake_timeout := Config.from_secs 5;
      lc_max_concurrent_handshakes := 128;
      lc_block_duration := Config.from_secs 60;
      lc_ping_frequency := Config.from_secs 10;
      lc_peer_connection_cooldown := Config.from_secs 5;
      lc_handshake_rate_per_ip := 10;
      lc_handshake_rate_per_subnet := 10 |}
  | _, _ => None
  end.

(** The pairs handed to the oracle. *)
Definition tracked_pairs (my_pk : PublicKey) (vs : ValidatorSet) : list (PublicKey * Address) :=
  omap (λ k, if decide (k = my_pk) then None
             else (λ a, (k, a)) <$> validator_lookup vs k) (keys vs).

Definition track_peers (my_pk : PublicKey) (vs : ValidatorSet) (oracle : Oracle) : Oracle :=
  let pairs := tracked_pairs my_pk vs in
  if decide (pairs = []) then oracle
  else
    match map_try_from pairs with
    | Ok m => oracle_track 0 m oracle
    | Err _ => oracle
    end.
End network.

(** ** The consensus runtime *)

(** Handles of the reth node, with its state [el]. *)
Record RethWiring (W : Type) : Type := mk_RethWiring {
  rw_datadir : string;
  rw_el : W;
  rw_genesis_hash : B256;
  rw_genesis_timestamp : Z;
  rw_genesis_timestamp_millis : Z;
}.
Arguments mk_RethWiring {W}.
Arguments rw_datadir {W}.
Arguments rw_el {W}.
Arguments rw_genesis_hash {W}.
Arguments rw_genesis_timestamp {W}.
Arguments rw_genesis_timestamp_millis {W}.

Section runtime.
Context `{!Ed25519, !CommonwareEngine, !LookupNetwork, !ActorFeedback} {S C W : Type}
  `{!P2pSender S, !Channel C Digest, !RethEngine W}.
Variable debug_duration : Config.Duration → string.
Variable debug_status : PayloadStatusEnum → string.

(** Fails on the main thread for an invalid configuration; otherwise what the
    consensus thread is started with, if the thread can be spawned. *)
Definition spawn_consensus_thread (spawned : Result unit string) (a : ConsensusArgs) :
    Result Config.ConsensusConfig string :=
  let consensus_config := build_consensus_config a in
  let? _ := map_err error_display (Config.validate debug_duration consensus_config) in
  let? _ := map_err (λ e, "failed to spawn consensus thread: " +:+ e) spawned in
  Ok consensus_config.

(** [commonware_runtime::tokio::Config], with the fields the program sets. *)
Record RuntimeConfig : Type := mk_RuntimeConfig {
  rt_tcp_nodelay : option bool;
  rt_worker_threads : Z;
  rt_storage_directory : string;
  rt_catch_panics : bool;
}.

Definition runtime_config (a : ConsensusArgs) (datadir : string) : RuntimeConfig := {|
  rt_tcp_nodelay := Some true;
  rt_worker_threads := 2;
  rt_storage_directory := default (path_join datadir "consensus") (storage_dir a);
  rt_catch_panics := true;
|}.

(** The channels registered with the network: votes, certificates, resolver
    and blocks, each with its messages per second. *)
Definition votes_channel : Z * Z := (0, 128).
Definition certs_channel : Z * Z := (1, 128).
Definition resolver_channel : Z * Z := (2, 128).
Definition blocks_channel : Z * Z := (3, 128).

(** What runs on the consensus thread. *)
Record ConsensusNode : Type := mk_ConsensusNode {
  cn_runtime : RuntimeConfig;
  cn_channels : list (Z * Z);
  cn_lookup : LookupConfig;
  cn_oracle : Oracle;
  cn_engine : StartedEngine S C RethPayloadBuilder (NodeWorld W);
}.

(** The [EngineConfig] literal of [run_consensus]. *)
Definition engine_config (a : ConsensusArgs) (vs : ValidatorSet) (reth : RethWiring W) cc
    (channel : Z → C) : EngineConfig C RethPayloadBuilder := {|
  signing_key := from_seed (node a);
  ec_validators := vs;
  consensus_config := cc;
  ec_proposals := lock_new [];
  ec_partition := "allegro_" +:+ pretty (node a);
  ec_payload_builder := mk_RethPayloadBuilder debug_status;
  ec_metrics := if arg_metrics a then Some metrics_new else None;
  genesis_hash := rw_genesis_hash reth;
  genesis_timestamp := rw_genesis_timestamp reth;
  ec_finalized_tx := Some (channel 32);
  genesis_timestamp_millis := rw_genesis_timestamp_millis reth;
|}.

(** [run_consensus]: [oracle] and [blocks] (the sender of the blocks channel)
    come from the network, [channel] is the fresh finalization channel of the
    given capacity.  The error is
    logged, and the thread ends. *)
Definition run_consensus (a : ConsensusArgs) (vs : ValidatorSet) (reth : RethWiring W)
    (consensus_config : Config.ConsensusConfig) (oracle : Oracle) (blocks : S)
    (channel : Z → C) : option (Result ConsensusNode ConsensusError) :=
  let sk := from_seed (node a) in
  let pk := public_key sk in
  let rt_cfg := runtime_config a (rw_datadir reth) in
  match dev_lookup_config a sk vs with
  | None => None
  | Some lookup =>
    let channels := [votes_channel; certs_channel; resolver_channel; blocks_channel] in
    let oracle := track_peers pk vs oracle in
    let tracker := tracker_new (rw_genesis_hash reth) in
    let config := engine_config a vs reth consensus_config channel in
    match start_simplex_engine debug_duration config blocks (mk_NodeWorld tracker (rw_el reth)) with
    | None => None
    | Some (Ok started) => Some (Ok (mk_ConsensusNode rt_cfg channels lookup oracle started))
    | Some (Err e) => Some (Err e)
    end
  end.
End runtime.

(** [main]: the listen address, the launch of reth (an outcome given as
    [launched]), the genesis validators, the validator set and the start of
    the consensus thread, in order.  [None] is a panic; the error ends the
    process. *)
Section main.
Context `{!Ed25519, !ChainFiles}.
Variable debug_duration : Config.Duration → string.
Variable read_to_string : string → Result string string.

Definition main_setup (overflow_checks dev : bool) (launched spawned : Result unit string)
    (a : ConsensusArgs) (path : Lock (option string)) :
    option (Result (ConsensusArgs * ValidatorSet * Config.ConsensusConfig) string) :=
  let a := resolve_listen dev a in
  match launched with
  | Err e => Some (Err e)
  | Ok _ =>
    match genesis_validators read_to_string path with
    | Panicked _ => None
    | Done (Err e) _ => Some (Err e)
    | Done (Ok genesis) _ =>
      match build_validator_set overflow_checks a genesis with
      | None => None
      | Some vs =>
        Some (let? cc := spawn_consensus_thread debug_duration spawned a in Ok (a, vs, cc))
      end
    end
  end.

Context {W : Type} `{!RethLauncher W}.

Definition wiring_of (launched : LaunchedRethNode W) : RethWiring W :=
  mk_RethWiring (ln_datadir launched) (ln_el launched) (ln_genesis_hash launched)
    (ln_genesis_timestamp launched) (ln_genesis_timestamp_millis launched).

(** The same with the launch of reth from the command line's builder: what the
    consensus thread runs on, and what [main] then waits for. *)
Definition main_run (overflow_checks dev : bool) (builder : WithLaunchContext)
    (spawned : Result unit string) (a : ConsensusArgs) (path : Lock (option string)) :
    option (Result (ConsensusArgs * ValidatorSet * Config.ConsensusConfig * RethWiring W *
      Result unit string) string) :=
  let launched := launch_with_builder builder in
  match main_setup overflow_checks dev (result_map (λ _, ()) launched) spawned a path, launched with
  | None, _ => None
  | Some (Err e), _ | _, Err e => Some (Err e)
  | Some (Ok (a, vs, cc)), Ok launched =>
    Some (Ok (a, vs, cc, wiring_of launched, ln_exit launched))
  end.
End main.

(** ** Lemmas *)

Section derived.
Context `{!Ed25519}.

Lemma mapM_seq {A} (f : nat → option A) (l : list A) n :
  length l = n → (∀ i x, l !! i = Some x → f i = Some x) → mapM f (seq 0 n) = Some l.
Proof.
  intros <- Hf. apply mapM_Some_2. apply Forall2_same_length_lookup_2.
  - by rewrite length_seq.
  - intros i j x Hi Hj. apply lookup_seq in Hi as [-> _]. by apply Hf.
Qed.

Lemma num_validators_small oc (a : ConsensusArgs) :
  (length (peers a) < 255)%nat → num_validators oc a = Some (Z.of_nat (S (length (peers a)))).
Proof.
  intros Hl. unfold num_validators.
  assert (Hw : wrap 8 (Z.of_nat (length (peers a))) = Z.of_nat (length (peers a)))
    by (unfold wrap; apply Z.mod_small; lia).
  rewrite Hw. unfold u8_max. rewrite (proj2 (Z.ltb_ge _ _)) by lia. rewrite andb_false_r.
  f_equal. unfold wrap. rewrite Z.mod_small by lia. lia.
Qed.

(** The addresses a node derives are the network's, when its own is the
    [k]-th and its peers are the others in order. *)
Lemma derived_addr_network (a : ConsensusArgs) addrs (k i : nat) l :
  node a = Z.of_nat k → addrs !! k = Some l → arg_listen a = Some l →
  peers a = delete k addrs → derived_addr a i = addrs !! i.
Proof.
  intros Hk Hl Ha Hp. unfold derived_addr, listen. rewrite Hk, Nat2Z.id, Ha, Hp.
  repeat case_decide; subst; [done| |].
  - by rewrite list_lookup_delete_lt.
  - rewrite list_lookup_delete_ge by lia. f_equal. lia.
Qed.

Lemma derived_addr_None (a : ConsensusArgs) l i :
  arg_listen a = Some l → 0 ≤ node a → (i ≤ length (peers a))%nat →
  derived_addr a i = None → (length (peers a) ≤ i)%nat ∧ (i < Z.to_nat (node a))%nat.
Proof.
  intros Hl Hn Hi. unfold derived_addr, listen. rewrite Hl.
  repeat case_decide; [done| |]; intros Hlk%lookup_ge_None; lia.
Qed.
End derived.

(** ** Properties *)

Section set_properties.
Context `{!Ed25519}.

(** C29: every node of a devnet derives the same validator set: for any list of
    at most 255 addresses, the node with index [k] that listens on the [k]-th
    and is given the others as peers, in order, derives the set that maps seed
    [i]'s key to the [i]-th address, for every [i] - the set a generated
    genesis file holds - whatever [k] and the overflow checks. *)
Theorem derived_set_agrees oc (a : ConsensusArgs) addrs (k : nat) l :
  (length addrs ≤ 255)%nat → node a = Z.of_nat k → addrs !! k = Some l →
  arg_listen a = Some l → peers a = delete k addrs →
  build_validator_set oc a ∅ = Some (from_entries (seed_entries addrs)).
Proof.
  intros Hlen Hk Hl Ha Hp. unfold build_validator_set, validators_is_empty.
  rewrite bool_decide_eq_true_2 by done. cbn [negb].
  pose proof (lookup_lt_Some _ _ _ Hl) as Hlt.
  assert (Hpl : S (length (peers a)) = length addrs).
  { rewrite Hp, length_delete by (by eexists). lia. }
  rewrite num_validators_small by lia.
  rewrite Nat2Z.id, Hpl, (mapM_seq _ (seed_entries addrs)); [done| |].
  - unfold seed_entries. by rewrite length_imap.
  - intros i e He. unfold seed_entries in He. rewrite list_lookup_imap in He.
    unfold derived_entry. rewrite (derived_addr_network a addrs k i l) by done.
    by destruct (addrs !! i); simplify_eq/=.
Qed.

(** C38: limits of the derived set: with the listen address resolved and fewer
    than 255 peers, deriving the set panics exactly when the node's index
    exceeds the number of peers; with 255 peers it panics under overflow
    checks, and gives the empty set without; with 256 peers the set silently
    shrinks to the validator with seed 0. *)
Theorem derived_set_limits oc (a : ConsensusArgs) l :
  arg_listen a = Some l → 0 ≤ node a →
  ((length (peers a) < 255)%nat →
   (build_validator_set oc a ∅ = None ↔ Z.of_nat (length (peers a)) < node a)) ∧
  (length (peers a) = 255%nat →
   build_validator_set true a ∅ = None ∧ build_validator_set false a ∅ = Some ∅) ∧
  (length (peers a) = 256%nat →
   ∃ x, build_validator_set oc a ∅ = Some {[public_key (from_seed 0) := x]}).
Proof.
  intros Hl Hn. unfold build_validator_set, validators_is_empty.
  rewrite bool_decide_eq_true_2 by done. cbn [negb]. split_and!.
  - intros Hlen. rewrite num_validators_small by done. rewrite Nat2Z.id.
    transitivity (mapM (derived_entry a) (seq 0 (S (length (peers a)))) = None).
    { by destruct (mapM _ _). }
    rewrite mapM_None, Exists_exists. unfold derived_entry. split.
    + intros (i & Hi%elem_of_seq & Hd).
      destruct (derived_addr a i) as [x|] eqn:Hx; [done|].
      destruct (derived_addr_None a l i Hl Hn ltac:(lia) Hx). lia.
    + intros Hlt. exists (length (peers a)). split; [apply elem_of_seq; lia|].
      unfold derived_addr. rewrite decide_False by lia. rewrite decide_True by lia.
      by rewrite lookup_ge_None_2.
  - intros Hlen. unfold num_validators. rewrite Hlen. split; reflexivity.
  - intros Hlen. unfold num_validators. rewrite Hlen.
    change (wrap 8 (Z.of_nat 256)) with 0. change (u8_max <? 1 + 0) with false.
    rewrite andb_false_r. change (Z.to_nat (wrap 8 (1 + 0))) with 1%nat. cbn [seq mapM].
    assert (Hx : ∃ e, derived_entry a 0 = Some e ∧ ve_public_key e = public_key (from_seed 0)).
    { unfold derived_entry. destruct (derived_addr a 0) as [x|] eqn:Hx; [by eexists|].
      destruct (derived_addr_None a l 0 Hl Hn ltac:(lia) Hx). lia. }
    destruct Hx as (e & He & Hk). exists (entry_address e).
    cbn. rewrite He. cbn. unfold from_entries. cbn. by rewrite Hk.
Qed.
End set_properties.

Section tracking.
Context `{!Ed25519, !LookupNetwork}.

Lemma omap_pair_sublist {A} (f : PublicKey → option A) l :
  (omap (λ k, pair k <$> f k) l).*1 `sublist_of` l.
Proof.
  induction l as [|k l IH]; cbn; [done|].
  destruct (f k); cbn; by constructor.
Qed.

(** The pairs are a lookup of every key in the set without this node. *)
Lemma tracked_pairs_omap my_pk (vs : ValidatorSet) :
  tracked_pairs my_pk vs = omap (λ k, pair k <$> delete my_pk vs !! k) (keys vs).
Proof.
  unfold tracked_pairs, validator_lookup. apply list_omap_ext, Forall2_same_length_lookup_2; [done|].
  intros i k k' Hk Hk'. simplify_eq. case_decide as He.
  - subst. by rewrite lookup_delete_eq.
  - by rewrite lookup_delete_ne.
Qed.

Lemma tracked_pairs_NoDup my_pk (vs : ValidatorSet) : NoDup (tracked_pairs my_pk vs).*1.
Proof.
  rewrite tracked_pairs_omap. eapply sublist_NoDup; [apply (keys_NoDup vs)|].
  apply omap_pair_sublist.
Qed.

Lemma elem_of_tracked_pairs my_pk (vs : ValidatorSet) k a :
  (k, a) ∈ tracked_pairs my_pk vs ↔ delete my_pk vs !! k = Some a.
Proof.
  rewrite tracked_pairs_omap, list_elem_of_omap. split.
  - intros (k' & _ & (b & Hb & [= -> ->])%fmap_Some). done.
  - intros Hk. exists k. rewrite Hk. split; [|done]. apply elem_of_keys.
    apply lookup_delete_Some in Hk as [_ ?]. by eexists.
Qed.

Context `{!LookupNetworkLaws}.

(** C37: a node tracks exactly its peers: what is handed to the network is every
    validator but the node itself, each once, with the address of the set; a
    node that is the only validator tracks nothing; and the branch that skips
    tracking for duplicate keys can not be reached. *)
Theorem tracked_peers_exact my_pk (vs : ValidatorSet) (oracle : Oracle) :
  list_to_map (tracked_pairs my_pk vs) = delete my_pk vs ∧
  NoDup (tracked_pairs my_pk vs).*1 ∧
  (delete my_pk vs = ∅ → track_peers my_pk vs oracle = oracle) ∧
  (delete my_pk vs ≠ ∅ → ∃ m, map_try_from (tracked_pairs my_pk vs) = Ok m ∧
     track_peers my_pk vs oracle = oracle_track 0 m oracle).
Proof.
  pose proof (tracked_pairs_NoDup my_pk vs) as Hnd.
  assert (Hmap : list_to_map (tracked_pairs my_pk vs) = delete my_pk vs).
  { apply map_eq. intros k. apply option_eq. intros a.
    by rewrite <- elem_of_list_to_map, elem_of_tracked_pairs. }
  split; [done|]. split; [done|]. unfold track_peers. rewrite <- Hmap. split.
  - intros He. case_decide as Hp; [done|]. destruct (tracked_pairs my_pk vs) as [|[k a] l]; [done|].
    cbn in He. exfalso. eapply (insert_non_empty _ k a). exact He.
  - intros He. rewrite decide_False by (intros Hp; apply He; by rewrite Hp).
    apply map_try_from_ok in Hnd. destruct (map_try_from _) as [m|]; [by exists m|done].
Qed.
End tracking.

Section setup_properties.
Context `{!Ed25519, !ChainFiles}.
Variable debug_duration : Config.Duration → string.
Variable read : string → Result string string.

(** The chain argument decides the validators: parsing ["dev"] clears the
    stashed path and parsing a genesis file stashes it, so that [main], which
    takes the path, runs with exactly the validators of the file the chain was
    read from, or derives them when the file has none or the chain is dev;
    a file that does not load stashes nothing. *)
Theorem chain_decides_validators oc dev a s path spec path' :
  chain_parse read s path = Done (Ok spec) path' →
  poisoned path' = false ∧
  ((s = "dev" ∧ spec = DEV ∧
    main_setup debug_duration read oc dev (Ok ()) (Ok ()) a path' =
      match build_validator_set oc (resolve_listen dev a) ∅ with
      | None => None
      | Some vs => Some (result_map (λ cc, (resolve_listen dev a, vs, cc))
          (spawn_consensus_thread debug_duration (Ok ()) (resolve_listen dev a)))
      end) ∨
   (s ≠ "dev" ∧ ∃ vs, load_chain_with_validators read s = Ok (spec, vs) ∧
    (vs ≠ ∅ →
     main_setup debug_duration read oc dev (Ok ()) (Ok ()) a path' =
       Some (result_map (λ cc, (resolve_listen dev a, vs, cc))
         (spawn_consensus_thread debug_duration (Ok ()) (resolve_listen dev a)))))).
Proof.
  assert (Hbind : ∀ (r : Result Config.ConsensusConfig string) (vs : ValidatorSet),
    (let? cc := r in Ok (resolve_listen dev a, vs, cc)) =
    result_map (λ cc, (resolve_listen dev a, vs, cc)) r) by (by intros []).
  unfold chain_parse, main_setup, genesis_validators. case_decide as Hs.
  - destruct (poisoned path) eqn:Hp; [done|]. intros [= <- <-].
    rewrite lock_update_poisoned, Hp. split; [done|]. left. split_and!; [done|done|].
    rewrite lock_update_guarded by done. cbn -[build_validator_set spawn_consensus_thread resolve_listen].
    destruct (build_validator_set _ _ _); [|done]. by rewrite Hbind.
  - destruct (load_chain_with_validators read s) as [[spec' vs]|e] eqn:Hl; [|done].
    destruct (poisoned path) eqn:Hp; [done|]. intros [= <- <-].
    rewrite lock_update_poisoned, Hp. split; [done|]. right. split; [done|].
    exists vs. split; [done|]. intros Hne.
    rewrite lock_update_guarded by done. rewrite Hl.
    cbn -[build_validator_set spawn_consensus_thread resolve_listen].
    unfold build_validator_set, validators_is_empty.
    rewrite bool_decide_eq_false_2 by done. cbn [negb]. by rewrite Hbind.
Qed.
End setup_properties.

Section runtime_properties.
Context `{!Ed25519, !CommonwareEngine, !LookupNetwork, !ActorFeedback, !CommonwareEngineLaws}
  {S C W : Type} `{!P2pSender S, !Channel C Digest, !RethEngine W}.

(** The command line can hold only unsigned values. *)
Definition args_unsigned (a : ConsensusArgs) : Prop :=
  0 ≤ arg_mailbox_size a ∧ 0 ≤ leader_timeout_ms a ∧ 0 ≤ cert_timeout_ms a ∧
  0 ≤ timeout_retry_ms a ∧ 0 ≤ fetch_timeout_ms a ∧ 0 ≤ arg_view_retention a ∧
  0 ≤ skip_timeout_ms a ∧ 0 ≤ arg_term_length a ∧ 0 ≤ stall_timeout_ms a.

Lemma build_config_unsigned a : args_unsigned a → Config.config_unsigned (build_consensus_config a).
Proof.
  unfold args_unsigned, Config.config_unsigned, build_consensus_config, Config.from_millis.
  cbn. lia.
Qed.

Lemma spawn_Ok dd spawned a cc :
  spawn_consensus_thread dd spawned a = Ok cc →
  cc = build_consensus_config a ∧ Config.validate dd cc = Ok ().
Proof.
  unfold spawn_consensus_thread. destruct (Config.validate _ _) as [[]|] eqn:Hv; cbn; [|done].
  destruct spawned; cbn; [|done]. by intros [= <-].
Qed.

Lemma run_consensus_starts dd ds spawned (a : ConsensusArgs) (vs : ValidatorSet)
    (reth : RethWiring W) cc (oracle : Oracle) (blocks : S) (channel : Z → C) :
  args_unsigned a → arg_mailbox_size a < mpsc_max_buffer → is_Some (arg_listen a) → vs ≠ ∅ →
  spawn_consensus_thread dd spawned a = Ok cc →
  let config := engine_config ds a vs reth cc channel in
  let w := mk_NodeWorld (tracker_new (rw_genesis_hash reth)) (rw_el reth) in
  ∃ n, run_consensus dd ds a vs reth cc oracle blocks channel = Some (Ok n) ∧
    start_simplex_engine dd config blocks w = Some (Ok (cn_engine n)) ∧
    wired config (cn_engine n) ∧ actor_world (se_actor (cn_engine n)) = w.
Proof.
  intros Hu Hmax [l Hl] Hvs Hsp config w. apply spawn_Ok in Hsp as [-> Hok].
  unfold run_consensus, dev_lookup_config, listen. rewrite Hl.
  rewrite (nz_nonzero (arg_mailbox_size a)).
  2: { apply Config.validate_Ok in Hok; [|by apply build_config_unsigned].
       destruct Hok as [Hm _]. cbn in Hm. lia. }
  destruct (start_valid dd config blocks w (build_config_unsigned a Hu) Hok Hvs)
    as [(_ & s & Hs & Hw & Hwd)|[Hb _]].
  - eexists. split; [by fold config w; rewrite Hs|]. by split_and!.
  - destruct Hb. split; [cbv; by split_and!|done].
Qed.

(** A node the main thread accepts does start: when the configuration
    passes on the main thread and there is a validator, the consensus thread
    neither panics nor fails; the engine runs with the stores of its parts
    shared, genesis registered under the chain's hash, and the forkchoice
    tracker at genesis.  The default command line passes; a configuration
    error is reported before any thread is spawned. *)
Theorem accepted_node_starts dd ds spawned (a : ConsensusArgs) (vs : ValidatorSet)
    (reth : RethWiring W) cc (oracle : Oracle) (blocks : S) (channel : Z → C) :
  args_unsigned a → arg_mailbox_size a < mpsc_max_buffer → is_Some (arg_listen a) → vs ≠ ∅ →
  spawn_consensus_thread dd spawned a = Ok cc →
  (∃ n, run_consensus dd ds a vs reth cc oracle blocks channel = Some (Ok n) ∧
    let s := cn_engine n in
    relay_pending (se_relay s) = pending_blocks (se_actor s) ∧
    rx_received (se_receiver s) = received_blocks (se_actor s) ∧
    (bi_hash <$> guarded (block_info (se_actor s)) !! EMPTY) = Some (rw_genesis_hash reth) ∧
    finalized_tx (se_reporter s) = Some (channel 32) ∧
    nw_tracker (actor_world (se_actor s)) = (rw_genesis_hash reth, 0)) ∧
  spawn_consensus_thread dd (Ok ()) default_args = Ok (build_consensus_config default_args) ∧
  (∀ e, Config.validate dd (build_consensus_config a) = Err e →
    ∀ sp, spawn_consensus_thread dd sp a = Err (error_display e)).
Proof.
  intros Hu Hmax Hl Hvs Hsp. split_and!.
  - destruct (run_consensus_starts dd ds spawned a vs reth cc oracle blocks channel Hu Hmax Hl Hvs Hsp)
      as (n & Hn & _ & Hw & Hwd). exists n. split; [done|]. cbn. rewrite Hwd.
    destruct Hw as (Hw1 & Hw2 & _ & _ & _ & _ & Htx & _ & Hfl & Hhash & _).
    rewrite Hfl in Hhash. by split_and!.
  - done.
  - intros e He sp. unfold spawn_consensus_thread. by rewrite He.
Qed.
End runtime_properties.

(** ** Witnesses *)

Definition sample_addrs : list SocketAddr :=
  [SocketV4 2130706433 3000; SocketV4 2130706433 3001; SocketV4 2130706433 3002].

(** The second of three nodes. *)
Definition sample_args : ConsensusArgs :=
  mk_ConsensusArgs 1 (Some (SocketV4 2130706433 3001))
    [SocketV4 2130706433 3000; SocketV4 2130706433 3002] None
    2000 4000 1000 2000 1048576 1024 10 5000 1 8000 0 2000 true.

Lemma derived_set_agrees_witness :
  build_validator_set true sample_args ∅ = Some (from_entries (seed_entries sample_addrs)).
Proof.
  apply (derived_set_agrees true sample_args sample_addrs 1 (SocketV4 2130706433 3001)).
  - cbn. lia.
  - reflexivity.
  - reflexivity.
  - reflexivity.
  - reflexivity.
Defined.

(** Index 2 with a single peer. *)
Definition stranded_args : ConsensusArgs :=
  mk_ConsensusArgs 2 (Some (SocketV4 0 3000)) [SocketV4 0 1] None
    2000 4000 1000 2000 1048576 1024 10 5000 1 8000 0 2000 true.

Lemma derived_set_limits_witness : build_validator_set true stranded_args ∅ = None.
Proof.
  assert (Hn : 0 ≤ node stranded_args) by (cbn; lia).
  destruct (derived_set_limits true stranded_args (SocketV4 0 3000) eq_refl Hn) as [Hp _].
  apply Hp; cbn; lia.
Defined.

#[export] Instance ref_network : LookupNetwork := {|
  union_unique _ _ := [];
  peer_set_limit l _ := Z.of_nat (length l);
  PeerMap := list (PublicKey * Address);
  map_try_from l := if decide (NoDup l.*1) then Ok l else Err "duplicate"%string;
  Oracle := list (PublicKey * Address);
  oracle_track _ m _ := m;
|}.

#[export] Instance ref_network_laws : LookupNetworkLaws.
Proof. intros l. cbn. by case_decide. Qed.

Definition sample_wiring : RethWiring ref_engine_state :=
  mk_RethWiring "/data" sample_el sample_genesis_hash 1700000000 1700000000000.

(** Three validators, the second tracks the other two. *)
Lemma tracked_peers_exact_witness :
  let vs := from_entries (seed_entries sample_addrs) in
  list_to_map (tracked_pairs (key_of 1) vs) = delete (key_of 1) vs ∧
  length (tracked_pairs (key_of 1) vs) = 2%nat.
Proof.
  intros vs. split; [|vm_compute; reflexivity].
  exact (proj1 (@tracked_peers_exact ref_ed25519 ref_network ref_network_laws (key_of 1) vs [])).
Defined.

Definition sample_oracle : @Oracle ref_ed25519 ref_network := [].

Lemma accepted_node_starts_witness :
  ∃ n, run_consensus debug_none (λ _, "") sample_args sample_validators sample_wiring
      (build_consensus_config sample_args) sample_oracle ([] : ref_transport)
      (λ cap, mk_ref_queue ([] : list Digest) (Z.to_nat cap) true) = Some (Ok n) ∧
    nw_tracker (actor_world (se_actor (cn_engine n))) = (sample_genesis_hash, 0).
Proof.
  destruct (accepted_node_starts debug_none (λ _, "") (Ok ()) sample_args sample_validators
    sample_wiring (build_consensus_config sample_args) sample_oracle
    ([] : ref_transport) (λ cap, mk_ref_queue ([] : list Digest) (Z.to_nat cap) true))
    as [(n & Hn & _ & _ & _ & _ & Ht) _].
  - unfold args_unsigned. cbn. lia.
  - reflexivity.
  - eexists. reflexivity.
  - exact sample_validators_nonempty.
  - reflexivity.
  - exists n. split; [exact Hn|exact Ht].
Defined.

Lemma chain_decides_validators_witness :
  ∃ vs, load_chain_with_validators (λ _, Ok sample_text) "genesis.json" =
    Ok (@chain_spec_from_genesis ref_files sample_file, vs).
Proof.
  destruct (chain_decides_validators debug_none (λ _, Ok sample_text) true false sample_args
    "genesis.json" (lock_new None) (@chain_spec_from_genesis ref_files sample_file)
    (lock_new (Some "genesis.json"%string))) as [_ [(Hd & _)|(_ & vs & Hl & _)]].
  - unfold chain_parse. rewrite decide_False by discriminate.
    unfold load_chain_with_validators, sample_text. cbn [result_bind map_err].
    rewrite json_roundtrip by exact I. reflexivity.
  - discriminate.
  - exists vs. exact Hl.
Defined.
