(* ===== verification/Node.v ===== *)
(** * A running node: the components over their shared state

    What [start_simplex_engine] and [run_consensus] leave running, as one state
    and one step per event: the actor handles a message, the relay a broadcast
    request, the receiver a message of the network, the reporter an activity,
    the finalizer a digest of its channel.  The stores, the counters and the
    execution layer with its tracker are shared, as through the source's
    [Arc]s: each component acts on the fields of the one node state.  A step
    is one handler run to completion; [Linearize.v] proves that runs in which
    the relay, the receiver and the reporter step while a handler waits come
    to the same, and [Concurrent.v] has all tasks step, the finalizer too. *)

From S2P Require Import Prelude Extern Reference Digest Validators Metrics Error Executor.
From S2P Require Import ReferenceBuilder Application Engine Reth Builder Finalizer.
From S2P Require Config.
Local Open Scope Z_scope.

Section node.
Context `{!Ed25519, !ActorFeedback} {S C W E : Type}
  `{!P2pSender S, !Channel C Digest, !ChannelRx C Digest, !RethEngine W}.

Record Node : Type := mk_Node {
  nd_actor : Actor RethPayloadBuilder (NodeWorld W);
  nd_sender : S;
  nd_finalized : option C;
}.

(** The components' views of the shared state. *)
Definition node_relay (n : Node) : BlockRelay S :=
  mk_BlockRelay (pending_blocks (nd_actor n)) (nd_sender n) (metrics (nd_actor n)).
Definition node_receiver (n : Node) : ReceiverState :=
  mk_ReceiverState (received_blocks (nd_actor n)) (metrics (nd_actor n)).
Definition node_reporter (n : Node) : MetricsReporter C :=
  mk_MetricsReporter (metrics (nd_actor n)) (nd_finalized n).

Definition put_relay (r : BlockRelay S) (n : Node) : Node :=
  mk_Node (set_metrics (relay_metrics r) (set_pending (relay_pending r) (nd_actor n)))
    (relay_sender r) (nd_finalized n).
Definition put_receiver (r : ReceiverState) (n : Node) : Node :=
  mk_Node (set_metrics (rx_metrics r) (set_received (rx_received r) (nd_actor n)))
    (nd_sender n) (nd_finalized n).
Definition put_reporter (r : MetricsReporter C) (n : Node) : Node :=
  mk_Node (set_metrics (reporter_metrics r) (nd_actor n)) (nd_sender n) (finalized_tx r).

Inductive Event : Type :=
| Ev_Message (now : SystemTime) (msg : Message Recipients)
| Ev_Broadcast (digest : Digest) (plan : Plan Recipients)
| Ev_Receive (e : Result (PublicKey * bytes) E)
| Ev_Report (activity : Activity Digest)
| Ev_Finalize.

Definition lift_exec {A B : Type} (put : B → Node) (x : Exec A B) : Exec unit Node :=
  match x with Done _ b => Done () (put b) | Panicked b => Panicked (put b) end.

(** The finalizer takes the next digest of its channel, if there is one. *)
Definition finalizer_turn (n : Node) : Node :=
  match nd_finalized n with
  | None => n
  | Some c =>
    match chan_recv c with
    | Recv_Item digest c =>
      let a := nd_actor n in
      mk_Node (set_world (finalize digest (block_info a) (actor_world a)) a) (nd_sender n) (Some c)
    | Recv_Pending | Recv_Closed => n
    end
  end.

Definition node_step (e : Event) (n : Node) : Exec unit Node :=
  match e with
  | Ev_Message now msg =>
    lift_exec (λ a, mk_Node a (nd_sender n) (nd_finalized n)) (handle_message now msg (nd_actor n))
  | Ev_Broadcast digest plan =>
    lift_exec (λ r, put_relay r n) (broadcast digest plan (node_relay n))
  | Ev_Receive e => lift_exec (λ r, put_receiver r n) (receive_block e (node_receiver n))
  | Ev_Report activity => Done () (put_reporter (report activity (node_reporter n)).2 n)
  | Ev_Finalize => Done () (finalizer_turn n)
  end.

(** A run, event by event. *)
Fixpoint node_run (es : list Event) (n : Node) : Node :=
  match es with
  | [] => n
  | e :: es => node_run es (exec_state (node_step e n))
  end.

(** What a run reaches, a panicking step's state included. *)
Inductive reachable (n0 : Node) : Node → Prop :=
| reach_start : reachable n0 n0
| reach_step n e : reachable n0 n → reachable n0 (exec_state (node_step e n)).

(** ** The invariant *)

(** The bytes of some block, under its own hash.  That the node's engine built
    the block is [engine_built], of a run. *)
Definition genuine (d : Digest) (b : bytes) : Prop :=
  ∃ block : EthBlock, b = eth_encode block ∧ digest_get d = eth_hash_slow block.

Definition unpoisoned {P} (st : Actor P (NodeWorld W)) : Prop :=
  poisoned (proposals st) = false ∧ poisoned (pending_blocks st) = false ∧
  poisoned (received_blocks st) = false ∧ poisoned (block_info st) = false.

Record node_ok (n : Node) : Prop := mk_node_ok {
  ok_actor : actor_inv (nd_actor n);
  ok_locks : unpoisoned (nd_actor n);
  ok_pending : map_Forall genuine (guarded (pending_blocks (nd_actor n)));
}.

(** The invariant reads the actor's stores only. *)
Lemma node_ok_stores n n' :
  proposals (nd_actor n') = proposals (nd_actor n) →
  pending_blocks (nd_actor n') = pending_blocks (nd_actor n) →
  block_info (nd_actor n') = block_info (nd_actor n) →
  poisoned (received_blocks (nd_actor n')) = poisoned (received_blocks (nd_actor n)) →
  node_ok n → node_ok n'.
Proof.
  intros Hp Hb Hi Hr [Ha Hl Hg]. unfold unpoisoned in Hl.
  split; [by apply (actor_inv_stores (nd_actor n))| |by rewrite Hb].
  unfold unpoisoned. by rewrite Hp, Hb, Hi, Hr.
Qed.

(** A message leaves the pending blocks alone, or adds a built block. *)
Lemma handle_message_pending now (m : Message Recipients)
    (st : Actor RethPayloadBuilder (NodeWorld W)) :
  let st' := exec_state (handle_message now m st) in
  pending_blocks st' = pending_blocks st ∨
  ∃ r b w, build_payload (payload_builder st) r (actor_world st) = (Ok b, w) ∧
    pending_blocks st' =
      lock_update (<[mk_Digest (bp_block_hash b) := bp_block_bytes b]>) (pending_blocks st).
Proof.
  destruct (handle_message_effect now m st) as [m st' Hs|p k b w r Hb|v meta w _]; cbn.
  - left. unfold stores in Hs. congruence.
  - right. by eexists r, b, w.
  - by left.
Qed.

(** At an earlier point of the run the node's builder built the block: the
    engine resolved it, and these are its bytes and its hash. *)
Definition engine_built (n0 n : Node) (d : Digest) (b : bytes) : Prop :=
  ∃ n1 request block id w1 w2 w,
    reachable n0 n1 ∧ reachable n1 n ∧
    build_payload (payload_builder (nd_actor n1)) request (actor_world (nd_actor n1)) =
      (Ok (built_payload block), w) ∧
    resolve_kind id w1 = (Some (Ok block), w2) ∧
    d = mk_Digest (eth_hash_slow block) ∧ b = eth_encode block.

Lemma engine_built_step n0 n e d b :
  engine_built n0 n d b → engine_built n0 (exec_state (node_step e n)) d b.
Proof.
  intros (n1 & rq & block & id & w1 & w2 & w & Hr0 & Hr1 & Hx).
  exists n1, rq, block, id, w1, w2, w. split_and!; [done| |apply Hx..]. by apply reach_step.
Qed.

(** Only a message changes the pending blocks. *)
Lemma step_pending e n :
  (∀ now m, e ≠ Ev_Message now m) →
  pending_blocks (nd_actor (exec_state (node_step e n))) = pending_blocks (nd_actor n).
Proof.
  intros He. destruct e as [now m|d plan|r|a|]; [by destruct (He now m)|..]; cbn [node_step].
  - unfold broadcast. cbn. destruct (lock_read _) as [g|]; [|done]. destruct (g !! d); [|done].
    destruct (check _ _) as [[chk|] s1]; [|done]. destruct (checked_send _ _ _ _) as [o s2].
    by destruct (accepted o).
  - by destruct (receive_block r (node_receiver n)).
  - done.
  - unfold finalizer_turn. destruct (nd_finalized n) as [c|]; [|done]. by destruct (chan_recv c).
Qed.

Lemma reachable_pending n0 n :
  guarded (pending_blocks (nd_actor n0)) = ∅ → reachable n0 n →
  map_Forall (engine_built n0 n) (guarded (pending_blocks (nd_actor n))).
Proof.
  intros Hemp Hr. induction Hr as [|n e Hr IH]; [rewrite Hemp; apply map_Forall_empty|].
  assert (Hkeep : map_Forall (engine_built n0 (exec_state (node_step e n)))
    (guarded (pending_blocks (nd_actor n)))).
  { eapply map_Forall_impl; [exact IH|]. intros d b. apply engine_built_step. }
  assert (Hcase : (∀ now m, e ≠ Ev_Message now m) ∨ ∃ now m, e = Ev_Message now m)
    by (destruct e; eauto).
  destruct Hcase as [Ho|(now & m & ->)]; [by rewrite step_pending|].
  pose proof (reach_step n n (Ev_Message now m) (reach_start n)) as Hstep.
  pose proof (handle_message_pending now m (nd_actor n)) as Hp. cbn [node_step] in *.
  destruct (handle_message now m (nd_actor n)) as [q st'|st']; cbn [lift_exec exec_state nd_actor] in *.
  all: destruct Hp as [->|(rq & b & w & Hb & ->)]; [done|].
  all: apply lock_update_ind; [done|]; intros _; apply map_Forall_insert_2; [|done].
  all: cbn in Hb; pose proof Hb as Hb'; apply build_closure_Ok in Hb'
    as (w0 & st & id & w1 & block & w2 & st'' & _ & Hres & _ & _ & -> & _).
  all: exists n, rq, block, id, w1, w2, w; split_and!; try done; exact Hstep.
Qed.

Context `{!RethEngineLaws W, !Ed25519Laws}.

Lemma message_step_ok now m n :
  node_ok n →
  node_ok (exec_state (node_step (Ev_Message now m) n)) ∧
  ∃ n', node_step (Ev_Message now m) n = Done () n'.
Proof.
  intros [Ha Hl Hg]. cbn [node_step].
  destruct (handle_message_done now m (nd_actor n)) as (r & st' & Hm).
  split; [|rewrite Hm; by eexists].
  pose proof (handle_message_inv now m _ Ha) as Hinv.
  pose proof (handle_message_flags now m (nd_actor n)) as Hf.
  pose proof (handle_message_pending now m (nd_actor n)) as Hp.
  rewrite Hm in Hinv, Hf, Hp |- *. cbn in Hinv, Hf. cbn [lift_exec exec_state].
  unfold flags in Hf. unfold unpoisoned in Hl.
  split; cbn; [done|unfold unpoisoned; intuition congruence|].
  cbn [exec_state] in Hp. destruct Hp as [->|(rq & b & w & Hb & ->)]; [done|].
  apply lock_update_ind; [done|]. intros _. apply map_Forall_insert_2; [|done].
  apply reth_build_Ok in Hb as (block & -> & _). by exists block.
Qed.

Lemma broadcast_step_ok d plan n :
  node_ok n →
  node_ok (exec_state (node_step (Ev_Broadcast d plan) n)) ∧
  ∃ n', node_step (Ev_Broadcast d plan) n = Done () n'.
Proof.
  intros Hok. pose proof Hok as [_ (_ & Hp & _) _]. cbn [node_step].
  destruct (guarded (pending_blocks (nd_actor n)) !! d) as [b|] eqn:Hd.
  - destruct (broadcast_known d plan (node_relay n) b Hp Hd) as (r' & c & -> & Hr & _).
    split; [|by eexists]. by apply (node_ok_stores n).
  - unfold broadcast, lock_read. cbn. rewrite Hp, Hd. split; [|by eexists].
    by apply (node_ok_stores n).
Qed.

Lemma receive_step_ok (e : Result (PublicKey * bytes) E) n :
  node_ok n →
  node_ok (exec_state (node_step (Ev_Receive e) n)) ∧
  ∃ n', node_step (Ev_Receive e) n = Done () n'.
Proof.
  intros Hok. cbn [node_step].
  destruct (receive_block_spec e (node_receiver n)) as [Hs [p Hp]].
  apply exec_done in Hp. rewrite Hp. cbn [lift_exec exec_state]. rewrite Hs.
  split; [|by eexists]. apply (node_ok_stores n); [done..| |done]. cbn.
  destruct (event_block e); cbn; [by rewrite lock_update_poisoned|by destruct e].
Qed.

Lemma finalize_step_ok n : node_ok n → node_ok (finalizer_turn n).
Proof.
  intros Hok. unfold finalizer_turn. destruct (nd_finalized n) as [c|]; [|done].
  destruct (chan_recv c) as [d c'| |]; [|done..]. by apply (node_ok_stores n).
Qed.

(** Every step preserves the invariant and completes. *)
Lemma node_step_ok e n :
  node_ok n → node_ok (exec_state (node_step e n)) ∧ ∃ n', node_step e n = Done () n'.
Proof.
  intros Hok. destruct e as [now m|d plan|e|a|].
  - by apply message_step_ok.
  - by apply broadcast_step_ok.
  - by apply receive_step_ok.
  - split; [|by eexists]. by apply (node_ok_stores n); destruct a.
  - split; [|by eexists]. by apply finalize_step_ok.
Qed.

Lemma reachable_ok n0 n : node_ok n0 → reachable n0 n → node_ok n.
Proof. intros Hstart Hr. induction Hr as [|n e _ IH]; [done|]. by apply node_step_ok. Qed.

(** The node as it is started: fresh stores, consistent genesis stamps. *)
Definition fresh_node (vs : ValidatorSet) (builder : RethPayloadBuilder)
    (m : option ConsensusMetrics) (ghash : B256) (gms : Z) (w : NodeWorld W)
    (sender : S) (fin : option C) : Node :=
  mk_Node (actor_made vs (Some (lock_new [])) (lock_new ∅) (lock_new ∅) (lock_new ∅) builder m
             ghash (gms / 1000) gms w) sender fin.

Lemma fresh_node_ok vs builder m ghash gms w sender fin :
  is_u64 gms → node_ok (fresh_node vs builder m ghash gms w sender fin).
Proof.
  intros Hu. split; cbn; [|done|apply map_Forall_empty].
  split; cbn.
  - by apply map_Forall_insert_2; [|apply map_Forall_empty].
  - by rewrite lookup_insert_eq.
  - intros d _ [x Hx]. by rewrite lookup_empty in Hx.
  - by intros d _ ?%elem_of_nil.
Qed.

(** ** Properties *)

(** C7: a node never panics: in every state a started node can reach, by any
    order of messages, broadcasts, received blocks - malformed ones included -,
    activities and finalizations, the actor's invariant holds, every pending
    block is one that the node's builder built, from a payload its engine
    resolved, at an earlier point of the run, under the block's own hash; and
    whatever the next event is, its handler completes.  The locks stay
    unpoisoned since no holder of one can panic: in the source a write section
    is one insertion or push, and the panics the handlers have (the relay's
    [expect] on a poisoned lock, a key of the wrong length) happen under no
    lock. *)
Theorem node_never_panics vs builder m ghash gms w sender fin n :
  is_u64 gms →
  reachable (fresh_node vs builder m ghash gms w sender fin) n →
  unpoisoned (nd_actor n) ∧ actor_inv (nd_actor n) ∧
  map_Forall (λ d b, genuine d b ∧
      engine_built (fresh_node vs builder m ghash gms w sender fin) n d b)
    (guarded (pending_blocks (nd_actor n))) ∧
  ∀ e, ∃ n', node_step e n = Done () n'.
Proof.
  intros Hu Hr. assert (Hok : node_ok n) by (by eapply reachable_ok, Hr; apply fresh_node_ok).
  pose proof Hok as [? ? Hg]. split_and!; [done..| |].
  - intros d b Hd. split; [by apply Hg|]. by eapply reachable_pending.
  - intros e. by apply node_step_ok.
Qed.

(** C25: what an honest node relays binds its digest: if a peer's actor finds,
    for the digest it verifies, the bytes a reachable node holds pending under
    it, and answers true, then the block info it records has that digest as
    its hash (the check a forged message escapes). *)
Theorem honest_blocks_bind_digest vs builder m ghash gms w sender fin n d b
    (v : Verify) (st st' : Actor RethPayloadBuilder (NodeWorld W)) :
  is_u64 gms →
  reachable (fresh_node vs builder m ghash gms w sender fin) n →
  guarded (pending_blocks (nd_actor n)) !! d = Some b →
  v_payload v = d → lookup_block_bytes d st = Ok (Some b) → poisoned (block_info st) = false →
  handle_verify v st = (Some true, st') →
  ∃ i, guarded (block_info st') !! d = Some i ∧ bi_hash i = digest_get d.
Proof.
  intros Hu Hr Hd Hv Hb Hp Hh.
  assert (Hok : node_ok n) by (by eapply reachable_ok, Hr; apply fresh_node_ok).
  destruct (ok_pending _ Hok _ _ Hd) as (block & -> & Hhash).
  apply handle_verify_true in Hh as (meta & w' & (_ & (b' & Hb' & Hval) & _) & ->).
  rewrite Hv, Hb in Hb'. injection Hb' as <-.
  cbn in Hval. apply validate_closure_Valid in Hval as (block' & rest & Hdec & _ & ->).
  cbn in Hdec. rewrite eth_decode_encode in Hdec. injection Hdec as <- _.
  cbn. rewrite lock_update_guarded by done. rewrite Hv, lookup_insert_eq.
  eexists. split; [done|]. by rewrite Hhash.
Qed.
End node.

(** ** Witnesses *)

Definition sample_node : Node (S := ref_transport) (C := ref_queue Digest) :=
  fresh_node sample_validators sample_reth (Some metrics_new) sample_genesis_hash 1700000000000
    sample_world [] (Some (mk_ref_queue [] 32 true)).

(** The node proposes, and a peer sends it garbage. *)
Definition sample_run : list (Event (S := ref_transport) (E := unit)) :=
  [Ev_Message sample_now (Message_Propose sample_propose); Ev_Receive (Ok (key_of 1, [Byte.x00]))].

Definition sample_reached : Node (S := ref_transport) (C := ref_queue Digest) :=
  foldl (λ n e, exec_state (node_step e n)) sample_node sample_run.

Lemma sample_reachable : reachable (E := unit) sample_node sample_reached.
Proof. do 2 apply reach_step. apply reach_start. Qed.

Lemma sample_gms : is_u64 1700000000000.
Proof. by vm_compute; split. Qed.

Lemma node_never_panics_witness :
  (∃ b, guarded (pending_blocks (nd_actor sample_reached)) !! mk_Digest (bp_block_hash sample_built) =
     Some b ∧ engine_built (E := unit) sample_node sample_reached
       (mk_Digest (bp_block_hash sample_built)) b) ∧
  ∃ n', node_step (E := unit) (Ev_Broadcast sample_digest Plan_Propose) sample_reached = Done () n'.
Proof.
  destruct (node_never_panics (E := unit) sample_validators sample_reth (Some metrics_new)
    sample_genesis_hash 1700000000000 sample_world [] (Some (mk_ref_queue [] 32 true))
    sample_reached sample_gms sample_reachable) as (_ & _ & Hp & Hstep).
  split; [|exact (Hstep (Ev_Broadcast sample_digest Plan_Propose))].
  destruct (guarded (pending_blocks (nd_actor sample_reached)) !!
    mk_Digest (bp_block_hash sample_built)) as [b|] eqn:Hb.
  - exists b. split; [reflexivity|]. exact (proj2 (Hp _ _ Hb)).
  - exfalso. assert (Hs : is_Some (guarded (pending_blocks (nd_actor sample_reached)) !!
      mk_Digest (bp_block_hash sample_built))).
    { apply (proj1 (bool_decide_eq_true _)). vm_compute. reflexivity. }
    rewrite Hb in Hs. destruct Hs as [x Hx]. discriminate Hx.
Defined.

Definition built_digest : Digest := mk_Digest (bp_block_hash sample_built).

Definition verify_built : Verify := mk_Verify (0, EMPTY) built_digest (key_of 0) (mk_Round 0 1).

Definition verifying_actor : Actor RethPayloadBuilder (NodeWorld ref_engine_state) :=
  set_received (lock_new {[built_digest := bp_block_bytes sample_built]}) (nd_actor sample_node).

Lemma honest_blocks_bind_digest_witness :
  ∃ i, guarded (block_info (handle_verify verify_built verifying_actor).2) !! built_digest = Some i ∧
       bi_hash i = digest_get built_digest.
Proof.
  apply (honest_blocks_bind_digest (E := unit) sample_validators sample_reth (Some metrics_new)
    sample_genesis_hash 1700000000000 sample_world [] (Some (mk_ref_queue [] 32 true))
    sample_reached built_digest (bp_block_bytes sample_built) verify_built verifying_actor
    _ sample_gms sample_reachable).
  - vm_compute. reflexivity.
  - reflexivity.
  - vm_compute. reflexivity.
  - reflexivity.
  - apply injective_projections; [vm_compute; reflexivity|reflexivity].
Defined.
