(* ===== verification/Typing.v ===== *)
(** * Machine integers of a running node

    The source's counters, numbers, views and stamps are [u64]; the model's
    are integers.  Here: from a node started on typed values, whatever typed
    events come, every integer the node stores or hands to the execution layer
    is in the range of its Rust type, so no operation of the model leaves the
    machine's width. *)

From S2P Require Import Prelude Extern Reference Digest Validators Metrics Error Executor.
From S2P Require Import ReferenceBuilder Application Engine Reth Builder Finalizer Node.
Local Open Scope Z_scope.

Section typing.
Context `{!Ed25519, !ActorFeedback} {S C W E : Type}
  `{!P2pSender S, !Channel C Digest, !ChannelRx C Digest, !RethEngine W}.

Abbreviation Node := (Node (S := S) (C := C) (W := W)).
Abbreviation Event := (Event (S := S) (E := E)).
Abbreviation Actor := (Actor RethPayloadBuilder (NodeWorld W)).

Definition round_typed (r : Round) : Prop := is_u64 (round_epoch r) ∧ is_u64 (round_view r).

Definition info_typed (i : BlockInfo) : Prop :=
  is_u64 (bi_number i) ∧ is_u64 (bi_view i) ∧ is_u64 (bi_timestamp i) ∧
  is_u64 (bi_timestamp_millis i).

Definition request_typed (r : BuildPayloadRequest) : Prop :=
  is_u64 (req_parent_number r) ∧ is_u64 (req_parent_view r) ∧ is_u64 (req_epoch r) ∧
  is_u64 (req_view r) ∧ is_u64 (req_timestamp r) ∧ is_u64 (req_timestamp_millis r).

Definition counters_typed (m : option ConsensusMetrics) : Prop :=
  ∀ x, m = Some x → metrics_wf x.

Record node_typed (n : Node) : Prop := mk_node_typed {
  ty_infos : map_Forall (λ _, info_typed) (guarded (block_info (nd_actor n)));
  ty_count : is_u64 (proposal_count (nd_actor n));
  ty_counters : counters_typed (metrics (nd_actor n));
  ty_tracker : is_u64 (nw_tracker (actor_world (nd_actor n))).2;
}.

(** What the consensus engine's types promise of its calls. *)
Definition event_typed (e : Event) : Prop :=
  match e with
  | Ev_Message _ (Message_Propose p) => round_typed (p_round p) ∧ is_u64 (p_parent p).1
  | Ev_Message _ (Message_Verify v) => round_typed (v_round v)
  | _ => True
  end.

Context `{!RethEngineLaws W}.

Lemma div_1000_u64 z : is_u64 z → is_u64 (z / 1000).
Proof. unfold is_u64, u64_max. intros. split; [apply Z.div_pos; lia|]. apply Z.div_le_upper_bound; lia. Qed.

Lemma block_millis_u64 (b : EthBlock) : is_u64 (u64_saturating_mul (eth_timestamp b) 1000).
Proof. apply sat_mul_bound; [apply eth_u64|by vm_compute; split]. Qed.

Lemma counters_fmap f m :
  (∀ x, metrics_wf x → metrics_wf (f x)) → counters_typed m → counters_typed (f <$> m).
Proof. intros Hf Hm x (y & Hy & ->)%fmap_Some. auto. Qed.

Lemma counters_inc c m : counters_typed m → counters_typed (fetch_add c <$> m).
Proof. apply counters_fmap. intros. by apply fetch_add_wf. Qed.

(** *** Requests *)

Lemma propose_request_typed now (p : Propose) (st : Actor) k :
  map_Forall (λ _, info_typed) (guarded (block_info st)) →
  round_typed (p_round p) → is_u64 (p_parent p).1 →
  request_typed (propose_request now p (parent_of (guarded (block_info st)) (p_parent p).2) k).
Proof.
  intros Hinfo [He Hv] Hpv. set (par := parent_of _ _).
  assert (Hpar : is_u64 par.1.1 ∧ is_u64 par.2).
  { unfold par, parent_of. destruct (_ !! _) as [i|] eqn:Hi; cbn.
    - by destruct (Hinfo _ _ Hi) as (? & _ & _ & ?).
    - by split; vm_compute. }
  destruct (propose_request_stamps now p par k) as (Hms & Hts & _); [apply Hpar|].
  unfold request_typed. rewrite Hts.
  destruct Hpar as [Hpn _], par as [[pn ph] pms], p as [[pv pd] rd ld]. cbn -[Z.div] in *.
  split_and!; try done. by apply div_1000_u64.
Qed.

(** *** Preservation *)

Lemma message_metrics now (m : Message Recipients) (st : Actor) :
  counters_typed (metrics st) →
  counters_typed (metrics (exec_state (handle_message now m st))).
Proof.
  intros Hm. pose proof (λ c, counters_inc c _ Hm) as Hinc.
  pose proof (λ c d, counters_inc d _ (Hinc c)) as Hinc2.
  destruct m as [p|v|b]; cbn [handle_message]; [| |done].
  - unfold handle_propose. cbn -[build_payload]. destruct (lock_read _); [|apply Hinc].
    destruct (copy_from_slice _); [|apply Hinc].
    destruct (build_payload _ _ _) as [[] ]; [apply Hinc|apply Hinc2].
  - unfold handle_verify. destruct (validator_lookup _ _); [|apply Hinc].
    destruct (lookup_block_bytes _ _) as [[b|]|]; [|apply Hinc|done].
    destruct (validate_block _ _ _ _) as [[[meta|]|] w]; [|apply Hinc|apply Hinc2].
    destruct (negb _); apply Hinc.
Qed.

Lemma message_world now (m : Message Recipients) (st : Actor) :
  nw_tracker (actor_world (exec_state (handle_message now m st))) = nw_tracker (actor_world st).
Proof.
  destruct m as [p|v|b]; cbn [handle_message]; [| |done].
  - unfold handle_propose. cbn -[build_payload]. destruct (lock_read _); [|done].
    destruct (copy_from_slice _); [|done].
    cbn -[propose_request build_closure].
    match goal with |- context [build_closure ?d ?r ?w] =>
      pose proof (build_closure_tracker d r w) as Ht; by destruct (build_closure d r w) as [[] ]
    end.
  - unfold handle_verify. destruct (validator_lookup _ _); [|done].
    destruct (lookup_block_bytes _ _) as [[b|]|]; [|done|done].
    cbn -[validate_closure Z.div].
    match goal with |- context [validate_closure ?r ?w] =>
      pose proof (validate_closure_tracker r w) as Ht;
      destruct (validate_closure r w) as [[[meta|]|] w']; [|done|done]
    end. by destruct (negb _).
Qed.

Lemma message_count now (m : Message Recipients) (st : Actor) :
  is_u64 (proposal_count st) → is_u64 (proposal_count (exec_state (handle_message now m st))).
Proof.
  intros Hc. destruct m as [p|v|b]; cbn [handle_message]; [| |done].
  - unfold handle_propose. cbn -[build_payload wrap]. pose proof (wrap64_bound (proposal_count st + 1)).
    destruct (lock_read _); [|done]. destruct (copy_from_slice _); [|done].
    by destruct (build_payload _ _ _) as [[] ].
  - unfold handle_verify. destruct (validator_lookup _ _); [|done].
    destruct (lookup_block_bytes _ _) as [[b|]|]; [|done|done].
    destruct (validate_block _ _ _ _) as [[[meta|]|] w]; [|done|done]. by destruct (negb _).
Qed.

Lemma message_infos now (m : Message Recipients) (st : Actor) :
  event_typed (Ev_Message now m) →
  map_Forall (λ _, info_typed) (guarded (block_info st)) →
  map_Forall (λ _, info_typed) (guarded (block_info (exec_state (handle_message now m st)))).
Proof.
  intros He Hi. destruct (handle_message_effect now m st) as [m st' Hs|p k b w r Hb|v meta w Ha].
  - unfold stores in Hs. by replace (block_info st') with (block_info st) by congruence.
  - cbn. apply lock_update_ind; [done|]. intros _. apply map_Forall_insert_2; [|done].
    apply reth_build_Ok in Hb as (block & -> & Hts). destruct (eth_u64 block).
    unfold info_typed. cbn -[r u64_saturating_mul]. rewrite <- Hts.
    split_and!; [done|apply He|done|apply block_millis_u64].
  - cbn. apply lock_update_ind; [done|]. intros _. apply map_Forall_insert_2; [|done].
    destruct Ha as (_ & (b & _ & Hv) & _). cbn in Hv.
    apply validate_closure_Valid in Hv as (block & rest & _ & _ & ->). destruct (eth_u64 block).
    unfold info_typed. cbn -[u64_saturating_mul].
    split_and!; [done|apply He|done|apply block_millis_u64].
Qed.

(** The finalizer copies the number of a recorded block. *)
Lemma finalizer_typed n : node_typed n → node_typed (finalizer_turn n).
Proof.
  intros [Hi Hc Hm Ht]. unfold finalizer_turn. destruct (nd_finalized n) as [c|]; [|done].
  destruct (chan_recv c) as [d c'| |]; [|done..]. split; cbn; [done..|].
  destruct (finalize_cases d (block_info (nd_actor n)) (actor_world (nd_actor n)))
    as [(i & (_ & Hd & _) & ->)|[_ ->]]; [|done]. by apply (Hi _ _ Hd).
Qed.

Lemma node_step_typed (e : Event) n :
  event_typed e → node_typed n → node_typed (exec_state (node_step e n)).
Proof.
  intros He Hn. pose proof Hn as [Hi Hc Hm Ht]. destruct e as [now m|d plan|e|a|]; cbn [node_step].
  - pose proof (message_infos now m (nd_actor n) He Hi). pose proof (message_count now m _ Hc).
    pose proof (message_metrics now m _ Hm). pose proof (message_world now m (nd_actor n)) as Hw.
    rewrite <- Hw in Ht. by destruct (handle_message now m (nd_actor n)); split.
  - unfold broadcast. destruct (lock_read _) as [g|]; [|by split].
    destruct (g !! d); [|by split]. destruct (check _ _) as [[chk|] s]; cbn.
    + destruct (checked_send _ _ _ _) as [o s']. split; cbn; [done..| |done].
      destruct (accepted o); by apply counters_inc.
    + split; cbn; [done..| |done]. by apply counters_inc.
  - destruct (receive_block_spec e (node_receiver n)) as [Hs [q Hq]].
    apply exec_done in Hq. rewrite Hq. cbn [lift_exec exec_state]. rewrite Hs.
    destruct (event_block e); [|destruct e]; split; cbn; try done; try by apply counters_inc.
    destruct (poisoned _); by apply counters_inc.
  - split; cbn; [done..| |done]. destruct a; try done. by apply counters_inc.
  - by apply finalizer_typed.
Qed.

Lemma node_run_typed (es : list Event) n :
  Forall event_typed es → node_typed n → node_typed (node_run es n).
Proof.
  intros Hes. revert n. induction Hes as [|e es He _ IH]; intros n Hn; [done|].
  apply IH, node_step_typed; done.
Qed.

Lemma fresh_node_typed vs builder m ghash gms w sender fin :
  is_u64 gms → counters_typed m → is_u64 (nw_tracker w).2 →
  node_typed (fresh_node (S := S) (C := C) vs builder m ghash gms w sender fin).
Proof.
  intros Hg Hm Hw. split; cbn; [|by vm_compute|done|done].
  apply map_Forall_insert_2; [|apply map_Forall_empty]. unfold info_typed. cbn -[Z.div].
  split_and!; [by vm_compute|by vm_compute|by apply div_1000_u64|done].
Qed.

(** ** Property *)

(** C14: machine integers stay machine integers: from a start on typed values,
    whatever typed events come in whatever order, every number, view, second
    and millisecond a node records, its proposal count, its fourteen counters
    and its tracker's number fit in 64 bits, and so does every integer of any
    request a proposal would then hand to the payload builder. *)
Theorem node_well_typed vs builder m ghash gms w sender fin (es : list Event) :
  is_u64 gms → counters_typed m → is_u64 (nw_tracker w).2 → Forall event_typed es →
  let n := node_run es (fresh_node (S := S) (C := C) vs builder m ghash gms w sender fin) in
  node_typed n ∧
  ∀ now p k, round_typed (p_round p) → is_u64 (p_parent p).1 →
    request_typed (propose_request now p
      (parent_of (guarded (block_info (nd_actor n))) (p_parent p).2) k).
Proof.
  intros Hg Hm Hw Hes n. assert (Hn : node_typed n) by by apply node_run_typed, fresh_node_typed.
  split; [done|]. intros. apply propose_request_typed; [apply Hn|done|done].
Qed.
End typing.

(** ** Witness *)

Lemma sample_counters : counters_typed (Some metrics_new).
Proof. intros x [= <-]. apply metrics_new_wf. Qed.

Lemma u64_0 : is_u64 0.
Proof. by vm_compute; split. Qed.

(** The sample run ends with the block recorded, and the node typed. *)
Lemma node_well_typed_witness :
  node_typed (node_run sample_run sample_node) ∧
  (λ i, (bi_number i, bi_timestamp i)) <$>
    guarded (block_info (nd_actor (node_run sample_run sample_node))) !! built_digest =
    Some (1, 1700000001).
Proof.
  destruct (node_well_typed sample_validators sample_reth (Some metrics_new) sample_genesis_hash
    1700000000000 sample_world [] (Some (mk_ref_queue [] 32 true)) sample_run
    sample_gms sample_counters u64_0) as [Hn _].
  - repeat constructor; cbn; apply (bool_decide_unpack (is_u64 _)); vm_compute; exact I.
  - split; [exact Hn|]. vm_compute. reflexivity.
Defined.
