(* ===== verification/Interleaving.v ===== *)
(** * Handlers that wait: their halves, and reorderings of events

    [handle_propose] and [handle_verify] of application.rs wait for the payload
    builder.  Here each is split where the waiting starts.  What follows it is
    one function here only for the run of a handler that nothing steps into;
    [Concurrent.v] takes it apart, turn by turn, and shows that the turns come
    to this function when no other task steps between them.  The second part
    says when two runs are the same events, each task's in its own order, and
    what the receiver and the relay do to the shared state, for
    [Linearize.v]. *)

From S2P Require Import Prelude Extern Reference Digest Validators Metrics Error Executor.
From S2P Require Import ReferenceBuilder Application Engine Reth Builder Finalizer Node.
Local Open Scope Z_scope.

(** ** The two halves of each handler *)

Section halves.
Context `{!Ed25519} {P W : Type} `{!PayloadBuilder P W}.
Implicit Types (st : Actor P W).

(** Up to the call of the builder: the request, or no answer. *)
Definition propose_begin (now : SystemTime) (msg : Propose) st :
    Exec (option BuildPayloadRequest) (Actor P W) :=
  let st := set_proposal_count (wrap 64 (proposal_count st + 1)) st in
  let st := on_metrics inc_blocks_proposed st in
  match lock_read (block_info st) with
  | Err _ => Done None st
  | Ok guard =>
    let parent := parent_of guard (p_parent msg).2 in
    match copy_from_slice (pk_as_ref (p_leader msg)) with
    | None => Panicked st
    | Some proposer_bytes => Done (Some (propose_request now msg parent proposer_bytes)) st
    end
  end.

(** From the call of the builder on, when no other task steps meanwhile: the
    builder reads the tracker and waits for the engine many times, and the
    three stores are under three locks ([Concurrent.actor_turn]). *)
Definition propose_finish (msg : Propose) (request : BuildPayloadRequest) st :
    option Digest * Actor P W :=
  let '(built, w) := build_payload (payload_builder st) request (actor_world st) in
  let st := set_world w st in
  match built with
  | Err _ => (None, on_metrics inc_errors st)
  | Ok payload =>
    let digest := mk_Digest (bp_block_hash payload) in
    let st := set_block_info (lock_update (<[digest := {|
        bi_number := bp_block_number payload;
        bi_hash := bp_block_hash payload;
        bi_view := round_view (p_round msg);
        bi_proposer := p_leader msg;
        bi_timestamp := req_timestamp request;
        bi_timestamp_millis := bp_timestamp_millis payload |}]>) (block_info st)) st in
    let st := set_pending
      (lock_update (<[digest := bp_block_bytes payload]>) (pending_blocks st)) st in
    let st := set_proposals (lock_update (λ l, l ++ [digest]) (proposals st)) st in
    (Some digest, st)
  end.

(** Up to the call of the builder: the bytes to validate, or the answer.  The
    pending and the received blocks are looked up under one lock after the
    other; between the two only the receiver can write, and only the second. *)
Definition verify_begin (msg : Verify) st : (bytes + option bool) * Actor P W :=
  match validator_lookup (actor_validators st) (v_proposer msg) with
  | None => (inr (Some false), on_metrics inc_failed_validations st)
  | Some _ =>
    match lookup_block_bytes (v_payload msg) st with
    | Err _ => (inr (Some false), st)
    | Ok None => (inr (Some false), on_metrics inc_failed_validations st)
    | Ok (Some block_bytes) => (inl block_bytes, st)
    end
  end.

(** From the engine's call on, when no other task steps meanwhile. *)
Definition verify_finish (msg : Verify) (block_bytes : bytes) st : option bool * Actor P W :=
  let expected_parent_hash := digest_get (v_parent msg).2 in
  let '(validated, w) :=
    validate_block (payload_builder st) block_bytes expected_parent_hash (actor_world st) in
  let st := set_world w st in
  match validated with
  | Ok (Valid meta) =>
    if negb (bm_timestamp_millis meta / 1000 =? bm_timestamp meta)
    then (Some false, on_metrics inc_failed_validations st)
    else
      let st := set_block_info (lock_update (<[v_payload msg := {|
          bi_number := bm_number meta;
          bi_hash := bm_hash meta;
          bi_view := round_view (v_round msg);
          bi_proposer := v_proposer msg;
          bi_timestamp := bm_timestamp meta;
          bi_timestamp_millis := bm_timestamp_millis meta |}]>) (block_info st)) st in
      (Some true, on_metrics inc_blocks_verified st)
  | Ok (Invalid _) => (Some false, on_metrics inc_failed_validations st)
  | Err _ => (Some false, on_metrics inc_failed_validations (on_metrics inc_errors st))
  end.

(** A handler is its two halves. *)
Lemma handle_propose_halves now msg st :
  handle_propose now msg st =
  match propose_begin now msg st with
  | Panicked st => Panicked st
  | Done None st => Done None st
  | Done (Some request) st =>
    let '(answer, st) := propose_finish msg request st in Done answer st
  end.
Proof.
  unfold handle_propose, propose_begin, propose_finish.
  destruct (lock_read _); [|done]. destruct (copy_from_slice _); [|done].
  by destruct (build_payload _ _ _) as [[] ].
Qed.

Lemma handle_verify_halves msg st :
  handle_verify msg st =
  match verify_begin msg st with
  | (inr answer, st) => (answer, st)
  | (inl block_bytes, st) => verify_finish msg block_bytes st
  end.
Proof.
  unfold handle_verify, verify_begin, verify_finish.
  destruct (validator_lookup _ _); [|done]. by destruct (lookup_block_bytes _ _) as [[]|].
Qed.
End halves.

(** ** What the other tasks do to a node *)

Section interleaving.
Context `{!Ed25519, !ActorFeedback} {S C W E : Type}
  `{!P2pSender S, !Channel C Digest, !ChannelRx C Digest, !RethEngine W}.

Abbreviation Node := (Node (S := S) (C := C) (W := W)).
Abbreviation Event := (Event (S := S) (E := E)).
Abbreviation Message := (Message Recipients).
Abbreviation Actor := (Actor RethPayloadBuilder (NodeWorld W)).

Definition put_actor (a : Actor) (n : Node) : Node := mk_Node a (nd_sender n) (nd_finalized n).

(** *** What the receiver does to the actor: a store and a counter *)

Definition recv_store (r : Result (PublicKey * bytes) E) (rx : BlockStore) : BlockStore :=
  match event_block r with
  | Some x => lock_update (λ m, store_block m x) rx
  | None => rx
  end.
Definition recv_count (r : Result (PublicKey * bytes) E) (rx : BlockStore) : option Counter :=
  match event_block r with
  | Some _ => Some (if poisoned rx then ErrorsTotal else BlocksReceived)
  | None => match r with Ok _ => None | Err _ => Some ErrorsTotal end
  end.
Definition recv_actor (r : Result (PublicKey * bytes) E) (a : Actor) : Actor :=
  set_metrics (bump (recv_count r (received_blocks a)) (metrics a))
    (set_received (recv_store r (received_blocks a)) a).

Lemma receive_step r n :
  exec_state (node_step (E := E) (Ev_Receive r) n) = put_actor (recv_actor r (nd_actor n)) n.
Proof.
  cbn [node_step]. destruct (receive_block_spec r (node_receiver n)) as [Hs [q Hq]].
  apply exec_done in Hq. rewrite Hq. cbn [lift_exec exec_state]. rewrite Hs.
  unfold put_receiver, put_actor, recv_actor, recv_store, recv_count. f_equal.
  destruct (event_block r); [cbn; by destruct (poisoned _)|]. by destruct r.
Qed.

(** *** What the relay does: a send and a counter, by the pending blocks *)

Lemma broadcast_effect d plan (pend : BlockStore) (s : S) :
  ∃ s' c, ∀ m, exec_state (broadcast d plan (mk_BlockRelay pend s m)) =
    mk_BlockRelay pend s' (bump c m).
Proof.
  unfold broadcast. cbn. destruct (lock_read pend) as [g|]; [|by exists s, None].
  destruct (g !! d) as [b|]; [|by exists s, None].
  destruct (check _ _) as [[chk|] s1]; [|by exists s1, (Some ErrorsTotal)].
  destruct (checked_send _ _ _ _) as [o s2].
  exists s2, (Some (if accepted o then BlocksBroadcast else ErrorsTotal)).
  intros m. cbn. by destruct (accepted o).
Qed.

Lemma put_actor_self n : put_actor (nd_actor n) n = n.
Proof. by destruct n. Qed.

(** *** Runs *)

Lemma node_run_app (es es' : list Event) n : node_run (es ++ es') n = node_run es' (node_run es n).
Proof. revert n. induction es as [|e es IH]; intros n; [done|]. apply IH. Qed.

Abbreviation receives := (fmap (M := list) (Ev_Receive (S := S) (E := E))).

(** The tasks an event belongs to: the actor, the receiver, or another. *)
Inductive Kind : Type := Kind_Actor | Kind_Receiver | Kind_Other.
#[export] Instance Kind_eq_dec : EqDecision Kind.
Proof. solve_decision. Defined.

Definition kind (e : Event) : Kind :=
  match e with
  | Ev_Message _ _ => Kind_Actor
  | Ev_Receive _ => Kind_Receiver
  | _ => Kind_Other
  end.

Definition of_kind (k : Kind) (es : list Event) : list Event := filter (λ e, kind e = k) es.

(** The same events, each task's in its own order. *)
Definition reordering (es es' : list Event) : Prop := ∀ k, of_kind k es = of_kind k es'.

Lemma of_kind_app k es es' : of_kind k (es ++ es') = of_kind k es ++ of_kind k es'.
Proof. apply filter_app. Qed.

Lemma of_kind_cons k e es :
  of_kind k (e :: es) = if decide (kind e = k) then e :: of_kind k es else of_kind k es.
Proof. done. Qed.

Lemma of_kind_receives rs : of_kind Kind_Other (receives rs) = [].
Proof. by induction rs as [|r rs IH]. Qed.

Lemma reordering_snoc es es' e : reordering es es' → reordering (es ++ [e]) (es' ++ [e]).
Proof. intros Hr k. by rewrite !of_kind_app, Hr. Qed.

(** An event of another task moves before a message and what was received. *)
Lemma reordering_quiet es l es' (e : Event) :
  kind e = Kind_Other → of_kind Kind_Other l = [] → reordering (es ++ l) es' →
  reordering ((es ++ [e]) ++ l) (es' ++ [e]).
Proof.
  intros He Hl Hr k. rewrite !of_kind_app, <- Hr, of_kind_app.
  destruct (decide (k = Kind_Other)) as [->|Hk].
  - by rewrite Hl, !app_nil_r.
  - rewrite of_kind_cons, decide_False by congruence. by rewrite !app_nil_r.
Qed.

Lemma kinds_permutation es :
  es ≡ₚ of_kind Kind_Actor es ++ of_kind Kind_Receiver es ++ of_kind Kind_Other es.
Proof.
  induction es as [|e es IH]; [done|]. rewrite !of_kind_cons.
  destruct (kind e); cbn [decide Kind_eq_dec Kind_rec Kind_rect]; rewrite IH at 1; solve_Permutation.
Qed.

Lemma reordering_permutation es es' : reordering es es' → es ≡ₚ es'.
Proof. intros Hr. rewrite (kinds_permutation es), !Hr. symmetry. apply kinds_permutation. Qed.

End interleaving.
