(* ===== verification/Network.v ===== *)
(** * A network of nodes

    Nodes of [Node.v] whose block channels are connected: what a node's relay
    has sent may be delivered to any node, at any time, any number of times,
    or never; next to that an adversary injects messages of its choice.  The
    consensus engines are outside, as in [Node.v]: their calls to the actor
    and the relay are events that may come in any order, so that what is
    proved holds whatever they agree on.

    The network refines the abstract ledger of [Ledger.v] as long as no
    injected message carries a block under another block's digest. *)

From S2P Require Import Prelude Extern Reference Digest Ledger Validators Metrics Error Executor.
From S2P Require Import ReferenceBuilder Application Engine Reth Builder Finalizer Node.
Local Open Scope Z_scope.

Section network.
Context `{!Ed25519, !ActorFeedback} {S C W E : Type}
  `{!P2pSender S, !P2pWire S, !Channel C Digest, !ChannelRx C Digest, !RethEngine W}.

Abbreviation Node := (Node (S := S) (C := C) (W := W)).
Abbreviation Event := (Event (S := S) (E := E)).
Abbreviation Net := (list Node).

(** ** Steps *)

(** An event that is not a message of the network. *)
Definition local_event (e : Event) : bool :=
  match e with Ev_Receive (Ok _) => false | _ => true end.

Inductive Label : Type :=
| Lb_Local (i : nat) (e : Event)
| Lb_Deliver (i j : nat) (k : PublicKey) (m : bytes)
| Lb_Inject (j : nat) (k : PublicKey) (m : bytes).

Definition node_turn (i : nat) (e : Event) (ns : Net) : option Net :=
  (λ n, <[i := exec_state (node_step e n)]> ns) <$> ns !! i.

Definition net_exec (l : Label) (ns : Net) : option Net :=
  match l with
  | Lb_Local i e => if local_event e then node_turn i e ns else None
  | Lb_Deliver i j k m =>
    match ns !! i with
    | Some n =>
      if decide (m ∈ sent (nd_sender n)) then node_turn j (Ev_Receive (Ok (k, m))) ns else None
    | None => None
    end
  | Lb_Inject j k m => node_turn j (Ev_Receive (Ok (k, m))) ns
  end.

Fixpoint net_run (ls : list Label) (ns : Net) : option Net :=
  match ls with
  | [] => Some ns
  | l :: ls => net_exec l ns ≫= net_run ls
  end.

(** [adv]: the messages the adversary may inject. *)
Definition allowed (adv : bytes → Prop) (l : Label) : Prop :=
  match l with Lb_Inject _ _ m => adv m | _ => True end.

Definition net_step (adv : bytes → Prop) (ns ns' : Net) : Prop :=
  ∃ l, allowed adv l ∧ net_exec l ns = Some ns'.

(** ** How a network starts *)

Record NodeConfig : Type := mk_NodeConfig {
  cfg_validators : ValidatorSet;
  cfg_builder : RethPayloadBuilder;
  cfg_metrics : option ConsensusMetrics;
  cfg_world : NodeWorld W;
  cfg_sender : S;
  cfg_finalized : option C;
}.

(** Every node starts fresh, on one genesis. *)
Definition start_node (ghash : B256) (gms : Z) (c : NodeConfig) : Node :=
  fresh_node (cfg_validators c) (cfg_builder c) (cfg_metrics c) ghash gms (cfg_world c)
    (cfg_sender c) (cfg_finalized c).

Definition start_net (ghash : B256) (gms : Z) (cs : list NodeConfig) : Net :=
  start_node ghash gms <$> cs.

Definition quiet (c : NodeConfig) : Prop := sent (cfg_sender c) = [].

(** ** The abstraction *)

Definition block_digest (b : EthBlock) : Digest := mk_Digest (eth_hash_slow b).
Definition block_fact (b : EthBlock) : Fact :=
  (eth_hash_slow b, eth_number b, eth_timestamp b, u64_saturating_mul (eth_timestamp b) 1000).
Definition fact_of (i : BlockInfo) : Fact :=
  (bi_hash i, bi_number i, bi_timestamp i, bi_timestamp_millis i).

Definition node_infos (n : Node) : gmap Digest BlockInfo := guarded (block_info (nd_actor n)).
Definition node_facts (n : Node) : gmap Digest Fact := fact_of <$> node_infos n.
Definition net_ledger (ns : Net) : list (gmap Digest Fact) := node_facts <$> ns.

Definition genesis_fact (ghash : B256) (gms : Z) : Fact := (ghash, 0, gms / 1000, gms).

(** A stored block decodes to nothing but the block of its digest, and a
    message carries a block under no other digest. *)
Definition bound (d : Digest) (b : bytes) : Prop :=
  ∀ block rest, eth_decode b = Ok (block, rest) → d = block_digest block.

Definition harmless (m : bytes) : Prop :=
  ∀ d b, parse_wire m = Some (d, b) → bound d b.

Record net_node_ok (n : Node) : Prop := mk_net_node_ok {
  nn_node : node_ok n;
  nn_received : map_Forall bound (guarded (received_blocks (nd_actor n)));
  nn_sent : ∀ m, m ∈ sent (nd_sender n) → harmless m;
}.

Definition safe_event (e : Event) : Prop :=
  match e with Ev_Receive (Ok (_, m)) => harmless m | _ => True end.

Context `{!RethEngineLaws W, !Ed25519Laws, !P2pWireLaws S}.

Lemma genuine_bound d b : genuine d b → bound d b.
Proof.
  intros (block & -> & Hd) block' rest Hdec.
  rewrite eth_decode_encode in Hdec. simplify_eq. by destruct d; cbn in *; subst.
Qed.

Lemma wire_harmless d b : bound d b → harmless (wire_message d b).
Proof. intros Hb d' b' Hw. rewrite parse_wire_message in Hw. by simplify_eq. Qed.

(** *** What an event does to the received blocks and to what was sent *)

Lemma node_step_received (e : Event) n :
  node_ok n →
  received_blocks (nd_actor (exec_state (node_step e n))) =
  match e with
  | Ev_Receive e => match event_block e with
      | Some x => lock_update (λ m, store_block m x) (received_blocks (nd_actor n))
      | None => received_blocks (nd_actor n)
      end
  | _ => received_blocks (nd_actor n)
  end.
Proof.
  intros Hok. destruct e as [now m|d plan|e|a|]; cbn [node_step].
  - pose proof (handle_message_effect now m (nd_actor n)) as He.
    destruct (handle_message now m (nd_actor n)) as [r st'|st']; cbn in *;
      destruct He as [? ? Hs|p k b w r' _|v meta w _]; unfold stores in *; cbn; congruence.
  - by destruct (broadcast d plan (node_relay n)).
  - destruct (receive_block_spec e (node_receiver n)) as [Hs [p Hp]].
    apply exec_done in Hp. rewrite Hp. cbn. rewrite Hs.
    destruct (event_block e); [done|]. by destruct e.
  - done.
  - unfold finalizer_turn. destruct (nd_finalized n) as [c|]; [|done].
    by destruct (chan_recv c).
Qed.

Lemma node_step_sent (e : Event) n m :
  node_ok n → m ∈ sent (nd_sender (exec_state (node_step e n))) →
  m ∈ sent (nd_sender n) ∨
  ∃ d b, m = wire_message d b ∧ guarded (pending_blocks (nd_actor n)) !! d = Some b.
Proof.
  intros [_ (_ & Hp & _) _]. destruct e as [now m0|d plan|e|a|]; cbn [node_step].
  - destruct (handle_message now m0 (nd_actor n)); by left.
  - destruct (guarded (pending_blocks (nd_actor n)) !! d) as [b|] eqn:Hd.
    2: { unfold broadcast, lock_read. cbn. rewrite Hp, Hd. by left. }
    destruct (broadcast_known d plan (node_relay n) b Hp Hd) as (r' & c & -> & _ & _ & Hs).
    cbn. pose proof (sent_check (plan_recipients plan) (relay_sender (node_relay n))) as Hc.
    destruct (check _ _) as [[chk|t] s]; cbn in Hc; [|destruct Hs as [-> _]; rewrite Hc; by left].
    pose proof (sent_checked_send chk (wire_message d b) false s) as Hw.
    destruct (checked_send _ _ _ _) as [o s']. destruct Hs as [-> _]. cbn in Hw.
    rewrite Hc in Hw. destruct Hw as [->|[_ ->]]; [|by left].
    intros [Hm| ->%list_elem_of_singleton]%elem_of_app; [by left|]. right. eauto.
  - by destruct (receive_block e (node_receiver n)); left.
  - by left.
  - unfold finalizer_turn. destruct (nd_finalized n) as [c|]; [|by left].
    by destruct (chan_recv c); left.
Qed.

(** Harmless events keep a node's stores bound. *)
Lemma net_node_step_ok (e : Event) n :
  net_node_ok n → safe_event e → net_node_ok (exec_state (node_step e n)).
Proof.
  intros [Hok Hrx Hsent] He. split.
  - by apply node_step_ok.
  - rewrite node_step_received by done. destruct e as [| |[[k m]|]| |]; try done. cbn in *.
    destruct (parse_wire m) as [[d b]|] eqn:Hw; [|done].
    apply lock_update_ind; [done|]. intros. apply map_Forall_insert_2; [by apply He|done].
  - intros m [Hm|(d & b & -> & Hd)]%node_step_sent; [by apply Hsent| |done].
    apply wire_harmless, genuine_bound. exact (ok_pending _ Hok _ _ Hd).
Qed.

(** *** What an event does to the recorded facts: nothing, or one block is
    learnt under its own digest *)

Lemma infos_insert n n' d i :
  unpoisoned (nd_actor n) →
  block_info (nd_actor n') = lock_update (<[d := i]>) (block_info (nd_actor n)) →
  node_facts n' = <[d := fact_of i]> (node_facts n).
Proof.
  intros (_ & _ & _ & Hi) Hb. unfold node_facts, node_infos.
  by rewrite Hb, lock_update_guarded, fmap_insert.
Qed.

(** The bytes an actor finds for a digest are bound to it. *)
Lemma lookup_bound n d b :
  net_node_ok n → lookup_block_bytes d (nd_actor n) = Ok (Some b) → bound d b.
Proof.
  intros [[_ (_ & Hp & Hr & _) Hg] Hrx _]. unfold lookup_block_bytes, lock_read.
  rewrite Hp, Hr. cbn. destruct (_ !! d) as [b'|] eqn:Hd; intros [= Hb].
  - subst. by apply genuine_bound, Hg.
  - by eapply Hrx.
Qed.

Definition learns (n n' : Node) : Prop :=
  node_facts n' = node_facts n ∨
  ∃ block, node_facts n' = <[block_digest block := block_fact block]> (node_facts n).

Lemma learns_same n n' : block_info (nd_actor n') = block_info (nd_actor n) → learns n n'.
Proof. intros Hi. left. unfold node_facts, node_infos. by rewrite Hi. Qed.

Lemma learns_ledger (ns : Net) i n n' :
  ns !! i = Some n → learns n n' →
  net_ledger (<[i := n']> ns) = net_ledger ns ∨
  ledger_step block_digest block_fact (net_ledger ns) (net_ledger (<[i := n']> ns)).
Proof.
  intros Hi Hl. assert (Hf : net_ledger ns !! i = Some (node_facts n))
    by (unfold net_ledger; by rewrite list_lookup_fmap, Hi).
  unfold net_ledger at 1 4. rewrite list_fmap_insert. fold (net_ledger ns).
  destruct Hl as [->|[block ->]]; [left; by apply list_insert_id|right; by apply learn].
Qed.

Lemma node_step_facts (e : Event) n :
  net_node_ok n → learns n (exec_state (node_step e n)).
Proof.
  intros Hn. destruct e as [now m|d plan|e|a|]; cbn [node_step].
  2: by destruct (broadcast d plan (node_relay n)); left.
  2: by destruct (receive_block e (node_receiver n)); left.
  2: by left.
  2: { left. unfold finalizer_turn. destruct (nd_finalized n) as [c|]; [|done].
       by destruct (chan_recv c). }
  pose proof Hn as [[_ Hl _] _ _].
  pose proof (handle_message_effect now m (nd_actor n)) as He.
  set (put := λ a, mk_Node a (nd_sender n) (nd_finalized n)).
  replace (exec_state (lift_exec put (handle_message now m (nd_actor n))))
    with (put (exec_state (handle_message now m (nd_actor n)))) by by destruct handle_message.
  destruct He as [m st' Hs|p k b w r Hb|v meta w (_ & (b & Hb & Hv) & _)].
  - left. unfold node_facts, node_infos, stores in *. cbn. congruence.
  - right. apply reth_build_Ok in Hb as (block & -> & Hts). exists block.
    erewrite infos_insert; [|done|by cbn]. unfold fact_of, block_fact. cbn -[propose_request].
    by rewrite Hts.
  - right. pose proof (lookup_bound _ _ _ Hn Hb) as Hbound.
    cbn in Hv. apply validate_closure_Valid in Hv as (block & rest & Hdec & _ & ->).
    exists block. erewrite infos_insert; [|done|by cbn].
    by rewrite (Hbound _ _ Hdec).
Qed.

(** *** Steps of the network *)

Definition net_ok (ns : Net) : Prop := Forall net_node_ok ns.

Lemma node_turn_ok i (e : Event) ns ns' :
  net_ok ns → safe_event e → node_turn i e ns = Some ns' → net_ok ns'.
Proof.
  intros Hns He Ht. unfold node_turn in Ht.
  apply fmap_Some in Ht as (n & Hi & ->). apply Forall_insert; [done|].
  apply net_node_step_ok; [|done]. by eapply Forall_lookup_1.
Qed.

Lemma node_turn_ledger i (e : Event) ns ns' :
  net_ok ns → node_turn i e ns = Some ns' →
  net_ledger ns' = net_ledger ns ∨
  ledger_step block_digest block_fact (net_ledger ns) (net_ledger ns').
Proof.
  intros Hns Ht. apply fmap_Some in Ht as (n & Hi & ->).
  apply (learns_ledger ns i n); [done|]. apply node_step_facts. by eapply Forall_lookup_1.
Qed.

(** A step is one node's turn, on a safe event when the adversary is. *)
Lemma net_step_turn adv ns ns' :
  net_ok ns → (∀ m, adv m → harmless m) → net_step adv ns ns' →
  ∃ i e, safe_event e ∧ node_turn i e ns = Some ns'.
Proof.
  intros Hns Hadv ([i e|i j k m|j k m] & Ha & Hx); cbn in *.
  - destruct (local_event e) eqn:Hl; [|done]. exists i, e.
    split; [|done]. by destruct e as [| |[[]|]| |].
  - destruct (ns !! i) as [n|] eqn:Hi; [|done]. case_decide as Hm; [|done].
    exists j, (Ev_Receive (Ok (k, m))). split; [|done].
    eapply nn_sent; [|done]. by eapply Forall_lookup_1.
  - exists j, (Ev_Receive (Ok (k, m))). split; [by apply Hadv|done].
Qed.

Lemma net_step_ok adv ns ns' :
  (∀ m, adv m → harmless m) → net_step adv ns ns' → net_ok ns → net_ok ns'.
Proof.
  intros Hadv Hs Hns. destruct (net_step_turn adv ns ns') as (i & e & He & Ht); [done..|].
  by eapply node_turn_ok.
Qed.

Lemma start_net_ok ghash gms cs :
  is_u64 gms → Forall quiet cs → net_ok (start_net ghash gms cs).
Proof.
  intros Hu Hq. apply Forall_fmap. eapply Forall_impl; [exact Hq|].
  intros c Hc. split; cbn.
  - by apply fresh_node_ok.
  - apply map_Forall_empty.
  - intros m. rewrite Hc. by intros ?%elem_of_nil.
Qed.

Lemma start_net_ledger ghash gms cs :
  net_ledger (start_net ghash gms cs) = ledger_init (length cs) (genesis_fact ghash gms).
Proof.
  unfold net_ledger, start_net, ledger_init. rewrite <- list_fmap_compose.
  induction cs as [|c cs IH]; [done|].
  refine (f_equal2 cons _ IH).
  unfold node_facts, node_infos. cbn -[insert fmap]. by rewrite fmap_insert, fmap_empty.
Qed.

Lemma net_simulation adv ns ns' :
  (∀ m, adv m → harmless m) → net_ok ns → rtc (net_step adv) ns ns' →
  net_ok ns' ∧ rtc (ledger_step block_digest block_fact) (net_ledger ns) (net_ledger ns').
Proof.
  intros Hadv Hns Hr. induction Hr as [|ns ns1 ns' Hs _ IH]; [by split|].
  pose proof (net_step_ok _ _ _ Hadv Hs Hns) as Hok1.
  destruct (IH Hok1) as [Hok' Hr]. split; [done|].
  destruct (net_step_turn adv ns ns1) as (i & e & _ & Ht); [done..|].
  destruct (node_turn_ledger i e ns ns1) as [Heq|Hl]; [done..|by rewrite <- Heq|].
  by eapply rtc_l.
Qed.

(** *** Running labels *)

Lemma net_exec_step adv l ns ns' : allowed adv l → net_exec l ns = Some ns' → net_step adv ns ns'.
Proof. by exists l. Qed.

(** One label at a time. *)
Lemma run_local i (e : Event) n ls ns :
  local_event e = true → ns !! i = Some n →
  net_run (Lb_Local i e :: ls) ns = net_run ls (<[i := exec_state (node_step e n)]> ns).
Proof. intros He Hi. cbn. by rewrite He; unfold node_turn; rewrite Hi. Qed.

Lemma run_deliver i j k m n n' ls ns :
  ns !! i = Some n → m ∈ sent (nd_sender n) → ns !! j = Some n' →
  net_run (Lb_Deliver i j k m :: ls) ns =
  net_run ls (<[j := exec_state (node_step (E := E) (Ev_Receive (Ok (k, m))) n')]> ns).
Proof.
  intros Hi Hm Hj. cbn [net_run net_exec]. rewrite Hi, decide_True by done.
  unfold node_turn. by rewrite Hj.
Qed.

Lemma run_inject j k m n ls ns :
  ns !! j = Some n →
  net_run (Lb_Inject j k m :: ls) ns =
  net_run ls (<[j := exec_state (node_step (E := E) (Ev_Receive (Ok (k, m))) n)]> ns).
Proof. intros Hj. cbn [net_run net_exec]. unfold node_turn. by rewrite Hj. Qed.

Lemma lookup_insert_self {A} (l : list A) i a b : l !! i = Some a → <[i := b]> l !! i = Some b.
Proof. intros Hi. apply list_lookup_insert_eq. by eapply lookup_lt_Some. Qed.

Lemma lookup_insert_other {A} (l : list A) i j a b :
  i ≠ j → l !! j = Some a → <[i := b]> l !! j = Some a.
Proof. intros. by rewrite list_lookup_insert_ne. Qed.

Lemma net_run_steps adv ls ns ns' :
  Forall (allowed adv) ls → net_run ls ns = Some ns' → rtc (net_step adv) ns ns'.
Proof.
  revert ns. induction ls as [|l ls IH]; cbn; intros ns Ha Hr; [by simplify_eq|].
  apply Forall_cons in Ha as [Hl Ha]. apply bind_Some in Hr as (ns1 & Hx & Hr).
  eapply rtc_l; [by eapply net_exec_step|by apply IH].
Qed.

(** A node that is delivered a block it has no own bytes for, and whose engine
    finds it valid, accepts it and records it - under whatever digest it came
    with. *)
Definition received_and_verified (k : PublicKey) d b now (v : Verify) n : Node :=
  exec_state (node_step (E := E) (Ev_Message now (Message_Verify v))
    (exec_state (node_step (E := E) (Ev_Receive (Ok (k, wire_message d b))) n))).

Lemma receive_then_verify k d b now (v : Verify) n meta w :
  unpoisoned (nd_actor n) → guarded (pending_blocks (nd_actor n)) !! d = None →
  is_Some (actor_validators (nd_actor n) !! v_proposer v) → v_payload v = d →
  validate_block (payload_builder (nd_actor n)) b (digest_get (v_parent v).2)
    (actor_world (nd_actor n)) = (Ok (Valid meta), w) →
  bm_timestamp_millis meta / 1000 = bm_timestamp meta →
  node_infos (received_and_verified k d b now v n) =
    <[d := verified_info v meta]> (node_infos n).
Proof.
  intros (Hp1 & Hp2 & Hp3 & Hp4) Hown Hval Hd Hv Hms. unfold received_and_verified.
  cbn [node_step].
  destruct (receive_relayed (E := E) k d b (node_receiver n) Hp3) as [Hr1 Hr2].
  destruct (receive_block_spec (E := E) (Ok (k, wire_message d b)) (node_receiver n)) as [_ [q Hq]].
  apply exec_done in Hq. rewrite Hq. cbn [lift_exec exec_state].
  set (rx := exec_state (receive_block _ _)) in *.
  assert (Ha : acceptable v (nd_actor (put_receiver rx n)) meta w).
  { split_and!; [done| |done]. exists b. split; [|done].
    unfold lookup_block_bytes, lock_read. cbn. rewrite Hp2, Hr1, Hd. cbn. by rewrite Hown, Hr2. }
  cbn [handle_message]. rewrite (handle_verify_acceptable _ _ _ _ Ha). unfold node_infos. cbn.
  by rewrite lock_update_guarded, Hd.
Qed.

(** A leader whose proposal was answered and whose transport takes the
    broadcast has recorded its block, and put it on the network. *)
Definition proposed_and_sent now p d n : Node :=
  exec_state (node_step (E := E) (Ev_Broadcast d Plan_Propose)
    (exec_state (node_step (E := E) (Ev_Message now (Message_Propose p)) n))).

Lemma propose_then_broadcast now p d st' b n chk s :
  node_ok n → handle_propose now p (nd_actor n) = Done (Some d) st' →
  guarded (pending_blocks st') !! d = Some b →
  check Recipients_All (nd_sender n) = (Ok chk, s) →
  accepted (checked_send chk (wire_message d b) false s).1 = true →
  ∃ block x, b = eth_encode block ∧ d = block_digest block ∧
    wire_message d b ∈ sent (nd_sender (proposed_and_sent now p d n)) ∧
    node_infos (proposed_and_sent now p d n) !! d = Some x ∧ fact_of x = block_fact block.
Proof.
  intros Hok Hprop Hb Hchk Hacc. pose proof (ok_locks _ Hok) as (_ & Hpp & _ & Hpi).
  unfold proposed_and_sent. cbn [node_step handle_message]. rewrite Hprop. cbn [lift_exec exec_state].
  apply handle_propose_Some in Hprop as (kb & pl & w1 & _ & Hbuild & Hd & Hst).
  apply reth_build_Ok in Hbuild as (block & -> & Hreq). set (r := propose_request _ _ _ _) in *.
  set (n1 := mk_Node st' (nd_sender n) (nd_finalized n)).
  destruct (broadcast_known d Plan_Propose (node_relay n1) b)
    as (rel & c & -> & _ & _ & Hs); [by subst st'; cbn; rewrite lock_update_poisoned|done|].
  cbn in Hs. rewrite Hchk in Hs.
  pose proof (sent_checked_send chk (wire_message d b) false s) as Hsent.
  destruct (checked_send chk _ false s) as [o s2]. cbn in Hacc, Hsent. destruct Hs as [Hs _].
  rewrite Hacc in Hsent. destruct Hsent as [Hsent|[? _]]; [|done].
  subst st'. cbn -[r] in Hb. rewrite lock_update_guarded, Hd, lookup_insert_eq in Hb by done.
  injection Hb as <-. eexists block, _. split_and!; [done|done| | |].
  - cbn. rewrite Hs, Hsent. apply elem_of_app. right. by apply list_elem_of_singleton.
  - unfold node_infos. cbn -[r]. by rewrite lock_update_guarded, Hd, lookup_insert_eq.
  - unfold fact_of, block_fact. cbn -[r]. by rewrite Hreq.
Qed.

Lemma net_ledger_lookup ns i n d x :
  ns !! i = Some n → node_infos n !! d = Some x →
  net_ledger ns !! i = Some (node_facts n) ∧ node_facts n !! d = Some (fact_of x).
Proof.
  intros Hi Hx. unfold net_ledger, node_facts.
  by rewrite list_lookup_fmap, Hi, lookup_fmap, Hx.
Qed.
End network.

(** ** Properties *)

Section properties.
Context `{!Ed25519, !ActorFeedback} {S C W E : Type}
  `{!P2pSender S, !P2pWire S, !Channel C Digest, !ChannelRx C Digest, !RethEngine W}.
Context `{!RethEngineLaws W, !Ed25519Laws, !P2pWireLaws S}.

Abbreviation Node := (Node (S := S) (C := C) (W := W)).
Abbreviation net_step := (net_step (S := S) (C := C) (W := W) (E := E)).
Abbreviation collision := (collision (block_digest (W := W)) block_fact).

(** The network refines the abstract ledger: started fresh on one genesis,
    under any interleaving of consensus calls, deliveries - late, repeated,
    reordered, lost - and injected messages that carry no block under another
    block's digest, the recorded block facts start as the initial ledger, and
    every step of the network is either invisible in them or one ledger step,
    in which one node learns one block under its own hash. *)
Theorem network_refines_ledger adv ghash gms (cs : list (NodeConfig (S := S) (C := C) (W := W))) ns :
  is_u64 gms → Forall quiet cs → (∀ m, adv m → harmless (W := W) m) →
  rtc (net_step adv) (start_net ghash gms cs) ns →
  net_ledger (start_net ghash gms cs) = ledger_init (length cs) (genesis_fact ghash gms) ∧
  rtc (ledger_step block_digest block_fact) (net_ledger (start_net ghash gms cs)) (net_ledger ns) ∧
  ∀ ns', net_step adv ns ns' →
    net_ledger ns' = net_ledger ns ∨
    ledger_step block_digest block_fact (net_ledger ns) (net_ledger ns').
Proof.
  intros Hu Hq Hadv Hr. split; [apply start_net_ledger|].
  destruct (net_simulation adv _ ns Hadv (start_net_ok _ _ _ Hu Hq) Hr) as [Hok Hl].
  split; [done|]. intros ns' Hs.
  destruct (net_step_turn (E := E) adv ns ns') as (i & e & _ & Ht); [done..|].
  by eapply node_turn_ledger.
Qed.

(** C2: agreement on facts: in such a network, with harmless messages injected,
    any two nodes that have recorded a digest other than the empty one - by
    proposing its block or by verifying it, at any time - recorded the same
    hash, number and time stamps for it, or else what they recorded is two
    different blocks with that very hash; and what a node has recorded under
    such a digest stays there, its hash, number and stamps unchanged with the
    same exception (a second verification does overwrite view and proposer).
    Without the condition on the injected messages this is false:
    [mislabelled_block_recorded]. *)
Theorem network_agreement adv ghash gms (cs : list (NodeConfig (S := S) (C := C) (W := W)))
    ns ns' i j (n m : Node) d x y :
  is_u64 gms → Forall quiet cs → (∀ m, adv m → harmless (W := W) m) →
  rtc (net_step adv) (start_net ghash gms cs) ns → rtc (net_step adv) ns ns' →
  ns !! i = Some n → ns' !! j = Some m → d ≠ EMPTY →
  node_infos n !! d = Some x →
  (node_infos m !! d = Some y →
     fact_of x = fact_of y ∨ collision d (fact_of x) (fact_of y)) ∧
  (i = j → ∃ z, node_infos m !! d = Some z ∧
     (fact_of x = fact_of z ∨ collision d (fact_of x) (fact_of z))).
Proof.
  intros Hu Hq Hadv Hr Hr' Hi Hj Hd Hx.
  destruct (net_simulation adv _ ns Hadv (start_net_ok _ _ _ Hu Hq) Hr) as [Hok Hl].
  destruct (net_simulation adv _ ns' Hadv Hok Hr') as [_ Hl'].
  rewrite start_net_ledger in Hl.
  destruct (net_ledger_lookup ns i n d x Hi Hx) as [Hi1 Hx1]. split.
  - intros Hy. destruct (net_ledger_lookup ns' j m d y Hj Hy) as [Hj1 Hy1].
    eapply justified_unique; [done| |].
    + by eapply (ledger_reachable_ok _ _ _ _ _ Hl).
    + eapply ledger_reachable_ok; [by etrans|done|done].
  - intros ->. destruct (ledger_write_once _ _ _ _ _ _ _ _ _ _ Hd Hl Hl' Hi1 Hx1)
      as (facts & f & Hm & Hfd & Hf).
    unfold net_ledger in Hm. rewrite list_lookup_fmap, Hj in Hm. injection Hm as <-.
    unfold node_facts in Hfd. rewrite lookup_fmap in Hfd.
    apply fmap_Some in Hfd as (z & Hz & ->). by exists z.
Qed.

(** C13: a proposed block reaches a peer's record: after a leader's proposal
    that was answered, a broadcast its transport accepts, one delivery and the
    peer's verification, both nodes have recorded the digest, with the same
    facts: those of one block, whose hash the digest is; provided only that
    the peer knows the proposer, has no block of its own under the digest, and
    its engine finds the block valid. *)
Theorem proposal_recorded_by_peer (ns : list Node) i j (n m : Node) now now' p d st' b k
    (v : Verify) meta w :
  i ≠ j → ns !! i = Some n → ns !! j = Some m →
  node_ok n → unpoisoned (nd_actor m) →
  handle_propose now p (nd_actor n) = Done (Some d) st' →
  guarded (pending_blocks st') !! d = Some b →
  (∃ chk s, check Recipients_All (nd_sender n) = (Ok chk, s) ∧
     accepted (checked_send chk (wire_message d b) false s).1 = true) →
  guarded (pending_blocks (nd_actor m)) !! d = None →
  is_Some (actor_validators (nd_actor m) !! v_proposer v) → v_payload v = d →
  validate_block (payload_builder (nd_actor m)) b (digest_get (v_parent v).2)
    (actor_world (nd_actor m)) = (Ok (Valid meta), w) →
  bm_timestamp meta ≤ u64_max / 1000 →
  ∃ ns' n' m' x y block,
    net_run (E := E) [Lb_Local i (Ev_Message now (Message_Propose p));
      Lb_Local i (Ev_Broadcast d Plan_Propose); Lb_Deliver i j k (wire_message d b);
      Lb_Local j (Ev_Message now' (Message_Verify v))] ns = Some ns' ∧
    ns' !! i = Some n' ∧ ns' !! j = Some m' ∧
    node_infos n' !! d = Some x ∧ node_infos m' !! d = Some y ∧
    d = block_digest block ∧ fact_of x = block_fact block ∧ fact_of y = block_fact block.
Proof.
  intros Hij Hi Hj Hok Hm Hprop Hb (chk & s & Hchk & Hacc) Hown Hval Hd Hv Hts.
  destruct (propose_then_broadcast (E := E) now p d st' b n chk s)
    as (block & x & -> & Hdig & Hsent & Hx & Hfx); [done..|].
  set (n2 := proposed_and_sent (E := E) now p d n) in *.
  assert (Hmeta : meta = mk_BlockMeta (eth_hash_slow block) (eth_number block)
    (eth_timestamp block) (u64_saturating_mul (eth_timestamp block) 1000)).
  { cbn in Hv. apply validate_closure_Valid in Hv as (block' & rest & Hdec & _ & ->).
    cbn in Hdec. by rewrite eth_decode_encode in Hdec; simplify_eq. }
  pose proof (receive_then_verify (E := E) k d (eth_encode block) now' v m) as Hrec.
  assert (Hms : bm_timestamp_millis meta / 1000 = bm_timestamp meta).
  { subst meta. cbn -[u64_saturating_mul u64_max Z.div] in *.
    apply sat_mul_1000_div; [apply eth_u64|done]. }
  specialize (Hrec meta w Hm Hown Hval Hd Hv Hms).
  set (m2 := received_and_verified (E := E) k d (eth_encode block) now' v m) in *.
  exists (<[j := m2]> (<[i := n2]> ns)), n2, m2, x, (verified_info v meta), block.
  split_and!; try done.
  - rewrite (run_local i _ n) by done. pose proof (lookup_insert_self ns i n) as Hi1.
    erewrite run_local by (done || by apply Hi1). rewrite list_insert_insert_eq.
    fold (proposed_and_sent (E := E) now p d n). fold n2.
    pose proof (lookup_insert_other ns i j m n2 Hij Hj) as Hj2.
    rewrite (run_deliver i j k _ n2 m) by (done || by apply Hi1).
    erewrite run_local by (done || by eapply lookup_insert_self).
    by rewrite list_insert_insert_eq.
  - apply lookup_insert_other; [done|]. by eapply lookup_insert_self.
  - eapply lookup_insert_self. by apply lookup_insert_other.
  - by rewrite Hrec, lookup_insert_eq.
  - by subst meta.
Qed.

(** C20: nothing binds the blocks of the network to their digests: a single
    message of an adversary that carries a block under any digest [d] - its
    own or not - makes a node that has no bytes of its own for [d] accept [d]
    and record the block's facts under it, when the block is valid. *)
Theorem mislabelled_block_recorded (ns : list Node) j (n : Node) k d b block rest w' now
    (v : Verify) :
  ns !! j = Some n → unpoisoned (nd_actor n) →
  guarded (pending_blocks (nd_actor n)) !! d = None →
  is_Some (actor_validators (nd_actor n) !! v_proposer v) → v_payload v = d →
  eth_decode b = Ok (block, rest) →
  new_payload (block_to_payload block) (nw_el (actor_world (nd_actor n))) = (Ok Status_Valid, w') →
  eth_timestamp block ≤ u64_max / 1000 →
  ∃ ns' n' x, net_run (E := E) [Lb_Inject j k (wire_message d b);
      Lb_Local j (Ev_Message now (Message_Verify v))] ns = Some ns' ∧
    ns' !! j = Some n' ∧ node_infos n' !! d = Some x ∧ fact_of x = block_fact block ∧
    ∀ i, i ≠ j → ns' !! i = ns !! i.
Proof.
  intros Hj Hn Hown Hval Hd Hdec Hnew Hts.
  pose proof (receive_then_verify (E := E) k d b now v n) as Hrec.
  set (n2 := received_and_verified (E := E) k d b now v n) in *.
  exists (<[j := n2]> ns), n2. eexists. split_and!.
  - erewrite run_inject by done. erewrite run_local by (done || by eapply lookup_insert_self).
    by rewrite list_insert_insert_eq.
  - by eapply lookup_insert_self.
  - erewrite Hrec; [apply lookup_insert_eq|done..| |].
    + cbn. unfold validate_closure. cbn. by rewrite Hdec, Hnew.
    + cbn -[u64_saturating_mul u64_max Z.div]. apply sat_mul_1000_div; [apply eth_u64|done].
  - done.
  - intros i Hi. by apply list_lookup_insert_ne.
Qed.
End properties.

(** ** Witnesses *)

Definition sample_config : NodeConfig (S := ref_transport) (C := ref_queue Digest)
    (W := ref_engine_state) :=
  mk_NodeConfig sample_validators sample_reth (Some metrics_new) sample_world [] None.

Abbreviation SampleNet :=
  (list (Node.Node (S := ref_transport) (C := ref_queue Digest) (W := ref_engine_state))).

Definition sample_net : SampleNet :=
  start_net sample_genesis_hash 1700000000000 [sample_config; sample_config].

(** Node 0 proposes and broadcasts; node 1 gets garbage, then the block, and
    verifies it. *)
Definition sample_labels :
    list (Label (S := ref_transport) (E := unit)) :=
  [Lb_Local 0 (Ev_Message sample_now (Message_Propose sample_propose));
   Lb_Inject 1 (key_of 7) [Byte.x00];
   Lb_Local 0 (Ev_Broadcast built_digest Plan_Propose);
   Lb_Deliver 0 1 (key_of 0) (wire_message built_digest (bp_block_bytes sample_built));
   Lb_Local 1 (Ev_Message sample_now (Message_Verify verify_built))].

Definition sample_end : SampleNet := default [] (net_run sample_labels sample_net).

(** The sample adversary injects messages too short to carry a block. *)
Definition short (m : bytes) : Prop := (length m < 32)%nat.

Lemma short_harmless m : short m → harmless (W := ref_engine_state) m.
Proof. intros Hm d b. by rewrite parse_wire_short. Qed.

Lemma sample_net_run : net_run sample_labels sample_net = Some sample_end.
Proof.
  unfold sample_end. destruct (net_run sample_labels sample_net) eqn:Hr; [done|].
  assert (Hb : bool_decide (is_Some (net_run sample_labels sample_net)) = true)
    by (vm_compute; reflexivity).
  by rewrite Hr in Hb.
Qed.

Lemma sample_net_steps : rtc (net_step (E := unit) short) sample_net sample_end.
Proof.
  eapply net_run_steps, sample_net_run. repeat constructor.
Qed.

Lemma sample_quiet : Forall quiet [sample_config; sample_config].
Proof. repeat constructor. Qed.

Lemma network_refines_ledger_witness :
  rtc (ledger_step block_digest block_fact)
    (ledger_init 2 (genesis_fact sample_genesis_hash 1700000000000))
    (net_ledger sample_end) ∧
  net_ledger sample_end !! 1%nat ≫= lookup built_digest =
    Some (bp_block_hash sample_built, 1, 1700000001, 1700000001000).
Proof.
  destruct (network_refines_ledger (E := unit) short sample_genesis_hash 1700000000000
    [sample_config; sample_config] sample_end sample_gms sample_quiet short_harmless
    sample_net_steps) as (Hstart & Hsteps & _).
  split; [|vm_compute; reflexivity]. rewrite Hstart in Hsteps. exact Hsteps.
Defined.

Definition sample_end_node (i : nat) : Node.Node (S := ref_transport) (C := ref_queue Digest)
    (W := ref_engine_state) := default sample_node (sample_end !! i).

Lemma sample_end_lookup i : (i < 2)%nat → sample_end !! i = Some (sample_end_node i).
Proof.
  intros Hi. unfold sample_end_node. destruct (sample_end !! i) eqn:Hl; [done|].
  apply lookup_ge_None in Hl. change (length sample_end) with 2%nat in Hl. lia.
Qed.

Lemma facts_info (n : Node.Node (S := ref_transport) (C := ref_queue Digest)
    (W := ref_engine_state)) d f :
  node_facts n !! d = Some f → ∃ x, node_infos n !! d = Some x ∧ fact_of x = f.
Proof. unfold node_facts. rewrite lookup_fmap. intros (x & ? & ?)%fmap_Some. by exists x. Qed.

Definition sample_fact : Fact := (bp_block_hash sample_built, 1, 1700000001, 1700000001000).

(** Both nodes have recorded the block, and still hold it later. *)
Lemma network_agreement_witness :
  ∃ x y, node_infos (sample_end_node 0) !! built_digest = Some x ∧
    node_infos (sample_end_node 1) !! built_digest = Some y ∧
    fact_of x = sample_fact ∧ fact_of x = fact_of y.
Proof.
  destruct (facts_info (sample_end_node 0) built_digest sample_fact) as (x & Hx & Hfx).
  { vm_compute. reflexivity. }
  destruct (facts_info (sample_end_node 1) built_digest sample_fact) as (y & Hy & Hfy).
  { vm_compute. reflexivity. }
  exists x, y. split; [exact Hx|]. split; [exact Hy|]. split; [exact Hfx|].
  destruct (network_agreement (E := unit) short sample_genesis_hash 1700000000000
    [sample_config; sample_config] sample_end sample_end 0 1 (sample_end_node 0)
    (sample_end_node 1) built_digest x y sample_gms sample_quiet short_harmless sample_net_steps
    (rtc_refl _ _) (sample_end_lookup 0 ltac:(lia)) (sample_end_lookup 1 ltac:(lia))
    ltac:(vm_compute; discriminate) Hx) as [Hagree _].
  destruct (Hagree Hy) as [He|[Hne _]]; [exact He|].
  destruct Hne. transitivity sample_fact; [exact Hfx|symmetry; exact Hfy].
Defined.

Definition sample_cfg_node : Node.Node (S := ref_transport) (C := ref_queue Digest)
    (W := ref_engine_state) := start_node sample_genesis_hash 1700000000000 sample_config.

Lemma sample_cfg_ok : node_ok sample_cfg_node.
Proof. apply fresh_node_ok, sample_gms. Qed.

Definition sample_meta : BlockMeta :=
  mk_BlockMeta (bp_block_hash sample_built) 1 1700000001 1700000001000.

Lemma proposal_recorded_by_peer_witness :
  ∃ (ns' : SampleNet) n' m' x y, ns' !! 0%nat = Some n' ∧ ns' !! 1%nat = Some m' ∧
    node_infos n' !! built_digest = Some x ∧ node_infos m' !! built_digest = Some y ∧
    fact_of x = fact_of y.
Proof.
  destruct (handle_propose sample_now sample_propose (nd_actor sample_cfg_node))
    as [[d|] st'|st'] eqn:Hh.
  2,3: exfalso; apply (f_equal (λ e, match e with Done (Some _) _ => true | _ => false end)) in Hh;
       vm_compute in Hh; discriminate.
  assert (Hd : d = built_digest).
  { apply (f_equal exec_value) in Hh. cbn [exec_value] in Hh.
    assert (He : exec_value (handle_propose sample_now sample_propose (nd_actor sample_cfg_node)) =
      Some (Some built_digest)) by (vm_compute; reflexivity). congruence. }
  subst d.
  destruct (validate_block (payload_builder (nd_actor sample_cfg_node)) (bp_block_bytes sample_built)
    (digest_get (v_parent verify_built).2) (actor_world (nd_actor sample_cfg_node))) as [vr w] eqn:Hv.
  assert (Hvr : vr = Ok (Valid sample_meta)).
  { apply (f_equal fst) in Hv. cbn [fst] in Hv. rewrite <- Hv. vm_compute. reflexivity. }
  subst vr.
  destruct (proposal_recorded_by_peer (E := unit) sample_net 0 1 sample_cfg_node sample_cfg_node
    sample_now sample_now sample_propose built_digest st' (bp_block_bytes sample_built) (key_of 0)
    verify_built sample_meta w ltac:(discriminate) eq_refl eq_refl sample_cfg_ok
    (ok_locks _ sample_cfg_ok) Hh)
    as (ns' & n' & m' & x & y & block & _ & Hi & Hj & Hx & Hy & _ & Hfx & Hfy).
  - apply (f_equal (λ e, guarded (pending_blocks (exec_state e)) !! built_digest)) in Hh.
    cbn [exec_state] in Hh. rewrite <- Hh. vm_compute. reflexivity.
  - exists None, []. split; reflexivity.
  - vm_compute. reflexivity.
  - eexists. vm_compute. reflexivity.
  - reflexivity.
  - exact Hv.
  - vm_compute. discriminate.
  - exists ns', n', m', x, y. split; [exact Hi|]. split; [exact Hj|]. split; [exact Hx|].
    split; [exact Hy|]. transitivity (block_fact (W := ref_engine_state) block); [exact Hfx|symmetry; exact Hfy].
Defined.

(** A block of another second, sent under the digest node 0 proposed: node 1
    records other facts than node 0 for it. *)
Definition other_block : @EthBlock ref_engine_state ref_reth := ref_block_of 1 1700000005 sample_genesis_hash.

Definition sample_proposed : SampleNet :=
  default [] (net_run (E := unit)
    [Lb_Local 0 (Ev_Message sample_now (Message_Propose sample_propose))] sample_net).

Lemma mislabelled_block_recorded_witness :
  ∃ (ns' : SampleNet) n' x,
    net_run (E := unit) [Lb_Inject 1 (key_of 7) (wire_message built_digest (ref_eth_encode other_block));
      Lb_Local 1 (Ev_Message sample_now (Message_Verify verify_built))] sample_proposed = Some ns' ∧
    ns' !! 1%nat = Some n' ∧ node_infos n' !! built_digest = Some x ∧
    fact_of x = @block_fact ref_engine_state ref_reth other_block ∧
    net_ledger ns' !! 0%nat ≫= lookup built_digest = Some sample_fact ∧ fact_of x ≠ sample_fact.
Proof.
  assert (Hn : sample_proposed !! 1%nat = Some sample_cfg_node) by reflexivity.
  destruct (new_payload (@block_to_payload ref_engine_state ref_reth other_block)
    (nw_el (actor_world (nd_actor sample_cfg_node)))) as [st w'] eqn:Hnew.
  assert (Hst : st = Ok Status_Valid).
  { apply (f_equal fst) in Hnew. cbn [fst] in Hnew. rewrite <- Hnew. vm_compute. reflexivity. }
  subst st.
  destruct (mislabelled_block_recorded (E := unit) sample_proposed 1 sample_cfg_node (key_of 7)
    built_digest (ref_eth_encode other_block) other_block [] w' sample_now verify_built Hn
    (ok_locks _ sample_cfg_ok))
    as (ns' & n' & x & Hrun & Hi & Hx & Hf & Hother).
  - vm_compute. reflexivity.
  - eexists. vm_compute. reflexivity.
  - reflexivity.
  - exact (@eth_decode_encode ref_engine_state ref_reth ref_reth_laws other_block).
  - exact Hnew.
  - vm_compute. discriminate.
  - exists ns', n', x. split; [exact Hrun|]. split; [exact Hi|]. split; [exact Hx|].
    split; [exact Hf|]. split.
    + unfold net_ledger. rewrite list_lookup_fmap, (Hother 0%nat ltac:(discriminate)).
      vm_compute. reflexivity.
    + rewrite Hf. vm_compute. discriminate.
Defined.
