(* ===== verification/Concurrent.v ===== *)
(** * A node, await by await

    [Node.v] takes a handler as one step and [Interleaving.v] splits it at its
    call of the payload builder.  Here nothing of a node is atomic but what the
    source does between two waits or under one lock (the two lookups of
    [verify_begin] apart, which commute with all that can come between them):
    every engine call of a build ([Turns.v]) is a turn of its own, and so are each of the three stores
    that follow it (block info, pending blocks, proposals: three locks), the
    engine call of a validation and what is recorded after it, and the
    finalizer's call and its move of the tracker.  Relay, receiver, reporter
    and finalizer step in between.

    Nodes that run this way make a network as in [Network.v].  It refines the
    same ledger, every message is handled in a bounded number of turns, and
    what two nodes finalize under one digest is the same. *)

From S2P Require Import Prelude Extern Reference Digest Ledger Validators Metrics Error Executor.
From S2P Require Import ReferenceBuilder Application Engine Reth Builder Finalizer Turns Node.
From S2P Require Import Interleaving Network.
Local Open Scope Z_scope.

Section actor.
Context `{!Ed25519} {W : Type} `{!RethEngine W}.
Abbreviation Actor := (Actor RethPayloadBuilder (NodeWorld W)).

(** ** What the actor does next *)

(** The three stores of a built payload, in the source's order. *)
Inductive Stage : Type :=
| Rec_Info
| Rec_Pending
| Rec_Proposals.

Inductive Awaiting : Type :=
| W_Idle
| W_Building (msg : Propose) (request : BuildPayloadRequest) (finalized_hash : B256)
    (at_ : At (W := W))
| W_Recording (msg : Propose) (request : BuildPayloadRequest) (payload : BuiltPayload)
    (stage : Stage)
| W_Validating (msg : Verify) (block_bytes : bytes)
| W_Verified (msg : Verify) (validated : Result ValidationResult string).

Definition record_stage (msg : Propose) (request : BuildPayloadRequest) (payload : BuiltPayload)
    (stage : Stage) (st : Actor) : Actor :=
  let digest := mk_Digest (bp_block_hash payload) in
  match stage with
  | Rec_Info => set_block_info (lock_update (<[digest := {|
        bi_number := bp_block_number payload;
        bi_hash := bp_block_hash payload;
        bi_view := round_view (p_round msg);
        bi_proposer := p_leader msg;
        bi_timestamp := req_timestamp request;
        bi_timestamp_millis := bp_timestamp_millis payload |}]>) (block_info st)) st
  | Rec_Pending =>
    set_pending (lock_update (<[digest := bp_block_bytes payload]>) (pending_blocks st)) st
  | Rec_Proposals => set_proposals (lock_update (λ l, l ++ [digest]) (proposals st)) st
  end.

(** What follows the validation of a block: the answer is sent. *)
Definition verify_conclude (msg : Verify) (validated : Result ValidationResult string)
    (st : Actor) : option bool * Actor :=
  match validated with
  | Ok (Valid meta) =>
    if negb (bm_timestamp_millis meta / 1000 =? bm_timestamp meta)
    then (Some false, on_metrics inc_failed_validations st)
    else
      let st := set_block_info (lock_update (<[v_payload msg := {|
          bi_number := bm_number meta;
          bi_hash := bm_hash meta;
          bi_view := round_view (v_round msg);
          bi_proposer := v_proposer msg;
          bi_timestamp := bm_timestamp meta;
          bi_timestamp_millis := bm_timestamp_millis meta |}]>) (block_info st)) st in
      (Some true, on_metrics inc_blocks_verified st)
  | Ok (Invalid _) => (Some false, on_metrics inc_failed_validations st)
  | Err _ => (Some false, on_metrics inc_failed_validations (on_metrics inc_errors st))
  end.

Definition build_attrs (request : BuildPayloadRequest) : PayloadAttributes :=
  build_payload_attributes (req_parent_hash request) (req_timestamp request).

(** The engine's state, and the actor with another one. *)
Definition actor_el (a : Actor) : W := nw_el (actor_world a).
Definition put_el (w : W) (a : Actor) : Actor :=
  set_world (mk_NodeWorld (nw_tracker (actor_world a)) w) a.

(** The actor's next turn; none when it is idle. *)
Definition actor_turn (aw : Awaiting) (a : Actor) : option (Awaiting * Actor) :=
  match aw with
  | W_Idle => None
  | W_Building msg request finalized_hash at_ =>
    match at_ with
    | At_End (Err _) => Some (W_Idle, on_metrics inc_errors a)
    | At_End (Ok payload) => Some (W_Recording msg request payload Rec_Info, a)
    | _ =>
      let '(at_, w) := build_turn (rpb_debug (payload_builder a)) (build_fcs request finalized_hash)
                         (build_attrs request) at_ (actor_el a) in
      Some (W_Building msg request finalized_hash at_, put_el w a)
    end
  | W_Recording msg request payload stage =>
    let a := record_stage msg request payload stage a in
    Some (match stage with
          | Rec_Info => W_Recording msg request payload Rec_Pending
          | Rec_Pending => W_Recording msg request payload Rec_Proposals
          | Rec_Proposals => W_Idle
          end, a)
  | W_Validating msg block_bytes =>
    let '(validated, w) := validate_block (payload_builder a) block_bytes
                             (digest_get (v_parent msg).2) (actor_world a) in
    Some (W_Verified msg validated, set_world w a)
  | W_Verified msg validated => Some (W_Idle, (verify_conclude msg validated a).2)
  end.

(** The actor takes a message: up to the first wait.  A panic of the first half
    would end the task; it cannot happen, since keys are 32 bytes
    ([Application.leader_bytes]), and the actor is idle then. *)
Definition actor_begin {R} (now : SystemTime) (m : Message R) (a : Actor) : Awaiting * Actor :=
  match m with
  | Message_Propose p =>
    match propose_begin now p a with
    | Panicked a | Done None a => (W_Idle, a)
    | Done (Some request) a =>
      (W_Building p request (tracker_finalized (actor_world a)).1 (At_Ask 0), a)
    end
  | Message_Verify v =>
    match verify_begin v a with
    | (inr _, a) => (W_Idle, a)
    | (inl block_bytes, a) => (W_Validating v block_bytes, a)
    end
  | Message_Broadcast b => (W_Idle, handle_broadcast b a)
  end.

(** Turns left until the actor is idle, at most. *)
Definition awaiting_left (aw : Awaiting) : nat :=
  match aw with
  | W_Idle => 0
  | W_Building _ _ _ at_ => turns_left at_ + 4
  | W_Recording _ _ _ Rec_Info => 3
  | W_Recording _ _ _ Rec_Pending => 2
  | W_Recording _ _ _ Rec_Proposals => 1
  | W_Validating _ _ => 2
  | W_Verified _ _ => 1
  end.

Definition awaiting_ok (aw : Awaiting) : Prop :=
  match aw with W_Building _ _ _ at_ => at_ok at_ | _ => True end.

(** [n] turns in a row. *)
Fixpoint actor_turns (n : nat) (s : Awaiting * Actor) : Awaiting * Actor :=
  match n with
  | O => s
  | S n => match actor_turn s.1 s.2 with Some s => actor_turns n s | None => s end
  end.

(** ** Lemmas *)

Lemma actor_turn_left aw a aw' a' :
  awaiting_ok aw → actor_turn aw a = Some (aw', a') →
  awaiting_ok aw' ∧ (awaiting_left aw' < awaiting_left aw)%nat.
Proof.
  intros Hok Ht. destruct aw as [|p rq fin at_|p rq b st|v b|v r]; cbn [actor_turn] in Ht.
  - done.
  - assert (Hb : ∀ at' w, at_ok at_ → build_turn (rpb_debug (payload_builder a))
      (build_fcs rq fin) (build_attrs rq) at_ (actor_el a) = (at', w) →
      at_ok at' ∧ (turns_left at' ≤ Nat.pred (turns_left at_))%nat).
    { intros at' w Ha Hb. pose proof (build_turn_ok (rpb_debug (payload_builder a))
        (build_fcs rq fin) (build_attrs rq) at_ (actor_el a) Ha) as (? & ? & _).
      by rewrite Hb in *. }
    destruct at_ as [i|i|id|b|[b|e]]; [| | | |by simplify_eq; cbn; split; [|lia]..].
    all: destruct (build_turn _ _ _ _ _) as [at' w] eqn:E; destruct (Hb at' w Hok eq_refl).
    all: simplify_eq; split; [done|]; cbn in *; lia.
  - destruct st; simplify_eq; cbn; split; (done || lia).
  - destruct (validate_block _ _ _ _) as [r w]. simplify_eq. cbn. split; [done|lia].
  - simplify_eq. cbn. split; [done|lia].
Qed.

Lemma actor_turn_enabled aw a : aw ≠ W_Idle → is_Some (actor_turn aw a).
Proof.
  destruct aw as [|p rq fin at_|p rq b st|v b|v r]; intros; cbn [actor_turn]; [done| |done| |done].
  - destruct at_ as [i|i|id|b|[b|e]]; try done.
    all: by destruct (build_turn _ _ _ _ _).
  - by destruct (validate_block _ _ _ _).
Qed.

Lemma actor_begin_ok {R} now (m : Message R) a :
  awaiting_ok (actor_begin now m a).1 ∧ (awaiting_left (actor_begin now m a).1 ≤ 15)%nat.
Proof.
  destruct m as [p|v|b]; cbn [actor_begin]; [| |cbn; split; [done|lia]].
  - destruct (propose_begin now p a) as [[r|] a'|a']; cbn; lia.
  - destruct (verify_begin v a) as [[b|o] a']; cbn; split; (done || lia).
Qed.

(** *** Alone, the turns are the handler *)

Lemma actor_turns_idle n a : actor_turns n (W_Idle, a) = (W_Idle, a).
Proof. by destruct n. Qed.

Lemma put_el_self a : put_el (actor_el a) a = a.
Proof. unfold put_el, actor_el. destruct a as [? ? ? ? ? ? ? ? [] ]. done. Qed.

Lemma put_el_put w w' a : put_el w (put_el w' a) = put_el w a.
Proof. done. Qed.

(** The end of a build, and what follows it. *)
Definition build_conclude (msg : Propose) (request : BuildPayloadRequest)
    (built : Result BuiltPayload string) (a : Actor) : Actor :=
  match built with
  | Err _ => on_metrics inc_errors a
  | Ok payload => record_stage msg request payload Rec_Proposals
      (record_stage msg request payload Rec_Pending
         (record_stage msg request payload Rec_Info a))
  end.

Definition at_end (at_ : At (W := W)) : option (Result BuiltPayload string) :=
  match at_ with At_End r => Some r | _ => None end.

Lemma actor_turn_building msg rq fin at_ a :
  at_end at_ = None →
  actor_turn (W_Building msg rq fin at_) a =
  let '(at', w) := build_turn (rpb_debug (payload_builder a)) (build_fcs rq fin)
                     (build_attrs rq) at_ (actor_el a) in
  Some (W_Building msg rq fin at', put_el w a).
Proof. by destruct at_. Qed.

Lemma actor_turns_ended msg rq fin n r a :
  (4 ≤ n)%nat →
  actor_turns n (W_Building msg rq fin (At_End r), a) = (W_Idle, build_conclude msg rq r a).
Proof.
  intros Hn. destruct n as [|[|[|[|n]]]]; try lia.
  destruct r; cbn -[record_stage]; by rewrite ?actor_turns_idle.
Qed.

Lemma building_alone msg rq fin n at_ a m r w :
  at_ok at_ → (turns_left at_ ≤ n)%nat → (turns_left at_ + 4 ≤ m)%nat →
  build_turns (rpb_debug (payload_builder a)) (build_fcs rq fin) (build_attrs rq) n
    (at_, actor_el a) = (At_End r, w) →
  actor_turns m (W_Building msg rq fin at_, a) = (W_Idle, build_conclude msg rq r (put_el w a)).
Proof.
  revert at_ a m. induction n as [|n IH]; intros at_ a m Hok Hn Hm Hb.
  all: destruct (at_end at_) as [r'|] eqn:He.
  1,3: destruct at_; cbn in He; simplify_eq; rewrite build_turns_end in Hb; simplify_eq;
    rewrite put_el_self; apply actor_turns_ended; lia.
  { destruct (turns_left_end at_ ltac:(lia)) as [r' ->]. done. }
  destruct m as [|m]; [lia|]. cbn [actor_turns fst snd]. rewrite actor_turn_building by done.
  cbn [build_turns fst snd] in Hb.
  pose proof (build_turn_ok (rpb_debug (payload_builder a)) (build_fcs rq fin) (build_attrs rq)
    at_ (actor_el a) Hok) as (Hok' & Hl & _).
  destruct (build_turn _ _ _ at_ _) as [at' w'] eqn:Hbt. cbn [fst] in *.
  rewrite (IH at' (put_el w' a) m Hok'); [done|lia| |exact Hb].
  destruct (decide (turns_left at_ = 0)%nat) as [H0|]; [|lia].
  by apply turns_left_end in H0 as [? ->].
Qed.

(** The call of the builder, and what follows it, in any number of turns that
    is enough. *)
Lemma propose_alone msg rq a n :
  (15 ≤ n)%nat →
  actor_turns n (W_Building msg rq (tracker_finalized (actor_world a)).1 (At_Ask 0), a) =
  (W_Idle, (propose_finish msg rq a).2).
Proof.
  intros Hn. set (debug := rpb_debug (payload_builder a)).
  pose proof (build_turns_closure debug rq (actor_world a) 11 ltac:(lia)) as Hb.
  rewrite (building_alone msg rq _ 11 (At_Ask 0) a n _ _ ltac:(cbn; lia) ltac:(cbn; lia)
    ltac:(cbn; lia) Hb).
  unfold propose_finish, put_el. pose proof (build_closure_tracker debug rq (actor_world a)) as Ht.
  change (build_payload (payload_builder a) rq (actor_world a)) with
    (build_closure debug rq (actor_world a)).
  destruct (build_closure debug rq (actor_world a)) as [r [tr w]]. cbn in Ht |- *. subst tr.
  by destruct r.
Qed.

Lemma verify_alone msg b a n :
  (2 ≤ n)%nat →
  actor_turns n (W_Validating msg b, a) = (W_Idle, (verify_finish msg b a).2).
Proof.
  intros Hn. destruct n as [|[|n]]; try lia. cbn [actor_turns fst snd actor_turn].
  unfold verify_finish. destruct (validate_block _ _ _ _) as [r w]. cbn [actor_turns fst snd actor_turn].
  by rewrite actor_turns_idle.
Qed.

Lemma handle_message_alone {R} now (m : Message R) a n :
  (15 ≤ n)%nat →
  actor_turns n (actor_begin now m a) = (W_Idle, exec_state (handle_message now m a)).
Proof.
  intros Hn. destruct m as [p|v|b]; cbn [actor_begin handle_message].
  - rewrite handle_propose_halves. destruct (propose_begin now p a) as [[rq|] a'|a'].
    + rewrite propose_alone by done. by destruct (propose_finish p rq a').
    + apply actor_turns_idle.
    + apply actor_turns_idle.
  - rewrite handle_verify_halves. destruct (verify_begin v a) as [[b|o] a'].
    + rewrite verify_alone by lia. by destruct (verify_finish v b a').
    + apply actor_turns_idle.
  - apply actor_turns_idle.
Qed.
End actor.

(** ** A node and its tasks *)

Section fine.
Context `{!Ed25519, !ActorFeedback} {S C W E : Type}
  `{!P2pSender S, !P2pWire S, !Channel C Digest, !ChannelRx C Digest, !RethEngine W}.

Abbreviation Node := (Node (S := S) (C := C) (W := W)).
Abbreviation Event := (Event (S := S) (E := E)).
Abbreviation Message := (Message Recipients).
Abbreviation Actor := (Actor RethPayloadBuilder (NodeWorld W)).

Record Fine : Type := mk_Fine {
  fn_node : Node;
  fn_awaiting : Awaiting (W := W);
  (** the finalizer's call was answered valid, the tracker not yet moved *)
  fn_accepted : option (B256 * Z);
}.

Inductive FineStep : Type :=
| Fs_Begin (now : SystemTime) (m : Message)
| Fs_Actor
| Fs_Ask
| Fs_Set
| Fs_Other (e : Event).

(** The relay's, the receiver's and the reporter's events. *)
Definition other_event (e : Event) : bool :=
  match e with Ev_Message _ _ | Ev_Finalize => false | _ => true end.

(** The finalizer takes the next digest of its channel and asks the engine. *)
Definition ask_turn (n : Node) : Node * option (B256 * Z) :=
  match nd_finalized n with
  | None => (n, None)
  | Some c =>
    match chan_recv c with
    | Recv_Item digest c =>
      let a := nd_actor n in
      let '(_, accepted, w) := finalize_ask digest (block_info a) (actor_el a) in
      (mk_Node (put_el w a) (nd_sender n) (Some c), accepted)
    | Recv_Pending | Recv_Closed => (n, None)
    end
  end.

Definition set_turn (hash : B256) (number : Z) (n : Node) : Node :=
  let a := nd_actor n in
  put_actor (set_world (tracker_set_finalized hash number (actor_world a)) a) n.

Definition fine_step (s : FineStep) (t : Fine) : option Fine :=
  let n := fn_node t in
  match s, fn_awaiting t, fn_accepted t with
  | Fs_Begin now m, W_Idle, acc =>
    let '(aw, a) := actor_begin now m (nd_actor n) in Some (mk_Fine (put_actor a n) aw acc)
  | Fs_Actor, aw, acc =>
    '(aw, a) ← actor_turn aw (nd_actor n); Some (mk_Fine (put_actor a n) aw acc)
  | Fs_Ask, aw, None => let '(n, acc) := ask_turn n in Some (mk_Fine n aw acc)
  | Fs_Set, aw, Some (hash, number) => Some (mk_Fine (set_turn hash number n) aw None)
  | Fs_Other e, aw, acc =>
    if other_event e then Some (mk_Fine (exec_state (node_step e n)) aw acc) else None
  | _, _, _ => None
  end.

Fixpoint fine_run (ss : list FineStep) (t : Fine) : option Fine :=
  match ss with
  | [] => Some t
  | s :: ss => fine_step s t ≫= fine_run ss
  end.

Definition fine_start (n : Node) : Fine := mk_Fine n W_Idle None.

(** ** Lemmas: what a step does *)

Lemma fine_step_Some s t t' :
  fine_step s t = Some t' →
  match s with
  | Fs_Begin now m => fn_awaiting t = W_Idle ∧
      fn_awaiting t' = (actor_begin now m (nd_actor (fn_node t))).1 ∧
      fn_node t' = put_actor (actor_begin now m (nd_actor (fn_node t))).2 (fn_node t) ∧
      fn_accepted t' = fn_accepted t
  | Fs_Actor => ∃ a, actor_turn (fn_awaiting t) (nd_actor (fn_node t)) = Some (fn_awaiting t', a) ∧
      fn_node t' = put_actor a (fn_node t) ∧ fn_accepted t' = fn_accepted t
  | Fs_Ask => fn_accepted t = None ∧ fn_awaiting t' = fn_awaiting t ∧
      ask_turn (fn_node t) = (fn_node t', fn_accepted t')
  | Fs_Set => ∃ hash number, fn_accepted t = Some (hash, number) ∧ fn_accepted t' = None ∧
      fn_awaiting t' = fn_awaiting t ∧ fn_node t' = set_turn hash number (fn_node t)
  | Fs_Other e => other_event e = true ∧ fn_awaiting t' = fn_awaiting t ∧
      fn_accepted t' = fn_accepted t ∧ fn_node t' = exec_state (node_step e (fn_node t))
  end.
Proof.
  destruct t as [n aw acc], s as [now m| | | |e]; cbn [fine_step fn_node fn_awaiting fn_accepted].
  - destruct aw; [|done..]. destruct (actor_begin _ _ _) as [aw a]. intros; by simplify_eq/=.
  - intros ([aw' a] & Ha & Ht)%bind_Some. simplify_eq/=. eauto.
  - destruct acc; [done|]. destruct (ask_turn n) as [n' acc]. intros; by simplify_eq/=.
  - destruct acc as [[h k]|]; [|done]. intros; simplify_eq/=. eauto 10.
  - destruct (other_event e); [|done]. intros; by simplify_eq/=.
Qed.

Lemma fine_run_app ss1 ss2 t : fine_run (ss1 ++ ss2) t = fine_run ss1 t ≫= fine_run ss2.
Proof.
  revert t. induction ss1 as [|s ss1 IH]; intros t; [done|]. cbn.
  destruct (fine_step s t); [apply IH|done].
Qed.

(** The actor's turns, as steps of the node. *)
Lemma fine_run_actor k n aw a acc :
  ∃ j, (j ≤ k)%nat ∧ fine_run (replicate j Fs_Actor) (mk_Fine (put_actor a n) aw acc) =
    Some (mk_Fine (put_actor (actor_turns k (aw, a)).2 n) (actor_turns k (aw, a)).1 acc).
Proof.
  revert aw a. induction k as [|k IH]; intros aw a; [by exists 0%nat|].
  cbn [actor_turns fst snd]. destruct (actor_turn aw a) as [[aw' a']|] eqn:Ht.
  - destruct (IH aw' a') as (j & Hj & Hr). exists (Datatypes.S j). split; [lia|].
    cbn. by rewrite Ht.
  - exists 0%nat. split; [lia|done].
Qed.

(** *** The other tasks leave alone what the actor is working on *)

Lemma other_keeps (e : Event) n :
  other_event e = true →
  let a' := nd_actor (exec_state (node_step e n)) in
  proposals a' = proposals (nd_actor n) ∧ pending_blocks a' = pending_blocks (nd_actor n) ∧
  block_info a' = block_info (nd_actor n) ∧ actor_world a' = actor_world (nd_actor n) ∧
  payload_builder a' = payload_builder (nd_actor n).
Proof.
  intros He. destruct e as [| d plan|r|act|]; try done.
  - cbn [node_step].
    destruct (broadcast_effect d plan (pending_blocks (nd_actor n)) (nd_sender n)) as (s' & c & Hb).
    specialize (Hb (metrics (nd_actor n))). unfold node_relay.
    destruct (broadcast _ _ _); cbn in *; subst; by split_and!.
  - rewrite receive_step. by split_and!.
Qed.

Context `{!RethJobs W, !RethEngineLaws W, !Ed25519Laws, !P2pWireLaws S}.

(** The finalizer's call moves the engine only. *)
Lemma ask_turn_keeps n :
  ∃ w fin, (ask_turn n).1 = mk_Node (put_el w (nd_actor n)) (nd_sender n) fin ∧
    ∀ id ts, job_for id ts (actor_el (nd_actor n)) → job_for id ts w.
Proof.
  assert (Hsame : ∃ w fin, n = mk_Node (put_el w (nd_actor n)) (nd_sender n) fin ∧
    ∀ id ts, job_for id ts (actor_el (nd_actor n)) → job_for id ts w).
  { exists (actor_el (nd_actor n)), (nd_finalized n). rewrite put_el_self. by destruct n. }
  unfold ask_turn. destruct (nd_finalized n) as [c|]; [|done].
  destruct (chan_recv c) as [d c'| |]; [|done..].
  pose proof (λ id ts, finalize_ask_keeps id ts d (block_info (nd_actor n))
    (actor_el (nd_actor n))) as Hk.
  destruct (finalize_ask _ _ _) as [[calls acc] w]. by exists w, (Some c').
Qed.

(** ** The invariant *)

Definition request_ok (r : BuildPayloadRequest) : Prop :=
  is_u64 (req_timestamp_millis r) ∧ req_timestamp r = req_timestamp_millis r / 1000.

(** What the actor's next turns rely on. *)
Definition awaiting_from (aw : Awaiting (W := W)) (a : Actor) : Prop :=
  match aw with
  | W_Idle => True
  | W_Building _ r _ at_ => request_ok r ∧ at_from (req_timestamp r) at_ (actor_el a)
  | W_Recording _ r b stage =>
    let d := mk_Digest (bp_block_hash b) in
    request_ok r ∧
    (∃ block : EthBlock, b = built_payload block ∧ eth_timestamp block = req_timestamp r) ∧
    match stage with
    | Rec_Info => True
    | Rec_Pending => is_Some (guarded (block_info a) !! d)
    | Rec_Proposals => is_Some (guarded (pending_blocks a) !! d)
    end
  | W_Validating v b => bound (v_payload v) b
  | W_Verified v r =>
    ∀ meta, r = Ok (Valid meta) → ∃ block : EthBlock, v_payload v = block_digest block ∧
      meta = mk_BlockMeta (eth_hash_slow block) (eth_number block) (eth_timestamp block)
               (u64_saturating_mul (eth_timestamp block) 1000)
  end.

Record fine_ok (t : Fine) : Prop := mk_fine_ok {
  fo_node : net_node_ok (fn_node t);
  fo_awaiting : awaiting_ok (fn_awaiting t);
  fo_from : awaiting_from (fn_awaiting t) (nd_actor (fn_node t));
}.

(** Nothing the actor does not read matters. *)
Lemma awaiting_from_keeps aw a a' :
  pending_blocks a' = pending_blocks a → block_info a' = block_info a →
  (∀ id ts, job_for id ts (actor_el a) → job_for id ts (actor_el a')) →
  awaiting_from aw a → awaiting_from aw a'.
Proof.
  intros Hp Hb Hj. destruct aw as [|p r fin at_|p r b st|v b|v r]; cbn; rewrite ?Hp, ?Hb; try done.
  intros [Hr Ha]. split; [done|]. eapply at_from_keeps; [|done]. auto.
Qed.

(** A node's condition depends on its stores and what it sent. *)
Lemma net_node_ok_stores (n n' : Node) :
  proposals (nd_actor n') = proposals (nd_actor n) →
  pending_blocks (nd_actor n') = pending_blocks (nd_actor n) →
  block_info (nd_actor n') = block_info (nd_actor n) →
  received_blocks (nd_actor n') = received_blocks (nd_actor n) →
  sent (nd_sender n') = sent (nd_sender n) →
  net_node_ok n → net_node_ok n'.
Proof.
  intros Hp Hb Hi Hr Hs [Hok Hrx Hsent]. split; rewrite ?Hr, ?Hs; [|done..].
  by apply (node_ok_stores n); rewrite ?Hr.
Qed.

(** *** The stores of a build, one by one *)

Lemma request_info_consistent msg r (block : EthBlock) :
  request_ok r → eth_timestamp block = req_timestamp r →
  info_consistent (proposed_info msg r (built_payload block)).
Proof.
  intros [Hu Ht] Hb. unfold info_consistent. cbn -[u64_saturating_mul].
  rewrite Hb, Ht. by apply sat_seconds_consistent.
Qed.

(** What a turn must re-establish. *)
Definition turn_ok (n : Node) (aw' : Awaiting (W := W)) (a' : Actor) : Prop :=
  net_node_ok (put_actor a' n) ∧ awaiting_from aw' a' ∧ learns n (put_actor a' n).

Lemma turn_ok_stores (n : Node) aw' a' :
  net_node_ok n → awaiting_from aw' a' →
  proposals a' = proposals (nd_actor n) → pending_blocks a' = pending_blocks (nd_actor n) →
  block_info a' = block_info (nd_actor n) → received_blocks a' = received_blocks (nd_actor n) →
  turn_ok n aw' a'.
Proof.
  intros Hn Ha Hp Hb Hi Hr. split_and!; [by apply (net_node_ok_stores n)|done|].
  by apply learns_same.
Qed.

(** A store of the actor's moves, all else stays. *)
Lemma net_node_ok_actor (n : Node) a' :
  actor_inv a' → received_blocks a' = received_blocks (nd_actor n) →
  poisoned (proposals a') = poisoned (proposals (nd_actor n)) →
  poisoned (pending_blocks a') = poisoned (pending_blocks (nd_actor n)) →
  poisoned (block_info a') = poisoned (block_info (nd_actor n)) →
  map_Forall genuine (guarded (pending_blocks a')) →
  net_node_ok n → net_node_ok (put_actor a' n).
Proof.
  intros Hinv Hr Hp1 Hp2 Hp3 Hg [[_ (? & ? & ? & ?) _] Hrx Hs].
  split; cbn; [|by rewrite Hr|done]. split; cbn; [done| |done].
  unfold unpoisoned. rewrite Hr, Hp1, Hp2, Hp3. by split_and!.
Qed.

Lemma record_stage_ok msg r b stage (n : Node) :
  net_node_ok n → awaiting_from (W_Recording msg r b stage) (nd_actor n) →
  turn_ok n (match stage with
             | Rec_Info => W_Recording msg r b Rec_Pending
             | Rec_Pending => W_Recording msg r b Rec_Proposals
             | Rec_Proposals => W_Idle
             end) (record_stage msg r b stage (nd_actor n)).
Proof.
  intros Hn (Hr & Hblock & Hst). destruct Hblock as (block & -> & Hts).
  pose proof Hn as [[Hinv Hl Hg] _ _]. pose proof Hl as (Hl1 & Hl2 & _ & Hl4).
  set (d := mk_Digest (eth_hash_slow block)) in *. destruct stage; cbn [record_stage].
  - set (a' := set_block_info _ _). split_and!.
    + apply net_node_ok_actor; cbn; [|done|done|done|by apply lock_update_poisoned|done|done].
      apply (actor_inv_record d (proposed_info msg r (built_payload block)) (nd_actor n));
        [by apply request_info_consistent|done..].
    + split; [done|]. split; [by exists block|]. cbn.
      rewrite lock_update_guarded by done. by rewrite lookup_insert_eq.
    + right. exists block. erewrite infos_insert; [|done|by cbn].
      unfold fact_of, block_fact. cbn -[u64_saturating_mul]. by rewrite Hts.
  - set (a' := set_pending _ _). split_and!.
    + apply net_node_ok_actor; cbn; [|done|done|by apply lock_update_poisoned|done| |done].
      * by apply (actor_inv_pending d).
      * apply lock_update_ind; [done|]. intros _. apply map_Forall_insert_2; [by exists block|done].
    + split; [done|]. split; [by exists block|]. cbn.
      rewrite lock_update_guarded by done. by rewrite lookup_insert_eq.
    + by left.
  - split_and!; [|done|by left].
    apply net_node_ok_actor; cbn; [|done|by apply lock_update_poisoned|done..].
    by apply (actor_inv_proposal d).
Qed.

Lemma verify_conclude_ok v r (n : Node) :
  net_node_ok n → awaiting_from (W_Verified v r) (nd_actor n) →
  turn_ok n W_Idle (verify_conclude v r (nd_actor n)).2.
Proof.
  intros Hn Hv. destruct r as [[meta|reason]|e]; cbn [verify_conclude]; [|by apply turn_ok_stores..].
  destruct (Hv meta eq_refl) as (block & Hd & Hmeta).
  destruct (_ =? _) eqn:Hms; cbn [negb]; [|by apply turn_ok_stores].
  pose proof Hn as [[Hinv Hl Hg] _ _]. cbn [snd]. split_and!; [|done|].
  - apply net_node_ok_actor; cbn; [|done|done|done|by apply lock_update_poisoned|done|done].
    eapply (actor_inv_record (v_payload v) (verified_info v meta) (nd_actor n)); [|done..].
    split; cbn; [|by apply Z.eqb_eq]. subst meta. cbn -[u64_saturating_mul].
    apply sat_mul_bound; [apply eth_u64|by vm_compute; split].
  - right. exists block. erewrite infos_insert; [|done|by cbn]. rewrite Hd. by subst meta.
Qed.

Lemma actor_turn_ok aw (n : Node) aw' a' :
  net_node_ok n → awaiting_from aw (nd_actor n) →
  actor_turn aw (nd_actor n) = Some (aw', a') → turn_ok n aw' a'.
Proof.
  intros Hn Ha Ht. destruct aw as [|p r fin at_|p r b st|v b|v r]; cbn [actor_turn] in Ht.
  - done.
  - destruct Ha as [Hr Ha]. destruct (at_end at_) as [res|] eqn:He.
    + destruct at_; simplify_eq/=. destruct res as [b|e]; simplify_eq; apply turn_ok_stores; try done.
    + pose proof (actor_turn_building p r fin at_ (nd_actor n) He) as Hb.
      cbn [actor_turn] in Hb. rewrite Hb in Ht. clear Hb.
      pose proof (build_turn_from (rpb_debug (payload_builder (nd_actor n))) (build_fcs r fin)
        (build_attrs r) at_ (actor_el (nd_actor n)) Ha) as Hf.
      destruct (build_turn _ _ _ _ _) as [at' w]. simplify_eq. by apply turn_ok_stores.
  - simplify_eq. by apply record_stage_ok.
  - destruct (validate_block _ _ _ _) as [r w] eqn:Hv. simplify_eq. apply turn_ok_stores; [done| |done..].
    intros meta ->. cbn in Hv. apply validate_closure_Valid in Hv as (block & rest & Hdec & _ & ->).
    exists block. split; [by eapply Ha|done].
  - simplify_eq. by apply verify_conclude_ok.
Qed.

(** *** Steps of a node *)

Lemma actor_begin_from now (m : Message) (n : Node) :
  net_node_ok n →
  turn_ok n (actor_begin now m (nd_actor n)).1 (actor_begin now m (nd_actor n)).2.
Proof.
  intros Hn. pose proof Hn as [[Hinv Hl _] _ _].
  destruct m as [p|v|b]; cbn [actor_begin]; [| |by apply turn_ok_stores].
  - unfold propose_begin. destruct (lock_read _) as [g|] eqn:Hg; [|by apply turn_ok_stores].
    destruct (copy_from_slice _) as [k|]; [|by apply turn_ok_stores].
    apply turn_ok_stores; try done. split; [|done].
    apply lock_read_Ok in Hg as [_ <-].
    destruct (propose_request_stamps now p
      (parent_of (guarded (block_info (nd_actor n))) (p_parent p).2) k) as (Hu & Ht & _);
      [by apply parent_of_u64|done].
  - unfold verify_begin. destruct (validator_lookup _ _); [|by apply turn_ok_stores].
    destruct (lookup_block_bytes _ _) as [[b|]|] eqn:Hb; [|by apply turn_ok_stores..].
    apply turn_ok_stores; try done. by eapply lookup_bound.
Qed.

Definition safe_step (s : FineStep) : Prop :=
  match s with Fs_Other e => safe_event (W := W) e | _ => True end.

Lemma fine_step_ok s t t' :
  fine_ok t → safe_step s → fine_step s t = Some t' →
  fine_ok t' ∧ learns (fn_node t) (fn_node t').
Proof.
  intros [Hn Ho Hf] Hsafe Hs. apply fine_step_Some in Hs. destruct t' as [n' aw' acc'].
  destruct s as [now m| | | |e]; cbn [fn_node fn_awaiting fn_accepted] in *.
  - destruct Hs as (_ & -> & -> & _).
    destruct (actor_begin_from now m _ Hn) as (Hn' & Hf' & Hl).
    split; [|done]. split; [done| |done]. by apply actor_begin_ok.
  - destruct Hs as (a & Ha & -> & _). pose proof (actor_turn_left _ _ _ _ Ho Ha) as [Ho' _].
    by destruct (actor_turn_ok _ _ _ _ Hn Hf Ha) as (Hn' & Hf' & Hl).
  - destruct Hs as (_ & -> & Ha). destruct (ask_turn_keeps (fn_node t)) as (w & fin & Hk & Hj).
    rewrite Ha in Hk. cbn in Hk. subst n'. split; [|by apply learns_same].
    split; [by apply (net_node_ok_stores (fn_node t))|done|].
    by apply (awaiting_from_keeps _ (nd_actor (fn_node t))).
  - destruct Hs as (h & k & _ & _ & -> & ->). split; [|by apply learns_same].
    split; [by apply (net_node_ok_stores (fn_node t))|done|].
    by apply (awaiting_from_keeps _ (nd_actor (fn_node t))).
  - destruct Hs as (He & -> & _ & ->). destruct (other_keeps e (fn_node t) He) as (_ & Hp & Hi & Hw & _).
    split; [|by apply learns_same]. split; [by apply net_node_step_ok|done|].
    apply (awaiting_from_keeps _ (nd_actor (fn_node t))); [done|done| |done].
    intros id ts. unfold actor_el. cbn [fn_node]. by rewrite Hw.
Qed.

Lemma fine_start_ok n : net_node_ok n → fine_ok (fine_start n).
Proof. by split. Qed.

(** An accepted finalization is the recorded fact of the digest taken. *)
Lemma ask_turn_accepted n n' d h k c c' :
  nd_finalized n = Some c → chan_recv c = Recv_Item d c' →
  ask_turn n = (n', Some (h, k)) →
  ∃ i, node_infos n !! d = Some i ∧ bi_hash i = h ∧ bi_number i = k.
Proof.
  intros Hc Hd Ha. unfold ask_turn in Ha. rewrite Hc, Hd in Ha.
  unfold finalize_ask, lock_read in Ha. destruct (poisoned (block_info (nd_actor n))); [by simplify_eq/=|].
  destruct (guarded (block_info (nd_actor n)) !! d) as [i|] eqn:Hi; [|by simplify_eq/=].
  destruct (fork_choice_updated _ _ _) as [[[st id]|e] w]; [|by simplify_eq/=].
  destruct (status_is_valid st); simplify_eq/=. eauto.
Qed.


(** ** A network of such nodes *)

Abbreviation FineNet := (list Fine).

Definition local_step (s : FineStep) : bool :=
  match s with Fs_Other e => local_event e | _ => true end.

Inductive FineLabel : Type :=
| Fl_Step (i : nat) (s : FineStep)
| Fl_Deliver (i j : nat) (k : PublicKey) (m : bytes)
| Fl_Inject (j : nat) (k : PublicKey) (m : bytes).

Definition fine_turn (i : nat) (s : FineStep) (ts : FineNet) : option FineNet :=
  t ← ts !! i; t' ← fine_step s t; Some (<[i := t']> ts).

Definition fine_exec (l : FineLabel) (ts : FineNet) : option FineNet :=
  match l with
  | Fl_Step i s => if local_step s then fine_turn i s ts else None
  | Fl_Deliver i j k m =>
    match ts !! i with
    | Some t =>
      if decide (m ∈ sent (nd_sender (fn_node t)))
      then fine_turn j (Fs_Other (Ev_Receive (Ok (k, m)))) ts else None
    | None => None
    end
  | Fl_Inject j k m => fine_turn j (Fs_Other (Ev_Receive (Ok (k, m)))) ts
  end.

Definition fine_allowed (adv : bytes → Prop) (l : FineLabel) : Prop :=
  match l with Fl_Inject _ _ m => adv m | _ => True end.

Definition fine_net_step (adv : bytes → Prop) (ts ts' : FineNet) : Prop :=
  ∃ l, fine_allowed adv l ∧ fine_exec l ts = Some ts'.

Definition fine_net_start (ghash : B256) (gms : Z) (cs : list NodeConfig) : FineNet :=
  fine_start <$> start_net ghash gms cs.

Definition fine_ledger (ts : FineNet) : list (gmap Digest Fact) := net_ledger (fn_node <$> ts).

Definition fine_net_ok (ts : FineNet) : Prop := Forall fine_ok ts.

Lemma fine_turn_ok i s ts ts' :
  fine_net_ok ts → safe_step s → fine_turn i s ts = Some ts' →
  fine_net_ok ts' ∧
  (fine_ledger ts' = fine_ledger ts ∨
   ledger_step (block_digest (W := W)) block_fact (fine_ledger ts) (fine_ledger ts')).
Proof.
  intros Hok Hs (t & Hi & (t' & Ht & [= <-])%bind_Some)%bind_Some.
  destruct (fine_step_ok s t t') as [Hok' Hl]; [by eapply Forall_lookup_1|done..|].
  split; [by apply Forall_insert|]. unfold fine_ledger. rewrite list_fmap_insert.
  apply (learns_ledger _ i (fn_node t)); [by rewrite list_lookup_fmap, Hi|done].
Qed.

Lemma fine_net_step_turn adv ts ts' :
  fine_net_ok ts → (∀ m, adv m → harmless (W := W) m) → fine_net_step adv ts ts' →
  ∃ i s, safe_step s ∧ fine_turn i s ts = Some ts'.
Proof.
  intros Hok Hadv ([i s|i j k m|j k m] & Ha & Hx); cbn in *.
  - destruct (local_step s) eqn:Hl; [|done]. exists i, s. split; [|done].
    by destruct s as [| | | |[| |[[]|]| |]].
  - destruct (ts !! i) as [t|] eqn:Hi; [|done]. case_decide as Hm; [|done].
    exists j, (Fs_Other (Ev_Receive (Ok (k, m)))). split; [|done].
    assert (Ht : fine_ok t) by (by eapply Forall_lookup_1).
    exact (nn_sent _ (fo_node _ Ht) _ Hm).
  - exists j, (Fs_Other (Ev_Receive (Ok (k, m)))). split; [by apply Hadv|done].
Qed.

Lemma fine_simulation adv ts ts' :
  (∀ m, adv m → harmless (W := W) m) → fine_net_ok ts → rtc (fine_net_step adv) ts ts' →
  fine_net_ok ts' ∧
  rtc (ledger_step (block_digest (W := W)) block_fact) (fine_ledger ts) (fine_ledger ts').
Proof.
  intros Hadv Hok Hr. induction Hr as [|ts ts1 ts' Hs _ IH]; [by split|].
  destruct (fine_net_step_turn adv ts ts1) as (i & s & Hsafe & Ht); [done..|].
  destruct (fine_turn_ok i s ts ts1) as [Hok1 Hl]; [done..|].
  destruct (IH Hok1) as [Hok' Hr']. split; [done|].
  destruct Hl as [Heq|Hl]; [by rewrite <- Heq|by eapply rtc_l].
Qed.

Lemma fine_net_start_ok ghash gms cs :
  is_u64 gms → Forall quiet cs → fine_net_ok (fine_net_start ghash gms cs).
Proof.
  intros Hu Hq. apply Forall_fmap. eapply Forall_impl; [by apply start_net_ok|].
  intros n Hn. by apply fine_start_ok.
Qed.

Lemma fine_start_ledger ghash gms cs :
  fine_ledger (fine_net_start ghash gms cs) = ledger_init (length cs) (genesis_fact ghash gms).
Proof.
  unfold fine_ledger, fine_net_start. rewrite <- list_fmap_compose.
  rewrite <- start_net_ledger. unfold net_ledger. f_equal. by rewrite list_fmap_id.
Qed.

Lemma fine_ledger_lookup ts i t d x :
  ts !! i = Some t → node_infos (fn_node t) !! d = Some x →
  fine_ledger ts !! i = Some (node_facts (fn_node t)) ∧
  node_facts (fn_node t) !! d = Some (fact_of x).
Proof. intros Hi. apply net_ledger_lookup. by rewrite list_lookup_fmap, Hi. Qed.

(** *** Running labels *)

Fixpoint fine_net_run (ls : list FineLabel) (ts : FineNet) : option FineNet :=
  match ls with
  | [] => Some ts
  | l :: ls => fine_exec l ts ≫= fine_net_run ls
  end.

Lemma fine_net_run_steps adv ls ts ts' :
  Forall (fine_allowed adv) ls → fine_net_run ls ts = Some ts' → rtc (fine_net_step adv) ts ts'.
Proof.
  revert ts. induction ls as [|l ls IH]; cbn; intros ts Ha Hr; [by simplify_eq|].
  apply Forall_cons in Ha as [Hl Ha]. apply bind_Some in Hr as (ts1 & Hx & Hr).
  eapply rtc_l; [by exists l|by apply IH].
Qed.

(** *** What the finalizers make of it *)

Definition tracker_of (t : Fine) : B256 * Z := nw_tracker (actor_world (nd_actor (fn_node t))).

(** The genesis, or the hash and the number of one block.  This says that the
    two belong together, not that a node has the block; for that see
    [taken_before]. *)
Definition finalized_block (ghash : B256) (p : B256 * Z) : Prop :=
  p = (ghash, 0) ∨ ∃ block : EthBlock, p = (eth_hash_slow block, eth_number block).

(** The finalizer's next turn takes [d], and the engine accepts [p]. *)
Definition accepts (t : Fine) (d : Digest) (p : B256 * Z) : Prop :=
  ∃ c c' t', nd_finalized (fn_node t) = Some c ∧ chan_recv c = Recv_Item d c' ∧
    fine_step Fs_Ask t = Some t' ∧ fn_accepted t' = Some p.

(** What the finalizer holds, in the tracker and on its way there. *)
Definition trackers_ok (P : B256 * Z → Prop) (t : Fine) : Prop :=
  P (tracker_of t) ∧ ∀ p, fn_accepted t = Some p → P p.

(** At an earlier point of the run node [i] had recorded [p] under a digest
    that its finalizer took next, and its engine accepted it. *)
Definition taken_before (adv : bytes → Prop) (start ts : FineNet) (i : nat) (p : B256 * Z) : Prop :=
  ∃ ts0 t0 d x, rtc (fine_net_step adv) start ts0 ∧ rtc (fine_net_step adv) ts0 ts ∧
    ts0 !! i = Some t0 ∧ accepts t0 d p ∧
    node_infos (fn_node t0) !! d = Some x ∧ p = (bi_hash x, bi_number x).

Lemma actor_turn_tracker aw a aw' a' :
  actor_turn aw a = Some (aw', a') → nw_tracker (actor_world a') = nw_tracker (actor_world a).
Proof.
  intros Ht. destruct aw as [|p r fin at_|p r b st|v b|v r]; cbn [actor_turn] in Ht; [done|..].
  - destruct (at_end at_) as [res|] eqn:He.
    + destruct at_; simplify_eq/=. by destruct res; simplify_eq.
    + pose proof (actor_turn_building p r fin at_ a He) as Hb. cbn [actor_turn] in Hb.
      rewrite Hb in Ht. destruct (build_turn _ _ _ _ _). by simplify_eq.
  - destruct st; by simplify_eq.
  - pose proof (validate_closure_tracker (mk_ValidateBlockRequest b (digest_get (v_parent v).2))
      (actor_world a)) as Hv.
    change (validate_block (payload_builder a) b (digest_get (v_parent v).2) (actor_world a)) with
      (validate_closure (mk_ValidateBlockRequest b (digest_get (v_parent v).2)) (actor_world a)) in Ht.
    destruct (validate_closure _ _) as [r w]. by simplify_eq.
  - simplify_eq. destruct r as [[meta|]|]; cbn [verify_conclude]; [|done..].
    by destruct (negb _).
Qed.

Lemma actor_begin_tracker now (m : Message) a :
  nw_tracker (actor_world (actor_begin now m a).2) = nw_tracker (actor_world a).
Proof.
  destruct m as [p|v|b]; cbn [actor_begin]; [| |done].
  - unfold propose_begin. destruct (lock_read _); [|done]. by destruct (copy_from_slice _).
  - unfold verify_begin. destruct (validator_lookup _ _); [|done].
    by destruct (lookup_block_bytes _ _) as [[]|].
Qed.

(** What a node has recorded is what the ledger justifies. *)
Lemma info_finalized ghash gms d i :
  justified (block_digest (W := W)) block_fact (genesis_fact ghash gms) d (fact_of i) →
  finalized_block ghash (bi_hash i, bi_number i) ∧
  (d ≠ EMPTY → ∃ block : EthBlock, d = block_digest block ∧
     (bi_hash i, bi_number i) = (eth_hash_slow block, eth_number block)).
Proof.
  intros [[-> Hi]|(block & -> & Hi)]; unfold fact_of, genesis_fact, block_fact in Hi.
  - injection Hi as -> -> _ _. split; [by left|done].
  - injection Hi as -> -> _ _. split; [right|intros _]; by exists block.
Qed.

Lemma accepts_recorded t d p :
  accepts t d p →
  ∃ i, node_infos (fn_node t) !! d = Some i ∧ p = (bi_hash i, bi_number i).
Proof.
  intros (c & c' & t' & Hc & Hd & Hs & Ha). apply fine_step_Some in Hs as (_ & _ & Hs).
  rewrite Ha in Hs. destruct p as [h k].
  destruct (ask_turn_accepted _ _ _ _ _ _ _ Hc Hd Hs) as (i & ? & <- & <-). eauto.
Qed.

(** The turn after moves the tracker there. *)
Lemma accepts_tracked t d p :
  accepts t d p → ∃ t', fine_run [Fs_Ask; Fs_Set] t = Some t' ∧ tracker_of t' = p.
Proof.
  intros (c & c' & t1 & _ & _ & Hs & Ha). destruct t1 as [n aw acc], p as [h k].
  cbn in Ha. subst acc. eexists. cbn -[fine_step]. rewrite Hs. cbn. by split.
Qed.

(** Acceptance, evaluated. *)
Definition head_digest (t : Fine) : option Digest :=
  c ← nd_finalized (fn_node t);
  match chan_recv c with Recv_Item d _ => Some d | _ => None end.
Definition ask_accepts_value (t : Fine) : option (B256 * Z) :=
  fine_step Fs_Ask t ≫= fn_accepted.

Lemma accepts_intro t d p :
  head_digest t = Some d → ask_accepts_value t = Some p → accepts t d p.
Proof.
  unfold head_digest, ask_accepts_value.
  intros (c & Hc & Hd)%bind_Some (t' & Hs & Ha)%bind_Some.
  destruct (chan_recv c) as [d' c'| |] eqn:Hr; simplify_eq. by exists c, c', t'.
Qed.

(** Any acceptance comes from a digest the finalizer took. *)
Lemma ask_accepts t t' p :
  fine_step Fs_Ask t = Some t' → fn_accepted t' = Some p → ∃ d, accepts t d p.
Proof.
  intros Hs Ha. pose proof (fine_step_Some _ _ _ Hs) as (_ & _ & Hq).
  rewrite Ha in Hq. unfold ask_turn in Hq.
  destruct (nd_finalized (fn_node t)) as [c|] eqn:Hc; [|by simplify_eq].
  destruct (chan_recv c) as [d c'| |] eqn:Hd; [|by simplify_eq..].
  exists d, c, c', t'. done.
Qed.

Lemma fine_step_trackers (P : B256 * Z → Prop) s t t' :
  fine_step s t = Some t' → (∀ d p, accepts t d p → P p) → trackers_ok P t → trackers_ok P t'.
Proof.
  intros Hs Hinfo [Htr Hacc]. pose proof (fine_step_Some _ _ _ Hs) as Hq. unfold trackers_ok, tracker_of in *.
  destruct s as [now m| | | |e].
  - destruct Hq as (_ & _ & -> & ->). cbn. by rewrite actor_begin_tracker.
  - destruct Hq as (a & Ha & -> & ->). cbn. by rewrite (actor_turn_tracker _ _ _ _ Ha).
  - split.
    + destruct Hq as (_ & _ & Hq). destruct (ask_turn_keeps (fn_node t)) as (w & fin & Hk & _).
      rewrite Hq in Hk. cbn in Hk. by rewrite Hk.
    + intros p Hp. destruct (ask_accepts _ _ _ Hs Hp) as [d Hd]. by eapply Hinfo.
  - destruct Hq as (h & k & Ha & -> & _ & ->). split; [|done]. by apply Hacc.
  - destruct Hq as (He & _ & -> & ->). destruct (other_keeps e (fn_node t) He) as (_ & _ & _ & -> & _).
    by split.
Qed.

Lemma fine_reachable_info adv ghash gms cs ts i t d x :
  is_u64 gms → Forall quiet cs → (∀ m, adv m → harmless (W := W) m) →
  rtc (fine_net_step adv) (fine_net_start ghash gms cs) ts →
  ts !! i = Some t → node_infos (fn_node t) !! d = Some x →
  justified (block_digest (W := W)) block_fact (genesis_fact ghash gms) d (fact_of x).
Proof.
  intros Hu Hq Hadv Hr Hi Hx.
  destruct (fine_simulation adv _ ts Hadv (fine_net_start_ok _ _ _ Hu Hq) Hr) as [_ Hl].
  rewrite fine_start_ledger in Hl. destruct (fine_ledger_lookup ts i t d x Hi Hx) as [Hi1 Hx1].
  by eapply (ledger_reachable_ok _ _ _ _ _ Hl).
Qed.

(** The trackers of a run, for a property of points of the run that lasts and
    that every acceptance has. *)
Lemma fine_reachable_trackers adv ghash gms cs ts (P : FineNet → nat → B256 * Z → Prop) :
  is_u64 gms → Forall quiet cs → (∀ m, adv m → harmless (W := W) m) →
  Forall (λ c, nw_tracker (cfg_world c) = tracker_new ghash) cs →
  (∀ ts i, P ts i (tracker_new ghash)) →
  (∀ ts ts' i p, fine_net_step adv ts ts' → P ts i p → P ts' i p) →
  (∀ ts i t d p, rtc (fine_net_step adv) (fine_net_start ghash gms cs) ts →
     ts !! i = Some t → accepts t d p → P ts i p) →
  rtc (fine_net_step adv) (fine_net_start ghash gms cs) ts →
  ∀ i t, ts !! i = Some t → trackers_ok (P ts i) t.
Proof.
  intros Hu Hq Hadv Htr Hzero Hlast Hacc Hr.
  refine (rtc_ind_r (λ ts, ∀ i t, ts !! i = Some t → trackers_ok (P ts i) t) _ _ _ ts Hr);
    clear ts Hr; [|intros ts1 ts Hr Hs IH].
  - intros i t Hi. unfold fine_net_start, start_net in Hi.
    rewrite !list_lookup_fmap in Hi. destruct (cs !! i) as [c|] eqn:Hc; [|done]. injection Hi as <-.
    split; [|done]. unfold tracker_of. cbn -[tracker_new].
    pose proof (Forall_lookup_1 _ _ _ _ Htr Hc) as Hn. cbn beta in Hn.
    pose proof (Hzero (fine_net_start ghash gms cs) i) as Hp. rewrite <- Hn in Hp. exact Hp.
  - destruct (fine_simulation adv _ ts1 Hadv (fine_net_start_ok _ _ _ Hu Hq) Hr) as [Hok _].
    destruct (fine_net_step_turn adv ts1 ts) as (j & s & _ & Ht); [done..|].
    unfold fine_turn in Ht. apply bind_Some in Ht as (t & Hj & (t' & Ht & [= <-])%bind_Some).
    assert (Hmono : ∀ i t, trackers_ok (P ts1 i) t → trackers_ok (P (<[j:=t']> ts1) i) t).
    { intros i u [Hp1 Hp2]. split; [by eapply Hlast|]. intros p Hp. eapply Hlast; [done|by apply Hp2]. }
    intros i u Hi. destruct (decide (j = i)) as [<-|Hne].
    + rewrite list_lookup_insert_eq in Hi by (by eapply lookup_lt_Some). injection Hi as <-.
      apply Hmono. eapply fine_step_trackers; [done| |by apply IH].
      intros d p Hp. by eapply Hacc.
    + rewrite list_lookup_insert_ne in Hi by done. apply Hmono. by apply IH.
Qed.

(** *** Runs of one node *)

Definition is_begin (s : FineStep) : bool := match s with Fs_Begin _ _ => true | _ => false end.
Definition is_actor (s : FineStep) : bool := match s with Fs_Actor => true | _ => false end.
Abbreviation count f ss := (length (filter f ss)).

Lemma count_step (f : FineStep → bool) s ss :
  count f (s :: ss) = ((if f s then 1 else 0) + count f ss)%nat.
Proof. rewrite filter_cons. by destruct (f s). Qed.

Lemma fine_step_left s t t' :
  awaiting_ok (fn_awaiting t) → fine_step s t = Some t' →
  awaiting_ok (fn_awaiting t') ∧
  ((if is_actor s then 1 else 0) + awaiting_left (fn_awaiting t') ≤
   (if is_begin s then 15 else 0) + awaiting_left (fn_awaiting t))%nat.
Proof.
  intros Hok Hs. apply fine_step_Some in Hs. destruct s as [now m| | | |e]; cbn [is_actor is_begin].
  - destruct Hs as (_ & -> & _). destruct (actor_begin_ok now m (nd_actor (fn_node t))).
    split; [done|]. lia.
  - destruct Hs as (a & Ha & _). apply actor_turn_left in Ha as [? ?]; [|done]. split; [done|]. lia.
  - destruct Hs as (_ & -> & _). split; [done|]. lia.
  - destruct Hs as (h & k & _ & _ & -> & _). split; [done|]. lia.
  - destruct Hs as (_ & -> & _). split; [done|]. lia.
Qed.

Lemma fine_run_left ss t t' :
  awaiting_ok (fn_awaiting t) → fine_run ss t = Some t' →
  awaiting_ok (fn_awaiting t') ∧
  (count is_actor ss + awaiting_left (fn_awaiting t') ≤
   15 * count is_begin ss + awaiting_left (fn_awaiting t))%nat.
Proof.
  revert t. induction ss as [|s ss IH]; cbn [fine_run]; intros t Hok Hr; [by simplify_eq|].
  apply bind_Some in Hr as (t1 & Hs & Hr). rewrite !count_step.
  destruct (fine_step_left s t t1 Hok Hs) as [Hok1 Hl]. destruct (IH t1 Hok1 Hr) as [? ?].
  split; [done|]. destruct (is_begin s), (is_actor s); lia.
Qed.

(** A message in turns of the actor alone is the atomic step. *)
Lemma fine_message_alone now m n acc :
  ∃ j, (j ≤ 15)%nat ∧ fine_run (Fs_Begin now m :: replicate j Fs_Actor) (mk_Fine n W_Idle acc) =
    Some (mk_Fine (exec_state (node_step (E := E) (Ev_Message now m) n)) W_Idle acc).
Proof.
  pose proof (handle_message_alone now m (nd_actor n) 15 ltac:(lia)) as Hm.
  destruct (actor_begin now m (nd_actor n)) as [aw a] eqn:Hb.
  destruct (fine_run_actor 15 n aw a acc) as (j & Hj & Hr). rewrite Hm in Hr.
  exists j. split; [done|]. cbn [fine_run fine_step fn_node fn_awaiting fn_accepted mbind option_bind].
  rewrite Hb. cbn [mbind option_bind]. rewrite Hr. cbn [node_step fst snd].
  by destruct (handle_message now m (nd_actor n)).
Qed.

(** The finalizer's turns in a row are the atomic one. *)
Lemma fine_finalizer_alone n aw :
  ∃ ss, (ss = [Fs_Ask] ∨ ss = [Fs_Ask; Fs_Set]) ∧
    fine_run ss (mk_Fine n aw None) = Some (mk_Fine (finalizer_turn n) aw None).
Proof.
  unfold finalizer_turn. destruct (nd_finalized n) as [c|] eqn:Hc.
  2: { exists [Fs_Ask]. split; [by left|]. cbn. unfold ask_turn. by rewrite Hc. }
  destruct (chan_recv c) as [d c'| |] eqn:Hd.
  2,3: exists [Fs_Ask]; split; [by left|]; cbn; unfold ask_turn; by rewrite Hc, Hd.
  pose proof (finalize_turns d (block_info (nd_actor n)) (actor_world (nd_actor n))) as Hf.
  change (nw_el (actor_world (nd_actor n))) with (actor_el (nd_actor n)) in Hf.
  destruct (finalize_ask d (block_info (nd_actor n)) (actor_el (nd_actor n)))
    as [[calls acc] w] eqn:Ha.
  rewrite Hf. destruct acc as [[h k]|].
  - exists [Fs_Ask; Fs_Set]. split; [by right|]. cbn. unfold ask_turn. rewrite Hc, Hd, Ha.
    by cbn.
  - exists [Fs_Ask]. split; [by left|]. cbn. unfold ask_turn. rewrite Hc, Hd, Ha. by cbn.
Qed.

(** ** Properties *)

(** C11: every message is handled, await by await: however the other tasks'
    turns and the finalizer's fall between the actor's, an actor that is not
    idle can always take its next turn, and takes at most fifteen per message;
    without the others' turns the turns of a message come to exactly the
    handler of the message, and those of the finalizer to its atomic turn. *)
Theorem handlers_end (n : Node) ss t :
  fine_run ss (fine_start n) = Some t →
  (fn_awaiting t ≠ W_Idle → is_Some (fine_step Fs_Actor t)) ∧
  (count is_actor ss + awaiting_left (fn_awaiting t) ≤ 15 * count is_begin ss)%nat ∧
  (awaiting_left (fn_awaiting t) = 0%nat ↔ fn_awaiting t = W_Idle) ∧
  (fn_awaiting t = W_Idle → ∀ now m, ∃ j, (j ≤ 15)%nat ∧
     fine_run (Fs_Begin now m :: replicate j Fs_Actor) t =
     Some (mk_Fine (exec_state (node_step (E := E) (Ev_Message now m) (fn_node t))) W_Idle
             (fn_accepted t))) ∧
  (fn_accepted t = None → ∃ ss, (ss = [Fs_Ask] ∨ ss = [Fs_Ask; Fs_Set]) ∧
     fine_run ss t = Some (mk_Fine (finalizer_turn (fn_node t)) (fn_awaiting t) None)).
Proof.
  intros Hr. destruct (fine_run_left ss (fine_start n) t) as [Hok Hl]; [done..|].
  split_and!.
  - intros Ha. destruct (actor_turn_enabled (fn_awaiting t) (nd_actor (fn_node t)) Ha) as [[aw a] Ht].
    cbn [fine_step]. rewrite Ht. by eexists.
  - cbn in Hl. lia.
  - destruct (fn_awaiting t) as [| | ? ? ? []| |]; cbn; split; (done || lia).
  - destruct t as [n' aw acc]. cbn. intros -> now m. apply fine_message_alone.
  - destruct t as [n' aw acc]. cbn. intros ->. apply fine_finalizer_alone.
Qed.

(** C1: a network of nodes that run await by await refines the ledger: under
    any interleaving of the actors' turns, the finalizers', the relays', the
    receivers' and the reporters' - engine calls of a build with those of the
    finalizer, other tasks between two stores of one proposal -, of deliveries
    and of harmless messages, every step is invisible in the recorded facts or
    one node learns one block under its own hash; no lock is poisoned and
    every node's invariant holds at every point; and two nodes that recorded
    one digest, at any two points of a run, recorded the same facts, short of
    a collision. *)
Theorem concurrent_network_refines_ledger adv (ghash : B256) (gms : Z) cs ts ts' :
  is_u64 gms → Forall quiet cs → (∀ m, adv m → harmless (W := W) m) →
  rtc (fine_net_step adv) (fine_net_start ghash gms cs) ts → rtc (fine_net_step adv) ts ts' →
  fine_ledger (fine_net_start ghash gms cs) = ledger_init (length cs) (genesis_fact ghash gms) ∧
  rtc (ledger_step (block_digest (W := W)) block_fact) (fine_ledger (fine_net_start ghash gms cs))
    (fine_ledger ts) ∧
  (∀ ts1, fine_net_step adv ts ts1 → fine_ledger ts1 = fine_ledger ts ∨
     ledger_step (block_digest (W := W)) block_fact (fine_ledger ts) (fine_ledger ts1)) ∧
  Forall (λ t, node_ok (fn_node t)) ts ∧
  ∀ i j t t' d x y, ts !! i = Some t → ts' !! j = Some t' → d ≠ EMPTY →
    node_infos (fn_node t) !! d = Some x → node_infos (fn_node t') !! d = Some y →
    fact_of x = fact_of y ∨
    collision (block_digest (W := W)) block_fact d (fact_of x) (fact_of y).
Proof.
  intros Hu Hq Hadv Hr Hr'. pose proof (fine_net_start_ok ghash gms cs Hu Hq) as Hstart.
  destruct (fine_simulation adv _ ts Hadv Hstart Hr) as [Hok Hl].
  split_and!; [by apply fine_start_ledger|done| | |].
  - intros ts1 Hs. destruct (fine_net_step_turn adv ts ts1) as (i & s & Hsafe & Ht); [done..|].
    by eapply fine_turn_ok.
  - eapply Forall_impl; [exact Hok|]. intros t Ht. apply (fo_node _ Ht).
  - intros i j t t' d x y Hi Hj Hd Hx Hy.
    eapply justified_unique; [done| |].
    + by eapply (fine_reachable_info adv _ _ cs ts).
    + eapply (fine_reachable_info adv _ _ cs ts'); [..|exact Hj|exact Hy]; [done..|by etrans].
Qed.

(** C3: finality across the network: whatever the interleaving, and with
    harmless messages injected, the tracker of every node is the genesis'
    (hash and number 0), or it is the hash and number of a record that the
    node's own finalizer took at an earlier point of the run and its engine
    accepted, and these belong to one and the same block; when a finalizer
    takes a digest and its engine accepts, what the tracker will hold is the
    block whose hash that digest is; and two nodes that finalize one digest, at
    any two points of a run, hold the same hash and number, or two different
    blocks with that very hash. *)
Theorem concurrent_finality adv (ghash : B256) (gms : Z) cs ts ts' :
  is_u64 gms → Forall quiet cs → (∀ m, adv m → harmless (W := W) m) →
  Forall (λ c, nw_tracker (cfg_world c) = tracker_new ghash) cs →
  rtc (fine_net_step adv) (fine_net_start ghash gms cs) ts → rtc (fine_net_step adv) ts ts' →
  (∀ i t, ts !! i = Some t →
     finalized_block ghash (tracker_of t) ∧
     (tracker_of t = (ghash, 0) ∨
      taken_before adv (fine_net_start ghash gms cs) ts i (tracker_of t))) ∧
  (∀ i t d p, ts !! i = Some t → d ≠ EMPTY → accepts t d p →
     (∃ block : EthBlock, d = block_digest block ∧ p = (eth_hash_slow block, eth_number block)) ∧
     ∃ t', fine_run [Fs_Ask; Fs_Set] t = Some t' ∧ tracker_of t' = p) ∧
  (∀ i j t t' d p p', ts !! i = Some t → ts' !! j = Some t' → d ≠ EMPTY →
     accepts t d p → accepts t' d p' →
     p = p' ∨ ∃ b b' : EthBlock, b ≠ b' ∧ block_digest b = d ∧ block_digest b' = d).
Proof.
  intros Hu Hq Hadv Htr Hr Hr'.
  assert (Hinfo : ∀ ts i t d p, rtc (fine_net_step adv) (fine_net_start ghash gms cs) ts →
    ts !! i = Some t → accepts t d p → finalized_block ghash p ∧
    (d ≠ EMPTY → ∃ block : EthBlock, d = block_digest block ∧
       p = (eth_hash_slow block, eth_number block))).
  { intros ts0 i t d p Hr0 Hi (x & Hx & ->)%accepts_recorded.
    eapply info_finalized. by eapply (fine_reachable_info adv). }
  split_and!.
  - intros i t Hi. split.
    + refine (proj1 (fine_reachable_trackers adv ghash gms cs ts
        (λ _ _, finalized_block ghash) Hu Hq Hadv Htr _ _ _ Hr i t Hi)); [by left|done|].
      intros ts0 j t0 d p Hr0 Hj Ha. by eapply Hinfo.
    + refine (proj1 (fine_reachable_trackers adv ghash gms cs ts
        (λ ts i p, p = (ghash, 0) ∨ taken_before adv (fine_net_start ghash gms cs) ts i p)
        Hu Hq Hadv Htr _ _ _ Hr i t Hi)); [by left|..].
      * intros ts1 ts2 j p Hs [->|(ts0 & t0 & d & x & Hx1 & Hx2 & Hx)]; [by left|].
        right. exists ts0, t0, d, x. split_and!; [done|by eapply rtc_r|apply Hx..].
      * intros ts0 j t0 d p Hr0 Hj Ha. right.
        destruct (accepts_recorded _ _ _ Ha) as (x & Hx & Hp).
        exists ts0, t0, d, x. by split_and!.
  - intros i t d p Hi Hd Ha. split; [by eapply Hinfo|by eapply accepts_tracked].
  - intros i j t t' d p p' Hi Hj Hd Hp Hp'.
    destruct (proj2 (Hinfo ts i t d p Hr Hi Hp) Hd) as (b & Hb & ->).
    destruct (proj2 (Hinfo ts' j t' d p' ltac:(by etrans) Hj Hp') Hd) as (b' & Hb' & ->).
    destruct (decide (eth_number b = eth_number b')) as [Hn|Hn].
    + left. rewrite Hb in Hb'. unfold block_digest in Hb'. injection Hb' as Hh. by rewrite Hh, Hn.
    + right. exists b, b'. split_and!; [|done..]. intros ->. done.
Qed.
End fine.

(** ** Witnesses *)

Abbreviation SampleFine := (Fine (S := ref_transport) (C := ref_queue Digest)
  (W := ref_engine_state)).
Abbreviation SampleLabel := (FineLabel (S := ref_transport) (E := unit)).

Definition sample_fine_config : NodeConfig (S := ref_transport) (C := ref_queue Digest)
    (W := ref_engine_state) :=
  mk_NodeConfig sample_validators sample_reth (Some metrics_new) sample_world []
    (Some (mk_ref_queue [] 32 true)).

Definition sample_fine_net : list SampleFine :=
  fine_net_start sample_genesis_hash 1700000000000 [sample_fine_config; sample_fine_config].

(** Node 0 proposes; while its engine builds, the genesis is finalized and
    garbage arrives, and between two stores of the proposal the finalizer moves
    the tracker.  The block is relayed and verified by node 1; both nodes are
    told that it is final. *)
Definition sample_fine_labels : list SampleLabel :=
  [Fl_Step 0 (Fs_Begin sample_now (Message_Propose sample_propose));
   Fl_Step 0 (Fs_Other (Ev_Report (Activity_Finalization 1 EMPTY)));
   Fl_Step 0 Fs_Actor; Fl_Inject 0 (key_of 7) [Byte.x00]; Fl_Step 0 Fs_Ask; Fl_Step 0 Fs_Actor;
   Fl_Step 0 Fs_Actor; Fl_Step 0 Fs_Actor; Fl_Step 0 Fs_Actor; Fl_Step 0 Fs_Set;
   Fl_Step 0 Fs_Actor; Fl_Step 0 Fs_Actor;
   Fl_Step 0 (Fs_Other (Ev_Broadcast built_digest Plan_Propose));
   Fl_Deliver 0 1 (key_of 0) (wire_message built_digest (bp_block_bytes sample_built));
   Fl_Step 1 (Fs_Begin sample_now (Message_Verify verify_built)); Fl_Step 1 Fs_Actor;
   Fl_Step 1 Fs_Actor;
   Fl_Step 0 (Fs_Other (Ev_Report (Activity_Finalization 1 built_digest)));
   Fl_Step 1 (Fs_Other (Ev_Report (Activity_Finalization 1 built_digest)))].

Definition sample_fine_end : list SampleFine :=
  default [] (fine_net_run sample_fine_labels sample_fine_net).

Lemma sample_fine_run : fine_net_run sample_fine_labels sample_fine_net = Some sample_fine_end.
Proof.
  unfold sample_fine_end. destruct (fine_net_run sample_fine_labels sample_fine_net) eqn:Hr; [done|].
  assert (Hb : bool_decide (is_Some (fine_net_run sample_fine_labels sample_fine_net)) = true)
    by (vm_compute; reflexivity).
  by rewrite Hr in Hb.
Qed.

Lemma sample_fine_steps : rtc (fine_net_step (E := unit) short) sample_fine_net sample_fine_end.
Proof.
  apply (fine_net_run_steps short sample_fine_labels); [|exact sample_fine_run].
  repeat constructor.
Qed.

Lemma sample_fine_quiet : Forall quiet [sample_fine_config; sample_fine_config].
Proof. repeat constructor. Qed.

Definition sample_fine_node (i : nat) : SampleFine :=
  default (fine_start sample_node) (sample_fine_end !! i).

Lemma sample_fine_lookup i : (i < 2)%nat → sample_fine_end !! i = Some (sample_fine_node i).
Proof.
  intros Hi. unfold sample_fine_node. destruct (sample_fine_end !! i) eqn:Hl; [done|].
  apply lookup_ge_None in Hl. change (length sample_fine_end) with 2%nat in Hl. lia.
Qed.

(** Both nodes recorded the block. *)
Lemma concurrent_network_refines_ledger_witness :
  rtc (ledger_step block_digest block_fact)
    (ledger_init 2 (genesis_fact sample_genesis_hash 1700000000000))
    (fine_ledger sample_fine_end) ∧
  ∃ x y, node_infos (fn_node (sample_fine_node 0)) !! built_digest = Some x ∧
    node_infos (fn_node (sample_fine_node 1)) !! built_digest = Some y ∧
    fact_of x = sample_fact ∧ fact_of x = fact_of y.
Proof.
  destruct (concurrent_network_refines_ledger (E := unit) short sample_genesis_hash 1700000000000
    [sample_fine_config; sample_fine_config] sample_fine_end sample_fine_end sample_gms
    sample_fine_quiet short_harmless sample_fine_steps (rtc_refl _ _))
    as (Hinit & Hsteps & _ & _ & Hagree).
  split; [rewrite Hinit in Hsteps; exact Hsteps|].
  destruct (facts_info (fn_node (sample_fine_node 0)) built_digest sample_fact) as (x & Hx & Hfx).
  { vm_compute. reflexivity. }
  destruct (facts_info (fn_node (sample_fine_node 1)) built_digest sample_fact) as (y & Hy & Hfy).
  { vm_compute. reflexivity. }
  exists x, y. split; [exact Hx|]. split; [exact Hy|]. split; [exact Hfx|].
  destruct (Hagree 0%nat 1%nat _ _ built_digest x y (sample_fine_lookup 0 ltac:(lia))
    (sample_fine_lookup 1 ltac:(lia)) ltac:(vm_compute; discriminate) Hx Hy) as [He|[Hne _]];
    [exact He|].
  destruct Hne. transitivity sample_fact; [exact Hfx|symmetry; exact Hfy].
Defined.

Lemma sample_trackers_start :
  Forall (λ c, nw_tracker (cfg_world c) = tracker_new sample_genesis_hash)
    [sample_fine_config; sample_fine_config].
Proof. repeat constructor. Qed.

(** Node 0's finalizer goes on, to the end. *)
Definition sample_final_labels : list SampleLabel :=
  sample_fine_labels ++ [Fl_Step 0 Fs_Ask; Fl_Step 0 Fs_Set].

Definition sample_final_end : list SampleFine :=
  default [] (fine_net_run sample_final_labels sample_fine_net).

Lemma sample_final_steps : rtc (fine_net_step (E := unit) short) sample_fine_net sample_final_end.
Proof.
  apply (fine_net_run_steps short sample_final_labels); [repeat constructor|].
  unfold sample_final_end. destruct (fine_net_run sample_final_labels sample_fine_net) eqn:Hr; [done|].
  assert (Hb : bool_decide (is_Some (fine_net_run sample_final_labels sample_fine_net)) = true)
    by (vm_compute; reflexivity).
  by rewrite Hr in Hb.
Qed.

Definition sample_final_node : SampleFine :=
  default (fine_start sample_node) (sample_final_end !! 0%nat).

Lemma sample_final_lookup : sample_final_end !! 0%nat = Some sample_final_node.
Proof.
  unfold sample_final_node. destruct (sample_final_end !! 0%nat) eqn:Hl; [done|].
  apply lookup_ge_None in Hl. change (length sample_final_end) with 2%nat in Hl. lia.
Qed.

Lemma sample_final_tracker :
  bool_decide (tracker_of sample_final_node = (bp_block_hash sample_built, 1)) = true ∧
  bool_decide (tracker_of sample_final_node = (sample_genesis_hash, 0)) = false.
Proof. split; vm_compute; reflexivity. Qed.

(** Both nodes finalize the block; what node 0's tracker holds in the end it
    had recorded, and its finalizer had taken. *)
Lemma concurrent_finality_witness :
  (tracker_of sample_final_node = (bp_block_hash sample_built, 1) ∧
   taken_before (E := unit) short sample_fine_net sample_final_end 0
     (tracker_of sample_final_node)) ∧
  ∃ t0 t1, fine_run (E := unit) [Fs_Ask; Fs_Set] (sample_fine_node 0) = Some t0 ∧
    fine_run (E := unit) [Fs_Ask; Fs_Set] (sample_fine_node 1) = Some t1 ∧
    tracker_of t0 = (bp_block_hash sample_built, 1) ∧ tracker_of t1 = tracker_of t0.
Proof.
  destruct (concurrent_finality (E := unit) short sample_genesis_hash 1700000000000
    [sample_fine_config; sample_fine_config] sample_fine_end sample_fine_end sample_gms
    sample_fine_quiet short_harmless sample_trackers_start sample_fine_steps (rtc_refl _ _))
    as (_ & Hacc & _).
  destruct (concurrent_finality (E := unit) short sample_genesis_hash 1700000000000
    [sample_fine_config; sample_fine_config] sample_final_end sample_final_end sample_gms
    sample_fine_quiet short_harmless sample_trackers_start sample_final_steps (rtc_refl _ _))
    as (Htr & _).
  split.
  { destruct sample_final_tracker as [Hyes Hno]. apply bool_decide_eq_true in Hyes.
    split; [exact Hyes|].
    destruct (proj2 (Htr 0%nat _ sample_final_lookup)) as [Heq|Hb]; [|exact Hb].
    exfalso. exact (proj1 (bool_decide_eq_false _) Hno Heq). }
  assert (Ha : ∀ i, i = 0%nat ∨ i = 1%nat →
    accepts (E := unit) (sample_fine_node i) built_digest (bp_block_hash sample_built, 1)).
  { intros i [-> | ->]; apply accepts_intro; vm_compute; reflexivity. }
  destruct (Hacc 0%nat _ built_digest _ (sample_fine_lookup 0 ltac:(lia))
    ltac:(vm_compute; discriminate) (Ha 0%nat (or_introl eq_refl))) as (_ & t0 & Ht0 & Hp0).
  destruct (Hacc 1%nat _ built_digest _ (sample_fine_lookup 1 ltac:(lia))
    ltac:(vm_compute; discriminate) (Ha 1%nat (or_intror eq_refl))) as (_ & t1 & Ht1 & Hp1).
  exists t0, t1. split; [exact Ht0|]. split; [exact Ht1|]. split; [exact Hp0|].
  rewrite Hp0. exact Hp1.
Defined.

(** A build under way. *)
Definition sample_fine_steps_node : list (FineStep (S := ref_transport) (E := unit)) :=
  [Fs_Begin sample_now (Message_Propose sample_propose); Fs_Actor; Fs_Ask; Fs_Actor].

Definition sample_building : SampleFine :=
  default (fine_start sample_node) (fine_run sample_fine_steps_node (fine_start sample_node)).

Lemma handlers_end_witness :
  is_Some (fine_step (E := unit) Fs_Actor sample_building) ∧
  (2 + awaiting_left (fn_awaiting sample_building) ≤ 15)%nat.
Proof.
  assert (Hr : fine_run sample_fine_steps_node (fine_start sample_node) = Some sample_building).
  { unfold sample_building. destruct (fine_run _ _) eqn:Hrun; [reflexivity|].
    assert (Hb : bool_decide (is_Some (fine_run sample_fine_steps_node (fine_start sample_node)))
                 = true) by (vm_compute; reflexivity).
    rewrite Hrun in Hb. discriminate Hb. }
  assert (Hw : awaiting_left (fn_awaiting sample_building) = 5%nat) by (vm_compute; reflexivity).
  destruct (handlers_end sample_node sample_fine_steps_node sample_building Hr)
    as (Hstep & Hcount & Hidle & _ & _).
  split; [|exact Hcount]. apply Hstep. intros Hi. apply Hidle in Hi. rewrite Hw in Hi.
  discriminate Hi.
Defined.
