(* ===== verification/Linearize.v ===== *)
(** * Handlers are atomic for the relay, the receiver and the reporter

    A run of [Concurrent.v], await by await, in which the finalizer steps only
    while the actor is idle, comes to a run of the whole handlers of [Node.v]:
    the relay, the receiver and the reporter may step between any two engine
    calls of a build, between any two of its stores and around a validation.
    What they do in between moves before the message (relay, reporter) or
    after it (receiver), except what the relay and the reporter do after the
    block was put among the pending ones, which moves after the message too.

    The finalizer must be kept apart: the builder reads the tracker at its
    start and declares what it read in every later call, so that a finalizer
    that steps in between leaves a run that is none of whole handlers
    ([Turns.v] has one). *)

From S2P Require Import Prelude Extern Reference Digest Ledger Validators Metrics Error Executor.
From S2P Require Import ReferenceBuilder Application Engine Reth Builder Finalizer Turns Node.
From S2P Require Import Interleaving Network Concurrent.
Local Open Scope Z_scope.

(** ** What the receiver and the counters touch, the actor does not read *)

Section actor.
Context `{!Ed25519} {W : Type} `{!RethEngine W}.
Abbreviation Actor := (Actor RethPayloadBuilder (NodeWorld W)).

(** A counter moves and the received blocks change. *)
Definition nudge (c : option Counter) (rx : BlockStore) (a : Actor) : Actor :=
  set_metrics (bump c (metrics a)) (set_received rx a).

Definition count_in (c : option Counter) (a : Actor) : Actor := nudge c (received_blocks a) a.

Lemma count_in_eq c a : count_in c a = set_metrics (bump c (metrics a)) a.
Proof. by destruct a. Qed.

Lemma nudge_on_metrics c rx d a :
  on_metrics (fetch_add d) (nudge c rx a) = nudge c rx (on_metrics (fetch_add d) a).
Proof. unfold on_metrics, nudge. cbn. by rewrite inc_bump. Qed.

Lemma verify_conclude_nudge c rx v r a :
  (verify_conclude v r (nudge c rx a)).2 = nudge c rx (verify_conclude v r a).2.
Proof.
  destruct r as [[meta|]|]; cbn [verify_conclude]; [destruct (negb _)|..]; cbn [snd];
    unfold inc_failed_validations, inc_errors, inc_blocks_verified;
    rewrite ?nudge_on_metrics; try done.
  unfold on_metrics, nudge. cbn. by rewrite inc_bump.
Qed.

Lemma actor_turn_nudge c rx aw a :
  actor_turn aw (nudge c rx a) = prod_map id (nudge c rx) <$> actor_turn aw a.
Proof.
  destruct aw as [|p r fin at_|p r b st|v b|v r]; cbn [actor_turn]; [done|..].
  - destruct (at_end at_) as [[b|e]|] eqn:He.
    + destruct at_; by simplify_eq/=.
    + destruct at_; simplify_eq/=. unfold inc_errors. by rewrite nudge_on_metrics.
    + pose proof (actor_turn_building p r fin at_ a He) as Ha.
      pose proof (actor_turn_building p r fin at_ (nudge c rx a) He) as Hn.
      cbn [actor_turn] in Ha, Hn. rewrite Ha, Hn.
      change (payload_builder (nudge c rx a)) with (payload_builder a).
      change (actor_el (nudge c rx a)) with (actor_el a).
      by destruct (build_turn _ _ _ _ _).
  - by destruct st.
  - change (payload_builder (nudge c rx a)) with (payload_builder a);
      change (actor_world (nudge c rx a)) with (actor_world a).
    by destruct (validate_block _ _ _ _).
  - cbn. by rewrite verify_conclude_nudge.
Qed.

Lemma actor_turns_nudge c rx k aw a :
  actor_turns k (aw, nudge c rx a) = prod_map id (nudge c rx) (actor_turns k (aw, a)).
Proof.
  revert aw a. induction k as [|k IH]; intros aw a; [done|]. cbn [actor_turns fst snd].
  rewrite actor_turn_nudge. destruct (actor_turn aw a) as [[aw' a']|]; [|done]. apply IH.
Qed.

(** *** A turn keeps the received blocks, and the pending ones but for one *)

Lemma actor_turn_received aw a aw' a' :
  actor_turn aw a = Some (aw', a') → received_blocks a' = received_blocks a.
Proof.
  intros Ht. destruct aw as [|p r fin at_|p r b st|v b|v r]; cbn [actor_turn] in Ht; [done|..].
  - destruct (at_end at_) as [[]|] eqn:He; [by destruct at_; simplify_eq/=..|].
    pose proof (actor_turn_building p r fin at_ a He) as Hb. cbn [actor_turn] in Hb.
    rewrite Hb in Ht. destruct (build_turn _ _ _ _ _). by simplify_eq.
  - destruct st; by simplify_eq.
  - destruct (validate_block _ _ _ _). by simplify_eq.
  - simplify_eq. destruct r as [[meta|]|]; cbn [verify_conclude]; [destruct (negb _)|..]; done.
Qed.

Lemma actor_turns_received k aw a :
  received_blocks (actor_turns k (aw, a)).2 = received_blocks a.
Proof.
  revert aw a. induction k as [|k IH]; intros aw a; [done|]. cbn [actor_turns fst snd].
  destruct (actor_turn aw a) as [[aw' a']|] eqn:Ht; [|done].
  rewrite IH. by eapply actor_turn_received.
Qed.

(** Nothing of the message has reached the pending blocks yet. *)
Definition early (aw : Awaiting (W := W)) : bool :=
  match aw with
  | W_Idle | W_Recording _ _ _ Rec_Proposals => false
  | _ => true
  end.

Lemma actor_turn_pending aw a aw' a' :
  actor_turn aw a = Some (aw', a') →
  (early aw' = true → early aw = true ∧ pending_blocks a' = pending_blocks a) ∧
  (early aw = false → pending_blocks a' = pending_blocks a).
Proof.
  intros Ht. destruct aw as [|p r fin at_|p r b st|v b|v r]; cbn [actor_turn] in Ht; [done|..].
  - destruct (at_end at_) as [[]|] eqn:He; [by destruct at_; simplify_eq/=..|].
    pose proof (actor_turn_building p r fin at_ a He) as Hb. cbn [actor_turn] in Hb.
    rewrite Hb in Ht. destruct (build_turn _ _ _ _ _). by simplify_eq.
  - destruct st; by simplify_eq.
  - destruct (validate_block _ _ _ _). by simplify_eq.
  - by simplify_eq.
Qed.

Lemma late_turns_pending k aw a :
  early aw = false → pending_blocks (actor_turns k (aw, a)).2 = pending_blocks a.
Proof.
  revert aw a. induction k as [|k IH]; intros aw a He; [done|]. cbn [actor_turns fst snd].
  destruct (actor_turn aw a) as [[aw' a']|] eqn:Ht; [|done].
  destruct (actor_turn_pending _ _ _ _ Ht) as [H1 H2]. rewrite IH; [by apply H2|].
  destruct (early aw') eqn:He'; [|done]. destruct (H1 eq_refl) as [? _]. congruence.
Qed.

(** *** The start of a message *)

Lemma actor_begin_count {R} now (m : Message R) c a :
  actor_begin now m (count_in c a) = prod_map id (count_in c) (actor_begin now m a).
Proof.
  destruct m as [p|v|b]; cbn [actor_begin]; [| |done].
  - unfold propose_begin, inc_blocks_proposed.
    set (a1 := set_proposal_count (wrap 64 (proposal_count a + 1)) a).
    change (set_proposal_count _ (count_in c a)) with (nudge c (received_blocks a) a1).
    rewrite nudge_on_metrics. set (a2 := on_metrics _ a1).
    change (nudge c (received_blocks a) a2) with (count_in c a2).
    change (block_info (count_in c a2)) with (block_info a2).
    destruct (lock_read _); [|done]. by destruct (copy_from_slice _).
  - unfold verify_begin, inc_failed_validations.
    change (lookup_block_bytes (v_payload v) (count_in c a)) with
      (lookup_block_bytes (v_payload v) a).
    change (actor_validators (count_in c a)) with (actor_validators a).
    unfold count_in. rewrite nudge_on_metrics.
    destruct (validator_lookup _ _); [|done]. by destruct (lookup_block_bytes _ _) as [[b|]|].
Qed.

Lemma actor_begin_pending {R} now (m : Message R) a :
  pending_blocks (actor_begin now m a).2 = pending_blocks a.
Proof.
  destruct m as [p|v|b]; cbn [actor_begin]; [| |done].
  - unfold propose_begin. destruct (lock_read _); [|done]. by destruct (copy_from_slice _).
  - unfold verify_begin. destruct (validator_lookup _ _); [|done].
    by destruct (lookup_block_bytes _ _) as [[]|].
Qed.

(** *** Enough turns *)

Lemma actor_turns_enough n m aw a :
  awaiting_ok aw → (awaiting_left aw ≤ n)%nat → (n ≤ m)%nat →
  actor_turns m (aw, a) = actor_turns n (aw, a).
Proof.
  revert m aw a. induction n as [|n IH]; intros m aw a Hok Hn Hm.
  - assert (aw = W_Idle) as -> by (destruct aw as [|? ? ? []|? ? ? []| |]; cbn in Hn; (done || lia)).
    apply actor_turns_idle.
  - destruct m as [|m]; [lia|]. cbn [actor_turns fst snd].
    destruct (actor_turn aw a) as [[aw' a']|] eqn:Ht; [|done].
    destruct (actor_turn_left _ _ _ _ Hok Ht). apply IH; [done|lia|lia].
Qed.
End actor.

(** ** A node's run *)

Section runs.
Context `{!Ed25519, !ActorFeedback} {S C W E : Type}
  `{!P2pSender S, !Channel C Digest, !ChannelRx C Digest, !RethEngine W}.

Abbreviation Node := (Node (S := S) (C := C) (W := W)).
Abbreviation Event := (Event (S := S) (E := E)).
Abbreviation Message := (Message Recipients).
Abbreviation Actor := (Actor RethPayloadBuilder (NodeWorld W)).
Abbreviation Fine := (Fine (S := S) (C := C) (W := W)).
Abbreviation FineStep := (FineStep (S := S) (E := E)).
Abbreviation exec e n := (exec_state (node_step (E := E) e n)).

(** The event a step begins; the steps that go on with one begin none. *)
Definition step_event (s : FineStep) : option Event :=
  match s with
  | Fs_Begin now m => Some (Ev_Message now m)
  | Fs_Ask => Some Ev_Finalize
  | Fs_Other e => Some e
  | Fs_Actor | Fs_Set => None
  end.

(** The finalizer's call and its move of the tracker fall between two
    messages. *)
Definition apart_step (s : FineStep) (t : Fine) : bool :=
  match s, fn_awaiting t, fn_accepted t with
  | Fs_Begin _ _, _, Some _ => false
  | Fs_Ask, W_Idle, _ => true
  | Fs_Ask, _, _ => false
  | _, _, _ => true
  end.

Fixpoint finalizer_apart (ss : list FineStep) (t : Fine) : bool :=
  match ss with
  | [] => true
  | s :: ss => apart_step s t &&
      match fine_step s t with Some t => finalizer_apart ss t | None => true end
  end.

Lemma finalizer_apart_snoc ss s t t' :
  fine_run ss t = Some t' →
  finalizer_apart (ss ++ [s]) t = true → finalizer_apart ss t = true ∧ apart_step s t' = true.
Proof.
  revert t. induction ss as [|s1 ss IH]; intros t; cbn.
  - intros [= <-] [Hs _]%andb_true_iff. done.
  - intros (t1 & Ht & Hr)%bind_Some [Hs Ha]%andb_true_iff. rewrite Ht in *.
    destruct (IH t1 Hr Ha) as [-> ?]. by rewrite Hs.
Qed.

(** ** What is under way, brought to its end *)

Definition set_accepted (acc : option (B256 * Z)) (n : Node) : Node :=
  match acc with Some (hash, number) => set_turn hash number n | None => n end.

Definition settle (t : Fine) : Node :=
  let n := set_accepted (fn_accepted t) (fn_node t) in
  put_actor (actor_turns 16 (fn_awaiting t, nd_actor n)).2 n.

(** A counter, the sender and the finalized channel move. *)
Definition outer (c : option Counter) (s : S) (fin : option C) (n : Node) : Node :=
  mk_Node (count_in c (nd_actor n)) s fin.

Lemma settle_outer c s fin n aw acc :
  settle (mk_Fine (outer c s fin n) aw acc) = outer c s fin (settle (mk_Fine n aw acc)).
Proof.
  unfold settle. cbn [fn_accepted fn_node fn_awaiting].
  assert (Hset : set_accepted acc (outer c s fin n) = outer c s fin (set_accepted acc n))
    by (by destruct acc as [[]|]).
  rewrite Hset. set (n' := set_accepted acc n). unfold outer, put_actor. cbn [nd_actor].
  unfold count_in at 1. rewrite actor_turns_nudge. cbn [prod_map snd]. unfold count_in.
  by rewrite actor_turns_received.
Qed.

Lemma settle_receive r n aw acc :
  settle (mk_Fine (exec (Ev_Receive r) n) aw acc) = exec (Ev_Receive r) (settle (mk_Fine n aw acc)).
Proof.
  rewrite !receive_step. unfold settle. cbn [fn_accepted fn_node fn_awaiting].
  assert (Hset : set_accepted acc (put_actor (recv_actor r (nd_actor n)) n) =
    put_actor (recv_actor r (nd_actor (set_accepted acc n))) (set_accepted acc n))
    by (by destruct acc as [[]|]).
  rewrite Hset. set (n' := set_accepted acc n). unfold put_actor. cbn [nd_actor nd_sender nd_finalized].
  unfold recv_actor at 1. fold (nudge (recv_count r (received_blocks (nd_actor n')))
    (recv_store r (received_blocks (nd_actor n'))) (nd_actor n')).
  rewrite actor_turns_nudge. cbn [prod_map snd]. unfold recv_actor.
  by rewrite actor_turns_received.
Qed.

(** *** The relay and the reporter: by the pending blocks alone *)

Definition quiet_event (e : Event) : bool :=
  match e with Ev_Broadcast _ _ | Ev_Report _ => true | _ => false end.

Definition same_outside (n n' : Node) : Prop :=
  pending_blocks (nd_actor n') = pending_blocks (nd_actor n) ∧
  nd_sender n' = nd_sender n ∧ nd_finalized n' = nd_finalized n.

Lemma quiet_effect (e : Event) n :
  quiet_event e = true →
  ∃ c s fin, ∀ n', same_outside n n' → exec e n' = outer c s fin n'.
Proof.
  intros Hq. destruct e as [| d plan| |act|]; try done; cbn [node_step].
  - destruct (broadcast_effect d plan (pending_blocks (nd_actor n)) (nd_sender n)) as (s' & c & Hb).
    exists c, s', (nd_finalized n). intros n' (Hp & Hs & Hf).
    specialize (Hb (metrics (nd_actor n'))). unfold node_relay. rewrite Hp, Hs.
    destruct (broadcast _ _ _) as [o r|r]; cbn [exec_state lift_exec] in *; subst r;
      unfold put_relay, outer; rewrite count_in_eq; cbn; rewrite Hf, <- Hp; by destruct (nd_actor n').
  - destruct act as [| v payload| | | | | v payload| | |].
    7: exists (Some BlocksFinalized), (nd_sender n),
         ((λ tx, (try_send payload tx).2) <$> nd_finalized n).
    all: try exists None, (nd_sender n), (nd_finalized n).
    all: intros n' (_ & Hs & Hf); unfold put_reporter, outer; rewrite count_in_eq; cbn;
      by rewrite Hs, Hf.
Qed.

Lemma same_outside_refl n : same_outside n n.
Proof. by split_and!. Qed.

(** They move before a message, and before what was received. *)
Lemma message_outer now m c s fin n :
  exec (Ev_Message now m) (outer c s fin n) = outer c s fin (exec (Ev_Message now m) n).
Proof.
  assert (Hm : ∀ n, exec (Ev_Message now m) n =
    put_actor (actor_turns 16 (actor_begin now m (nd_actor n))).2 n).
  { intros n'. rewrite handle_message_alone by lia. cbn [node_step snd].
    by destruct (handle_message now m (nd_actor n')). }
  rewrite !Hm. unfold outer, put_actor. cbn [nd_actor]. rewrite actor_begin_count.
  assert (Hr : received_blocks (actor_begin now m (nd_actor n)).2 = received_blocks (nd_actor n)).
  { destruct m as [p|v|b]; cbn [actor_begin]; [| |done].
    - unfold propose_begin. destruct (lock_read _); [|done]. by destruct (copy_from_slice _).
    - unfold verify_begin. destruct (validator_lookup _ _); [|done].
      by destruct (lookup_block_bytes _ _) as [[]|]. }
  destruct (actor_begin now m (nd_actor n)) as [aw a]. cbn [prod_map fst snd id] in *.
  unfold count_in at 1. rewrite actor_turns_nudge. cbn [prod_map snd]. unfold count_in.
  by rewrite actor_turns_received.
Qed.

Lemma receives_outer rs c s fin n :
  node_run (Ev_Receive <$> rs) (outer c s fin n) =
  outer c s fin (node_run (E := E) (Ev_Receive <$> rs) n).
Proof.
  revert n. induction rs as [|r rs IH]; intros n; [done|]. cbn [fmap list_fmap node_run].
  rewrite <- IH. f_equal. rewrite !receive_step. unfold outer, put_actor. cbn [nd_actor].
  f_equal. rewrite !count_in_eq. unfold recv_actor. cbn. by rewrite bump_comm.
Qed.

(** ** Linearization

    While a message has not reached the pending blocks, what is under way ends
    as the events before it, the message, and what was received since, one
    after the other; from then on, as whole events. *)
Record linearized (n0 : Node) (evs : list Event) (t : Fine) : Prop := mk_linearized {
  li_ok : awaiting_ok (fn_awaiting t) ∧ (awaiting_left (fn_awaiting t) ≤ 16)%nat;
  li_apart : fn_accepted t = None ∨ fn_awaiting t = W_Idle;
  li_early : early (fn_awaiting t) = true →
    ∃ es now m rs, reordering (es ++ Ev_Message now m :: (Ev_Receive <$> rs)) evs ∧
      settle t = node_run (Ev_Receive <$> rs) (exec (Ev_Message now m) (node_run es n0)) ∧
      same_outside (node_run es n0) (fn_node t);
  li_late : early (fn_awaiting t) = false →
    ∃ es, reordering es evs ∧ settle t = node_run es n0;
}.

Lemma settle_idle n acc : settle (mk_Fine n W_Idle acc) = set_accepted acc n.
Proof. unfold settle. cbn -[actor_turns]. rewrite actor_turns_idle. apply put_actor_self. Qed.

Lemma settle_begin now m n :
  let '(aw, a) := actor_begin now m (nd_actor n) in
  settle (mk_Fine (put_actor a n) aw None) = exec (Ev_Message now m) n.
Proof.
  pose proof (handle_message_alone now m (nd_actor n) 16 ltac:(lia)) as Hm.
  destruct (actor_begin now m (nd_actor n)) as [aw a]. unfold settle.
  cbn [fn_accepted fn_awaiting fn_node set_accepted nd_actor put_actor]. rewrite Hm.
  cbn [node_step snd]. by destruct (handle_message now m (nd_actor n)).
Qed.

Lemma settle_turn aw a aw' n :
  awaiting_ok aw → (awaiting_left aw ≤ 16)%nat →
  actor_turn aw (nd_actor n) = Some (aw', a) →
  settle (mk_Fine (put_actor a n) aw' None) = settle (mk_Fine n aw None).
Proof.
  intros Hok Hl Ht. destruct (actor_turn_left _ _ _ _ Hok Ht) as [Hok' Hl'].
  assert (H16 : actor_turns 16 (aw, nd_actor n) = actor_turns 16 (aw', a)).
  { rewrite (actor_turns_enough 15 16 aw' a) by (done || lia).
    transitivity (match actor_turn aw (nd_actor n) with
      | Some s => actor_turns 15 s | None => (aw, nd_actor n) end); [done|by rewrite Ht]. }
  unfold settle, put_actor. cbn [fn_accepted fn_awaiting fn_node set_accepted nd_actor].
  by rewrite H16.
Qed.

Lemma settle_ask n n' acc :
  ask_turn n = (n', acc) → settle (mk_Fine n' W_Idle acc) = finalizer_turn n.
Proof.
  rewrite settle_idle. unfold ask_turn, finalizer_turn.
  destruct (nd_finalized n) as [c|]; [|by intros [= <- <-]].
  destruct (chan_recv c) as [d c'| |]; [|by intros [= <- <-]..].
  pose proof (finalize_turns d (block_info (nd_actor n)) (actor_world (nd_actor n))) as Hf.
  change (nw_el (actor_world (nd_actor n))) with (actor_el (nd_actor n)) in Hf.
  destruct (finalize_ask d (block_info (nd_actor n)) (actor_el (nd_actor n))) as [[calls acc'] w].
  intros [= <- <-]. rewrite Hf. by destruct acc' as [[]|].
Qed.

(** A step of the receiver, the relay or the reporter. *)
Lemma linearized_other n0 evs t (e : Event) :
  other_event e = true → linearized n0 evs t →
  linearized n0 (evs ++ [e]) (mk_Fine (exec e (fn_node t)) (fn_awaiting t) (fn_accepted t)).
Proof.
  intros He [Hok Hap Hearly Hlate]. destruct t as [n aw acc]. cbn [fn_node fn_awaiting fn_accepted] in *.
  destruct (quiet_event e) eqn:Hq.
  - destruct (quiet_effect e n Hq) as (c & s' & fin' & Hx).
    rewrite (Hx n (same_outside_refl n)). split; [done|done|..]; cbn [fn_node fn_awaiting]; intros Ha.
    + destruct (Hearly Ha) as (es & now & m & rs & Hr & Hs & Ho).
      exists (es ++ [e]), now, m, rs. split_and!.
      * apply reordering_quiet; [by destruct e|apply of_kind_receives|done].
      * rewrite settle_outer, Hs, node_run_app. cbn [node_run].
        destruct Ho as (Ho1 & Ho2 & Ho3).
        rewrite (Hx (node_run es n0)) by by split_and!.
        by rewrite message_outer, receives_outer.
      * rewrite node_run_app. cbn [node_run]. destruct Ho as (Ho1 & Ho2 & Ho3).
        rewrite (Hx (node_run es n0)) by by split_and!. by split_and!.
    + destruct (Hlate Ha) as (es & Hr & Hs). exists (es ++ [e]).
      split; [by apply reordering_snoc|]. rewrite settle_outer, node_run_app, <- Hs. cbn [node_run].
      symmetry. apply Hx. unfold settle, same_outside, put_actor.
      cbn [fn_node fn_awaiting fn_accepted nd_actor nd_sender nd_finalized].
      rewrite late_turns_pending by done. by destruct acc as [[]|].
  - destruct e as [| |r| |]; try done. split; [done|done|..]; cbn [fn_node fn_awaiting]; intros Ha.
    + destruct (Hearly Ha) as (es & now & m & rs & Hr & Hs & Ho).
      exists es, now, m, (rs ++ [r]). rewrite fmap_app. split_and!.
      * change (?x :: ?l ++ ?k) with ((x :: l) ++ k). rewrite app_assoc. by apply reordering_snoc.
      * by rewrite settle_receive, Hs, node_run_app.
      * by rewrite receive_step.
    + destruct (Hlate Ha) as (es & Hr & Hs). exists (es ++ [Ev_Receive r]).
      split; [by apply reordering_snoc|]. by rewrite settle_receive, Hs, node_run_app.
Qed.

Lemma linearized_begin n0 evs now m n :
  linearized n0 evs (mk_Fine n W_Idle None) →
  let '(aw, a) := actor_begin now m (nd_actor n) in
  linearized n0 (evs ++ [Ev_Message now m]) (mk_Fine (put_actor a n) aw None).
Proof.
  intros [_ _ _ Hlate]. destruct (Hlate eq_refl) as (es & Hr & Hs). rewrite settle_idle in Hs.
  cbn [set_accepted] in Hs. pose proof (settle_begin now m n) as Hb.
  pose proof (actor_begin_ok now m (nd_actor n)) as [Hok Hl].
  pose proof (actor_begin_pending now m (nd_actor n)) as Hp.
  destruct (actor_begin now m (nd_actor n)) as [aw a]. cbn [fst snd] in *.
  split; cbn [fn_awaiting fn_node fn_accepted]; [split; [done|lia]|by left|..]; intros Ha.
  - exists es, now, m, []. split_and!; [by apply reordering_snoc|by rewrite Hb, Hs|].
    rewrite <- Hs. by split_and!.
  - exists (es ++ [Ev_Message now m]). split; [by apply reordering_snoc|].
    rewrite Hb, node_run_app, <- Hs. done.
Qed.

Lemma linearized_turn n0 evs aw a aw' n :
  linearized n0 evs (mk_Fine n aw None) → actor_turn aw (nd_actor n) = Some (aw', a) →
  linearized n0 evs (mk_Fine (put_actor a n) aw' None).
Proof.
  intros [[Hok Hl] _ Hearly Hlate] Ht. cbn [fn_awaiting fn_node] in *.
  destruct (actor_turn_left _ _ _ _ Hok Ht) as [Hok' Hl'].
  pose proof (settle_turn aw a aw' n Hok Hl Ht) as Hs.
  destruct (actor_turn_pending _ _ _ _ Ht) as [Hpe Hpl].
  split; cbn [fn_awaiting fn_node fn_accepted]; [split; [done|lia]|by left|..]; rewrite Hs; intros Ha.
  - destruct (Hpe Ha) as [Ha' Hp]. destruct (Hearly Ha') as (es & now & m & rs & Hr & Hst & Ho).
    exists es, now, m, rs. split_and!; [done|done|].
    destruct Ho as (Ho1 & Ho2 & Ho3). unfold same_outside, put_actor. cbn.
    by rewrite Hp, Ho1, Ho2, Ho3.
  - destruct (early aw) eqn:Haw; [|by apply Hlate].
    destruct (Hearly eq_refl) as (es & now & m & rs & Hr & Hst & _).
    exists (es ++ Ev_Message now m :: (Ev_Receive <$> rs)). split; [done|].
    by rewrite Hst, node_run_app.
Qed.

Lemma linearized_step n0 evs s t t' :
  linearized n0 evs t → apart_step s t = true → fine_step s t = Some t' →
  linearized n0 (evs ++ option_list (step_event s)) t'.
Proof.
  intros Hl Hap Hs. destruct t as [n aw acc].
  destruct s as [now m| | | |e]; cbn [step_event option_list]; unfold apart_step in Hap;
    cbn [fine_step fn_node fn_awaiting fn_accepted] in *.
  - destruct acc; [done|]. destruct aw; [|done..].
    pose proof (linearized_begin n0 evs now m n Hl) as Hb.
    destruct (actor_begin now m (nd_actor n)). by simplify_eq.
  - rewrite app_nil_r. apply bind_Some in Hs as ([aw' a] & Ht & Hs). simplify_eq.
    assert (acc = None) as -> by (destruct (li_apart _ _ _ Hl) as [?|Hi];
      cbn in *; [done|by subst aw]).
    by eapply linearized_turn.
  - destruct aw; [|done..]. destruct acc; [done|].
    destruct (ask_turn n) as [n' acc] eqn:Ha. simplify_eq.
    destruct (li_late _ _ _ Hl eq_refl) as (es & Hr & Hst). rewrite settle_idle in Hst.
    split; cbn [fn_awaiting]; [split; [done|cbn; lia]|by right|done|intros _].
    exists (es ++ [Ev_Finalize]). split; [by apply reordering_snoc|].
    rewrite (settle_ask n n' acc Ha), node_run_app, <- Hst. done.
  - rewrite app_nil_r. destruct acc as [[h k]|]; [|done]. simplify_eq.
    assert (aw = W_Idle) as -> by (by destruct (li_apart _ _ _ Hl)).
    destruct (li_late _ _ _ Hl eq_refl) as (es & Hr & Hst). rewrite settle_idle in Hst.
    split; cbn [fn_awaiting]; [split; [done|cbn; lia]|by right|done|intros _].
    exists es. split; [done|]. by rewrite settle_idle.
  - destruct (other_event e) eqn:He; simplify_eq.
    exact (linearized_other n0 evs (mk_Fine n aw acc) e He Hl).
Qed.

Lemma fine_run_linearized ss n t :
  fine_run ss (fine_start n) = Some t → finalizer_apart ss (fine_start n) = true →
  linearized n (omap step_event ss) t.
Proof.
  revert t. induction ss as [|s ss IH] using rev_ind; intros t Hr Ha.
  - cbn in Hr. simplify_eq. split; cbn; [split; [done|lia]|by left|done|intros _].
    exists []. split; [done|]. apply settle_idle.
  - rewrite fine_run_app in Hr. apply bind_Some in Hr as (t0 & Ht0 & Hs).
    destruct (finalizer_apart_snoc _ _ _ _ Ht0 Ha) as [Ha0 Has].
    cbn in Hs. apply bind_Some in Hs as (t1 & Hs & [= ->]).
    rewrite omap_app. pose proof (linearized_step _ _ _ _ _ (IH _ Ht0 Ha0) Has Hs) as Hl.
    cbn. by destruct (step_event s).
Qed.

(** ** Property *)

(** C8: handlers are atomic for the relay, the receiver and the reporter: a
    run of the node, await by await, in which these step between any two
    engine calls and any two stores of the actor, and the finalizer steps only
    between messages, ends, whenever nothing is under way, in exactly the node
    state of a run of whole handlers over the same events, in which the
    messages, the receiver's events and the other tasks' events each come in
    their own order; so every invariant of the whole handlers holds there.
    For the finalizer this is false, hence the condition. *)
Theorem handlers_linearizable (ss : list FineStep) n t :
  fine_run ss (fine_start n) = Some t → finalizer_apart ss (fine_start n) = true →
  fn_awaiting t = W_Idle → fn_accepted t = None →
  (∃ es, fn_node t = node_run es n ∧ es ≡ₚ omap step_event ss ∧
     reordering es (omap step_event ss)) ∧
  ∀ Inv : Node → Prop, (∀ e n, Inv n → Inv (exec e n)) → Inv n → Inv (fn_node t).
Proof.
  intros Hr Ha Hw Hacc. pose proof (fine_run_linearized ss n t Hr Ha) as Hl.
  destruct t as [n' aw acc]. cbn in Hw, Hacc. subst aw acc.
  destruct (li_late _ _ _ Hl eq_refl) as (es & Hre & Hn). rewrite settle_idle in Hn.
  cbn in Hn. cbn [fn_node]. split.
  - exists es. split; [done|]. split; [by apply reordering_permutation|done].
  - intros Inv Hstep Hi. rewrite Hn. clear Hn Hre Hl Ha Hr. revert n Hi.
    induction es as [|e es IH]; intros n Hi; [done|]. apply IH. by apply Hstep.
Qed.
End runs.

(** ** Witness *)

(** The node proposes; between two calls of its engine a block and garbage
    arrive, a finalization is reported, between two stores the block is
    broadcast - once before it is among the pending blocks, once after -; then
    the finalizer runs. *)
Definition sample_steps : list (FineStep (S := ref_transport) (E := unit)) :=
  [Fs_Begin sample_now (Message_Propose sample_propose); Fs_Actor;
   Fs_Other (Ev_Receive (Ok (key_of 1, wire_message sample_digest [Byte.x07])));
   Fs_Other (Ev_Report (Activity_Finalization 1 EMPTY)); Fs_Actor;
   Fs_Other (Ev_Receive (Err tt)); Fs_Actor; Fs_Actor; Fs_Actor;
   Fs_Other (Ev_Broadcast built_digest Plan_Propose); Fs_Actor;
   Fs_Other (Ev_Broadcast built_digest Plan_Propose); Fs_Actor; Fs_Ask; Fs_Set].

Definition sample_end : SampleFine :=
  default (fine_start sample_node) (fine_run sample_steps (fine_start sample_node)).

Lemma sample_end_run : fine_run sample_steps (fine_start sample_node) = Some sample_end.
Proof.
  unfold sample_end. destruct (fine_run _ _) eqn:Ht; [reflexivity|].
  assert (Hb : bool_decide (is_Some (fine_run sample_steps (fine_start sample_node))) = true)
    by (vm_compute; reflexivity).
  rewrite Ht in Hb. discriminate Hb.
Qed.

Definition idle_end : bool :=
  match fn_awaiting sample_end, fn_accepted sample_end with W_Idle, None => true | _, _ => false end.
Lemma sample_end_idle :
  fn_awaiting sample_end = W_Idle ∧ fn_accepted sample_end = None.
Proof.
  assert (Hb : idle_end = true) by (vm_compute; reflexivity). unfold idle_end in Hb.
  destruct (fn_awaiting sample_end), (fn_accepted sample_end); done.
Qed.

Lemma handlers_linearizable_witness :
  (∃ es, fn_node sample_end = node_run es sample_node ∧ es ≡ₚ omap step_event sample_steps) ∧
  node_ok (fn_node sample_end) ∧ is_Some (node_infos (fn_node sample_end) !! built_digest).
Proof.
  assert (Ha : finalizer_apart sample_steps (fine_start sample_node) = true)
    by (vm_compute; reflexivity).
  destruct (handlers_linearizable sample_steps sample_node sample_end sample_end_run Ha
    (proj1 sample_end_idle) (proj2 sample_end_idle)) as [(es & Hn & Hp & _) Hinv].
  split; [exists es; split; [exact Hn|exact Hp]|]. split.
  - apply Hinv; [|apply fresh_node_ok; exact sample_gms].
    intros e n Hok. exact (proj1 (node_step_ok e n Hok)).
  - apply (proj1 (bool_decide_eq_true _)). vm_compute. reflexivity.
Defined.
