(* ===== verification/Progress.v ===== *)
(** * Progress of a network that runs await by await

    No reachable state of the network of [Concurrent.v] is stuck: its nodes can
    finish what they have begun in a bounded number of steps of their own,
    without a message and without a call of an engine, and from then on every
    run of whole handlers of [Network.v] is one of its runs.  So what
    [Network.v] shows to be possible - a proposal that reaches a peer's record -
    stays possible whatever happened before. *)

From S2P Require Import Prelude Extern Reference Digest Ledger Validators Metrics Error Executor.
From S2P Require Import ReferenceBuilder Application Engine Reth Builder Finalizer Turns Node.
From S2P Require Import Interleaving Network Concurrent.
Local Open Scope Z_scope.

Section progress.
Context `{!Ed25519, !ActorFeedback} {S C W E : Type}
  `{!P2pSender S, !P2pWire S, !Channel C Digest, !ChannelRx C Digest, !RethEngine W}.

Abbreviation Node := (Node (S := S) (C := C) (W := W)).
Abbreviation Event := (Event (S := S) (E := E)).
Abbreviation Fine := (Fine (S := S) (C := C) (W := W)).
Abbreviation FineStep := (FineStep (S := S) (E := E)).
Abbreviation FineLabel := (FineLabel (S := S) (E := E)).
Abbreviation Label := (Label (S := S) (E := E)).

(** A step that goes on with what a node has begun. *)
Definition finishing (s : FineStep) : bool :=
  match s with Fs_Actor | Fs_Set => true | _ => false end.

Definition finishing_label (l : FineLabel) : bool :=
  match l with Fl_Step _ s => finishing s | _ => false end.

(** ** One node *)

Lemma awaiting_left_bound (aw : Awaiting (W := W)) : awaiting_ok aw → (awaiting_left aw ≤ 16)%nat.
Proof. destruct aw as [|? ? ? []|? ? ? []| |]; cbn; lia. Qed.

Lemma actor_settles k (t : Fine) :
  awaiting_ok (fn_awaiting t) → (awaiting_left (fn_awaiting t) ≤ k)%nat →
  ∃ j n, (j ≤ k)%nat ∧
    fine_run (replicate j (Fs_Actor : FineStep)) t = Some (mk_Fine n W_Idle (fn_accepted t)).
Proof.
  revert t. induction k as [|k IH]; intros [n aw acc] Hok Hk; cbn [fn_awaiting fn_accepted] in *.
  all: destruct (decide (awaiting_left aw = 0%nat)) as [Hz|Hz].
  1,3: exists 0%nat, n; split; [lia|]; by destruct aw as [|? ? ? []|? ? ? []| |]; cbn in Hz; try lia.
  - lia.
  - assert (Haw : aw ≠ W_Idle) by (by intros ->).
    destruct (actor_turn_enabled aw (nd_actor n) Haw) as [[aw' a] Ht].
    destruct (actor_turn_left _ _ _ _ Hok Ht) as [Hok' Hl].
    destruct (IH (mk_Fine (put_actor a n) aw' acc) Hok') as (j & n' & Hj & Hr); [cbn; lia|].
    exists (Datatypes.S j), n'. split; [lia|]. cbn. by rewrite Ht.
Qed.

Lemma node_settles (t : Fine) :
  awaiting_ok (fn_awaiting t) →
  ∃ ss n, (length ss ≤ 17)%nat ∧ Forall finishing ss ∧ fine_run ss t = Some (fine_start n).
Proof.
  intros Hok. pose proof (awaiting_left_bound _ Hok) as Hl. destruct t as [n aw acc].
  assert (Hact : ∀ n, ∃ ss n', (length ss ≤ 16)%nat ∧ Forall finishing ss ∧
    fine_run ss (mk_Fine n aw None) = Some (fine_start n')).
  { intros n0. destruct (actor_settles 16 (mk_Fine n0 aw None) Hok Hl) as (j & n' & Hj & Hr).
    exists (replicate j Fs_Actor), n'. rewrite length_replicate. split_and!; [done| |exact Hr].
    by apply Forall_replicate. }
  destruct acc as [[h k]|].
  - destruct (Hact (set_turn h k n)) as (ss & n' & Hs & Hf & Hr).
    exists (Fs_Set :: ss), n'. split_and!; [cbn; lia|by constructor|exact Hr].
  - destruct (Hact n) as (ss & n' & Hs & Hf & Hr). exists ss, n'. split_and!; [lia|done..].
Qed.

(** A whole event, in steps. *)
Lemma event_steps (e : Event) (n : Node) :
  local_event e = true →
  ∃ ss : list FineStep, (length ss ≤ 16)%nat ∧ Forall local_step ss ∧
    fine_run ss (fine_start n) = Some (fine_start (exec_state (node_step e n))).
Proof.
  intros He.
  assert (Hother : other_event e = true → ∃ ss : list FineStep, (length ss ≤ 16)%nat ∧
    Forall local_step ss ∧
    fine_run ss (fine_start n) = Some (fine_start (exec_state (node_step e n)))).
  { intros Ho. exists [Fs_Other e]. split_and!; [cbn; lia| |].
    - constructor; [|done]. cbn. by rewrite He.
    - cbn [fine_run fine_step fine_start fn_awaiting fn_accepted fn_node]. by rewrite Ho. }
  destruct e as [now m|d plan|r|act|]; [|by apply Hother..|].
  - destruct (fine_message_alone (E := E) now m n None) as (j & Hj & Hr).
    exists (Fs_Begin now m :: replicate j Fs_Actor). cbn [length]. rewrite length_replicate.
    split_and!; [lia| |exact Hr]. constructor; [done|]. by apply Forall_replicate.
  - destruct (fine_finalizer_alone (E := E) n W_Idle) as (ss & [-> | ->] & Hr).
    + exists [Fs_Ask]. split_and!; [cbn; lia|by repeat constructor|exact Hr].
    + exists [Fs_Ask; Fs_Set]. split_and!; [cbn; lia|by repeat constructor|exact Hr].
Qed.

(** ** The network *)

Lemma fine_net_run_app (ls1 ls2 : list FineLabel) (ts : list Fine) :
  fine_net_run (ls1 ++ ls2) ts = fine_net_run ls1 ts ≫= fine_net_run ls2.
Proof.
  revert ts. induction ls1 as [|l ls1 IH]; intros ts; [done|]. cbn.
  destruct (fine_exec l ts); [apply IH|done].
Qed.

(** Steps of one node, as labels. *)
Lemma lift_steps i (ss : list FineStep) (ts : list Fine) t t' :
  ts !! i = Some t → Forall local_step ss → fine_run ss t = Some t' →
  fine_net_run (Fl_Step i <$> ss) ts = Some (<[i := t']> ts).
Proof.
  revert ts t. induction ss as [|s ss IH]; intros ts t Hi Hl Hr; cbn in *.
  - simplify_eq. by rewrite list_insert_id.
  - apply Forall_cons in Hl as [Hs Hl]. apply bind_Some in Hr as (t1 & Ht & Hr).
    destruct (local_step s); [|done]. unfold fine_turn. rewrite Hi. cbn. rewrite Ht. cbn.
    rewrite (IH (<[i := t1]> ts) t1); [by rewrite list_insert_insert_eq| |done..].
    apply list_lookup_insert_eq. by eapply lookup_lt_Some.
Qed.

Lemma finishing_local (ss : list FineStep) : Forall finishing ss → Forall local_step ss.
Proof. intros Hf. eapply Forall_impl; [exact Hf|]. by intros []. Qed.

(** The nodes from the [k]th on settle, one after the other. *)
Lemma nodes_settle (ts2 ts1 : list Fine) :
  Forall (λ t, awaiting_ok (fn_awaiting t)) ts2 →
  ∃ (ls : list FineLabel) ns, (length ls ≤ 17 * length ts2)%nat ∧ Forall finishing_label ls ∧
    fine_net_run ls (ts1 ++ ts2) = Some (ts1 ++ (fine_start <$> ns)).
Proof.
  revert ts1. induction ts2 as [|t ts2 IH]; intros ts1 Hok.
  { exists [], []. split_and!; [done..|]. by cbn. }
  apply Forall_cons in Hok as [Ht Hok].
  destruct (node_settles t Ht) as (ss & n & Hs & Hf & Hr).
  destruct (IH (ts1 ++ [fine_start n]) Hok) as (ls & ns & Hl & Hfl & Hrun).
  exists ((Fl_Step (length ts1) <$> ss) ++ ls), (n :: ns).
  rewrite length_app, length_fmap. split_and!; [cbn; lia| |].
  - apply Forall_app. split; [|done]. by apply Forall_fmap.
  - rewrite fine_net_run_app.
    rewrite (lift_steps _ ss _ t (fine_start n)); [| |by apply finishing_local|done].
    + rewrite insert_app_r_alt, Nat.sub_diag by done. cbn -[fine_start].
      by rewrite <- !(assoc_L (++)) in Hrun.
    + by rewrite lookup_app_r, Nat.sub_diag by done.
Qed.

(** A label of [Network.v], in steps. *)
Lemma label_steps adv (l : Label) ns ns' :
  allowed adv l → net_exec l ns = Some ns' →
  ∃ ls : list FineLabel, (length ls ≤ 16)%nat ∧ Forall (fine_allowed adv) ls ∧
    fine_net_run ls (fine_start <$> ns) = Some (fine_start <$> ns').
Proof.
  intros Ha Hx.
  assert (Hrecv : ∀ j k m, node_turn (E := E) j (Ev_Receive (Ok (k, m))) ns = Some ns' →
    fine_turn j (Fs_Other (Ev_Receive (Ok (k, m)) : Event)) (fine_start <$> ns) =
    Some (fine_start <$> ns')).
  { intros j k m (n & Hn & ->)%fmap_Some. rewrite list_fmap_insert. unfold fine_turn.
    by rewrite list_lookup_fmap, Hn. }
  destruct l as [i e|i j k m|j k m]; cbn [net_exec] in Hx.
  - destruct (local_event e) eqn:He; [|done]. apply fmap_Some in Hx as (n & Hn & ->).
    destruct (event_steps e n He) as (ss & Hs & Hl & Hr).
    exists (Fl_Step i <$> ss). rewrite length_fmap. split_and!; [done| |].
    + by apply Forall_fmap, Forall_true.
    + rewrite (lift_steps i ss _ (fine_start n) (fine_start (exec_state (node_step e n))));
        [by rewrite list_fmap_insert|by rewrite list_lookup_fmap, Hn|done..].
  - exists [Fl_Deliver i j k m]. split_and!; [cbn; lia|by repeat constructor|].
    cbn [fine_net_run fine_exec]. rewrite list_lookup_fmap.
    destruct (ns !! i) as [n|]; [|done]. cbn [fmap option_fmap option_map fn_node fine_start].
    case_decide; [|done]. by rewrite (Hrecv _ _ _ Hx).
  - exists [Fl_Inject j k m]. split_and!; [cbn; lia|by constructor|].
    cbn [fine_net_run fine_exec]. by rewrite (Hrecv _ _ _ Hx).
Qed.

(** A run of [Network.v] is a run await by await. *)
Lemma net_run_concurrent adv (lbs : list Label) ns ns' :
  Forall (allowed adv) lbs → net_run lbs ns = Some ns' →
  ∃ ls : list FineLabel, (length ls ≤ 16 * length lbs)%nat ∧ Forall (fine_allowed adv) ls ∧
    fine_net_run ls (fine_start <$> ns) = Some (fine_start <$> ns').
Proof.
  revert ns. induction lbs as [|l lbs IH]; cbn [net_run]; intros ns Ha Hr.
  { simplify_eq. by exists []. }
  apply Forall_cons in Ha as [Hl Ha]. apply bind_Some in Hr as (ns1 & Hx & Hr).
  destruct (label_steps adv l ns ns1 Hl Hx) as (ls1 & Hn1 & Ha1 & Hr1).
  destruct (IH ns1 Ha Hr) as (ls2 & Hn2 & Ha2 & Hr2).
  exists (ls1 ++ ls2). rewrite length_app, fine_net_run_app, Hr1. cbn [length].
  split_and!; [lia|by apply Forall_app|done].
Qed.

Context `{!RethJobs W, !RethEngineLaws W, !Ed25519Laws, !P2pWireLaws S}.

(** ** Property *)

(** C10: no reachable state of the network is stuck: within seventeen steps
    a node, each of which only goes on with a handler or a finalization that has
    begun, every actor is idle and no tracker is about to move; every node then
    satisfies the invariant of [Node.v]; and whatever run of whole handlers,
    deliveries and injections is possible from the nodes reached, it happens
    within sixteen steps an event. *)
Theorem network_progress adv (ghash : B256) (gms : Z) cs (ts : list Fine) :
  is_u64 gms → Forall quiet cs → (∀ m, adv m → harmless (W := W) m) →
  rtc (fine_net_step (E := E) adv) (fine_net_start ghash gms cs) ts →
  ∃ (ls : list FineLabel) ns,
    Forall finishing_label ls ∧ (length ls ≤ 17 * length ts)%nat ∧
    fine_net_run ls ts = Some (fine_start <$> ns) ∧ Forall node_ok ns ∧
    ∀ (lbs : list Label) ns', Forall (allowed adv) lbs → net_run lbs ns = Some ns' →
      ∃ ls' : list FineLabel, Forall (fine_allowed adv) ls' ∧
        (length ls' ≤ 16 * length lbs)%nat ∧
        fine_net_run (ls ++ ls') ts = Some (fine_start <$> ns').
Proof.
  intros Hu Hq Hadv Hr. pose proof (fine_net_start_ok ghash gms cs Hu Hq) as Hstart.
  destruct (fine_simulation adv _ ts Hadv Hstart Hr) as [Hok _].
  destruct (nodes_settle ts []) as (ls & ns & Hl & Hf & Hrun).
  { eapply Forall_impl; [exact Hok|]. by intros t []. }
  cbn [app] in Hrun. exists ls, ns. split_and!; [done..| |].
  - assert (Ha : Forall (fine_allowed adv) ls)
      by (eapply Forall_impl; [exact Hf|]; by intros []).
    pose proof (fine_net_run_steps adv ls ts _ Ha Hrun) as Hsteps.
    destruct (fine_simulation adv _ _ Hadv Hok Hsteps) as [Hok' _].
    apply (proj1 (Forall_fmap _ _ _)) in Hok'. eapply Forall_impl; [exact Hok'|].
    intros n Hn. apply (fo_node _ Hn).
  - intros lbs ns' Ha Hnet.
    destruct (net_run_concurrent adv lbs ns ns' Ha Hnet) as (ls' & Hl' & Ha' & Hr').
    exists ls'. split_and!; [done..|]. by rewrite fine_net_run_app, Hrun.
Qed.
End progress.

(** ** Witness *)

(** Node 0 is building when the network is cut off. *)
Definition sample_cut_labels : list SampleLabel := take 6 sample_fine_labels.

Definition sample_cut : list SampleFine :=
  default [] (fine_net_run sample_cut_labels sample_fine_net).

Lemma sample_cut_steps : rtc (fine_net_step (E := unit) short) sample_fine_net sample_cut.
Proof.
  apply (fine_net_run_steps short sample_cut_labels); [repeat constructor|].
  unfold sample_cut. destruct (fine_net_run sample_cut_labels sample_fine_net) eqn:Hr; [done|].
  assert (Hb : bool_decide (is_Some (fine_net_run sample_cut_labels sample_fine_net)) = true)
    by (vm_compute; reflexivity).
  by rewrite Hr in Hb.
Qed.

Lemma network_progress_witness :
  (awaiting_left (fn_awaiting (default (fine_start sample_node) (sample_cut !! 0%nat))) = 5)%nat ∧
  ∃ (ls : list SampleLabel) ns, (length ls ≤ 34)%nat ∧
    fine_net_run ls sample_cut = Some (fine_start <$> ns) ∧ Forall node_ok ns.
Proof.
  split; [vm_compute; reflexivity|].
  destruct (network_progress (E := unit) short sample_genesis_hash 1700000000000
    [sample_fine_config; sample_fine_config] sample_cut sample_gms sample_fine_quiet
    short_harmless sample_cut_steps) as (ls & ns & _ & Hl & Hr & Hok & _).
  exists ls, ns. split; [|split; [exact Hr|exact Hok]].
  assert (Hn : length sample_cut = 2%nat) by (vm_compute; reflexivity).
  rewrite Hn in Hl. exact Hl.
Defined.
