(* ===== verification/Pipeline.v ===== *)
(** * From the engine's reports to the tracker

    A finalization travels through three tasks: the reporter puts its digest
    into a bounded channel, the finalizer takes it from there and asks the
    execution layer, and moves the tracker when the answer is that it is valid.
    Here, over the steps of [Concurrent.v]: what a run of a node reports, asks
    and moves to, and that these are one sequence - in the order of the
    reports, nothing twice, nothing that was not reported, and nothing lost but
    what the full channel dropped. *)

From S2P Require Import Prelude Extern Reference Digest Ledger Validators Metrics Error Executor.
From S2P Require Import ReferenceBuilder Application Engine Reth Builder Finalizer Turns Node.
From S2P Require Import Interleaving Network Concurrent.
From Stdlib Require Import Sorting.Sorted.
From stdpp Require Import sorting.
Local Open Scope Z_scope.

Section pipeline.
Context `{!Ed25519, !ActorFeedback} {S C W E : Type}
  `{!P2pSender S, !P2pWire S, !Channel C Digest, !ChannelRx C Digest, !RethEngine W}.

Abbreviation Node := (Node (S := S) (C := C) (W := W)).
Abbreviation Fine := (Fine (S := S) (C := C) (W := W)).
Abbreviation FineStep := (FineStep (S := S) (E := E)).

(** What waits for the finalizer. *)
Definition node_queue (n : Node) : list Digest := from_option chan_queue [] (nd_finalized n).

(** The digest a step reports as final. *)
Definition reports (s : FineStep) : option Digest :=
  match s with Fs_Other (Ev_Report a) => finalized_payload a | _ => None end.

(** The digest a step takes from the channel, with what the engine accepted. *)
Definition asks (s : FineStep) (t : Fine) : option (Digest * option (B256 * Z)) :=
  match s, fn_accepted t with
  | Fs_Ask, None => (λ d, (d, (ask_turn (fn_node t)).2)) <$> head_digest t
  | _, _ => None
  end.

(** Where a step moves the tracker. *)
Definition moves (s : FineStep) (t : Fine) : option (B256 * Z) :=
  match s with Fs_Set => fn_accepted t | _ => None end.

(** What the steps of a run yield, in order. *)
Fixpoint along {A} (f : FineStep → Fine → option A) (ss : list FineStep) (t : Fine) : list A :=
  match ss with
  | [] => []
  | s :: ss => option_list (f s t) ++ default [] (along f ss <$> fine_step s t)
  end.

Context `{!ChannelLaws C Digest, !ChannelRxLaws C Digest}.

(** ** One step *)

Lemma other_queue (e : Event (S := S) (E := E)) (n : Node) :
  other_event e = true →
  ∃ sent, sent `sublist_of` option_list (reports (Fs_Other e)) ∧
    node_queue (exec_state (node_step e n)) = node_queue n ++ sent.
Proof.
  intros He. destruct e as [|d plan|r|act|]; try done.
  - exists []. rewrite app_nil_r. split; [done|]. cbn [node_step].
    by destruct (broadcast _ _ _).
  - exists []. rewrite app_nil_r. split; [done|]. by rewrite receive_step.
  - cbn [node_step exec_state reports]. unfold node_queue.
    destruct act; cbn; try (exists []; rewrite app_nil_r; done).
    destruct (nd_finalized n) as [c|]; cbn; [|exists []; split; [apply sublist_nil_l|done]].
    destruct (try_send payload c) as [[[]|err] c'] eqn:Hs; cbn.
    + exists [payload]. split; [done|]. by eapply try_send_ok.
    + exists []. rewrite app_nil_r. split; [apply sublist_nil_l|]. by eapply try_send_err.
Qed.

Lemma ask_queue (t : Fine) n acc :
  ask_turn (fn_node t) = (n, acc) →
  match head_digest t with
  | Some d => node_queue (fn_node t) = d :: node_queue n
  | None => n = fn_node t ∧ acc = None
  end.
Proof.
  unfold ask_turn, head_digest, node_queue. destruct (nd_finalized (fn_node t)) as [c|] eqn:Hf;
    cbn; [|by intros [= <- <-]].
  destruct (chan_recv c) as [d c'| |] eqn:Hr; [|by intros [= <- <-]..].
  destruct (finalize_ask _ _ _) as [[calls a] w]. intros [= <- <-]. cbn.
  destruct (chan_queue c) as [|x l] eqn:Hq.
  - destruct (chan_recv_empty c Hq) as [He|He]; by rewrite He in Hr.
  - destruct (chan_recv_head x l c Hq) as (c1 & He & Hl). rewrite He in Hr. by simplify_eq.
Qed.

Lemma ask_tracker (n : Node) : nw_tracker (actor_world (nd_actor (ask_turn n).1)) =
  nw_tracker (actor_world (nd_actor n)).
Proof.
  unfold ask_turn. destruct (nd_finalized n) as [c|]; [|done].
  destruct (chan_recv c); [|done..]. by destruct (finalize_ask _ _ _) as [[??] ?].
Qed.

(** What a step adds to the three sequences, and what it leaves. *)
Lemma pipeline_step (s : FineStep) t t' :
  fine_step s t = Some t' →
  (∃ sent, sent `sublist_of` option_list (reports s) ∧
     node_queue (fn_node t) ++ sent =
       (fst <$> option_list (asks s t)) ++ node_queue (fn_node t')) ∧
  option_list (fn_accepted t) ++ omap snd (option_list (asks s t)) =
    option_list (moves s t) ++ option_list (fn_accepted t') ∧
  tracker_of t' = default (tracker_of t) (moves s t).
Proof.
  intros Hs. pose proof (fine_step_Some _ _ _ Hs) as Hq. unfold tracker_of.
  destruct s as [now m| | | |e]; cbn [reports asks moves option_list omap list_omap].
  - destruct Hq as (_ & _ & -> & ->). rewrite !app_nil_r. cbn. rewrite actor_begin_tracker.
    split_and!; [|done..]. exists []. by rewrite app_nil_r.
  - destruct Hq as (a & Ha & -> & ->). rewrite !app_nil_r. cbn.
    rewrite (actor_turn_tracker _ _ _ _ Ha). split_and!; [|done..].
    exists []. by rewrite app_nil_r.
  - destruct Hq as (Hacc & _ & Hask). rewrite Hacc. pose proof (ask_queue t _ _ Hask) as Hqueue.
    pose proof (ask_tracker (fn_node t)) as Htr. rewrite Hask in Htr |- *. cbn in Htr.
    destruct (head_digest t) as [d|]; cbn.
    + split_and!; [|by destruct (fn_accepted t')|done]. exists []. by rewrite app_nil_r.
    + destruct Hqueue as [-> ->]. split_and!; [|done..]. exists []. by rewrite app_nil_r.
  - destruct Hq as (h & k & -> & -> & _ & ->). rewrite !app_nil_r. cbn.
    split_and!; [|done..]. exists []. by rewrite app_nil_r.
  - destruct Hq as (He & _ & -> & ->). rewrite !app_nil_r. cbn.
    destruct (other_keeps e (fn_node t) He) as (_ & _ & _ & -> & _).
    destruct (other_queue e (fn_node t) He) as (sent & Hsub & Hqueue).
    split_and!; [|done..]. exists sent. by rewrite Hqueue.
Qed.

(** ** A run *)

Lemma along_cons {A} (f : FineStep → Fine → option A) s ss t t1 :
  fine_step s t = Some t1 → along f (s :: ss) t = option_list (f s t) ++ along f ss t1.
Proof. intros Hs. cbn. by rewrite Hs. Qed.

Lemma pipeline_run ss (t t' : Fine) :
  fine_run ss t = Some t' →
  (∃ sent, sent `sublist_of` omap reports ss ∧
     node_queue (fn_node t) ++ sent = (fst <$> along asks ss t) ++ node_queue (fn_node t')) ∧
  option_list (fn_accepted t) ++ omap snd (along asks ss t) =
    along moves ss t ++ option_list (fn_accepted t') ∧
  tracker_of t' = default (tracker_of t) (last (along moves ss t)).
Proof.
  revert t. induction ss as [|s ss IH]; intros t Hr; cbn [fine_run] in Hr.
  { simplify_eq. cbn. rewrite app_nil_r. split_and!; [|done..]. exists []. by rewrite app_nil_r. }
  apply bind_Some in Hr as (t1 & Hs & Hr). rewrite !(along_cons _ s ss t t1 Hs).
  destruct (pipeline_step s t t1 Hs) as ((sent1 & Hsub1 & Hq1) & Hm1 & Ht1).
  destruct (IH t1 Hr) as ((sent2 & Hsub2 & Hq2) & Hm2 & Ht2). split_and!.
  - exists (sent1 ++ sent2). split.
    + replace (omap reports (s :: ss)) with (option_list (reports s) ++ omap reports ss)
        by (cbn; by destruct (reports s)). by apply sublist_app.
    + by rewrite app_assoc, Hq1, <- app_assoc, Hq2, fmap_app, app_assoc.
  - by rewrite omap_app, app_assoc, Hm1, <- app_assoc, Hm2, app_assoc.
  - rewrite Ht2, Ht1, last_app. by destruct (last (along moves ss t1)), (moves s t).
Qed.

(** What the finalizer was answered valid, in order. *)
Definition accepted_asks (ss : list FineStep) (t : Fine) : list (Digest * (B256 * Z)) :=
  omap (λ a : Digest * option (B256 * Z), pair a.1 <$> a.2) (along asks ss t).

Lemma accepted_asks_fst ss t : (fst <$> accepted_asks ss t) `sublist_of` (fst <$> along asks ss t).
Proof.
  unfold accepted_asks. induction (along asks ss t) as [|[d [p|]] l IH]; cbn; [done| |].
  - by apply sublist_skip.
  - by apply sublist_cons.
Qed.

Lemma accepted_asks_snd ss t : snd <$> accepted_asks ss t = omap snd (along asks ss t).
Proof.
  unfold accepted_asks. induction (along asks ss t) as [|[d [p|]] l IH]; cbn; [done| |done].
  by f_equal.
Qed.

Lemma sublist_sorted {A} (R : A → A → Prop) l k :
  l `sublist_of` k → StronglySorted R k → StronglySorted R l.
Proof.
  induction 1 as [|x l k Hs IH|x l k Hs IH]; intros Hk; [done| |].
  - apply StronglySorted_cons in Hk as [Hx Hk]. constructor; [by apply IH|].
    apply Forall_forall. intros y Hy. rewrite Forall_forall in Hx. apply Hx.
    by eapply elem_of_sublist.
  - apply StronglySorted_cons in Hk as [_ Hk]. by apply IH.
Qed.

(** ** Property *)

(** C4: finalizations reach the execution layer in the order they were
    reported: however the tasks of a node interleave, what the finalizer took,
    followed by what still waits, is a subsequence of the finalizations
    reported - nothing overtakes, repeats or appears from nowhere; the tracker
    moves through what the engine accepted of it, in that order, one
    acceptance at a time, and is the last move; so that if the reports follow
    the chain, so does the tracker, and never steps back. *)
Theorem finalizations_in_order (n : Node) ss (t : Fine) (R : Digest → Digest → Prop) :
  node_queue n = [] → fine_run ss (fine_start n) = Some t →
  let taken := fst <$> along asks ss (fine_start n) in
  let accepted := accepted_asks ss (fine_start n) in
  let moved := along moves ss (fine_start n) in
  taken ++ node_queue (fn_node t) `sublist_of` omap reports ss ∧
  (fst <$> accepted) `sublist_of` taken ∧
  snd <$> accepted = moved ++ option_list (fn_accepted t) ∧
  tracker_of t = default (tracker_of (fine_start n)) (last moved) ∧
  (StronglySorted R (omap reports ss) → StronglySorted R (fst <$> accepted)).
Proof.
  intros Hq Hr taken accepted moved.
  destruct (pipeline_run ss _ t Hr) as ((sent & Hsub & Hqs) & Hm & Ht).
  cbn [fn_node fine_start fn_accepted option_list app] in Hqs, Hm. rewrite Hq in Hqs.
  cbn in Hqs. rewrite Hqs in Hsub.
  assert (Hacc : (fst <$> accepted) `sublist_of` taken) by apply accepted_asks_fst.
  split_and!; [done|done| |done|].
  { unfold accepted, moved. rewrite accepted_asks_snd. exact Hm. }
  apply sublist_sorted. etrans; [exact Hacc|]. etrans; [|exact Hsub]. by apply sublist_inserts_r.
Qed.
End pipeline.

(** ** Witness *)

(** While the node proposes, two finalizations are reported: of the genesis,
    which the engine accepts, and of a block nobody recorded. *)
Definition sample_pipeline : list (FineStep (S := ref_transport) (E := unit)) :=
  [Fs_Begin sample_now (Message_Propose sample_propose);
   Fs_Other (Ev_Report (Activity_Finalization 1 EMPTY)); Fs_Actor;
   Fs_Other (Ev_Report (Activity_Finalization 2 (mk_Digest (B256_repeat Byte.x01))));
   Fs_Other (Ev_Report (Activity_Nullify 3)); Fs_Ask; Fs_Actor; Fs_Set; Fs_Ask; Fs_Actor].

Definition sample_pipeline_end : SampleFine :=
  default (fine_start sample_node) (fine_run sample_pipeline (fine_start sample_node)).

(** Reported in the order of a chain. *)
Definition chain_order (a b : Digest) : Prop := a = EMPTY ∧ b = mk_Digest (B256_repeat Byte.x01).

Lemma finalizations_in_order_witness :
  tracker_of sample_pipeline_end = (sample_genesis_hash, 0) ∧
  (fst <$> accepted_asks sample_pipeline (fine_start sample_node)) = [EMPTY] ∧
  StronglySorted chain_order
    (fst <$> accepted_asks sample_pipeline (fine_start sample_node)) ∧
  (fst <$> along asks sample_pipeline (fine_start sample_node)) ++
    node_queue (fn_node sample_pipeline_end)
  `sublist_of` [EMPTY; mk_Digest (B256_repeat Byte.x01)].
Proof.
  assert (Hr : fine_run sample_pipeline (fine_start sample_node) = Some sample_pipeline_end).
  { unfold sample_pipeline_end. destruct (fine_run _ _) eqn:Hrun; [reflexivity|].
    assert (Hb : bool_decide (is_Some (fine_run sample_pipeline (fine_start sample_node)))
                 = true) by (vm_compute; reflexivity).
    rewrite Hrun in Hb. discriminate Hb. }
  assert (Hq : node_queue sample_node = []) by reflexivity.
  destruct (finalizations_in_order sample_node sample_pipeline sample_pipeline_end chain_order
    Hq Hr) as (Hsub & _ & _ & Ht & Hsort).
  split; [rewrite Ht; vm_compute; reflexivity|].
  split; [vm_compute; reflexivity|].
  split; [|exact Hsub].
  apply Hsort. change (omap reports sample_pipeline) with [EMPTY; mk_Digest (B256_repeat Byte.x01)].
  repeat constructor.
Defined.
