(* ===== verification/Boot.v ===== *)
(** * From the command line to a running node

    The composition of [Main.v], [Launch.v] and [Engine.v] with [Node.v]: what
    [main] starts is the fresh node that the theorems about running nodes and
    networks are about. *)

From S2P Require Import Prelude Extern Reference Digest Validators Metrics Error Executor.
From S2P Require Import ReferenceBuilder Application Engine Reth Builder Finalizer Genesis.
From S2P Require Import RethConsensus Chainspec Launch Main Node Typing.
From S2P Require Config.
Local Open Scope Z_scope.

(** The node state of a started engine: its actor, its relay's transport and
    its reporter's channel. *)
Definition node_of_started `{!Ed25519, !ActorFeedback, !CommonwareEngine} {S C W : Type}
    `{!P2pSender S, !RethEngine W}
    (s : StartedEngine S C RethPayloadBuilder (NodeWorld W)) : Node :=
  mk_Node (se_actor s) (relay_sender (se_relay s)) (finalized_tx (se_reporter s)).

Section boot.
Context `{!Ed25519, !ActorFeedback, !CommonwareEngine, !CommonwareEngineLaws, !LookupNetwork,
  !ChainFiles} {S C W : Type} `{!P2pSender S, !Channel C Digest, !RethEngine W, !RethLauncher W}.
Context `{!RethEngineLaws W, !RethLauncherLaws W, !Ed25519Laws}.
Variable debug_duration : Config.Duration → string.
Variable debug_status : PayloadStatusEnum → string.
Variable read : string → Result string string.

(** What a run of [main] that reaches the consensus thread hands over. *)
Lemma main_run_Ok oc dev builder spawned a path a' vs cc wiring exit :
  main_run debug_duration read oc dev builder spawned a path =
    Some (Ok (a', vs, cc, wiring, exit)) →
  ∃ l, launch_with_builder builder = Ok l ∧ a' = resolve_listen dev a ∧ wiring = wiring_of l ∧
    exit = ln_exit l ∧ spawn_consensus_thread debug_duration spawned a' = Ok cc.
Proof.
  unfold main_run, main_setup. destruct (launch_with_builder builder) as [l|e]; cbn; [|done].
  destruct (genesis_validators _ _) as [[g|e] ?|]; [|done..].
  destruct (build_validator_set _ _ _) as [vs'|]; [|done].
  destruct (spawn_consensus_thread _ _ _) as [cc'|] eqn:Hs; cbn; [|done].
  intros [= <- <- <- <- <-]. by exists l.
Qed.

Lemma resolve_listen_args dev a :
  args_unsigned a →
  args_unsigned (resolve_listen dev a) ∧ is_Some (arg_listen (resolve_listen dev a)) ∧
  arg_metrics (resolve_listen dev a) = arg_metrics a ∧
  arg_mailbox_size (resolve_listen dev a) = arg_mailbox_size a.
Proof. unfold resolve_listen. destruct (arg_listen a) eqn:Hl; rewrite ?Hl; by eauto. Qed.

(** The second of a millisecond stamp that did not saturate. *)
Lemma genesis_second (spec : ChainSpec) :
  chain_genesis_timestamp spec ≤ u64_max / 1000 →
  u64_saturating_mul (chain_genesis_timestamp spec) 1000 / 1000 = chain_genesis_timestamp spec.
Proof. apply sat_mul_1000_div, genesis_timestamp_u64. Qed.

(** ** Property *)

(** C12: what [main] starts is the node the other theorems are about: when the
    launch of reth, the genesis file and the spawn of the consensus thread
    succeed, and the mailbox is one the channel of the actor can have, the
    consensus thread starts an engine whose parts - actor, relay,
    receiver and reporter over their shared stores - are those of a fresh node
    on the genesis of the launched chain, with the tracker at genesis and the
    launched execution layer behind the payload builder.  That node is in the
    invariant and on typed values, so that it never panics. *)
Theorem booted_node_is_fresh oc dev (builder : WithLaunchContext) spawned a path a' vs cc wiring exit
    (oracle : Oracle) (blocks : S) (channel : Z → C) :
  main_run debug_duration read oc dev builder spawned a path =
    Some (Ok (a', vs, cc, wiring, exit)) →
  args_unsigned a → arg_mailbox_size a < mpsc_max_buffer → vs ≠ ∅ →
  chain_genesis_timestamp (builder_chain builder) ≤ u64_max / 1000 →
  ∃ n full,
    launch_builder builder build_consensus build_validator = Ok (full, exit) ∧
    run_consensus debug_duration debug_status a' vs wiring cc oracle blocks channel =
      Some (Ok n) ∧
    let nd := node_of_started (cn_engine n) in
    nd = fresh_node vs (mk_RethPayloadBuilder debug_status)
           (if arg_metrics a then Some metrics_new else None)
           (chain_genesis_hash (builder_chain builder))
           (u64_saturating_mul (chain_genesis_timestamp (builder_chain builder)) 1000)
           (mk_NodeWorld (tracker_new (chain_genesis_hash (builder_chain builder))) (node_el full))
           blocks (Some (channel 32)) ∧
    node_relay nd = se_relay (cn_engine n) ∧ node_receiver nd = se_receiver (cn_engine n) ∧
    node_reporter nd = se_reporter (cn_engine n) ∧
    node_ok nd ∧ node_typed nd.
Proof.
  intros Hrun Ha Hmax Hvs Hts.
  apply main_run_Ok in Hrun as (l & Hlaunch & -> & -> & -> & Hspawn).
  unfold launch_with_builder in Hlaunch.
  destruct (launch_builder _ _ _) as [[full exit]|e] eqn:Hb; [|done]. injection Hlaunch as <-.
  destruct (launch_builder_launched builder (builder_datadir builder) _ _ Hb)
    as (_ & Hgh & Hgt & Hgm & Hu & _ & _).
  set (l := into_launched full exit (builder_datadir builder)) in *.
  destruct (resolve_listen_args dev a Ha) as (Hua & [ad Had] & Hm & Hms).
  destruct (run_consensus_starts debug_duration debug_status spawned (resolve_listen dev a) vs
    (wiring_of l) cc oracle blocks channel) as (n & Hn & Hs & _); [done|by rewrite Hms|by eexists|done..|].
  destruct (start_parts _ _ _ _ _ Hs) as (Hact & Hrel & Hrx & Hrep).
  exists n, full. split; [done|]. split; [done|].
  assert (Hnd : node_of_started (cn_engine n) =
    fresh_node vs (mk_RethPayloadBuilder debug_status)
      (if arg_metrics a then Some metrics_new else None)
      (chain_genesis_hash (builder_chain builder))
      (u64_saturating_mul (chain_genesis_timestamp (builder_chain builder)) 1000)
      (mk_NodeWorld (tracker_new (chain_genesis_hash (builder_chain builder))) (node_el full))
      blocks (Some (channel 32))).
  { unfold node_of_started, fresh_node. rewrite Hact, Hrel, Hrep, genesis_second by done.
    unfold engine_config, wiring_of. cbn -[u64_saturating_mul].
    by rewrite Hm, <- Hgh, <- Hgt. }
  cbv zeta. split; [done|]. rewrite Hnd. split_and!.
  - rewrite Hrel. unfold engine_config. cbn. by rewrite Hm.
  - rewrite Hrx. unfold engine_config. cbn. by rewrite Hm.
  - rewrite Hrep. unfold engine_config. cbn. by rewrite Hm.
  - apply fresh_node_ok. by rewrite <- Hgm.
  - apply fresh_node_typed; [by rewrite <- Hgm| |by vm_compute; split].
    destruct (arg_metrics a); [|done]. intros x [= <-]. apply metrics_new_wf.
Qed.
End boot.

(** ** Witness *)

Definition sample_builder : @WithLaunchContext ref_files ref_engine_state ref_launcher :=
  @mk_NodeConfig ref_files None "/data" (mk_RpcServerArgs true 8545 8551 true)
    (mk_NetworkArgs 30303 true).

(** The second of three nodes, on the dev chain. *)
Definition sample_boot : option (Result (ConsensusArgs * ValidatorSet * Config.ConsensusConfig *
    RethWiring ref_engine_state * Result unit string) string) :=
  main_run debug_none (λ _, Err "no file"%string) true false sample_builder (Ok ()) sample_args
    (lock_new None).

Lemma booted_node_is_fresh_witness :
  ∃ a' vs cc wiring exit n,
    sample_boot = Some (Ok (a', vs, cc, wiring, exit)) ∧
    run_consensus debug_none (λ _, "") a' vs wiring cc sample_oracle ([] : ref_transport)
      (λ cap, mk_ref_queue ([] : list Digest) (Z.to_nat cap) true) = Some (Ok n) ∧
    node_ok (node_of_started (cn_engine n)).
Proof.
  assert (Hc : match sample_boot with
    | Some (Ok (_, vs, _, _, _)) => bool_decide (vs ≠ ∅) | _ => false end = true)
    by (vm_compute; reflexivity).
  destruct sample_boot as [[[[[[a' vs] cc] wiring] exit]|e]|] eqn:Hb;
    [|discriminate Hc|discriminate Hc].
  apply bool_decide_eq_true_1 in Hc.
  destruct (booted_node_is_fresh debug_none (λ _, "") (λ _, Err "no file"%string) true false
    sample_builder (Ok ()) sample_args (lock_new None) a' vs cc wiring exit sample_oracle
    ([] : ref_transport) (λ cap, mk_ref_queue ([] : list Digest) (Z.to_nat cap) true) Hb)
    as (n & full & _ & Hn & _ & _ & _ & _ & Hok & _).
  - unfold args_unsigned. cbn. lia.
  - vm_compute. reflexivity.
  - exact Hc.
  - vm_compute. discriminate.
  - exists a', vs, cc, wiring, exit, n. split; [reflexivity|]. split; [exact Hn|exact Hok].
Defined.
