(* ===== verification/Tests.v ===== *)
(** * The repository's own unit tests, run on the model

    Each test of the sources that needs nothing but the repository's code and
    what the reference instances provide is a boolean over the definitions of
    the other files, with the assertions of the test; each is shown to pass by
    evaluation.  Where a test goes through a third-party crate (the RLP of the
    inner header, JSON, the text of socket addresses) it runs at the reference
    instance of the interface. *)

From S2P Require Import Prelude Extern Reference Digest Header HeaderCodec Error Config.
From S2P Require Import Executor Validators Genesis Chainspec Xtask.
From S2P Require Block.
From Stdlib Require Strings.String.
Local Open Scope Z_scope.

Definition is_some {A} (o : option A) : bool := match o with Some _ => true | None => false end.

(** [err.to_string().contains(needle)] *)
Definition err_contains {A} (needle : string) (r : Result A string) : bool :=
  match r with Err e => is_some (String.index 0 needle e) | Ok _ => false end.

(** ** crates/consensus/src/block.rs *)

Definition block_codec_roundtrip : bool :=
  let hash := B256_repeat Byte.x42 in
  let data := [Byte.x01; Byte.x02; Byte.x03; Byte.x04; Byte.x05] in
  let block := Block.block_new data hash in
  let encoded := Block.block_write block ([] : bytes) in
  match Block.block_read_cfg encoded with
  | Some (Ok (decoded, _)) =>
    bool_decide (Block.block_hash block = Block.block_hash decoded) &&
    bool_decide (Block.block_raw block = Block.block_raw decoded)
  | _ => false
  end.

(** ** crates/consensus/src/config.rs *)

(** [ConsensusConfig { ..., ..Default::default() }] over the fields the tests
    set. *)
Record Fields : Type := mk_Fields {
  f_mailbox_size : Z;
  f_leader_timeout : Duration;
  f_certification_timeout : Duration;
  f_timeout_retry : Duration;
  f_fetch_timeout : Duration;
  f_view_retention : Z;
  f_skip_timeout : Duration;
  f_term_length : Z;
  f_stall_timeout : Duration;
}.

Definition config_with (f : Fields) : ConsensusConfig :=
  let d := default_config in {|
    mailbox_size := f_mailbox_size f;
    leader_timeout := f_leader_timeout f;
    certification_timeout := f_certification_timeout f;
    timeout_retry := f_timeout_retry f;
    fetch_timeout := f_fetch_timeout f;
    view_retention := f_view_retention f;
    skip_timeout := f_skip_timeout f;
    term_length := f_term_length f;
    stall_timeout := f_stall_timeout f;
    optimistic_views := optimistic_views d;
    track_historical_votes := track_historical_votes d;
    forwarding_policy := forwarding_policy d;
    replay_buffer_size := replay_buffer_size d;
    write_buffer_size := write_buffer_size d;
    page_cache_pages := page_cache_pages d;
    page_cache_capacity := page_cache_capacity d;
    partition := partition d;
    strict_startup := strict_startup d |}.

Definition passes (c : ConsensusConfig) : bool := is_ok (validate (λ _, EmptyString) c).

Definition defaults_are_valid : bool := passes default_config.

Definition rejects_ordering_violations : bool :=
  forallb (λ f, negb (passes (config_with f)))
    [mk_Fields 1024 (from_secs 2) (from_secs 4) (from_secs 1) (from_secs 2) 10 (from_millis 5) 1
       (from_secs 8);
     mk_Fields 1024 (from_secs 2) (from_secs 2) (from_secs 1) (from_secs 2) 10 (from_secs 5) 1
       (from_secs 8);
     mk_Fields 1024 (from_secs 2) (from_secs 4) (from_secs 9) (from_secs 2) 10 (from_secs 5) 1
       (from_secs 8)].

Definition stall_timeout_only_checked_for_multi_view_terms : bool :=
  let short_stall term := config_with
    (mk_Fields 1024 (from_secs 2) (from_secs 4) (from_secs 1) (from_secs 2) 10 (from_secs 5) term
       (from_millis 1)) in
  passes (short_stall 1) && negb (passes (short_stall 4)).

Definition rejects_zero_values : bool :=
  forallb (λ f, negb (passes (config_with f)))
    [mk_Fields 0 (from_secs 2) (from_secs 4) (from_secs 1) (from_secs 2) 10 (from_secs 5) 1
       (from_secs 8);
     mk_Fields 1024 (from_secs 2) (from_secs 4) (from_secs 1) (from_secs 2) 0 (from_secs 5) 1
       (from_secs 8);
     mk_Fields 1024 (from_secs 2) (from_secs 4) (from_secs 1) 0 10 (from_secs 5) 1 (from_secs 8);
     mk_Fields 1024 (from_secs 2) (from_secs 4) (from_secs 1) (from_secs 2) 10 (from_secs 5) 0
       (from_secs 8)].

(** The fields the tests leave alone have their defaults. *)
Definition default_fields : Fields :=
  mk_Fields 1024 (from_secs 2) (from_secs 4) (from_secs 1) (from_secs 2) 10 (from_secs 5) 1
    (from_secs 8).

(** ** crates/consensus/src/executor.rs *)

Definition attrs_are_valid_for_cancun : bool :=
  let attrs := build_payload_attributes B256_ZERO 1000000 in
  match withdrawals attrs with Some [] => true | _ => false end &&
  is_some (attr_parent_beacon_block_root attrs) &&
  negb (is_some (attr_slot_number attrs)) && negb (is_some (target_gas_limit attrs)) &&
  (attr_timestamp attrs =? 1000000) && bool_decide (prev_randao attrs = B256_ZERO) &&
  bool_decide (suggested_fee_recipient attrs = Address_ZERO).

(** ** crates/primitives/src/digest.rs, header.rs *)

Definition digest_size : bool := bool_decide (SIZE = 32%nat).
Definition digest_empty : bool := bool_decide (EMPTY = mk_Digest B256_ZERO).

(** The inner header is a hash here. *)
Definition header_rlp (h : AllegroHeader B256) : bool :=
  match header_decode (header_encode h) with
  | Ok (decoded, _) =>
    bool_decide (inner h = inner decoded) &&
    bool_decide (timestamp_millis h = timestamp_millis decoded) &&
    bool_decide (consensus_context h = consensus_context decoded)
  | Err _ => false
  end.

Definition header_rlp_roundtrip_with_context : bool :=
  header_rlp (mk_AllegroHeader (B256_repeat Byte.x2a) 1700000000123
    (Some (mk_Context 1 5 4 (mk_ProposerKey (B256_repeat Byte.xab))))).

Definition header_rlp_roundtrip_without_context : bool :=
  header_rlp (mk_AllegroHeader B256_ZERO 0 None).

(** ** xtask/src/main.rs *)

(** A run of the generator in an empty file system. *)
Definition run_in_tempdir (validators : string) (base_port : Z) :
    Result unit string * list string * gmap string string :=
  genesis_run sample_account (mk_GenesisCmd validators base_port 1337 "tmp")
    (∅ : gmap string string).

Definition xtask_rejects_base_port_overflow : bool :=
  err_contains "exceeds the max port" (run_in_tempdir "2" 65535).1.1.

(** The ["validators"] of the genesis file a run left. *)
Definition validators_of (fs : gmap string string) : option (list ValidatorFileEntry) :=
  match fs_read fs "tmp/genesis.json" with
  | Ok content =>
    match json_parse content with
    | Ok value =>
      match (json_remove "validators" value).1 with
      | Some v => match json_entries v with Ok l => Some l | Err _ => None end
      | None => None
      end
    | Err _ => None
    end
  | Err _ => None
  end.

Definition genesis_of (fs : gmap string string) : option Genesis :=
  match fs_read fs "tmp/genesis.json" with
  | Ok content =>
    match json_parse content with
    | Ok value =>
      match json_genesis (json_remove "validators" value).2 with
      | Ok g => Some g | Err _ => None end
    | Err _ => None
    end
  | Err _ => None
  end.

Definition ingresses (vs : option (list ValidatorFileEntry)) : list string :=
  match vs with Some l => map vf_ingress l | None => [] end.

(** What a run with the validators given by their sockets leaves. *)
Definition sockets_run : Result unit string * list string * gmap string string :=
  run_in_tempdir "127.0.0.1:8000,127.0.0.1:8010" 13000.

Definition lists (expected : list string) (fs : gmap string string) : bool :=
  bool_decide (ingresses (validators_of fs) = expected).

Definition xtask_accepts_explicit_validator_sockets : bool :=
  is_ok sockets_run.1.1 && lists ["127.0.0.1:8000"; "127.0.0.1:8010"] sockets_run.2.

Definition count_run : Result unit string * list string * gmap string string :=
  run_in_tempdir "2" 13000.

(** The genesis file parses with the fields the test names. *)
Definition valid_genesis (fs : gmap string string) : bool :=
  match genesis_of fs with
  | Some g =>
    (chain_id (config g) =? 1337) &&
    match shanghai_time (config g) with Some t => t =? 0 | None => false end &&
    bool_decide (size (alloc g) = PREFUND_COUNT)
  | None => false
  end.

Definition xtask_generates_valid_json : bool :=
  is_ok count_run.1.1 && valid_genesis count_run.2 &&
  (length (ingresses (validators_of count_run.2)) =? 2)%nat.

(** ** All of them pass *)

Example block_tests_pass : block_codec_roundtrip = true.
Proof. vm_compute. reflexivity. Qed.

Example config_tests_pass :
  defaults_are_valid && rejects_ordering_violations &&
  stall_timeout_only_checked_for_multi_view_terms && rejects_zero_values = true.
Proof. vm_compute. reflexivity. Qed.

Example default_fields_are_defaults : config_with default_fields = default_config.
Proof. reflexivity. Qed.

Example executor_tests_pass : attrs_are_valid_for_cancun = true.
Proof. vm_compute. reflexivity. Qed.

Example digest_tests_pass : digest_size && digest_empty = true.
Proof. vm_compute. reflexivity. Qed.

Example header_tests_pass :
  header_rlp_roundtrip_with_context && header_rlp_roundtrip_without_context = true.
Proof. vm_compute. reflexivity. Qed.

Example xtask_rejections_pass : xtask_rejects_base_port_overflow = true.
Proof. vm_compute. reflexivity. Qed.

Example xtask_sockets_pass : xtask_accepts_explicit_validator_sockets = true.
Proof. vm_compute. reflexivity. Qed.

Example xtask_json_pass : xtask_generates_valid_json = true.
Proof. vm_compute. reflexivity. Qed.
